(** * ECSY: a shallow embedding of the entity-component-system core

    The development follows [build/ecsy.module.js] (the bundled ES module):
    [Utils] ([queryKey], [generateUUID]), [ObjectPool], [Entity], [Query]
    and [World].  The older entity manager ([EntityManager.disposeEntity],
    [entityRemoveComponent]) is embedded separately in [Module Manager].
    [EventDispatcher], the identifier generator of the remote devtools and
    the data side of components ([Component], [PropTypes]) follow in modules
    of their own.

    Conventions.
    - JavaScript objects live in heaps (lists indexed by reference); a
      reference is the index at which the object was allocated.
    - JavaScript objects used as dictionaries are association lists kept in
      insertion order (the order [for ... in] visits string keys).
    - The dictionaries of the code are plain objects ([{}]), so a read
      [o[k]] under a key that is no own property of [o] finds the members
      every object inherits from [Object.prototype] ([toString],
      [constructor], ...); [JS.inherited] lists these names.
      [World_registerComponent], [World_getComponentPool] (and with it
      [Entity_addComponent]) and the guard of [World_onComponentAdded]
      follow the code on such names.  The other reads ([queries[key]] in
      [World_getQuery]; [components[name]] and [_componentsToRemove[name]]
      in the methods of an entity) are reads of own properties: these
      definitions stand for the code on keys and class names for which
      [JS.inherited] is [false], and the theorems that depend on it say so.
    - A method is a state transformer on [World] that either returns a value
      or throws; a throw keeps the mutations made before it. *)

From Stdlib Require Import ZArith List String Ascii Bool Lia Sorting.Permutation.
From stdpp Require Import base option list strings gmap.

Import ListNotations.
Local Open Scope string_scope.
Local Open Scope list_scope.
Local Open Scope Z_scope.

(* ===================================================================== *)
(** * JavaScript arrays and dictionaries *)
(* ===================================================================== *)

Module JS.

Section Arrays.
Context {A : Type} `{EqDecision A}.

  (** [Array.prototype.indexOf]: first index holding [x], or [-1]. *)
Fixpoint indexOf_from (i : Z) (l : list A) (x : A) : Z :=
    match l with
    | [] => -1
    | y :: l' => if decide (y = x) then i else indexOf_from (i + 1) l' x
    end.

Definition indexOf (l : list A) (x : A) : Z := indexOf_from 0 l x.

  (** [~index] is truthy exactly when [index] is not [-1]. *)
Definition tilde (i : Z) : bool := negb (i =? -1).

Definition includes (l : list A) (x : A) : bool := tilde (indexOf l x).

  (** [Array.prototype.splice(start, 1)].  A negative [start] counts from the
      end of the array (so [splice(-1, 1)] drops the last element); a start
      beyond the end removes nothing. *)
Definition splice1 (start : Z) (l : list A) : list A :=
    let len := Z.of_nat (length l) in
    let s := if start <? 0 then Z.max (len + start) 0 else Z.min start len in
    take (Z.to_nat s) l ++ drop (S (Z.to_nat s)) l.

  (** [Array.prototype.push]. *)
Definition push (l : list A) (x : A) : list A := l ++ [x].

  (** [Array.prototype.pop]: the last element ([None] is [undefined]) and
      the shortened array. *)
Definition pop (l : list A) : option A * list A :=
    (last l, removelast l).
End Arrays.

(** A JavaScript object used as a dictionary with string keys. *)
Definition obj (V : Type) : Type := list (string * V).

Section Objects.
Context {V : Type}.

  (** [o[k]]; [None] when the property is missing. *)
Fixpoint get (o : obj V) (k : string) : option V :=
    match o with
    | [] => None
    | (k', v) :: o' => if decide (k' = k) then Some v else get o' k
    end.

  (** [o[k] = v]: an existing property keeps its place, a new one is added
      last. *)
Fixpoint set (o : obj V) (k : string) (v : V) : obj V :=
    match o with
    | [] => [(k, v)]
    | (k', v') :: o' =>
        if decide (k' = k) then (k', v) :: o' else (k', v') :: set o' k v
    end.

  (** [delete o[k]]. *)
Fixpoint del (o : obj V) (k : string) : obj V :=
    match o with
    | [] => []
    | (k', v') :: o' =>
        if decide (k' = k) then del o' k else (k', v') :: del o' k
    end.

Definition keys (o : obj V) : list string := map fst o.

End Objects.

(** [o[k]] on a dictionary whose slots may hold [undefined]: a missing
    property and a property holding [undefined] read the same. *)
Definition read {V} (o : obj (option V)) (k : string) : option V :=
  match get o k with Some v => v | None => None end.

(** Truthiness of "an object or [undefined]". *)
Definition truthy {V} (v : option V) : bool :=
  match v with Some _ => true | None => false end.

(** The properties of [Object.prototype]: what [({})[k]] finds for a key
    [k] that the object does not own.  All of them are functions, except
    [__proto__], which reads [Object.prototype] itself; each is truthy and
    none has a method [acquire]. *)
Definition prototypeMembers : list string :=
  ["constructor"; "__defineGetter__"; "__defineSetter__"; "hasOwnProperty";
   "__lookupGetter__"; "__lookupSetter__"; "isPrototypeOf";
   "propertyIsEnumerable"; "toString"; "valueOf"; "__proto__";
   "toLocaleString"].

Definition inherited (k : string) : bool :=
  existsb (String.eqb k) prototypeMembers.

End JS.

(* ===================================================================== *)
(** * Utils.js *)
(* ===================================================================== *)

Module Utils.

(** [Number.prototype.toString(16)] on a non-negative integer. *)
Definition hexDigit (n : Z) : ascii :=
  nth (Z.to_nat n) (list_ascii_of_string "0123456789abcdef") "0"%char.

Fixpoint toString16_go (fuel : nat) (n : Z) (acc : string) : string :=
  match fuel with
  | O => acc
  | S fuel' =>
      let acc' := String (hexDigit (n mod 16)) acc in
      if n / 16 =? 0 then acc' else toString16_go fuel' (n / 16) acc'
  end.

Definition toString16 (n : Z) : string :=
  toString16_go (S (Z.to_nat (Z.log2 n))) n "".

(** [for (let i = 0; i < 256; i++) _lut[i] = (i < 16 ? "0" : "") + i.toString(16)] *)
Definition _lut : list string :=
  map (fun i : nat =>
         let i := Z.of_nat i in
         (if i <? 16 then "0" else "") +:+ toString16 i)
      (seq 0 256).

(** [_lut[i]] used in a string concatenation: a missing slot reads
    [undefined], which concatenates as the text "undefined". *)
Definition lut (i : Z) : string :=
  if i <? 0 then "undefined" else nth (Z.to_nat i) _lut "undefined".

(** [String.prototype.toUpperCase] on ASCII text. *)
Definition upperChar (c : ascii) : ascii :=
  let n := nat_of_ascii c in
  if ((97 <=? n) && (n <=? 122))%nat then ascii_of_nat (n - 32) else c.

Fixpoint toUpperCase (s : string) : string :=
  match s with
  | EmptyString => EmptyString
  | String c s' => String (upperChar c) (toUpperCase s')
  end.

(** [x | 0]: conversion to a signed 32-bit integer. *)
Definition toInt32 (x : Z) : Z := (x + 2 ^ 31) mod 2 ^ 32 - 2 ^ 31.

(** [generateUUID], as a function of the four 32-bit values
    [d0 .. d3 = Math.random() * 0xffffffff | 0].  [>>] is the arithmetic
    shift and binds tighter than [&], which binds tighter than [|]. *)
Definition uuidOfWords (d0 d1 d2 d3 : Z) : string :=
  let uuid :=
    lut (Z.land d0 255) +:+ lut (Z.land (Z.shiftr d0 8) 255) +:+
     lut (Z.land (Z.shiftr d0 16) 255) +:+ lut (Z.land (Z.shiftr d0 24) 255) +:+ "-" +:+
     lut (Z.land d1 255) +:+ lut (Z.land (Z.shiftr d1 8) 255) +:+ "-" +:+
     lut (Z.lor (Z.land (Z.shiftr d1 16) 15) 64) +:+
     lut (Z.land (Z.shiftr d1 24) 255) +:+ "-" +:+
     lut (Z.lor (Z.land d2 63) 128) +:+ lut (Z.land (Z.shiftr d2 8) 255) +:+ "-" +:+
     lut (Z.land (Z.shiftr d2 16) 255) +:+ lut (Z.land (Z.shiftr d2 24) 255) +:+
     lut (Z.land d3 255) +:+ lut (Z.land (Z.shiftr d3 8) 255) +:+
     lut (Z.land (Z.shiftr d3 16) 255) +:+ lut (Z.land (Z.shiftr d3 24) 255)
  in toUpperCase uuid.

(** The random source: [random n] is the value of
    [Math.random() * 0xffffffff] at the [n]-th call, before [| 0]. *)
Definition generateUUID (random : nat -> Z) (calls : nat) : string * nat :=
  let d0 := toInt32 (random calls) in
  let d1 := toInt32 (random (calls + 1)%nat) in
  let d2 := toInt32 (random (calls + 2)%nat) in
  let d3 := toInt32 (random (calls + 3)%nat) in
  (uuidOfWords d0 d1 d2 d3, (calls + 4)%nat).

End Utils.

(* ===================================================================== *)
(** * The object model of [build/ecsy.module.js] *)
(* ===================================================================== *)

(** A component class (a constructor function).  Arrays of classes are
    searched by identity ([indexOf]); dictionaries are keyed by the class
    [name], and two different classes may carry the same name. *)
Record ComponentClass := {
  name : string;
  classId : nat;
  isSystemStateComponent : bool
}.

#[global] Instance ComponentClass_eq_dec : EqDecision ComponentClass.
Proof. solve_decision. Defined.

(** An entry of the array given to [getQuery]: a bare class (whose [typeof]
    is "function") or an object [{ operator, Component }]. *)
Inductive QueryTerm :=
| Bare (T : ComponentClass)
| Op (operator : string) (T : ComponentClass).

(** [function Not(Component) { return { operator: "not", Component } }] *)
Definition Not (T : ComponentClass) : QueryTerm := Op "not" T.

(** References into the stores. *)
Abbreviation EntityRef := nat (only parsing).
Abbreviation QueryRef := nat (only parsing).
Abbreviation PoolRef := nat (only parsing).

(** A component instance.  Field values play no part in the registry and are
    left out: an instance is its identity, its class ([this.constructor])
    and the back-pointer [_pool] to the pool that produced it. *)
Record Component := {
  instanceId : nat;
  constructor_ : ComponentClass;
  component_pool : option PoolRef
}.

#[global] Instance Component_eq_dec : EqDecision Component.
Proof. solve_decision. Defined.

(** The [props] argument of [addComponent]: only its presence matters here
    (the values go to [Component.copy], which writes fields). *)
Variant Props := SuppliedProps.

Module Entity.
  (** The fields set by the [Entity] constructor, and [_pool], which
      [ObjectPool.expand] adds to every clone.  A dictionary slot may hold
      [undefined] ([None]). *)
Record t := mk {
    uuid : string;
    componentTypes : list ComponentClass;
    components : JS.obj (option Component);
    _componentsToRemove : JS.obj (option Component);
    queries : list QueryRef;
    _componentTypesToRemove : list ComponentClass;
    alive : bool;
    _numSystemStateComponents : Z;
    _pool : option PoolRef
  }.

Definition with_uuid v e := mk v (componentTypes e) (components e) (_componentsToRemove e) (queries e) (_componentTypesToRemove e) (alive e) (_numSystemStateComponents e) (_pool e).
Definition with_componentTypes v e := mk (uuid e) v (components e) (_componentsToRemove e) (queries e) (_componentTypesToRemove e) (alive e) (_numSystemStateComponents e) (_pool e).
Definition with_components v e := mk (uuid e) (componentTypes e) v (_componentsToRemove e) (queries e) (_componentTypesToRemove e) (alive e) (_numSystemStateComponents e) (_pool e).
Definition with__componentsToRemove v e := mk (uuid e) (componentTypes e) (components e) v (queries e) (_componentTypesToRemove e) (alive e) (_numSystemStateComponents e) (_pool e).
Definition with_queries v e := mk (uuid e) (componentTypes e) (components e) (_componentsToRemove e) v (_componentTypesToRemove e) (alive e) (_numSystemStateComponents e) (_pool e).
Definition with__componentTypesToRemove v e := mk (uuid e) (componentTypes e) (components e) (_componentsToRemove e) (queries e) v (alive e) (_numSystemStateComponents e) (_pool e).
Definition with_alive v e := mk (uuid e) (componentTypes e) (components e) (_componentsToRemove e) (queries e) (_componentTypesToRemove e) v (_numSystemStateComponents e) (_pool e).
Definition with__numSystemStateComponents v e := mk (uuid e) (componentTypes e) (components e) (_componentsToRemove e) (queries e) (_componentTypesToRemove e) (alive e) v (_pool e).
Definition with__pool v e := mk (uuid e) (componentTypes e) (components e) (_componentsToRemove e) (queries e) (_componentTypesToRemove e) (alive e) (_numSystemStateComponents e) v.
End Entity.

(** The three event names of [Query.prototype]. *)
Variant EventName := ENTITY_ADDED | ENTITY_REMOVED | COMPONENT_CHANGED.

Module Query.
  (** [eventDispatcher] is represented by the events dispatched so far, oldest
      first ([stats.fired] is their number).  Listeners are installed by
      systems only and append the entity to a per-system bucket; they are not
      part of this model. *)
Record t := mk {
    Components : list ComponentClass;
    NotComponents : list ComponentClass;
    entities : list EntityRef;
    eventDispatcher : list (EventName * EntityRef * option Component);
    reactive : bool;
    key : string
  }.

Definition with_entities v q := mk (Components q) (NotComponents q) v (eventDispatcher q) (reactive q) (key q).
Definition with_eventDispatcher v q := mk (Components q) (NotComponents q) (entities q) v (reactive q) (key q).
End Query.

(** What an [ObjectPool] holds: component instances (a component pool) or
    entities (the world's entity pool). *)
Inductive Item :=
| ItemComponent (c : Component)
| ItemEntity (e : EntityRef).

#[global] Instance Item_eq_dec : EqDecision Item.
Proof. solve_decision. Defined.

Module ObjectPool.
Record t := mk {
    freeList : list Item;
    count : Z;
    baseObject : Item
  }.

Definition with_freeList v p := mk v (count p) (baseObject p).
Definition with_count v p := mk (freeList p) v (baseObject p).

Definition totalSize (p : t) : Z := count p.
Definition totalFree (p : t) : Z := Z.of_nat (length (freeList p)).
Definition totalUsed (p : t) : Z := count p - Z.of_nat (length (freeList p)).
End ObjectPool.

(** A JavaScript number that may be [NaN] ([componentCounts[name]++] on a
    class that was never registered). *)
Variant JSNumber := Num (z : Z) | NaN.

Definition incr (n : option JSNumber) : JSNumber :=
  match n with Some (Num z) => Num (z + 1) | _ => NaN end.
Definition decr (n : option JSNumber) : JSNumber :=
  match n with Some (Num z) => Num (z - 1) | _ => NaN end.

Module World.
  (** The [World] object together with the objects it reaches: the stores
      hold every [Entity], [Query] and [ObjectPool] allocated so far.
      [random]/[randomCalls] stand for [Math.random]; [console] collects the
      [console.warn] messages.  The system manager, [lastTime] and the
      [world-created] notification are outside the model. *)
Record t := mk {
    random : nat -> Z;
    randomCalls : nat;
    nextInstanceId : nat;
    entityStore : list Entity.t;
    queryStore : list Query.t;
    poolStore : list ObjectPool.t;
    console : list string;
    entityPool : PoolRef;
    entities : list EntityRef;
    entitiesByUUID : gmap string EntityRef;
    entitiesWithComponentsToRemove : list EntityRef;
    entitiesToRemove : list EntityRef;
    deferredRemovalEnabled : bool;
    componentTypes : gmap string ComponentClass;
    componentPools : gmap string (option PoolRef);
    componentCounts : gmap string JSNumber;
    queries : JS.obj QueryRef;
    enabled : bool
  }.

Definition with_randomCalls v w := mk (random w) v (nextInstanceId w) (entityStore w) (queryStore w) (poolStore w) (console w) (entityPool w) (entities w) (entitiesByUUID w) (entitiesWithComponentsToRemove w) (entitiesToRemove w) (deferredRemovalEnabled w) (componentTypes w) (componentPools w) (componentCounts w) (queries w) (enabled w).
Definition with_nextInstanceId v w := mk (random w) (randomCalls w) v (entityStore w) (queryStore w) (poolStore w) (console w) (entityPool w) (entities w) (entitiesByUUID w) (entitiesWithComponentsToRemove w) (entitiesToRemove w) (deferredRemovalEnabled w) (componentTypes w) (componentPools w) (componentCounts w) (queries w) (enabled w).
Definition with_entityStore v w := mk (random w) (randomCalls w) (nextInstanceId w) v (queryStore w) (poolStore w) (console w) (entityPool w) (entities w) (entitiesByUUID w) (entitiesWithComponentsToRemove w) (entitiesToRemove w) (deferredRemovalEnabled w) (componentTypes w) (componentPools w) (componentCounts w) (queries w) (enabled w).
Definition with_queryStore v w := mk (random w) (randomCalls w) (nextInstanceId w) (entityStore w) v (poolStore w) (console w) (entityPool w) (entities w) (entitiesByUUID w) (entitiesWithComponentsToRemove w) (entitiesToRemove w) (deferredRemovalEnabled w) (componentTypes w) (componentPools w) (componentCounts w) (queries w) (enabled w).
Definition with_poolStore v w := mk (random w) (randomCalls w) (nextInstanceId w) (entityStore w) (queryStore w) v (console w) (entityPool w) (entities w) (entitiesByUUID w) (entitiesWithComponentsToRemove w) (entitiesToRemove w) (deferredRemovalEnabled w) (componentTypes w) (componentPools w) (componentCounts w) (queries w) (enabled w).
Definition with_console v w := mk (random w) (randomCalls w) (nextInstanceId w) (entityStore w) (queryStore w) (poolStore w) v (entityPool w) (entities w) (entitiesByUUID w) (entitiesWithComponentsToRemove w) (entitiesToRemove w) (deferredRemovalEnabled w) (componentTypes w) (componentPools w) (componentCounts w) (queries w) (enabled w).
Definition with_entities v w := mk (random w) (randomCalls w) (nextInstanceId w) (entityStore w) (queryStore w) (poolStore w) (console w) (entityPool w) v (entitiesByUUID w) (entitiesWithComponentsToRemove w) (entitiesToRemove w) (deferredRemovalEnabled w) (componentTypes w) (componentPools w) (componentCounts w) (queries w) (enabled w).
Definition with_entitiesByUUID v w := mk (random w) (randomCalls w) (nextInstanceId w) (entityStore w) (queryStore w) (poolStore w) (console w) (entityPool w) (entities w) v (entitiesWithComponentsToRemove w) (entitiesToRemove w) (deferredRemovalEnabled w) (componentTypes w) (componentPools w) (componentCounts w) (queries w) (enabled w).
Definition with_entitiesWithComponentsToRemove v w := mk (random w) (randomCalls w) (nextInstanceId w) (entityStore w) (queryStore w) (poolStore w) (console w) (entityPool w) (entities w) (entitiesByUUID w) v (entitiesToRemove w) (deferredRemovalEnabled w) (componentTypes w) (componentPools w) (componentCounts w) (queries w) (enabled w).
Definition with_entitiesToRemove v w := mk (random w) (randomCalls w) (nextInstanceId w) (entityStore w) (queryStore w) (poolStore w) (console w) (entityPool w) (entities w) (entitiesByUUID w) (entitiesWithComponentsToRemove w) v (deferredRemovalEnabled w) (componentTypes w) (componentPools w) (componentCounts w) (queries w) (enabled w).
Definition with_componentTypes v w := mk (random w) (randomCalls w) (nextInstanceId w) (entityStore w) (queryStore w) (poolStore w) (console w) (entityPool w) (entities w) (entitiesByUUID w) (entitiesWithComponentsToRemove w) (entitiesToRemove w) (deferredRemovalEnabled w) v (componentPools w) (componentCounts w) (queries w) (enabled w).
Definition with_componentPools v w := mk (random w) (randomCalls w) (nextInstanceId w) (entityStore w) (queryStore w) (poolStore w) (console w) (entityPool w) (entities w) (entitiesByUUID w) (entitiesWithComponentsToRemove w) (entitiesToRemove w) (deferredRemovalEnabled w) (componentTypes w) v (componentCounts w) (queries w) (enabled w).
Definition with_componentCounts v w := mk (random w) (randomCalls w) (nextInstanceId w) (entityStore w) (queryStore w) (poolStore w) (console w) (entityPool w) (entities w) (entitiesByUUID w) (entitiesWithComponentsToRemove w) (entitiesToRemove w) (deferredRemovalEnabled w) (componentTypes w) (componentPools w) v (queries w) (enabled w).
Definition with_queries v w := mk (random w) (randomCalls w) (nextInstanceId w) (entityStore w) (queryStore w) (poolStore w) (console w) (entityPool w) (entities w) (entitiesByUUID w) (entitiesWithComponentsToRemove w) (entitiesToRemove w) (deferredRemovalEnabled w) (componentTypes w) (componentPools w) (componentCounts w) v (enabled w).
Definition with_enabled v w := mk (random w) (randomCalls w) (nextInstanceId w) (entityStore w) (queryStore w) (poolStore w) (console w) (entityPool w) (entities w) (entitiesByUUID w) (entitiesWithComponentsToRemove w) (entitiesToRemove w) (deferredRemovalEnabled w) (componentTypes w) (componentPools w) (componentCounts w) (queries w) v.
End World.

(* ===================================================================== *)
(** * Methods as state transformers *)
(* ===================================================================== *)

(** The result of a call: a returned value, a JavaScript exception, or
    [Stuck] when the model itself cannot continue (a reference that was
    never allocated, a loop bound that was too small).  [Stuck] does not
    arise on worlds built by the operations below. *)
Inductive Outcome (A : Type) :=
| Ret (a : A)
| Throw (msg : string)
| Stuck (why : string).
Arguments Ret {A} a.
Arguments Throw {A} msg.
Arguments Stuck {A} why.

(** A method over a state [S]: the outcome and the state it leaves. *)
Definition StateM (S A : Type) : Type := S -> Outcome A * S.

Definition ret {S A} (a : A) : StateM S A := fun w => (Ret a, w).
Definition throw {S A} (msg : string) : StateM S A := fun w => (Throw msg, w).
Definition stuck {S A} (why : string) : StateM S A := fun w => (Stuck why, w).

Definition bind {S A B} (c : StateM S A) (k : A -> StateM S B) : StateM S B :=
  fun w =>
    match c w with
    | (Ret a, w') => k a w'
    | (Throw msg, w') => (Throw msg, w')
    | (Stuck why, w') => (Stuck why, w')
    end.

Declare Scope js_scope.
Delimit Scope js_scope with js.
Notation "x ← y ; z" := (bind y (fun x => z))
  (at level 20, y at level 100, z at level 200) : js_scope.
Notation "y ;; z" := (bind y (fun _ => z))
  (at level 100, z at level 200, right associativity) : js_scope.
Local Open Scope js_scope.

Definition getState {S} : StateM S S := fun w => (Ret w, w).
Definition modify {S} (f : S -> S) : StateM S unit := fun w => (Ret tt, f w).

(** Conditional statement without an [else]. *)
Definition when {S} (b : bool) (c : StateM S unit) : StateM S unit :=
  if b then c else ret tt.

(** [for] over a snapshot of an array or of the keys of an object. *)
Fixpoint forEach {S A} (l : list A) (body : A -> StateM S unit) : StateM S unit :=
  match l with
  | [] => ret tt
  | x :: l' => body x ;; forEach l' body
  end.

(** The methods of the bundled module act on a [World]. *)
Definition M (A : Type) : Type := StateM World.t A.

Definition getWorld : M World.t := getState.

(** ** The stores *)

Definition readEntity (e : EntityRef) : M Entity.t :=
  fun w => match World.entityStore w !! e with
           | Some x => (Ret x, w)
           | None => (Stuck "entity reference", w)
           end.

Definition updateEntity (e : EntityRef) (f : Entity.t -> Entity.t) : M unit :=
  x ← readEntity e;
  modify (fun w => World.with_entityStore (<[e := f x]> (World.entityStore w)) w).

Definition readQuery (q : QueryRef) : M Query.t :=
  fun w => match World.queryStore w !! q with
           | Some x => (Ret x, w)
           | None => (Stuck "query reference", w)
           end.

Definition updateQuery (q : QueryRef) (f : Query.t -> Query.t) : M unit :=
  x ← readQuery q;
  modify (fun w => World.with_queryStore (<[q := f x]> (World.queryStore w)) w).

Definition readPool (p : PoolRef) : M ObjectPool.t :=
  fun w => match World.poolStore w !! p with
           | Some x => (Ret x, w)
           | None => (Stuck "pool reference", w)
           end.

Definition updatePool (p : PoolRef) (f : ObjectPool.t -> ObjectPool.t) : M unit :=
  x ← readPool p;
  modify (fun w => World.with_poolStore (<[p := f x]> (World.poolStore w)) w).

Definition allocEntity (x : Entity.t) : M EntityRef :=
  fun w => (Ret (length (World.entityStore w)),
            World.with_entityStore (World.entityStore w ++ [x]) w).

Definition allocQuery (x : Query.t) : M QueryRef :=
  fun w => (Ret (length (World.queryStore w)),
            World.with_queryStore (World.queryStore w ++ [x]) w).

Definition allocPool (x : ObjectPool.t) : M PoolRef :=
  fun w => (Ret (length (World.poolStore w)),
            World.with_poolStore (World.poolStore w ++ [x]) w).

Definition freshInstanceId : M nat :=
  fun w => (Ret (World.nextInstanceId w),
            World.with_nextInstanceId (S (World.nextInstanceId w)) w).

Definition console_warn (msg : string) : M unit :=
  modify (fun w => World.with_console (World.console w ++ [msg]) w).

(** [generateUUID()] against the world's random source. *)
Definition generateUUID : M string :=
  fun w =>
    let '(s, n) := Utils.generateUUID (World.random w) (World.randomCalls w) in
    (Ret s, World.with_randomCalls n w).

(* ===================================================================== *)
(** * Utils.queryKey *)
(* ===================================================================== *)

(** [Array.prototype.sort()] without a comparator orders strings by their
    code units; on a total order every sorting algorithm returns the same
    array, so insertion sort stands for it. *)
Fixpoint insertSorted (s : string) (l : list string) : list string :=
  match l with
  | [] => [s]
  | x :: l' => if String.leb s x then s :: l else x :: insertSorted s l'
  end.

Definition sort (l : list string) : list string := foldr insertSorted [] l.

(** [Array.prototype.join(sep)]. *)
Fixpoint join (sep : string) (l : list string) : string :=
  match l with
  | [] => ""
  | [x] => x
  | x :: l' => x +:+ sep +:+ join sep l'
  end.

Definition termName (T : QueryTerm) : string :=
  match T with
  | Op operator C =>
      (if decide (operator = "not") then "!" else operator) +:+ name C
  | Bare C => name C
  end.

Definition queryKey (Components : list QueryTerm) : string :=
  join "-" (sort (map termName Components)).

(* ===================================================================== *)
(** * Component, Entity (read-only part) *)
(* ===================================================================== *)

(** [new Component(props)] for the class [T]: a fresh instance, [_pool = null]. *)
Definition Component_new (T : ComponentClass) (props : option Props) : M Component :=
  i ← freshInstanceId;
  ret {| instanceId := i; constructor_ := T; component_pool := None |}.

(** [clone() { return new this.constructor().copy(this); }] *)
Definition Component_clone (c : Component) : M Component :=
  Component_new (constructor_ c) None.

Definition Entity_hasRemovedComponent (e : Entity.t) (T : ComponentClass) : bool :=
  JS.tilde (JS.indexOf (Entity._componentTypesToRemove e) T).

Definition Entity_hasComponent (e : Entity.t) (T : ComponentClass)
    (includeRemoved : bool) : bool :=
  JS.tilde (JS.indexOf (Entity.componentTypes e) T)
  || (includeRemoved && Entity_hasRemovedComponent e T).

Fixpoint Entity_hasAllComponents (e : Entity.t) (Ts : list ComponentClass) : bool :=
  match Ts with
  | [] => true
  | T :: Ts' =>
      if negb (Entity_hasComponent e T false) then false
      else Entity_hasAllComponents e Ts'
  end.

Fixpoint Entity_hasAnyComponents (e : Entity.t) (Ts : list ComponentClass) : bool :=
  match Ts with
  | [] => false
  | T :: Ts' =>
      if Entity_hasComponent e T false then true
      else Entity_hasAnyComponents e Ts'
  end.

Definition Entity_getComponent (e : Entity.t) (T : ComponentClass)
    (includeRemoved : bool) : option Component :=
  let component := JS.read (Entity.components e) (name T) in
  if negb (JS.truthy component) && includeRemoved
  then JS.read (Entity._componentsToRemove e) (name T)
  else component.

Definition Entity_getRemovedComponent (e : Entity.t) (T : ComponentClass)
    : option Component :=
  JS.read (Entity._componentsToRemove e) (name T).

(** [new Entity(world)] *)
Definition Entity_new : M EntityRef :=
  u ← generateUUID;
  allocEntity (Entity.mk u [] [] [] [] [] false 0 None).

(** [copy(source)]: every component of [source] is cloned into [this] and
    its class is pushed on [componentTypes]. *)
Definition Entity_copy (this source : EntityRef) : M EntityRef :=
  src ← readEntity source;
  forEach (JS.keys (Entity.components src)) (fun componentName =>
    s ← readEntity source;
    match JS.read (Entity.components s) componentName with
    | None => throw "TypeError: sourceComponent is undefined"
    | Some sourceComponent =>
        c ← Component_clone sourceComponent;
        updateEntity this (fun e =>
          Entity.with_components
            (JS.set (Entity.components e) componentName (Some c)) e);;
        updateEntity this (fun e =>
          Entity.with_componentTypes
            (JS.push (Entity.componentTypes e) (constructor_ sourceComponent)) e)
    end);;
  ret this.

(** [clone() { return new this.constructor(this.world).copy(this); }] *)
Definition Entity_clone (this : EntityRef) : M EntityRef :=
  n ← Entity_new;
  Entity_copy n this.

(* ===================================================================== *)
(** * ObjectPool *)
(* ===================================================================== *)

(** [item.clone()], [clone._pool = pool] and [item.copy(base)] dispatch on
    what the item is.  [Component.copy] only writes fields, and
    [Entity.copy] of something without a [components] dictionary visits
    nothing. *)
Definition Item_clone (it : Item) : M Item :=
  match it with
  | ItemComponent c => c' ← Component_clone c; ret (ItemComponent c')
  | ItemEntity e => e' ← Entity_clone e; ret (ItemEntity e')
  end.

Definition Item_set_pool (it : Item) (p : PoolRef) : M Item :=
  match it with
  | ItemComponent c =>
      ret (ItemComponent {| instanceId := instanceId c;
                            constructor_ := constructor_ c;
                            component_pool := Some p |})
  | ItemEntity e => updateEntity e (Entity.with__pool (Some p));; ret it
  end.

(** [item.copy(this.baseObject)], the reset that [release] applies to the
    item handed back.  For an entity it is [Entity_copy].  For a component
    it rewrites the schema fields of the instance from the base object;
    these fields are not part of [World] (a [Component] record carries the
    identity, the class and the pool of an instance), so on [World] nothing
    changes.  [ComponentData.Component_copy] is the copy on the fields. *)
Definition Item_copy (it base : Item) : M unit :=
  match it, base with
  | ItemEntity e, ItemEntity b => Entity_copy e b;; ret tt
  | _, _ => ret tt
  end.

(** [Math.round(count * 0.2)] for a count of at most [2 ^ 50] in absolute
    value ([roundingExact]).  [count / 5] is never half-way between two
    integers (that would make [2 * count] odd) and sits at least [0.1] away
    from the nearest half.  The double nearest to [0.2] exceeds it by
    [0.2 * 2 ^ -54] and the product is rounded once more, so the double
    [count * 0.2] is within [|count| * 2 ^ -54] of [count / 5]: less than
    [0.1] in that range, and [Math.round] gives
    [floor (count / 5 + 1 / 2)].  For larger counts (from about
    [5.6 * 10 ^ 15]) the product can land on the other side of a half and
    the code rounds differently; the theorems on the growth of a pool are
    stated within the range. *)
Definition Math_round_fifth (count : Z) : Z := (2 * count + 5) / 10.

(** The counts on which [Math_round_fifth] is the code's rounding. *)
Definition roundingExact (count : Z) : Prop := Z.abs count <= 2 ^ 50.

Definition ObjectPool_expand (p : PoolRef) (count : Z) : M unit :=
  forEach (seq 0 (Z.to_nat count)) (fun _ =>
    pool ← readPool p;
    clone ← Item_clone (ObjectPool.baseObject pool);
    clone ← Item_set_pool clone p;
    updatePool p (fun pool =>
      ObjectPool.with_freeList (JS.push (ObjectPool.freeList pool) clone) pool));;
  updatePool p (fun pool => ObjectPool.with_count (ObjectPool.count pool + count) pool).

(** [new ObjectPool(baseObject, initialSize)] *)
Definition ObjectPool_new (baseObject : Item) (initialSize : option Z) : M PoolRef :=
  p ← allocPool (ObjectPool.mk [] 0 baseObject);
  match initialSize with
  | Some n => ObjectPool_expand p n
  | None => ret tt
  end;;
  ret p.

(** [acquire()]; [None] is the [undefined] that [pop] gives on an empty array. *)
Definition ObjectPool_acquire (p : PoolRef) : M (option Item) :=
  pool ← readPool p;
  when (Z.of_nat (length (ObjectPool.freeList pool)) <=? 0)
       (ObjectPool_expand p (Math_round_fifth (ObjectPool.count pool) + 1));;
  pool ← readPool p;
  let '(item, rest) := JS.pop (ObjectPool.freeList pool) in
  updatePool p (ObjectPool.with_freeList rest);;
  ret item.

Definition ObjectPool_release (p : PoolRef) (item : Item) : M unit :=
  pool ← readPool p;
  Item_copy item (ObjectPool.baseObject pool);;
  updatePool p (fun pool =>
    ObjectPool.with_freeList (JS.push (ObjectPool.freeList pool) item) pool).

(** [Component.dispose() { if (this._pool) this._pool.release(this); }] *)
Definition Component_dispose (c : Component) : M unit :=
  match component_pool c with
  | Some p => ObjectPool_release p (ItemComponent c)
  | None => ret tt
  end.

(* ===================================================================== *)
(** * Query *)
(* ===================================================================== *)

Definition Query_match (q : Query.t) (e : Entity.t) : bool :=
  Entity_hasAllComponents e (Query.Components q)
  && negb (Entity_hasAnyComponents e (Query.NotComponents q)).

Definition dispatchEvent (q : QueryRef) (eventName : EventName)
    (entity : EntityRef) (component : option Component) : M unit :=
  updateQuery q (fun x =>
    Query.with_eventDispatcher
      (Query.eventDispatcher x ++ [(eventName, entity, component)]) x).

Definition Query_addEntity (q : QueryRef) (entity : EntityRef) : M unit :=
  updateEntity entity (fun e => Entity.with_queries (JS.push (Entity.queries e) q) e);;
  updateQuery q (fun x => Query.with_entities (JS.push (Query.entities x) entity) x);;
  dispatchEvent q ENTITY_ADDED entity None.

Definition Query_removeEntity (q : QueryRef) (entity : EntityRef) : M unit :=
  x ← readQuery q;
  let index := JS.indexOf (Query.entities x) entity in
  when (JS.tilde index) (
    updateQuery q (fun x => Query.with_entities (JS.splice1 index (Query.entities x)) x);;
    e ← readEntity entity;
    let index := JS.indexOf (Entity.queries e) q in
    updateEntity entity (fun e =>
      Entity.with_queries (JS.splice1 index (Entity.queries e)) e);;
    dispatchEvent q ENTITY_REMOVED entity None).

(** The two arrays the constructor fills from its argument. *)
Fixpoint positives (Components : list QueryTerm) : list ComponentClass :=
  match Components with
  | [] => []
  | Bare T :: l => T :: positives l
  | Op _ _ :: l => positives l
  end.

Fixpoint negatives (Components : list QueryTerm) : list ComponentClass :=
  match Components with
  | [] => []
  | Bare _ :: l => negatives l
  | Op _ T :: l => T :: negatives l
  end.

(** [new Query(Components, world)].  The object is entered in the store only
    once the constructor is past its [throw]: an object whose constructor
    threw is unreachable. *)
Definition Query_new (Components : list QueryTerm) : M QueryRef :=
  if (length (positives Components) =? 0)%nat
  then throw "Can't create a query without components"
  else
    q ← allocQuery (Query.mk (positives Components) (negatives Components)
                             [] [] false (queryKey Components));
    w ← getWorld;
    forEach (World.entities w) (fun entity =>
      e ← readEntity entity;
      x ← readQuery q;
      when (Query_match x e) (
        updateEntity entity (fun e =>
          Entity.with_queries (JS.push (Entity.queries e) q) e);;
        updateQuery q (fun x =>
          Query.with_entities (JS.push (Query.entities x) entity) x)));;
    ret q.

(* ===================================================================== *)
(** * World: the callbacks used by entities *)
(* ===================================================================== *)

(** What [componentPools[name]] reads: [undefined], a pool, or, under a
    name the dictionary does not own, a member of [Object.prototype]. *)
Variant PoolSlot := SlotUndefined | SlotPool (p : PoolRef) | SlotInherited.

Definition World_getComponentPool (T : ComponentClass) : M PoolSlot :=
  w ← getWorld;
  ret (match World.componentPools w !! name T with
       | Some (Some p) => SlotPool p
       | Some None => SlotUndefined
       | None => if JS.inherited (name T) then SlotInherited else SlotUndefined
       end).

(** [getQuery(Components)].  [queries[key]] is read as an own property: the
    definition stands for the code on keys for which [JS.inherited] is
    [false] (every key holding ["-"] or ["!"], and every key already
    indexed).  Under a key such as ["toString"], not yet indexed, the code
    returns the member of [Object.prototype] and builds no query. *)
Definition World_getQuery (Components : list QueryTerm) : M QueryRef :=
  let key := queryKey Components in
  w ← getWorld;
  match JS.get (World.queries w) key with
  | Some query => ret query
  | None =>
      query ← Query_new Components;
      modify (fun w => World.with_queries (JS.set (World.queries w) key query) w);;
      ret query
  end.

(** [onComponentAdded(entity, Component)].  The guard reads
    [componentTypes[name]] as [registerComponent] does. *)
Definition World_onComponentAdded (entity : EntityRef) (T : ComponentClass) : M unit :=
  w ← getWorld;
  when (negb (bool_decide (is_Some (World.componentTypes w !! name T))
              || JS.inherited (name T)))
       (console_warn ("Component " +:+ name T +:+ " not registered."));;
  modify (fun w =>
    World.with_componentCounts
      (<[name T := incr (World.componentCounts w !! name T)]> (World.componentCounts w)) w);;
  w ← getWorld;
  forEach (World.queries w) (fun '(queryName, query) =>
    x ← readQuery query;
    e ← readEntity entity;
    if JS.tilde (JS.indexOf (Query.NotComponents x) T)
       && JS.tilde (JS.indexOf (Query.entities x) entity)
    then Query_removeEntity query entity
    else if negb (JS.tilde (JS.indexOf (Query.Components x) T))
            || negb (Query_match x e)
            || JS.tilde (JS.indexOf (Query.entities x) entity)
    then ret tt
    else Query_addEntity query entity).

Definition World_queueComponentRemoval (entity : EntityRef) : M unit :=
  w ← getWorld;
  let index := JS.indexOf (World.entitiesWithComponentsToRemove w) entity in
  when (index =? -1)
       (modify (fun w =>
          World.with_entitiesWithComponentsToRemove
            (JS.push (World.entitiesWithComponentsToRemove w) entity) w)).

Definition World_onRemoveComponent (entity : EntityRef) (T : ComponentClass) : M unit :=
  modify (fun w =>
    World.with_componentCounts
      (<[name T := decr (World.componentCounts w !! name T)]> (World.componentCounts w)) w);;
  w ← getWorld;
  forEach (World.queries w) (fun '(queryName, query) =>
    x ← readQuery query;
    e ← readEntity entity;
    if JS.tilde (JS.indexOf (Query.NotComponents x) T)
       && negb (JS.tilde (JS.indexOf (Query.entities x) entity))
       && Query_match x e
    then Query_addEntity query entity
    else if JS.tilde (JS.indexOf (Query.Components x) T)
            && JS.tilde (JS.indexOf (Query.entities x) entity)
            && negb (Query_match x e)
    then Query_removeEntity query entity
    else ret tt).

Definition World_queueEntityDisposal (entity : EntityRef) : M unit :=
  modify (fun w =>
    World.with_entitiesToRemove (JS.push (World.entitiesToRemove w) entity) w).

Definition World_onDisposeEntity (entity : EntityRef) : M unit :=
  w ← getWorld;
  forEach (World.queries w) (fun '(queryName, query) =>
    e ← readEntity entity;
    when (negb (JS.indexOf (Entity.queries e) query =? -1))
         (Query_removeEntity query entity)).

Definition World_onEntityDisposed (entity : EntityRef) : M unit :=
  e ← readEntity entity;
  w ← getWorld;
  match World.entitiesByUUID w !! Entity.uuid e with
  | None => ret tt
  | Some _ =>
      modify (fun w =>
        World.with_entitiesByUUID (delete (Entity.uuid e) (World.entitiesByUUID w)) w);;
      w ← getWorld;
      let index := JS.indexOf (World.entities w) entity in
      when (negb (index =? -1))
           (modify (fun w =>
              World.with_entities (JS.splice1 index (World.entities w)) w))
  end.

(* ===================================================================== *)
(** * Entity: attachment, detachment, disposal *)
(* ===================================================================== *)

(** [addComponent(Component, props)].  The value returned is the entity
    ([Some this]) or [undefined] ([None], the bare [return]).  A pool
    registered for a component class is taken to hold component instances.
    When [getComponentPool] hands back a member of [Object.prototype], the
    call [componentPool.acquire()] is a call of [undefined]: a [TypeError],
    raised after the class was pushed on the type list. *)
Definition Entity_addComponent (this : EntityRef) (T : ComponentClass)
    (props : option Props) : M (option EntityRef) :=
  e ← readEntity this;
  if JS.tilde (JS.indexOf (Entity.componentTypes e) T) then ret None
  else
    updateEntity this (fun e =>
      Entity.with_componentTypes (JS.push (Entity.componentTypes e) T) e);;
    when (isSystemStateComponent T)
         (updateEntity this (fun e =>
            Entity.with__numSystemStateComponents
              (Entity._numSystemStateComponents e + 1) e));;
    componentPool ← World_getComponentPool T;
    component ← match componentPool with
                | SlotUndefined => c ← Component_new T props; ret (Some c)
                | SlotPool p =>
                    item ← ObjectPool_acquire p;
                    match item with
                    | None => ret None
                    | Some (ItemComponent c) => ret (Some c)
                    | Some (ItemEntity _) => stuck "entity in a component pool"
                    end
                | SlotInherited =>
                    throw "TypeError: componentPool.acquire is not a function"
                end;
    match componentPool, props, component with
    | SlotPool _, Some _, None => throw "TypeError: component is undefined"
    | _, _, _ => ret tt
    end;;
    updateEntity this (fun e =>
      Entity.with_components (JS.set (Entity.components e) (name T) component) e);;
    e ← readEntity this;
    when (Entity.alive e) (World_onComponentAdded this T);;
    ret (Some this).

(** [for (let i = 0; i < this.queries.length; i++) this.queries[i].removeEntity(this)]:
    the array shrinks while it is walked.  It never grows, so a bound of its
    initial length plus one suffices. *)
Fixpoint Entity_dispose_queries (bound : nat) (this : EntityRef) (i : nat) : M unit :=
  match bound with
  | O => stuck "loop bound"
  | S bound' =>
      e ← readEntity this;
      match Entity.queries e !! i with
      | None => ret tt
      | Some q => Query_removeEntity q this;; Entity_dispose_queries bound' this (S i)
      end
  end.

Definition Entity_dispose (this : EntityRef) (immediately : bool) : M unit :=
  e ← readEntity this;
  when (Entity.alive e) (World_onDisposeEntity this);;
  if immediately then
    u ← generateUUID;
    updateEntity this (Entity.with_uuid u);;
    updateEntity this (Entity.with_alive true);;
    e ← readEntity this;
    Entity_dispose_queries (S (length (Entity.queries e))) this 0;;
    e ← readEntity this;
    forEach (JS.keys (Entity.components e)) (fun componentName =>
      e ← readEntity this;
      match JS.read (Entity.components e) componentName with
      | None => throw "TypeError: component is undefined"
      | Some c => Component_dispose c
      end;;
      updateEntity this (fun e =>
        Entity.with_components (JS.del (Entity.components e) componentName) e));;
    e ← readEntity this;
    forEach (JS.keys (Entity._componentsToRemove e)) (fun componentName =>
      updateEntity this (fun e =>
        Entity.with__componentsToRemove
          (JS.del (Entity._componentsToRemove e) componentName) e));;
    updateEntity this (Entity.with_queries []);;
    updateEntity this (Entity.with_componentTypes []);;
    updateEntity this (Entity.with__componentTypesToRemove []);;
    e ← readEntity this;
    match Entity._pool e with
    | Some p => ObjectPool_release p (ItemEntity this)
    | None => ret tt
    end;;
    World_onEntityDisposed this
  else
    updateEntity this (Entity.with_alive false);;
    World_queueEntityDisposal this.

(** [removeComponent(Component, immediately)].  [_componentsToRemove[name]]
    and [components[name]] are read as own properties: the definition stands
    for the code on classes for whose name [JS.inherited] is [false].  For a
    name such as ["toString"] the code finds the member of
    [Object.prototype] in both places. *)
Definition Entity_removeComponent (this : EntityRef) (T : ComponentClass)
    (immediately : bool) : M bool :=
  let componentName := name T in
  e ← readEntity this;
  when (negb (JS.truthy (JS.read (Entity._componentsToRemove e) componentName))) (
    updateEntity this (fun e =>
      Entity.with_components (JS.del (Entity.components e) componentName) e);;
    updateEntity this (fun e =>
      let index := JS.indexOf (Entity.componentTypes e) T in
      Entity.with_componentTypes (JS.splice1 index (Entity.componentTypes e)) e);;
    e ← readEntity this;
    when (Entity.alive e) (World_onRemoveComponent this T));;
  e ← readEntity this;
  let component := JS.read (Entity.components e) componentName in
  (if immediately then
     match component with
     | Some c => Component_dispose c
     | None => ret tt
     end;;
     e ← readEntity this;
     when (JS.truthy (JS.read (Entity._componentsToRemove e) componentName)) (
       updateEntity this (fun e =>
         Entity.with__componentsToRemove
           (JS.del (Entity._componentsToRemove e) componentName) e);;
       e ← readEntity this;
       let index := JS.indexOf (Entity._componentTypesToRemove e) T in
       when (negb (index =? -1))
            (updateEntity this (fun e =>
               Entity.with__componentTypesToRemove
                 (JS.splice1 index (Entity._componentTypesToRemove e)) e)))
   else if Entity.alive e then
     updateEntity this (fun e =>
       Entity.with__componentTypesToRemove
         (JS.push (Entity._componentTypesToRemove e) T) e);;
     updateEntity this (fun e =>
       Entity.with__componentsToRemove
         (JS.set (Entity._componentsToRemove e) componentName component) e);;
     World_queueComponentRemoval this
   else ret tt);;
  when (isSystemStateComponent T) (
    updateEntity this (fun e =>
      Entity.with__numSystemStateComponents
        (Entity._numSystemStateComponents e - 1) e);;
    e ← readEntity this;
    when ((Entity._numSystemStateComponents e =? 0) && negb (Entity.alive e))
         (Entity_dispose this false));;
  ret true.

(** [while (this._componentTypesToRemove.length > 0) { pop; removeComponent(.., true) }]:
    an immediate removal never lengthens the array, so a bound of its
    initial length plus one suffices. *)
Fixpoint Entity_processRemovedComponents_loop (bound : nat) (this : EntityRef) : M unit :=
  match bound with
  | O => stuck "loop bound"
  | S bound' =>
      e ← readEntity this;
      match JS.pop (Entity._componentTypesToRemove e) with
      | (Some T, rest) =>
          updateEntity this (Entity.with__componentTypesToRemove rest);;
          Entity_removeComponent this T true;;
          Entity_processRemovedComponents_loop bound' this
      | (None, _) => ret tt
      end
  end.

Definition Entity_processRemovedComponents (this : EntityRef) : M unit :=
  e ← readEntity this;
  Entity_processRemovedComponents_loop
    (S (length (Entity._componentTypesToRemove e))) this.

(* ===================================================================== *)
(** * World: the public operations *)
(* ===================================================================== *)

(** The second argument of [registerComponent]. *)
Variant PoolArgument := PoolFalse | PoolUndefined | PoolObject (p : PoolRef).

(** [registerComponent(Component, objectPool)].  The guard
    [this.componentTypes[Component.name]] is truthy for a registered name
    and for the name of a member of [Object.prototype]. *)
Definition World_registerComponent (T : ComponentClass) (objectPool : PoolArgument)
    : M unit :=
  w ← getWorld;
  if bool_decide (is_Some (World.componentTypes w !! name T))
     || JS.inherited (name T) then
    console_warn ("Component type: '" +:+ name T +:+ "' already registered.")
  else
    modify (fun w =>
      World.with_componentTypes (<[name T := T]> (World.componentTypes w)) w);;
    modify (fun w =>
      World.with_componentCounts (<[name T := Num 0]> (World.componentCounts w)) w);;
    objectPool ← match objectPool with
                 | PoolFalse => ret None
                 | PoolUndefined =>
                     base ← Component_new T None;
                     p ← ObjectPool_new (ItemComponent base) None;
                     ret (Some p)
                 | PoolObject p => ret (Some p)
                 end;
    modify (fun w =>
      World.with_componentPools (<[name T := objectPool]> (World.componentPools w)) w).

Definition World_createDetachedEntity : M (option EntityRef) :=
  w ← getWorld;
  item ← ObjectPool_acquire (World.entityPool w);
  match item with
  | None => ret None
  | Some (ItemEntity e) => ret (Some e)
  | Some (ItemComponent _) => stuck "component in the entity pool"
  end.

Definition World_addEntity (entity : EntityRef) : M EntityRef :=
  e ← readEntity entity;
  w ← getWorld;
  if bool_decide (is_Some (World.entitiesByUUID w !! Entity.uuid e)) then
    console_warn ("Entity " +:+ Entity.uuid e +:+ " already added.");;
    ret entity
  else
    modify (fun w =>
      World.with_entitiesByUUID (<[Entity.uuid e := entity]> (World.entitiesByUUID w)) w);;
    modify (fun w => World.with_entities (JS.push (World.entities w) entity) w);;
    updateEntity entity (Entity.with_alive true);;
    forEach (Entity.componentTypes e) (fun T => World_onComponentAdded entity T);;
    ret entity.

Definition World_createEntity : M EntityRef :=
  entity ← World_createDetachedEntity;
  match entity with
  | None => throw "TypeError: entity is undefined"
  | Some entity => World_addEntity entity
  end.

(** The end of [World.execute]: with no system to run, a tick is the drain
    of the two deferred queues. *)
Definition World_execute : M unit :=
  w ← getWorld;
  if World.enabled w then
    if negb (World.deferredRemovalEnabled w) then ret tt
    else
      forEach (World.entitiesToRemove w) (fun entity => Entity_dispose entity true);;
      modify (World.with_entitiesToRemove []);;
      w ← getWorld;
      forEach (World.entitiesWithComponentsToRemove w) (fun entity =>
        Entity_processRemovedComponents entity);;
      modify (World.with_entitiesWithComponentsToRemove [])
  else ret tt.

(** [new World()]: the entity pool is built around a fresh base entity. *)
Definition World_new (random : nat -> Z) : Outcome unit * World.t :=
  (base ← Entity_new;
   p ← allocPool (ObjectPool.mk [] 0 (ItemEntity base));
   modify (fun w =>
     World.mk (World.random w) (World.randomCalls w) (World.nextInstanceId w)
              (World.entityStore w) (World.queryStore w) (World.poolStore w)
              (World.console w) p [] ∅ [] [] true ∅ ∅ ∅ [] true))
  (World.mk random 0 0 [] [] [] [] 0%nat [] ∅ [] [] true ∅ ∅ ∅ [] true).

(* ===================================================================== *)
(** * The entity manager ([EntityManager.js], [Entity.js], [ComponentManager.js]) *)
(* ===================================================================== *)

(** The older layout: entities delegate to an [EntityManager], which owns the
    entity list, the deferred queues and (through [componentsManager]) the
    component pools.  [QueryManager.js] and this layout's [ObjectPool.js] are
    not among the sources. *)
Module Manager.

Module Entity.
(** The fields set by the [Entity] constructor of [Entity.js];
    [_entityManager] is either the manager ([true]) or [null] ([false]). *)
Record t := mk {
  id : option string;
  alive : bool;
  _ComponentTypes : list ComponentClass;
  _components : JS.obj (option Component);
  _componentsToRemove : JS.obj (option Component);
  _ComponentTypesToRemove : list ComponentClass;
  _numStateComponents : Z;
  _entityManager : bool
}.

Definition with_alive v e := mk (id e) v (_ComponentTypes e) (_components e) (_componentsToRemove e) (_ComponentTypesToRemove e) (_numStateComponents e) (_entityManager e).
Definition with__ComponentTypes v e := mk (id e) (alive e) v (_components e) (_componentsToRemove e) (_ComponentTypesToRemove e) (_numStateComponents e) (_entityManager e).
Definition with__components v e := mk (id e) (alive e) (_ComponentTypes e) v (_componentsToRemove e) (_ComponentTypesToRemove e) (_numStateComponents e) (_entityManager e).
Definition with__componentsToRemove v e := mk (id e) (alive e) (_ComponentTypes e) (_components e) v (_ComponentTypesToRemove e) (_numStateComponents e) (_entityManager e).
Definition with__ComponentTypesToRemove v e := mk (id e) (alive e) (_ComponentTypes e) (_components e) (_componentsToRemove e) v (_numStateComponents e) (_entityManager e).
Definition with__numStateComponents v e := mk (id e) (alive e) (_ComponentTypes e) (_components e) (_componentsToRemove e) (_ComponentTypesToRemove e) v (_entityManager e).
Definition with__entityManager v e := mk (id e) (alive e) (_ComponentTypes e) (_components e) (_componentsToRemove e) (_ComponentTypesToRemove e) (_numStateComponents e) v.
End Entity.

(** The event names of [EntityManager.js]. *)
Variant EventName := ENTITY_CREATED | ENTITY_REMOVED | COMPONENT_ADDED | COMPONENT_REMOVE.

(** The manager and the entities it reaches.  [_queryManager] is the state
    of the query manager, of an arbitrary type [QM]; [eventDispatcher] is
    the sequence of events dispatched so far. *)
Record t (QM : Type) := mk {
  entityStore : list Entity.t;
  _entities : list EntityRef;
  _queryManager : QM;
  eventDispatcher : list (EventName * EntityRef * option ComponentClass);
  _entityPool : list EntityRef;
  entitiesWithComponentsToRemove : list EntityRef;
  entitiesToRemove : list EntityRef;
  deferredRemovalEnabled : bool;
  _componentPool : gmap string (option (list Component));
  numComponents : gmap string JSNumber
}.
Arguments mk {QM}.
Arguments entityStore {QM}.
Arguments _entities {QM}.
Arguments _queryManager {QM}.
Arguments eventDispatcher {QM}.
Arguments _entityPool {QM}.
Arguments entitiesWithComponentsToRemove {QM}.
Arguments entitiesToRemove {QM}.
Arguments deferredRemovalEnabled {QM}.
Arguments _componentPool {QM}.
Arguments numComponents {QM}.

Section WithQueryManager.
Context {QM : Type}.

(** [QueryManager.onEntityRemoved(entity)] and
    [QueryManager.onEntityComponentRemoved(entity, Component)]: they may read
    the entities and update the query manager's own index. *)
Variable onEntityRemoved : list Entity.t -> EntityRef -> QM -> QM.
Variable onEntityComponentRemoved :
  list Entity.t -> EntityRef -> ComponentClass -> QM -> QM.

Definition with_entityStore v (m : t QM) : t QM := mk v (_entities m) (_queryManager m) (eventDispatcher m) (_entityPool m) (entitiesWithComponentsToRemove m) (entitiesToRemove m) (deferredRemovalEnabled m) (_componentPool m) (numComponents m).
Definition with__entities v (m : t QM) : t QM := mk (entityStore m) v (_queryManager m) (eventDispatcher m) (_entityPool m) (entitiesWithComponentsToRemove m) (entitiesToRemove m) (deferredRemovalEnabled m) (_componentPool m) (numComponents m).
Definition with__queryManager v (m : t QM) : t QM := mk (entityStore m) (_entities m) v (eventDispatcher m) (_entityPool m) (entitiesWithComponentsToRemove m) (entitiesToRemove m) (deferredRemovalEnabled m) (_componentPool m) (numComponents m).
Definition with_eventDispatcher v (m : t QM) : t QM := mk (entityStore m) (_entities m) (_queryManager m) v (_entityPool m) (entitiesWithComponentsToRemove m) (entitiesToRemove m) (deferredRemovalEnabled m) (_componentPool m) (numComponents m).
Definition with__entityPool v (m : t QM) : t QM := mk (entityStore m) (_entities m) (_queryManager m) (eventDispatcher m) v (entitiesWithComponentsToRemove m) (entitiesToRemove m) (deferredRemovalEnabled m) (_componentPool m) (numComponents m).
Definition with_entitiesWithComponentsToRemove v (m : t QM) : t QM := mk (entityStore m) (_entities m) (_queryManager m) (eventDispatcher m) (_entityPool m) v (entitiesToRemove m) (deferredRemovalEnabled m) (_componentPool m) (numComponents m).
Definition with_entitiesToRemove v (m : t QM) : t QM := mk (entityStore m) (_entities m) (_queryManager m) (eventDispatcher m) (_entityPool m) (entitiesWithComponentsToRemove m) v (deferredRemovalEnabled m) (_componentPool m) (numComponents m).
Definition with__componentPool v (m : t QM) : t QM := mk (entityStore m) (_entities m) (_queryManager m) (eventDispatcher m) (_entityPool m) (entitiesWithComponentsToRemove m) (entitiesToRemove m) (deferredRemovalEnabled m) v (numComponents m).
Definition with_numComponents v (m : t QM) : t QM := mk (entityStore m) (_entities m) (_queryManager m) (eventDispatcher m) (_entityPool m) (entitiesWithComponentsToRemove m) (entitiesToRemove m) (deferredRemovalEnabled m) (_componentPool m) v.

Definition EM (A : Type) : Type := StateM (t QM) A.

Definition readEntity (e : EntityRef) : EM Entity.t :=
  fun m => match entityStore m !! e with
           | Some x => (Ret x, m)
           | None => (Stuck "entity reference", m)
           end.

Definition updateEntity (e : EntityRef) (f : Entity.t -> Entity.t) : EM unit :=
  x ← readEntity e;
  modify (fun m => with_entityStore (<[e := f x]> (entityStore m)) m).

Definition dispatchEvent (eventName : EventName) (entity : EntityRef)
    (T : option ComponentClass) : EM unit :=
  modify (fun m => with_eventDispatcher (eventDispatcher m ++ [(eventName, entity, T)]) m).

(** Modelled from the spec: [ObjectPool.release] of this layout's
    [ObjectPool.js], which is not among the sources.  "release(item) first
    copies the base prototype over item, then returns it to the free list":
    the copy writes fields of the item (a [TypeError] when the item is
    [undefined]), the free list receives the item last. *)
Definition componentPool_release (T : ComponentClass) (component : option Component)
    : EM unit :=
  m ← getState;
  match _componentPool m !! name T with
  | Some (Some freeList) =>
      match component with
      | Some c =>
          modify (fun m =>
            with__componentPool (<[name T := Some (JS.push freeList c)]> (_componentPool m)) m)
      | None => throw "TypeError: item is undefined"
      end
  | _ => throw "TypeError: pool is undefined"
  end.

(** Modelled from the spec: [release] on the entity pool (same missing
    [ObjectPool.js]); the entity is pushed on the free list. *)
Definition entityPool_release (entity : EntityRef) : EM unit :=
  modify (fun m => with__entityPool (JS.push (_entityPool m) entity) m).

(** [ComponentManager.componentRemovedFromEntity] *)
Definition componentRemovedFromEntity (T : ComponentClass) : EM unit :=
  modify (fun m =>
    with_numComponents (<[name T := decr (numComponents m !! name T)]> (numComponents m)) m).

(** [Component.__proto__ === SystemStateComponent]: the class directly
    extends [SystemStateComponent]. *)
Definition extendsSystemState (T : ComponentClass) : bool := isSystemStateComponent T.

Definition _entityRemoveComponentSync (entity : EntityRef) (T : ComponentClass)
    (index : Z) : EM unit :=
  updateEntity entity (fun e =>
    Entity.with__ComponentTypes (JS.splice1 index (Entity._ComponentTypes e)) e);;
  e ← readEntity entity;
  let component := JS.read (Entity._components e) (name T) in
  updateEntity entity (fun e =>
    Entity.with__components (JS.del (Entity._components e) (name T)) e);;
  componentPool_release T component;;
  componentRemovedFromEntity T.

(** [entityRemoveComponent], [entityRemoveAllComponents] and [disposeEntity]
    call each other through [entity.dispose()].  The recursion is opened at
    that call: [dispose] is what [entity.dispose()] runs. *)
Definition entityRemoveComponent_with (dispose : EntityRef -> EM unit)
    (entity : EntityRef) (T : ComponentClass) (immediately : bool)
    : EM (option EntityRef) :=
  e ← readEntity entity;
  let index := JS.indexOf (Entity._ComponentTypes e) T in
  if negb (JS.tilde index) then ret None
  else
    dispatchEvent COMPONENT_REMOVE entity (Some T);;
    (if immediately then _entityRemoveComponentSync entity T index
     else
       when (length (Entity._ComponentTypesToRemove e) =? 0)%nat
            (modify (fun m =>
               with_entitiesWithComponentsToRemove
                 (JS.push (entitiesWithComponentsToRemove m) entity) m));;
       updateEntity entity (fun e =>
         Entity.with__ComponentTypes (JS.splice1 index (Entity._ComponentTypes e)) e);;
       updateEntity entity (fun e =>
         Entity.with__ComponentTypesToRemove
           (JS.push (Entity._ComponentTypesToRemove e) T) e);;
       updateEntity entity (fun e =>
         Entity.with__componentsToRemove
           (JS.set (Entity._componentsToRemove e) (name T)
                   (JS.read (Entity._components e) (name T))) e);;
       updateEntity entity (fun e =>
         Entity.with__components (JS.del (Entity._components e) (name T)) e));;
    modify (fun m =>
      with__queryManager
        (onEntityComponentRemoved (entityStore m) entity T (_queryManager m)) m);;
    when (extendsSystemState T) (
      updateEntity entity (fun e =>
        Entity.with__numStateComponents (Entity._numStateComponents e - 1) e);;
      e ← readEntity entity;
      when ((Entity._numStateComponents e =? 0) && negb (Entity.alive e))
           (dispose entity));;
    ret (Some entity).

(** [for (let j = Components.length - 1; j >= 0; j--)] over the live array
    [entity._ComponentTypes], here for the indices below [n]. *)
Fixpoint entityRemoveAllComponents_below (dispose : EntityRef -> EM unit)
    (n : nat) (entity : EntityRef) (immediately : bool) : EM unit :=
  match n with
  | O => ret tt
  | S j =>
      e ← readEntity entity;
      match Entity._ComponentTypes e !! j with
      | None => throw "TypeError: Components[j] is undefined"
      | Some T =>
          when (negb (extendsSystemState T))
               (entityRemoveComponent_with dispose entity T immediately;; ret tt)
      end;;
      entityRemoveAllComponents_below dispose j entity immediately
  end.

Definition entityRemoveAllComponents_with (dispose : EntityRef -> EM unit)
    (entity : EntityRef) (immediately : bool) : EM unit :=
  e ← readEntity entity;
  entityRemoveAllComponents_below dispose
    (length (Entity._ComponentTypes e)) entity immediately.

Definition _releaseEntity (entity : EntityRef) (index : Z) : EM unit :=
  modify (fun m => with__entities (JS.splice1 index (_entities m)) m);;
  updateEntity entity (Entity.with__entityManager false);;
  entityPool_release entity.

Definition disposeEntity_with (dispose : EntityRef -> EM unit)
    (entity : EntityRef) (immediately : bool) : EM unit :=
  m ← getState;
  let index := JS.indexOf (_entities m) entity in
  if negb (JS.tilde index) then throw "Tried to remove entity not in list"
  else
    updateEntity entity (Entity.with_alive false);;
    e ← readEntity entity;
    when (Entity._numStateComponents e =? 0) (
      dispatchEvent ENTITY_REMOVED entity None;;
      modify (fun m =>
        with__queryManager (onEntityRemoved (entityStore m) entity (_queryManager m)) m);;
      if immediately then _releaseEntity entity index
      else modify (fun m => with_entitiesToRemove (JS.push (entitiesToRemove m) entity) m));;
    entityRemoveAllComponents_with dispose entity immediately.

(** [Entity.dispose(forceImmediate) { this._entityManager.disposeEntity(this, forceImmediate) }] *)
Definition Entity_dispose_with (dispose : EntityRef -> EM unit)
    (this : EntityRef) (forceImmediate : bool) : EM unit :=
  e ← readEntity this;
  if Entity._entityManager e then disposeEntity_with dispose this forceImmediate
  else throw "TypeError: _entityManager is null".

(** Tying the knot.  A disposal started from [entityRemoveComponent] only
    removes classes that do not extend [SystemStateComponent], and for those
    [entity.dispose()] is never reached: the innermost [dispose] is dead code. *)
Definition entityRemoveComponent (entity : EntityRef) (T : ComponentClass)
    (immediately : bool) : EM (option EntityRef) :=
  entityRemoveComponent_with
    (fun e => Entity_dispose_with (fun _ => stuck "nested disposal") e false)
    entity T immediately.

Definition Entity_dispose (this : EntityRef) (forceImmediate : bool) : EM unit :=
  Entity_dispose_with (fun e => Entity_dispose_with (fun _ => stuck "nested disposal") e false)
    this forceImmediate.

Definition disposeEntity (entity : EntityRef) (immediately : bool) : EM unit :=
  disposeEntity_with (fun e => Entity_dispose_with (fun _ => stuck "nested disposal") e false)
    entity immediately.

(** [while (entity._ComponentTypesToRemove.length > 0)]: one pending class is
    popped per turn. *)
Fixpoint processDeferredRemoval_entity (n : nat) (entity : EntityRef) : EM unit :=
  match n with
  | O => ret tt
  | S n' =>
      e ← readEntity entity;
      match JS.pop (Entity._ComponentTypesToRemove e) with
      | (Some T, rest) =>
          updateEntity entity (Entity.with__ComponentTypesToRemove rest);;
          e ← readEntity entity;
          let component := JS.read (Entity._componentsToRemove e) (name T) in
          updateEntity entity (fun e =>
            Entity.with__componentsToRemove
              (JS.del (Entity._componentsToRemove e) (name T)) e);;
          componentPool_release T component;;
          componentRemovedFromEntity T;;
          processDeferredRemoval_entity n' entity
      | (None, _) => ret tt
      end
  end.

Definition processDeferredRemoval : EM unit :=
  m ← getState;
  if negb (deferredRemovalEnabled m) then ret tt
  else
    forEach (entitiesToRemove m) (fun entity =>
      m ← getState;
      let index := JS.indexOf (_entities m) entity in
      _releaseEntity entity index);;
    modify (with_entitiesToRemove []);;
    m ← getState;
    forEach (entitiesWithComponentsToRemove m) (fun entity =>
      e ← readEntity entity;
      processDeferredRemoval_entity (length (Entity._ComponentTypesToRemove e)) entity);;
    modify (with_entitiesWithComponentsToRemove []).

End WithQueryManager.

End Manager.

(* ===================================================================== *)
(** * More of the bundled module: [removeAllComponents], the devtools
    identifier, the event dispatcher, component data *)
(* ===================================================================== *)

(** [Entity.removeAllComponents(immediately)]:
    [for (let j = Components.length - 1; j >= 0; j--)] over the live array
    [this.componentTypes], here for the indices below [n]. *)
Fixpoint Entity_removeAllComponents_below (n : nat) (this : EntityRef)
    (immediately : bool) : M unit :=
  match n with
  | O => ret tt
  | S j =>
      e ← readEntity this;
      match Entity.componentTypes e !! j with
      | None => throw "TypeError: Component is undefined"
      | Some T => Entity_removeComponent this T immediately;; ret tt
      end;;
      Entity_removeAllComponents_below j this immediately
  end.

Definition Entity_removeAllComponents (this : EntityRef) (immediately : bool) : M unit :=
  e ← readEntity this;
  Entity_removeAllComponents_below (length (Entity.componentTypes e)) this immediately.

Module RemoteDevtools.

(** [String.prototype.charAt]: the empty string outside the string. *)
Definition charAt (s : string) (i : Z) : string :=
  if i <? 0 then ""
  else match String.get (Z.to_nat i) s with
       | Some c => String c ""
       | None => ""
       end.

Definition characters : string := "ABCDEFGHIJKLMNOPQRSTUVWXYZ0123456789".

(** [for (var i = 0; i < length; i++) result += characters.charAt(...)],
    for the [n] turns left.  [random k] is the value of
    [Math.floor(Math.random() * charactersLength)] at the [k]-th call. *)
Fixpoint generateId_loop (n : nat) (random : nat -> Z) (calls : nat) (result : string)
    : string * nat :=
  match n with
  | O => (result, calls)
  | S n' =>
      generateId_loop n' random (S calls) (result +:+ charAt characters (random calls))
  end.

(** [generateId(length)] *)
Definition generateId (random : nat -> Z) (calls : nat) (length : Z) : string * nat :=
  generateId_loop (Z.to_nat length) random calls "".

End RemoteDevtools.

Module EventDispatcher.

Section Dispatcher.

(** Listeners are functions, compared by identity; [L] is the type of their
    identities. *)
Context {L : Type} `{EqDecision L}.

Record t := mk {
  _listeners : JS.obj (list L);
  fired : Z;
  handled : Z
}.

Definition with__listeners v (d : t) : t := mk v (fired d) (handled d).

Definition with_fired v (d : t) : t := mk (_listeners d) v (handled d).

(** [new EventDispatcher()] *)
Definition new : t := mk [] 0 0.

Definition addEventListener (eventName : string) (listener : L) (d : t) : t :=
  let d :=
    match JS.get (_listeners d) eventName with
    | None => with__listeners (JS.set (_listeners d) eventName []) d
    | Some _ => d
    end in
  match JS.get (_listeners d) eventName with
  | Some listenerArray =>
      if JS.indexOf listenerArray listener =? -1
      then with__listeners (JS.set (_listeners d) eventName (JS.push listenerArray listener)) d
      else d
  | None => d
  end.

Definition hasEventListener (eventName : string) (listener : L) (d : t) : bool :=
  match JS.get (_listeners d) eventName with
  | Some listenerArray => negb (JS.indexOf listenerArray listener =? -1)
  | None => false
  end.

Definition removeEventListener (eventName : string) (listener : L) (d : t) : t :=
  match JS.get (_listeners d) eventName with
  | Some listenerArray =>
      let index := JS.indexOf listenerArray listener in
      if negb (index =? -1)
      then with__listeners (JS.set (_listeners d) eventName (JS.splice1 index listenerArray)) d
      else d
  | None => d
  end.

(** [dispatchEvent(eventName, entity, component)]: the counter is bumped and
    the listeners of a copy of the array ([slice(0)]) are called in order;
    [call] is what calling a listener does, to the dispatcher at least. *)
Definition dispatchEvent {A} (call : L -> A -> StateM t unit)
    (eventName : string) (args : A) : StateM t unit :=
  modify (fun d => with_fired (fired d + 1) d);;
  d ← getState;
  match JS.get (_listeners d) eventName with
  | Some listenerArray => forEach listenerArray (fun listener => call listener args)
  | None => ret tt
  end.

Definition resetCounters (d : t) : t := mk (_listeners d) 0 0.

End Dispatcher.

Arguments t L : clear implicits.

End EventDispatcher.


(* ===================================================================== *)
(** * Component data: [Component] and [PropTypes] *)
(* ===================================================================== *)

(** The fields of a component and the functions of [PropTypes] that fill,
    copy and clone them.  The classes [Component], [TagComponent] and
    [SystemStateComponent] are embedded with their data here; the entity and
    world code above only needs the identity of an instance. *)
Module ComponentData.

(** A JavaScript value as far as this code handles one.  Numbers are moved
    around, never computed with: an integer stands for each.  Arrays are
    objects of the heap, and so is every other object (a component, the
    [props] literal, a pool). *)
Inductive Value :=
| VUndefined
| VNull
| VNumber (n : Z)
| VBoolean (b : bool)
| VString (s : string)
| VArray (a : nat)
| VObject (o : nat).

(** The heap: the arrays, and the own enumerable properties of the other
    objects in insertion order. *)
Record Heap := mkHeap {
  arrays : list (list Value);
  objects : list (JS.obj Value)
}.

Definition with_arrays v (h : Heap) : Heap := mkHeap v (objects h).
Definition with_objects v (h : Heap) : Heap := mkHeap (arrays h) v.

Definition H (A : Type) : Type := StateM Heap A.

(** [[]] and [{}] literals, [new]. *)
Definition allocArray (l : list Value) : H nat :=
  fun h => (Ret (length (arrays h)), with_arrays (arrays h ++ [l]) h).

Definition allocObject (o : JS.obj Value) : H nat :=
  fun h => (Ret (length (objects h)), with_objects (objects h ++ [o]) h).

Definition readArray (a : nat) : H (list Value) :=
  fun h => match arrays h !! a with
           | Some l => (Ret l, h)
           | None => (Stuck "array reference", h)
           end.

Definition writeArray (a : nat) (l : list Value) : H unit :=
  _ ← readArray a;
  modify (fun h => with_arrays (<[a := l]> (arrays h)) h).

Definition readObject (o : nat) : H (JS.obj Value) :=
  fun h => match objects h !! o with
           | Some x => (Ret x, h)
           | None => (Stuck "object reference", h)
           end.

(** [o[key]]: [undefined] when the property is missing (the keys in use are
    not names of methods). *)
Definition getProp (o : nat) (key : string) : H Value :=
  x ← readObject o;
  ret (match JS.get x key with Some v => v | None => VUndefined end).

(** [o[key] = v] *)
Definition setProp (o : nat) (key : string) (v : Value) : H unit :=
  x ← readObject o;
  modify (fun h => with_objects (<[o := JS.set x key v]> (objects h)) h).

(** [o.hasOwnProperty(key)] *)
Definition hasOwnProperty (o : nat) (key : string) : H bool :=
  x ← readObject o;
  ret (match JS.get x key with Some _ => true | None => false end).

(** ** The copy and clone functions of [PropTypes] *)

(** [copyValue = (src, dest, key) => (dest[key] = src[key])] *)
Definition copyValue (src dest : nat) (key : string) : H Value :=
  v ← getProp src key;
  setProp dest key v;;
  ret v.

(** [cloneValue = src => src] *)
Definition cloneValue (src : Value) : H Value := ret src.

(** [for (let i = 0; i < srcArray.length; i++) destArray.push(srcArray[i])]
    from the index [i] on: the length is read at every test.  After
    [destArray.length = 0] the loop takes [srcArray.length] turns or, when
    both are one array, none; [fuel] bounds the turns. *)
Fixpoint copyArray_loop (fuel : nat) (s d : nat) (i : nat) : H unit :=
  srcArray ← readArray s;
  match srcArray !! i with
  | None => ret tt
  | Some x =>
      match fuel with
      | O => stuck "loop bound"
      | S fuel' =>
          destArray ← readArray d;
          writeArray d (JS.push destArray x);;
          copyArray_loop fuel' s d (S i)
      end
  end.

(** [copyArray(src, dest, key)].  An [undefined] or [null] array is a
    [TypeError] where its [length] is first used; a value that is neither is
    outside the model. *)
Definition copyArray (src dest : nat) (key : string) : H Value :=
  srcArray ← getProp src key;
  destArray ← getProp dest key;
  match destArray with
  | VArray d =>
      writeArray d [];;
      match srcArray with
      | VArray s =>
          l ← readArray s;
          copyArray_loop (length l) s d 0;;
          ret destArray
      | VUndefined | VNull => throw "TypeError: srcArray is undefined"
      | _ => stuck "length of a value that is not an array"
      end
  | VUndefined | VNull => throw "TypeError: destArray is undefined"
  | _ => stuck "length of a value that is not an array"
  end.

(** [cloneArray = src => src.slice()] *)
Definition cloneArray (src : Value) : H Value :=
  match src with
  | VArray s =>
      l ← readArray s;
      a ← allocArray l;
      ret (VArray a)
  | VUndefined | VNull => throw "TypeError: src is undefined"
  | _ => stuck "slice of a value that is not an array"
  end.

(** [createType = (defaultValue, clone, copy) => ({ default, clone, copy })] *)
Record PropType := createType {
  default : Value;
  clone : Value -> H Value;
  copy : nat -> nat -> string -> H Value
}.

(** The [[]] literal of [PropTypes.Array] is the first array of the heap. *)
Definition arrayDefault : nat := 0%nat.

Definition initialHeap : Heap := mkHeap [[]] [].

(** [PropTypes], but for [JSON], whose clone and copy go through
    [JSON.parse(JSON.stringify(...))]. *)
Module PropTypes.
Definition Number : PropType := createType (VNumber 0) cloneValue copyValue.
Definition Boolean : PropType := createType (VBoolean false) cloneValue copyValue.
Definition String : PropType := createType (VString "") cloneValue copyValue.
Definition Object : PropType := createType VUndefined cloneValue copyValue.
Definition Array : PropType := createType (VArray arrayDefault) cloneArray copyArray.
End PropTypes.

(** ** Component classes *)

(** An entry of a [schema]: [{ type }] or [{ type, default }]. *)
Record SchemaProp := {
  type : PropType;
  default_ : option Value
}.

(** Which constructor a class inherits. *)
Variant Base := ExtendsComponent | ExtendsSystemStateComponent | ExtendsTagComponent.

Record Class := {
  schema : JS.obj SchemaProp;
  base : Base
}.

(** The constructor of [Component], run on the new object [this]. *)
Definition Component_constructor (C : Class) (this : nat) (props : option nat) : H unit :=
  forEach (schema C) (fun '(key, schemaProp) =>
    own ← match props with
          | Some p => hasOwnProperty p key
          | None => ret false
          end;
    if own then
      match props with
      | Some p => v ← getProp p key; setProp this key v
      | None => ret tt
      end
    else
      match default_ schemaProp with
      | Some d => v ← clone (type schemaProp) d; setProp this key v
      | None =>
          let type := type schemaProp in
          v ← clone type (default type); setProp this key v
      end);;
  setProp this "_pool" VNull.

(** [new C(props)]: [SystemStateComponent] passes [props] on and flags the
    instance, [TagComponent] calls [super()] without them. *)
Definition new (C : Class) (props : option nat) : H nat :=
  this ← allocObject [];
  match base C with
  | ExtendsComponent => Component_constructor C this props
  | ExtendsSystemStateComponent =>
      Component_constructor C this props;;
      setProp this "isSystemStateComponent" (VBoolean true)
  | ExtendsTagComponent =>
      Component_constructor C this None;;
      setProp this "isTagComponent" (VBoolean true)
  end;;
  ret this.

(** [copy(source)] on an instance [this] of the class [C]. *)
Definition Component_copy (C : Class) (this source : nat) : H nat :=
  src ← readObject source;
  forEach (JS.keys src) (fun key =>
    match JS.get (schema C) key with
    | Some prop => copy (type prop) source this key;; ret tt
    | None => ret tt
    end);;
  ret this.

(** [clone() { return new this.constructor().copy(this); }] *)
Definition Component_clone (C : Class) (this : nat) : H nat :=
  c ← new C None;
  Component_copy C c this.

End ComponentData.


(* ===================================================================== *)
(** * Specification vocabulary *)
(* ===================================================================== *)

(** ** A program logic for [StateM] *)

(** [returns P c Q]: from a state satisfying [P], [c] returns (it neither
    throws nor gets stuck) a value and a state related by [Q]. *)
Definition returns {S A} (P : S -> Prop) (c : StateM S A) (Q : A -> S -> Prop) : Prop :=
  forall w, P w -> exists a w', c w = (Ret a, w') /\ Q a w'.

(** [keeps I c]: [c] leaves [I] standing however it ends. *)
Definition keeps {S A} (I : S -> Prop) (c : StateM S A) : Prop :=
  forall w, I w -> I (snd (c w)).


(** ** The UUID format *)

Definition isUpperHexDigit (c : ascii) : bool :=
  existsb (Ascii.eqb c) (list_ascii_of_string "0123456789ABCDEF").

Definition allUpperHex (s : string) : bool :=
  forallb isUpperHexDigit (list_ascii_of_string s).

(** The hexadecimal digits of a UUID, hyphens left out. *)
Definition hexDigitsOf (s : string) : list ascii :=
  filter (fun c => c <> "-"%char) (list_ascii_of_string s).

Definition byteText (b : Z) : string := Utils.toUpperCase (Utils.lut b).

Definition byte_ok (n : nat) : bool :=
  match byteText (Z.of_nat n) with
  | String hi (String lo EmptyString) =>
      isUpperHexDigit hi && isUpperHexDigit lo
      && (if ((64 <=? n) && (n <? 80))%nat then Ascii.eqb hi "4" else true)
      && (if ((128 <=? n) && (n <? 192))%nat
          then existsb (Ascii.eqb hi) (list_ascii_of_string "89AB") else true)
  | _ => false
  end.

(** 36 characters; five groups of 8, 4, 4, 4 and 12 upper-case hexadecimal
    digits separated by hyphens; the 13th hexadecimal digit is [4] and the
    17th is one of [8], [9], [A], [B]. *)
Definition uuidFormat (s : string) : Prop :=
  String.length s = 36%nat
  /\ (exists g1 g2 g3 g4 g5,
        s = g1 +:+ "-" +:+ g2 +:+ "-" +:+ g3 +:+ "-" +:+ g4 +:+ "-" +:+ g5
        /\ map String.length [g1; g2; g3; g4; g5] = [8; 4; 4; 4; 12]%nat
        /\ forallb allUpperHex [g1; g2; g3; g4; g5] = true)
  /\ hexDigitsOf s !! 12%nat = Some "4"%char
  /\ (exists c, hexDigitsOf s !! 16%nat = Some c /\ In c (list_ascii_of_string "89AB")).


(** ** Object pools *)

(** What a pool needs of its base object to clone it: a base entity is
    allocated and none of its component slots holds [undefined]. *)
Definition baseReady (w : World.t) (base : Item) : Prop :=
  match base with
  | ItemComponent _ => True
  | ItemEntity b =>
      exists eb, World.entityStore w !! b = Some eb
                 /\ Forall (fun kv => is_Some (snd kv)) (Entity.components eb)
  end.

(** Modelled on the spec's words: "expand by ⌈0.2 · count⌉ + 1". *)
Definition spec_growth (count : Z) : Z := (count + 4) / 5 + 1.


(** ** Sample inputs *)

(** A random source, and the classes used in the examples. *)
Definition sampleRandom (n : nat) : Z := Z.of_nat n * 2654435761 + 12345.
Definition Position : ComponentClass :=
  {| name := "Position"; classId := 0; isSystemStateComponent := false |}.
Definition Velocity : ComponentClass :=
  {| name := "Velocity"; classId := 1; isSystemStateComponent := false |}.
Definition Mesh : ComponentClass :=
  {| name := "Mesh"; classId := 2; isSystemStateComponent := true |}.

(** The state a program leaves, whatever its outcome. *)
Definition exec {S A} (c : StateM S A) (w : S) : S := snd (c w).

Definition newWorld : World.t := snd (World_new sampleRandom).

(** A world whose [Position] pool was created with eleven instances, all of
    them handed out: [count = 11], empty free list. *)
Definition drainedPoolWorld : World.t :=
  exec (base ← Component_new Position None;
        p ← ObjectPool_new (ItemComponent base) (Some 11);
        World_registerComponent Position (PoolObject p);;
        forEach (seq 0 11) (fun _ => ObjectPool_acquire p;; ret tt))
       newWorld.


(** ** Queries *)

(** The canonical key in the words of the specification: the names of the
    positive components and the ["!"]-prefixed names of the negated ones,
    sorted and joined with ["-"]. *)
Definition canonicalName (T : QueryTerm) : string :=
  match T with
  | Bare C => name C
  | Op _ C => "!" +:+ name C
  end.

Definition canonicalKey (Components : list QueryTerm) : string :=
  join "-" (sort (map canonicalName Components)).

(** A list made of classes and of entries built by [Not]. *)
Definition builtWithNot (Components : list QueryTerm) : Prop :=
  Forall (fun T => match T with
                   | Bare _ => True
                   | Op operator _ => operator = "not"
                   end) Components.

(** [match] as a function of the entity's type list alone. *)
Definition hasType (types : list ComponentClass) (T : ComponentClass) : bool :=
  JS.tilde (JS.indexOf types T).

Definition typesMatch (pos neg : list ComponentClass) (types : list ComponentClass) : bool :=
  forallb (hasType types) pos && negb (existsb (hasType types) neg).

(** Whether a query over [pos]/[neg] selects the entity [e] of [w]. *)
Definition selects (w : World.t) (pos neg : list ComponentClass) (e : nat) : bool :=
  match World.entityStore w !! e with
  | Some x => typesMatch pos neg (Entity.componentTypes x)
  | None => false
  end.

(** The entities of the world's list that the query selects, in order. *)
Definition selected (w : World.t) (pos neg : list ComponentClass) : list nat :=
  List.filter (selects w pos neg) (World.entities w).

(** The entities of [w] have the type lists they had in [w0]. *)
Definition sameTypes (w0 w : World.t) : Prop :=
  length (World.entityStore w) = length (World.entityStore w0)
  /\ forall e, Entity.componentTypes <$> World.entityStore w !! e
               = Entity.componentTypes <$> World.entityStore w0 !! e.

(** The message of the error thrown by the [Query] constructor. *)
Definition emptyQueryError : string := "Can't create a query without components".

(** Every entity on the world's list is allocated. *)
Definition entitiesAllocated (w : World.t) : Prop :=
  Forall (fun e => (e < length (World.entityStore w))%nat) (World.entities w).

(** Three entities: [Position], [Position + Velocity], [Velocity]. *)
Definition sceneWorld : World.t :=
  exec (World_registerComponent Position PoolUndefined;;
        World_registerComponent Velocity PoolUndefined;;
        e1 ← World_createEntity;
        e2 ← World_createEntity;
        e3 ← World_createEntity;
        Entity_addComponent e1 Position None;;
        Entity_addComponent e2 Position None;;
        Entity_addComponent e2 Velocity None;;
        Entity_addComponent e3 Velocity None;;
        ret tt)
       newWorld.


(** The [Position] instance held by entity 2 of [sceneWorld]. *)
Definition scenePosition2 : Component :=
  {| instanceId := 3; constructor_ := Position; component_pool := Some 1%nat |}.

(** ** The entity manager *)

(** What disposal acts on: the manager's entity list, its entity pool and
    its queue of entities to remove. *)
Definition disposalState {QM} (m : Manager.t QM) : list nat * list nat * list nat :=
  (Manager._entities m, Manager._entityPool m, Manager.entitiesToRemove m).

(** A query manager without state, for the examples. *)
Definition noQueries1 (_ : list Manager.Entity.t) (_ : nat) (qm : unit) : unit := qm.
Definition noQueries2 (_ : list Manager.Entity.t) (_ : nat) (_ : ComponentClass) (qm : unit) : unit := qm.

Definition sceneMesh : Component :=
  {| instanceId := 0; constructor_ := Mesh; component_pool := None |}.
Definition scenePosition : Component :=
  {| instanceId := 1; constructor_ := Position; component_pool := None |}.

(** One live entity (reference 0) holding the system-state component [Mesh]
    and the plain component [Position]. *)
Definition managedScene : Manager.t unit :=
  Manager.mk
    [Manager.Entity.mk (Some "e0") true [Mesh; Position]
       [("Mesh", Some sceneMesh); ("Position", Some scenePosition)] [] [] 1 true]
    [0%nat] tt [] [] [] [] true
    {[ "Mesh" := Some []; "Position" := Some [] ]} {[ "Mesh" := Num 1; "Position" := Num 1 ]}.

(** The scene after [entity.dispose()] and the drain that follows: the
    entity is no longer alive, [Position] is gone, [Mesh] is still attached. *)
Definition ghostScene : Manager.t unit :=
  exec (Manager.Entity_dispose noQueries1 noQueries2 0%nat false;;
        Manager.processDeferredRemoval)
       managedScene.

(** ** Disposal of an entity *)

(** What [dispose(true)] needs to run to its end on the entity [this], whose
    record is [e]: the references the entity and the query index hold are
    allocated, every slot of the live map holds an instance under a key of
    its own, and the base entity of the entity's pool carries no component. *)
Definition componentSlotReady (w : World.t) (kv : string * option Component) : Prop :=
  exists c, snd kv = Some c
            /\ forall p, component_pool c = Some p -> (p < length (World.poolStore w))%nat.

Definition entityPoolReady (w : World.t) (e : Entity.t) : Prop :=
  forall p, Entity._pool e = Some p ->
    exists pool, World.poolStore w !! p = Some pool
      /\ forall b, ObjectPool.baseObject pool = ItemEntity b ->
           exists eb, World.entityStore w !! b = Some eb /\ Entity.components eb = [].

Definition disposable (w : World.t) (this : nat) (e : Entity.t) : Prop :=
  World.entityStore w !! this = Some e
  /\ Forall (fun kv => (snd kv < length (World.queryStore w))%nat) (World.queries w)
  /\ Forall (fun q => (q < length (World.queryStore w))%nat) (Entity.queries e)
  /\ NoDup (JS.keys (Entity.components e))
  /\ Forall (componentSlotReady w) (Entity.components e)
  /\ entityPoolReady w e.

(** The parts of an entity that [Query.removeEntity] leaves alone. *)
Definition sameButQueries (x y : Entity.t) : Prop :=
  Entity.with_queries [] x = Entity.with_queries [] y.

(** What every phase of the disposal preserves. *)
Definition disposalFrame (Lq Lp Le : nat) (pool0 : option nat) (base0 : Item)
    (random0 : nat -> Z) (calls0 : nat) (w : World.t) : Prop :=
  (World.random w = random0 /\ World.randomCalls w = calls0)
  /\ length (World.queryStore w) = Lq
  /\ length (World.poolStore w) = Lp
  /\ length (World.entityStore w) = Le
  /\ (forall p, pool0 = Some p ->
        exists pool, World.poolStore w !! p = Some pool /\ ObjectPool.baseObject pool = base0)
  /\ (forall b, base0 = ItemEntity b ->
        exists eb, World.entityStore w !! b = Some eb /\ Entity.components eb = []).

(** While the entity [this] leaves queries: the frame stands, the record
    differs from [x0] in its query list only, and that list holds allocated
    queries, at most [n] of them. *)
Definition leavingQueries (this : nat) (Lq Lp Le : nat) (pool0 : option nat) (base0 : Item)
    (random0 : nat -> Z) (calls0 : nat) (x0 : Entity.t) (n : nat) (w : World.t) : Prop :=
  disposalFrame Lq Lp Le pool0 base0 random0 calls0 w
  /\ exists x, World.entityStore w !! this = Some x
               /\ sameButQueries x x0
               /\ Forall (fun q => (q < Lq)%nat) (Entity.queries x)
               /\ (length (Entity.queries x) <= n)%nat.

(** The record [dispose(true)] leaves: every collection empty, a new
    uuid, and [alive] set. *)
Definition disposed (u : string) (e : Entity.t) : Entity.t :=
  Entity.mk u [] [] [] [] [] true (Entity._numSystemStateComponents e) (Entity._pool e).

(** Every query of the index that lists [this] lists it once and is among
    the queries the entity refers back to. *)
Definition backReferenced (this : nat) (w : World.t) : Prop :=
  forall k q x e,
    In (k, q) (World.queries w) ->
    World.queryStore w !! q = Some x ->
    World.entityStore w !! this = Some e ->
    In this (Query.entities x) ->
    In q (Entity.queries e) /\ NoDup (Query.entities x).

(** No query of the index lists [this]. *)
Definition unlisted (this : nat) (w : World.t) : Prop :=
  forall k q x,
    In (k, q) (World.queries w) -> World.queryStore w !! q = Some x ->
    ~ In this (Query.entities x).

(** Every pooled instance held in [cs] is on the free list of its pool. *)
Definition released (cs : JS.obj (option Component)) (w : World.t) : Prop :=
  forall k c p,
    In (k, Some c) cs -> component_pool c = Some p ->
    exists pool, World.poolStore w !! p = Some pool
                 /\ In (ItemComponent c) (ObjectPool.freeList pool).

(** From [w] to [w'] the index of queries stayed the same, no query gained
    an entity and no pool lost a free item. *)
Definition teardownStep (w w' : World.t) : Prop :=
  World.queries w' = World.queries w
  /\ (forall q x', World.queryStore w' !! q = Some x' ->
        exists x, World.queryStore w !! q = Some x
                  /\ forall entity, In entity (Query.entities x') -> In entity (Query.entities x))
  /\ (forall p pool, World.poolStore w !! p = Some pool ->
        exists pool', World.poolStore w' !! p = Some pool'
                      /\ forall item, In item (ObjectPool.freeList pool)
                                      -> In item (ObjectPool.freeList pool')).

(** [sceneWorld] once two queries are indexed: entity 1 is in both. *)
Definition indexedScene : World.t :=
  exec (World_getQuery [Bare Position];;
        World_getQuery [Bare Position; Not Velocity];;
        ret tt)
       sceneWorld.

(** [sceneWorld] after [dispose()] on entity 1, with the same two queries
    created afterwards: the constructor of a query goes through the world's
    entity list, on which the entity still is, so both queries list it. *)
Definition retiredScene : World.t :=
  exec (Entity_dispose 1%nat false;;
        World_getQuery [Bare Position];;
        World_getQuery [Bare Position; Not Velocity];;
        ret tt)
       sceneWorld.

(** The record of an allocated entity. *)
Definition recordOf (w : World.t) (e : nat) : Entity.t :=
  match World.entityStore w !! e with
  | Some x => x
  | None => Entity.mk "" [] [] [] [] [] false 0 None
  end.


(** A world of the bundled module with one live entity (reference 1)
    holding the system-state component [Mesh]. *)
Definition meshWorld : World.t :=
  exec (World_registerComponent Mesh PoolUndefined;;
        e1 ← World_createEntity;
        Entity_addComponent e1 Mesh None;;
        ret tt)
       newWorld.

(** [meshWorld] after [entity.dispose()]: its entity is no longer alive,
    still holds [Mesh], and waits in the removal queue. *)
Definition ghostWorld : World.t := exec (Entity_dispose 1%nat false) meshWorld.

(* ===================================================================== *)
(** * Vocabulary for the further properties *)
(* ===================================================================== *)

(** A list of strings in ascending order of their code units. *)
Inductive ascending : list string -> Prop :=
| ascending_nil : ascending []
| ascending_cons x l :
    Forall (fun y => String.leb x y = true) l -> ascending l -> ascending (x :: l).

(** The [i]-th clone a component pool [p] makes of its base object when the
    world's instance counter stands at [next]. *)
Definition pooledClone (p : nat) (base : Component) (next : nat) (i : nat) : Item :=
  ItemComponent {| instanceId := next + i; constructor_ := constructor_ base;
                   component_pool := Some p |}.

(** The clones a component pool makes are fresh instances of the base
    object's class that point back to the pool. *)
Definition expandedWorld (w : World.t) (p : nat) (pool : ObjectPool.t) (k : nat)
    (clones : list Item) : World.t :=
  World.with_poolStore
    (<[p := ObjectPool.with_freeList (ObjectPool.freeList pool ++ clones) pool]>
       (World.poolStore w))
    (World.with_nextInstanceId (World.nextInstanceId w + k) w).

(** What [getComponentPool(T)] reads after [registerComponent(T, objectPool)]
    on a world [w] where [T] is new: [undefined] for [false], the pool
    given, or a pool allocated next in the store. *)
Definition registeredPool (w : World.t) (objectPool : PoolArgument) : PoolSlot :=
  match objectPool with
  | PoolFalse => SlotUndefined
  | PoolUndefined => SlotPool (length (World.poolStore w))
  | PoolObject p => SlotPool p
  end.

(** A class that bears the name of a member of [Object.prototype]. *)
Definition ToString : ComponentClass :=
  {| name := "toString"; classId := 7; isSystemStateComponent := false |}.

Definition alreadyRegistered (T : ComponentClass) : string :=
  "Component type: '" +:+ name T +:+ "' already registered.".

(** The characters a generated id is made of. *)
Definition isIdCharacter (c : ascii) : bool :=
  existsb (Ascii.eqb c) (list_ascii_of_string RemoteDevtools.characters).

(** A random source for the examples: the indices [0, 7, 14, ...] modulo 36. *)
Definition sampleIndex (n : nat) : Z := (Z.of_nat n * 7) mod 36.

(** No listener is registered twice for one event. *)
Definition listenersDistinct {L} (d : EventDispatcher.t L) : Prop :=
  Forall (fun kv => NoDup (snd kv)) (EventDispatcher._listeners d).

(** Two live entities without components, for the examples. *)
Definition pairScene : Manager.t unit :=
  Manager.mk
    [Manager.Entity.mk (Some "e0") true [] [] [] [] 0 true;
     Manager.Entity.mk (Some "e1") true [] [] [] [] 0 true]
    [0%nat; 1%nat] tt [] [] [] [] true ∅ ∅.

(** An update of an entity record that leaves its [uuid] alone. *)
Definition keepsUuid (f : Entity.t -> Entity.t) : Prop :=
  forall x, Entity.uuid (f x) = Entity.uuid x.

(** A property of worlds that depends neither on the query store, the pool
    store or the instance counter, nor on the entity store beyond the
    [uuid]s of the entities. *)
Definition storeInsensitive (I : World.t -> Prop) : Prop :=
  (forall w qs, I w -> I (World.with_queryStore qs w))
  /\ (forall w ps, I w -> I (World.with_poolStore ps w))
  /\ (forall w n, I w -> I (World.with_nextInstanceId n w))
  /\ (forall w e x f, I w -> World.entityStore w !! e = Some x -> keepsUuid f ->
        I (World.with_entityStore (<[e := f x]> (World.entityStore w)) w)).

(** The world's entity list and uuid index are [l0] and [m0], and the random
    source stands at [calls0]. *)
Definition listedBefore (l0 : list nat) (m0 : gmap string nat) (random0 : nat -> Z)
    (calls0 : nat) (w : World.t) : Prop :=
  World.entities w = l0 /\ World.entitiesByUUID w = m0
  /\ World.random w = random0 /\ World.randomCalls w = calls0.

(** The world's entity list and uuid index are [l0] and [m0], and the entity
    [this] carries the uuid [u]. *)
Definition listedAs (l0 : list nat) (m0 : gmap string nat) (this : nat) (u : string)
    (w : World.t) : Prop :=
  World.entities w = l0 /\ World.entitiesByUUID w = m0
  /\ forall x, World.entityStore w !! this = Some x -> Entity.uuid x = u.

(** The world [w] with the query [q] and the entity [entity] replaced. *)
Definition reindex (w : World.t) (q : nat) (x : Query.t) (entity : nat) (e : Entity.t)
    : World.t :=
  World.with_queryStore (<[q := x]> (World.queryStore w))
    (World.with_entityStore (<[entity := e]> (World.entityStore w)) w).

(** The entity list [onComponentAdded(entity, T)] leaves in a query, for an
    entity whose type list is [types]. *)
Definition afterAdded (T : ComponentClass) (entity : nat) (types : list ComponentClass)
    (x : Query.t) : list nat :=
  if JS.includes (Query.NotComponents x) T && JS.includes (Query.entities x) entity
  then JS.splice1 (JS.indexOf (Query.entities x) entity) (Query.entities x)
  else if negb (JS.includes (Query.Components x) T)
          || negb (typesMatch (Query.Components x) (Query.NotComponents x) types)
          || JS.includes (Query.entities x) entity
       then Query.entities x
       else Query.entities x ++ [entity].

(** The entity list [onRemoveComponent(entity, T)] leaves in a query. *)
Definition afterRemoved (T : ComponentClass) (entity : nat) (types : list ComponentClass)
    (x : Query.t) : list nat :=
  if JS.includes (Query.NotComponents x) T
     && negb (JS.includes (Query.entities x) entity)
     && typesMatch (Query.Components x) (Query.NotComponents x) types
  then Query.entities x ++ [entity]
  else if JS.includes (Query.Components x) T
          && JS.includes (Query.entities x) entity
          && negb (typesMatch (Query.Components x) (Query.NotComponents x) types)
       then JS.splice1 (JS.indexOf (Query.entities x) entity) (Query.entities x)
       else Query.entities x.

(** [w] differs from [w0] in the query store and in the record of [entity]
    only; of that record only the [queries] list may differ, and of a query
    only its entity list and its event log: a registered query [q] has the
    entity list [f] makes of the one it had, any other query the list it had. *)
Definition indexedBy (f : Query.t -> list nat) (l : JS.obj nat) (entity : nat)
    (w0 w : World.t) : Prop :=
  World.with_queryStore [] (World.with_entityStore [] w)
  = World.with_queryStore [] (World.with_entityStore [] w0)
  /\ length (World.queryStore w) = length (World.queryStore w0)
  /\ length (World.entityStore w) = length (World.entityStore w0)
  /\ (forall other, other <> entity ->
        World.entityStore w !! other = World.entityStore w0 !! other)
  /\ (forall e0, World.entityStore w0 !! entity = Some e0 ->
        exists e, World.entityStore w !! entity = Some e /\ sameButQueries e e0)
  /\ (forall q x0, World.queryStore w0 !! q = Some x0 ->
        exists x, World.queryStore w !! q = Some x
                  /\ Query.Components x = Query.Components x0
                  /\ Query.NotComponents x = Query.NotComponents x0
                  /\ Query.entities x
                     = if bool_decide (q ∈ map snd l) then f x0 else Query.entities x0).

(** Every query of the world's index is allocated, is registered under one
    key only and lists no entity twice. *)
Definition indexReady (w : World.t) : Prop :=
  NoDup (map snd (World.queries w))
  /\ Forall (fun kv => exists x, World.queryStore w !! snd kv = Some x
                                 /\ NoDup (Query.entities x))
            (World.queries w).

(** The queries of the world's index list exactly the entities of the
    world's entity list that match them. *)
Definition queriesInSync (w : World.t) : Prop :=
  forall k q x, In (k, q) (World.queries w) -> World.queryStore w !! q = Some x ->
    forall entity,
      In entity (Query.entities x)
      <-> In entity (World.entities w)
          /\ exists e, World.entityStore w !! entity = Some e /\ Query_match x e = true.

(** The pool registered for the class [T], if there is one, is a pool of
    components. *)
Definition componentPoolReady (w : World.t) (T : ComponentClass) : Prop :=
  forall p, World.componentPools w !! name T = Some (Some p) ->
    exists pool b,
      World.poolStore w !! p = Some pool
      /\ ObjectPool.baseObject pool = ItemComponent b
      /\ 0 <= ObjectPool.count pool
      /\ Forall (fun item => exists c, item = ItemComponent c) (ObjectPool.freeList pool).

(** [w'] is [w] but for the pool store and the instance counter. *)
Definition sameButPools (w w' : World.t) : Prop :=
  exists ps n, w' = World.with_poolStore ps (World.with_nextInstanceId n w).

(** A check of [queriesInSync] that runs: every entity a query lists is on
    the world's list and matches, and every matching entity of the world's
    list is listed. *)
Definition matchesAt (w : World.t) (x : Query.t) (entity : nat) : bool :=
  match World.entityStore w !! entity with
  | Some e => Query_match x e
  | None => false
  end.

Definition syncCheck (w : World.t) : bool :=
  forallb (fun kv : string * nat =>
             match World.queryStore w !! snd kv with
             | None => true
             | Some x =>
                 forallb (fun entity => JS.includes (World.entities w) entity
                                        && matchesAt w x entity) (Query.entities x)
                 && forallb (fun entity => negb (matchesAt w x entity)
                                           || JS.includes (Query.entities x) entity)
                            (World.entities w)
             end)
          (World.queries w).

(** Every query of the world's index has a positive component. *)
Definition queriesPositive (w : World.t) : Prop :=
  forall k q x, In (k, q) (World.queries w) -> World.queryStore w !! q = Some x ->
    Query.Components x <> [].


(** What [removeComponent(T, immediately)] leaves in the pending-removal
    dictionary of an entity that had nothing pending under the class name:
    nothing new when immediate, an entry holding [undefined] when deferred. *)
Definition pendingAfter (T : ComponentClass) (immediately : bool)
    (pending : JS.obj (option Component)) : JS.obj (option Component) :=
  if immediately then pending else JS.set pending (name T) None.


(** The built-in property types. *)
Variant BuiltIn := TNumber | TBoolean | TString | TObject | TArray.

#[global] Instance BuiltIn_eq_dec : EqDecision BuiltIn.
Proof. solve_decision. Defined.

(** The entry of [PropTypes] a built-in type stands for. *)
Definition typeOf (b : BuiltIn) : ComponentData.PropType :=
  match b with
  | TNumber => ComponentData.PropTypes.Number
  | TBoolean => ComponentData.PropTypes.Boolean
  | TString => ComponentData.PropTypes.String
  | TObject => ComponentData.PropTypes.Object
  | TArray => ComponentData.PropTypes.Array
  end.

(** A schema over the built-in types: the type of each key and its
    [default], if the entry has one. *)
Definition schemaOf (ks : JS.obj (BuiltIn * option ComponentData.Value))
    : JS.obj ComponentData.SchemaProp :=
  map (fun kv => (fst kv, {| ComponentData.type := typeOf (fst (snd kv));
                             ComponentData.default_ := snd (snd kv) |})) ks.

(** The value a field gets when [props] does not give one, before it is
    cloned. *)
Definition defaultOf (bd : BuiltIn * option ComponentData.Value) : ComponentData.Value :=
  match snd bd with
  | Some d => d
  | None => ComponentData.default (typeOf (fst bd))
  end.

(** The keys the constructors set besides those of the schema. *)
Definition reservedKeys : list string :=
  ["_pool"; "isSystemStateComponent"; "isTagComponent"].

(** The array-typed keys of the schema have arrays of [h] as defaults, and
    the fields [fields] hold arrays of [h] under them. *)
Definition arraysReady (h : ComponentData.Heap)
    (ks : JS.obj (BuiltIn * option ComponentData.Value))
    (fields : JS.obj ComponentData.Value) : Prop :=
  forall key d, JS.get ks key = Some (TArray, d) ->
    (exists a0, defaultOf (TArray, d) = ComponentData.VArray a0
                /\ (a0 < length (ComponentData.arrays h))%nat)
    /\ (forall v, JS.get fields key = Some v ->
          exists s, v = ComponentData.VArray s /\ (s < length (ComponentData.arrays h))%nat).

(** The [props] the constructor of [Component] gets to see: a
    [TagComponent] calls [super()] without them. *)
Definition propsUsed (C : ComponentData.Class) (props : option nat) : option nat :=
  match ComponentData.base C with
  | ComponentData.ExtendsTagComponent => None
  | _ => props
  end.

(** [given] holds the properties of the [props] object, none when there is
    no such object. *)
Definition propsGiven (h : ComponentData.Heap) (props : option nat)
    (given : JS.obj ComponentData.Value) : Prop :=
  match props with
  | Some p => ComponentData.objects h !! p = Some given
  | None => given = []
  end.

(** A class with a number and an array: [{ radius: { type: Number },
    points: { type: Array } }]. *)
Definition circleSchema : JS.obj (BuiltIn * option ComponentData.Value) :=
  [("radius", (TNumber, None)); ("points", (TArray, None))].

Definition Circle : ComponentData.Class :=
  {| ComponentData.schema := schemaOf circleSchema;
     ComponentData.base := ComponentData.ExtendsComponent |}.

(** A heap with the array [[1, 2]], the object [{ points: [1, 2] }] and a
    [Circle] of radius 3 that holds the same array. *)
Definition circleHeap : ComponentData.Heap :=
  ComponentData.mkHeap
    [[]; [ComponentData.VNumber 1; ComponentData.VNumber 2]]
    [[("points", ComponentData.VArray 1)];
     [("radius", ComponentData.VNumber 3); ("points", ComponentData.VArray 1);
      ("_pool", ComponentData.VNull)]].


(* ===================================================================== *)
(** * Rules of the program logic *)
(* ===================================================================== *)

Section Logic.
Context {S : Type}.

Lemma returns_ret {A} (P : S -> Prop) (a : A) (Q : A -> S -> Prop) :
  (forall w, P w -> Q a w) -> returns P (ret a) Q.
Proof. intros H w Hw. exists a, w. split; [reflexivity | auto]. Qed.

Lemma returns_bind {A B} (P : S -> Prop) (c : StateM S A) (k : A -> StateM S B)
    (R : A -> S -> Prop) (Q : B -> S -> Prop) :
  returns P c R -> (forall a, returns (R a) (k a) Q) -> returns P (bind c k) Q.
Proof.
  intros Hc Hk w Hw. destruct (Hc w Hw) as (a & w' & Hrun & HR).
  destruct (Hk a w' HR) as (b & w'' & Hrun' & HQ).
  exists b, w''. split; [|exact HQ]. unfold bind. rewrite Hrun. exact Hrun'.
Qed.

Lemma returns_weaken {A} (P P' : S -> Prop) (c : StateM S A) (Q Q' : A -> S -> Prop) :
  returns P' c Q' -> (forall w, P w -> P' w) -> (forall a w, Q' a w -> Q a w) ->
  returns P c Q.
Proof.
  intros Hc HP HQ w Hw. destruct (Hc w (HP w Hw)) as (a & w' & Hrun & H).
  exists a, w'. eauto.
Qed.

Lemma returns_modify (P : S -> Prop) (f : S -> S) (Q : unit -> S -> Prop) :
  (forall w, P w -> Q tt (f w)) -> returns P (modify f) Q.
Proof. intros H w Hw. exists tt, (f w). split; [reflexivity | auto]. Qed.

Lemma returns_getState (P : S -> Prop) :
  returns P getState (fun a w => a = w /\ P w).
Proof. intros w Hw. exists w, w. auto. Qed.

Lemma returns_when (P : S -> Prop) (b : bool) (c : StateM S unit) (Q : unit -> S -> Prop) :
  (b = true -> returns P c Q) -> (b = false -> forall w, P w -> Q tt w) ->
  returns P (when b c) Q.
Proof.
  destruct b; intros Ht Hf; simpl.
  - auto.
  - apply returns_ret. auto.
Qed.

Lemma returns_forEach {A} (I : S -> Prop) (l : list A) (body : A -> StateM S unit) :
  (forall x, In x l -> returns I (body x) (fun _ => I)) ->
  returns I (forEach l body) (fun _ => I).
Proof.
  induction l as [|x l IH]; intros Hb; simpl.
  - apply returns_ret. auto.
  - eapply returns_bind.
    + apply Hb. now left.
    + intros u. apply IH. intros y Hy. apply Hb. now right.
Qed.

Lemma keeps_ret {A} (I : S -> Prop) (a : A) : keeps I (ret a).
Proof. intros w Hw. exact Hw. Qed.

Lemma keeps_throw {A} (I : S -> Prop) msg : keeps I (@throw S A msg).
Proof. intros w Hw. exact Hw. Qed.

Lemma keeps_stuck {A} (I : S -> Prop) msg : keeps I (@stuck S A msg).
Proof. intros w Hw. exact Hw. Qed.

Lemma keeps_bind {A B} (I : S -> Prop) (c : StateM S A) (k : A -> StateM S B) :
  keeps I c -> (forall a, keeps I (k a)) -> keeps I (bind c k).
Proof.
  intros Hc Hk w Hw. unfold bind. specialize (Hc w Hw).
  destruct (c w) as [[a|msg|why] w']; simpl in *; auto. apply Hk. exact Hc.
Qed.

Lemma keeps_modify (I : S -> Prop) (f : S -> S) :
  (forall w, I w -> I (f w)) -> keeps I (modify f).
Proof. intros H w Hw. simpl. auto. Qed.

Lemma keeps_getState (I : S -> Prop) : keeps I getState.
Proof. intros w Hw. exact Hw. Qed.

Lemma keeps_when (I : S -> Prop) (b : bool) (c : StateM S unit) :
  keeps I c -> keeps I (when b c).
Proof. destruct b; simpl; auto using keeps_ret. Qed.

Lemma keeps_forEach {A} (I : S -> Prop) (l : list A) (body : A -> StateM S unit) :
  (forall x, keeps I (body x)) -> keeps I (forEach l body).
Proof.
  intros Hb. induction l as [|x l IH]; simpl.
  - apply keeps_ret.
  - apply keeps_bind; auto.
Qed.

Lemma keeps_if {A} (I : S -> Prop) (b : bool) (c1 c2 : StateM S A) :
  keeps I c1 -> keeps I c2 -> keeps I (if b then c1 else c2).
Proof. destruct b; auto. Qed.
End Logic.

Section LogicIndexed.
Context {S : Type}.

(** A loop whose invariant counts the turns. *)
Lemma returns_forEach_from {A} (I : nat -> S -> Prop) (l : list A)
    (body : A -> StateM S unit) (k : nat) :
  (forall i x, l !! i = Some x ->
               returns (I (k + i)%nat) (body x) (fun _ => I (Datatypes.S (k + i)))) ->
  returns (I k) (forEach l body) (fun _ => I (k + length l)%nat).
Proof.
  revert k. induction l as [|x l IH]; intros k Hb; simpl.
  - apply returns_ret. intros w Hw. now rewrite Nat.add_0_r.
  - eapply returns_bind.
    + specialize (Hb 0%nat x eq_refl). rewrite Nat.add_0_r in Hb. exact Hb.
    + intros u. eapply returns_weaken.
      * apply (IH (Datatypes.S k)). intros i y Hy.
        specialize (Hb (Datatypes.S i) y Hy).
        replace (Datatypes.S k + i)%nat with (k + Datatypes.S i)%nat by lia. exact Hb.
      * auto.
      * intros a w Hw. simpl in Hw.
        replace (k + Datatypes.S (length l))%nat with (Datatypes.S (k + length l))%nat by lia.
        exact Hw.
Qed.
End LogicIndexed.

Lemma bind_run {S A B} (c : StateM S A) (k : A -> StateM S B) w a w' :
  c w = (Ret a, w') -> bind c k w = k a w'.
Proof. intros H. unfold bind. now rewrite H. Qed.

Lemma bind_ext {S A B} (c1 c2 : StateM S A) (k1 k2 : A -> StateM S B) (w : S) :
  c1 w = c2 w -> (forall a w', k1 a w' = k2 a w') -> bind c1 k1 w = bind c2 k2 w.
Proof.
  intros Hc Hk. unfold bind. rewrite Hc.
  destruct (c2 w) as [[a| |] w']; auto.
Qed.

(** Reads and updates of a store at an allocated reference. *)
Section WorldRun.

Lemma World_readEntity_run (w : World.t) e x :
  World.entityStore w !! e = Some x -> readEntity e w = (Ret x, w).
Proof. intros H. unfold readEntity. now rewrite H. Qed.

Lemma World_updateEntity_run (w : World.t) e x f :
  World.entityStore w !! e = Some x ->
  updateEntity e f w = (Ret tt, World.with_entityStore (<[e := f x]> (World.entityStore w)) w).
Proof. intros H. unfold updateEntity, bind. now rewrite (World_readEntity_run w e x H). Qed.

Lemma World_readQuery_run (w : World.t) q x :
  World.queryStore w !! q = Some x -> readQuery q w = (Ret x, w).
Proof. intros H. unfold readQuery. now rewrite H. Qed.

Lemma World_updateQuery_run (w : World.t) q x f :
  World.queryStore w !! q = Some x ->
  updateQuery q f w = (Ret tt, World.with_queryStore (<[q := f x]> (World.queryStore w)) w).
Proof. intros H. unfold updateQuery, bind. now rewrite (World_readQuery_run w q x H). Qed.

Lemma World_readPool_run (w : World.t) p x :
  World.poolStore w !! p = Some x -> readPool p w = (Ret x, w).
Proof. intros H. unfold readPool. now rewrite H. Qed.

Lemma World_updatePool_run (w : World.t) p x f :
  World.poolStore w !! p = Some x ->
  updatePool p f w = (Ret tt, World.with_poolStore (<[p := f x]> (World.poolStore w)) w).
Proof. intros H. unfold updatePool, bind. now rewrite (World_readPool_run w p x H). Qed.
End WorldRun.

(** Running a [World] program step by step. *)
Lemma World_lookup_updated (w : World.t) e x (f : Entity.t -> Entity.t) :
  World.entityStore w !! e = Some x ->
  World.entityStore (World.with_entityStore (<[e := f x]> (World.entityStore w)) w) !! e
  = Some (f x).
Proof. intros H. simpl. apply list_lookup_insert_eq. eapply lookup_lt_Some; eauto. Qed.

Lemma get_del_eq {V} (o : JS.obj V) k : JS.get (JS.del o k) k = None.
Proof.
  induction o as [|[k' v] o IH]; simpl; [reflexivity|].
  destruct (decide (k' = k)); [exact IH|]. simpl.
  destruct (decide (k' = k)); [contradiction | exact IH].
Qed.

Lemma bind_assoc {S A B C} (c : StateM S A) (k1 : A -> StateM S B)
    (k2 : B -> StateM S C) (w : S) :
  bind (bind c k1) k2 w = bind c (fun a => bind (k1 a) k2) w.
Proof. unfold bind. destruct (c w) as [[a| |] w']; reflexivity. Qed.

Lemma ret_bind {S A B} (a : A) (k : A -> StateM S B) (w : S) :
  bind (ret a) k w = k a w.
Proof. reflexivity. Qed.

Ltac wrun_read H :=
  rewrite ?bind_assoc;
  match goal with
  | |- context [bind (readEntity ?e) ?k ?w] =>
      rewrite (bind_run (readEntity e) k w _ w (World_readEntity_run w e _ H)); cbv beta
  end.
Ltac wrun_update H H' :=
  rewrite ?bind_assoc;
  match goal with
  | |- context [bind (updateEntity ?e ?f) ?k ?w] =>
      rewrite (bind_run (updateEntity e f) k w tt _ (World_updateEntity_run w e _ f H));
      pose proof (World_lookup_updated w e _ f H) as H'; cbv beta in H'
  end.


(* ===================================================================== *)
(** * generateUUID *)
(* ===================================================================== *)

Lemma byte_ok_all : forallb byte_ok (seq 0 256) = true.
Proof. vm_compute. reflexivity. Qed.

Lemma byteText_shape (b : Z) :
  0 <= b < 256 ->
  exists hi lo,
    byteText b = String hi (String lo EmptyString)
    /\ isUpperHexDigit hi = true /\ isUpperHexDigit lo = true
    /\ (64 <= b < 80 -> hi = "4"%char)
    /\ (128 <= b < 192 -> In hi (list_ascii_of_string "89AB")).
Proof.
  intros Hb.
  pose proof byte_ok_all as Hall.
  rewrite forallb_forall in Hall.
  specialize (Hall (Z.to_nat b)).
  assert (Hin : In (Z.to_nat b) (seq 0 256)) by (apply in_seq; lia).
  specialize (Hall Hin). unfold byte_ok in Hall.
  rewrite Z2Nat.id in Hall by lia.
  destruct (byteText b) as [|hi [|lo [|]]]; try discriminate.
  exists hi, lo. 
  apply andb_prop in Hall as [Hall H4]. apply andb_prop in Hall as [Hall H3].
  apply andb_prop in Hall as [H1 H2].
  repeat split; auto.
  - intros Hr. 
    destruct ((64 <=? Z.to_nat b)%nat && (Z.to_nat b <? 80)%nat) eqn:E.
    + apply Ascii.eqb_eq in H3. exact H3.
    + apply andb_false_iff in E as [E|E]; [apply Nat.leb_gt in E | apply Nat.ltb_ge in E]; lia.
  - intros Hr.
    destruct ((128 <=? Z.to_nat b)%nat && (Z.to_nat b <? 192)%nat) eqn:E.
    + apply existsb_exists in H4 as [x [Hx Hxe]]. apply Ascii.eqb_eq in Hxe. subst. exact Hx.
    + apply andb_false_iff in E as [E|E]; [apply Nat.leb_gt in E | apply Nat.ltb_ge in E]; lia.
Qed.

Lemma land_255_range x : 0 <= Z.land x 255 < 256.
Proof.
  change 255 with (Z.ones 8). rewrite Z.land_ones by lia.
  apply Z.mod_pos_bound. lia.
Qed.

Lemma version_byte_range x : 64 <= Z.lor (Z.land x 15) 64 < 80.
Proof.
  change 15 with (Z.ones 4). rewrite Z.land_ones by lia.
  assert (H : 0 <= x mod 2 ^ 4 < 16) by (apply Z.mod_pos_bound; lia).
  set (a := x mod 2 ^ 4) in *.
  assert (Hc : forallb (fun n => let a := Z.of_nat n in (64 <=? Z.lor a 64) && (Z.lor a 64 <? 80)) (seq 0 16) = true) by (vm_compute; reflexivity).
  rewrite forallb_forall in Hc. specialize (Hc (Z.to_nat a)).
  rewrite Z2Nat.id in Hc by lia.
  assert (Hin : In (Z.to_nat a) (seq 0 16)) by (apply in_seq; lia).
  apply Hc in Hin. apply andb_prop in Hin as [H1 H2]. lia.
Qed.

Lemma variant_byte_range x : 128 <= Z.lor (Z.land x 63) 128 < 192.
Proof.
  change 63 with (Z.ones 6). rewrite Z.land_ones by lia.
  assert (H : 0 <= x mod 2 ^ 6 < 64) by (apply Z.mod_pos_bound; lia).
  set (a := x mod 2 ^ 6) in *.
  assert (Hc : forallb (fun n => let a := Z.of_nat n in (128 <=? Z.lor a 128) && (Z.lor a 128 <? 192)) (seq 0 64) = true) by (vm_compute; reflexivity).
  rewrite forallb_forall in Hc. specialize (Hc (Z.to_nat a)).
  rewrite Z2Nat.id in Hc by lia.
  assert (Hin : In (Z.to_nat a) (seq 0 64)) by (apply in_seq; lia).
  apply Hc in Hin. apply andb_prop in Hin as [H1 H2]. lia.
Qed.

Lemma toUpperCase_app a b :
  Utils.toUpperCase (a +:+ b) = Utils.toUpperCase a +:+ Utils.toUpperCase b.
Proof. induction a as [|c a IH]; simpl; [reflexivity | now rewrite IH]. Qed.

Lemma upperHex_not_hyphen c : isUpperHexDigit c = true -> c <> "-"%char.
Proof. intros H ->. vm_compute in H. discriminate. Qed.

Lemma uuidOfWords_format d0 d1 d2 d3 : uuidFormat (Utils.uuidOfWords d0 d1 d2 d3).
Proof.
  unfold Utils.uuidOfWords.
  repeat rewrite toUpperCase_app.
  change (Utils.toUpperCase "-") with "-".
  repeat match goal with |- context [Utils.toUpperCase (Utils.lut ?b)] =>
    change (Utils.toUpperCase (Utils.lut b)) with (byteText b) end.
  destruct (byteText_shape _ (land_255_range d0)) as (a0 & a1 & -> & ? & ? & _).
  destruct (byteText_shape _ (land_255_range (Z.shiftr d0 8))) as (a2 & a3 & -> & ? & ? & _).
  destruct (byteText_shape _ (land_255_range (Z.shiftr d0 16))) as (a4 & a5 & -> & ? & ? & _).
  destruct (byteText_shape _ (land_255_range (Z.shiftr d0 24))) as (a6 & a7 & -> & ? & ? & _).
  destruct (byteText_shape _ (land_255_range d1)) as (b0 & b1 & -> & ? & ? & _).
  destruct (byteText_shape _ (land_255_range (Z.shiftr d1 8))) as (b2 & b3 & -> & ? & ? & _).
  pose proof (version_byte_range (Z.shiftr d1 16)) as Hv.
  destruct (byteText_shape (Z.lor (Z.land (Z.shiftr d1 16) 15) 64)) as (b4 & b5 & -> & ? & ? & Hver & _); [lia|].
  specialize (Hver Hv). subst b4.
  destruct (byteText_shape _ (land_255_range (Z.shiftr d1 24))) as (b6 & b7 & -> & ? & ? & _).
  pose proof (variant_byte_range d2) as Hr.
  destruct (byteText_shape (Z.lor (Z.land d2 63) 128)) as (c0 & c1 & -> & ? & ? & _ & Hvar); [lia|].
  specialize (Hvar Hr).
  destruct (byteText_shape _ (land_255_range (Z.shiftr d2 8))) as (c2 & c3 & -> & ? & ? & _).
  destruct (byteText_shape _ (land_255_range (Z.shiftr d2 16))) as (c4 & c5 & -> & ? & ? & _).
  destruct (byteText_shape _ (land_255_range (Z.shiftr d2 24))) as (c6 & c7 & -> & ? & ? & _).
  destruct (byteText_shape _ (land_255_range d3)) as (e0 & e1 & -> & ? & ? & _).
  destruct (byteText_shape _ (land_255_range (Z.shiftr d3 8))) as (e2 & e3 & -> & ? & ? & _).
  destruct (byteText_shape _ (land_255_range (Z.shiftr d3 16))) as (e4 & e5 & -> & ? & ? & _).
  destruct (byteText_shape _ (land_255_range (Z.shiftr d3 24))) as (e6 & e7 & -> & ? & ? & _).
  unfold uuidFormat. cbv [append].
  split; [reflexivity|]. split.
  - eexists (String a0 (String a1 (String a2 (String a3 (String a4 (String a5 (String a6 (String a7 "")))))))),
           (String b0 (String b1 (String b2 (String b3 "")))),
           (String "4" (String b5 (String b6 (String b7 "")))),
           (String c0 (String c1 (String c2 (String c3 "")))),
           (String c4 (String c5 (String c6 (String c7 (String e0 (String e1 (String e2 (String e3 (String e4 (String e5 (String e6 (String e7 "")))))))))))).
    split; [reflexivity|]. split; [reflexivity|].
    assert (Hc0 : isUpperHexDigit c0 = true) by assumption.
    unfold allUpperHex. cbn [forallb list_ascii_of_string].
    repeat match goal with H : isUpperHexDigit _ = true |- _ => rewrite H; clear H end.
    reflexivity.
  - unfold hexDigitsOf. cbn [list_ascii_of_string].
    repeat match goal with H : isUpperHexDigit _ = true |- _ => apply upperHex_not_hyphen in H end.
    assert (Hfour : "4"%char <> "-"%char) by discriminate.
    repeat (first [ rewrite filter_cons_True by assumption
                  | rewrite filter_cons_False by (intros Hn; apply Hn; reflexivity) ]).
    split; [reflexivity|]. exists c0. split; [reflexivity | assumption].
Qed.

(** C9. Every string returned by [generateUUID] has 36 characters, made of
    upper-case hexadecimal digits in groups of 8-4-4-4-12 separated by
    hyphens, with the 13th hexadecimal digit equal to 4 and the 17th among
    8, 9, A and B, whatever the random source yields. *)
Theorem generateUUID_format (random : nat -> Z) (calls : nat) :
  uuidFormat (fst (Utils.generateUUID random calls)).
Proof. unfold Utils.generateUUID. simpl. apply uuidOfWords_format. Qed.

(** The same for the call made against a world. *)
Lemma World_generateUUID_format (w : World.t) :
  exists s w', generateUUID w = (Ret s, w') /\ uuidFormat s.
Proof.
  unfold generateUUID.
  destruct (Utils.generateUUID (World.random w) (World.randomCalls w)) as [s n] eqn:E.
  exists s, (World.with_randomCalls n w). split; [reflexivity|].
  unfold Utils.generateUUID in E. injection E as <- _. apply uuidOfWords_format.
Qed.

(* ===================================================================== *)
(** * ObjectPool: growth on an empty free list *)
(* ===================================================================== *)

Lemma read_defined {V} (o : JS.obj (option V)) k :
  Forall (fun kv => is_Some (snd kv)) o -> In k (JS.keys o) ->
  exists v, JS.read o k = Some v.
Proof.
  unfold JS.read. induction o as [|[k' v'] o IH]; intros Hall Hin; simpl in *.
  - contradiction.
  - inversion Hall as [|? ? Hv Hrest]; subst. destruct (decide (k' = k)) as [->|Hne].
    + simpl in Hv. destruct Hv as [v Hv]. exists v. exact Hv.
    + destruct Hin as [Heq|Hin]; [congruence|]. auto.
Qed.

Section Clone.
Variable ps : list ObjectPool.t.
Variable b : EntityRef.
Variable eb : Entity.t.
Hypothesis Hdef : Forall (fun kv => is_Some (snd kv)) (Entity.components eb).

Let J (n : EntityRef) (w : World.t) : Prop :=
  World.poolStore w = ps /\ World.entityStore w !! b = Some eb
  /\ (n < length (World.entityStore w))%nat /\ n <> b.

Lemma Entity_copy_returns n :
  returns (J n) (Entity_copy n b) (fun r w => r = n /\ J n w).
Proof.
  unfold Entity_copy.
  eapply returns_bind with (R := fun src w => src = eb /\ J n w).
  { intros w HJ. destruct HJ as (Hp & Hb & Hn & Hne). unfold readEntity. rewrite Hb.
    eexists _, _. split; [reflexivity|]. repeat split; auto. }
  intros src. 
  eapply returns_bind with (R := fun _ w => J n w).
  2:{ intros u. apply returns_ret. auto. }
  intros w [-> HJ]. revert w HJ.
  change (returns (J n) (forEach (JS.keys (Entity.components eb)) (fun componentName : string =>
        s ← readEntity b;
        match JS.read (Entity.components s) componentName with
        | Some sourceComponent =>
            c ← Component_clone sourceComponent;
            updateEntity n
              (fun e : Entity.t =>
               Entity.with_components
                 (JS.set (Entity.components e) componentName (Some c)) e);;
            updateEntity n
              (fun e : Entity.t =>
               Entity.with_componentTypes
                 (JS.push (Entity.componentTypes e)
                    (constructor_ sourceComponent))
                 e)
        | None => throw "TypeError: sourceComponent is undefined"
        end)) (fun _ => J n)).
  apply returns_forEach. intros k Hk w (Hp & Hb & Hn & Hne).
  destruct (read_defined _ k Hdef Hk) as [c Hc].
  destruct (lookup_lt_is_Some_2 _ _ Hn) as [en Hen].
  unfold bind, readEntity at 1. rewrite Hb, Hc.
  unfold Component_clone, Component_new, bind, freshInstanceId, ret, updateEntity, bind, readEntity, modify; simpl.
  rewrite Hen. simpl. rewrite list_lookup_insert_eq by lia. simpl.
  eexists _, _. split; [reflexivity|]. unfold J; simpl.
  rewrite !length_insert. rewrite !list_lookup_insert_ne by auto. auto.
Qed.
End Clone.

Lemma Entity_clone_returns ps b eb :
  Forall (fun kv => is_Some (snd kv)) (Entity.components eb) ->
  returns (fun w => World.poolStore w = ps /\ World.entityStore w !! b = Some eb)
          (Entity_clone b)
          (fun n w => World.poolStore w = ps /\ World.entityStore w !! b = Some eb
                      /\ (n < length (World.entityStore w))%nat /\ n <> b).
Proof.
  intros Hdef. unfold Entity_clone.
  eapply returns_bind.
  - intros w [Hp Hb]. unfold Entity_new, bind, generateUUID, allocEntity.
    destruct (Utils.generateUUID (World.random w) (World.randomCalls w)) as [u k].
    simpl. eexists _, _. split; [reflexivity|].
    instantiate (1 := fun n w => World.poolStore w = ps /\ World.entityStore w !! b = Some eb
                      /\ (n < length (World.entityStore w))%nat /\ n <> b).
    simpl. pose proof (lookup_lt_Some _ _ _ Hb) as Hlt.
    rewrite lookup_app_l by exact Hlt. rewrite length_app. simpl.
    repeat split; auto; lia.
  - intros n. eapply returns_weaken.
    + apply (Entity_copy_returns ps b eb Hdef n).
    + auto.
    + intros a w [-> H]. exact H.
Qed.

Lemma Item_clone_pooled_returns ps p base :
  returns (fun w => World.poolStore w = ps /\ baseReady w base)
          (clone ← Item_clone base; Item_set_pool clone p)
          (fun _ w => World.poolStore w = ps /\ baseReady w base).
Proof.
  destruct base as [c|b].
  - intros w [Hp _]. 
    unfold Item_clone, Component_clone, Component_new, Item_set_pool, bind, freshInstanceId, ret.
    simpl. eexists _, _. split; [reflexivity|]. simpl. auto.
  - intros w [Hp (eb & Hb & Hdef)].
    destruct (Entity_clone_returns ps b eb Hdef w (conj Hp Hb)) as (n & w1 & Hrun & Hp1 & Hb1 & Hn & Hne).
    destruct (lookup_lt_is_Some_2 _ _ Hn) as [en Hen].
    unfold Item_clone, bind. rewrite Hrun. unfold ret, Item_set_pool, bind, updateEntity, bind, readEntity, modify.
    rewrite Hen. eexists _, _. split; [reflexivity|]. simpl. split; [exact Hp1|].
    exists eb. rewrite list_lookup_insert_ne by auto. auto.
Qed.

Section Expand.
Variable p : PoolRef.
Variable base : Item.
Variable c0 : Z.
Variable k0 : nat.

Let K (i : nat) (w : World.t) : Prop :=
  (exists pool, World.poolStore w !! p = Some pool
                /\ ObjectPool.baseObject pool = base
                /\ ObjectPool.count pool = c0
                /\ length (ObjectPool.freeList pool) = (k0 + i)%nat)
  /\ baseReady w base.

Lemma ObjectPool_expand_returns (n : Z) :
  returns (K 0) (ObjectPool_expand p n)
    (fun _ w =>
       (exists pool, World.poolStore w !! p = Some pool
                     /\ ObjectPool.baseObject pool = base
                     /\ ObjectPool.count pool = c0 + n
                     /\ length (ObjectPool.freeList pool) = (k0 + Z.to_nat n)%nat)
       /\ baseReady w base).
Proof.
  unfold ObjectPool_expand.
  eapply returns_bind with (R := fun _ => K (Z.to_nat n)).
  - eapply returns_weaken.
    + apply (returns_forEach_from K _ _ 0%nat).
      intros i x _ w [(pool & Hp & Hbase & Hc & Hlen) Hready]. simpl.
      destruct (Item_clone_pooled_returns (World.poolStore w) p base w (conj eq_refl Hready))
        as (clone & w1 & Hrun & Hp1 & Hready1).
      unfold bind in Hrun |- *. unfold readPool at 1. rewrite Hp. rewrite Hbase.
      destruct (Item_clone base w) as [[it|?|?] wc]; try discriminate.
      rewrite Hrun. unfold updatePool, bind, readPool, modify. rewrite Hp1, Hp.
      eexists _, _. split; [reflexivity|]. split.
      * simpl. rewrite list_lookup_insert_eq by (rewrite Hp1; eapply lookup_lt_Some; eauto).
        eexists. split; [reflexivity|]. simpl. repeat split; auto.
        unfold JS.push. rewrite length_app. simpl. lia.
      * destruct base as [c|b]; simpl in *; auto.
    + auto.
    + intros a w Hw. rewrite length_seq in Hw. exact Hw.
  - intros u w [(pool & Hp & Hbase & Hc & Hlen) Hready].
    unfold updatePool, bind, readPool, modify. rewrite Hp.
    eexists _, _. split; [reflexivity|]. split.
    + simpl. rewrite list_lookup_insert_eq by (eapply lookup_lt_Some; eauto).
      eexists. split; [reflexivity|]. simpl. repeat split; auto. lia.
    + destruct base as [c|b]; simpl in *; auto.
Qed.
End Expand.

(** C5 (amended). When [acquire] finds the free list empty, the pool, of a
    total size of at most [2 ^ 50] (the range in which the double product
    [count * 0.2] rounds as the exact one), grows by
    [Math.round(0.2 * count) + 1]: its total size rises by that amount, that
    many items are produced (one of them is handed out), and a pool of
    non-negative size always hands one out. *)
Theorem ObjectPool_acquire_growth (w : World.t) (p : PoolRef) (pool : ObjectPool.t) :
  World.poolStore w !! p = Some pool ->
  ObjectPool.freeList pool = [] ->
  baseReady w (ObjectPool.baseObject pool) ->
  roundingExact (ObjectPool.count pool) ->
  let growth := Math_round_fifth (ObjectPool.count pool) + 1 in
  exists item w' pool',
    ObjectPool_acquire p w = (Ret item, w')
    /\ World.poolStore w' !! p = Some pool'
    /\ ObjectPool.totalSize pool' = ObjectPool.totalSize pool + growth
    /\ (length (ObjectPool.freeList pool') + (match item with Some _ => 1 | None => 0 end))%nat = Z.to_nat growth
    /\ (0 <= ObjectPool.count pool -> is_Some item).
Proof.
  intros Hp Hfree Hready _ growth.
  unfold ObjectPool_acquire, bind. unfold readPool at 1. rewrite Hp, Hfree. simpl.
  destruct (ObjectPool_expand_returns p (ObjectPool.baseObject pool) (ObjectPool.count pool) 0 growth w)
    as ([] & w1 & Hrun & (pool1 & Hp1 & Hbase1 & Hc1 & Hlen1) & Hready1).
  { split; [|exact Hready]. exists pool. rewrite Hfree. auto. }
  fold growth. rewrite Hrun. unfold readPool. rewrite Hp1.
  unfold JS.pop, updatePool, bind, readPool, modify, ret. rewrite Hp1.
  eexists _, _, _. split; [reflexivity|]. simpl.
  rewrite list_lookup_insert_eq by (eapply lookup_lt_Some; eauto).
  split; [reflexivity|]. simpl. unfold ObjectPool.totalSize. split; [exact Hc1|].
  simpl in Hlen1. split.
  - destruct (ObjectPool.freeList pool1) as [|x l] eqn:E using rev_ind.
    + simpl in *. lia.
    + rewrite last_snoc, removelast_last. rewrite length_app in Hlen1. simpl in *. lia.
  - intros Hc. assert (Hg : 1 <= growth).
    { unfold growth, Math_round_fifth. assert (0 <= (2 * ObjectPool.count pool + 5) / 10) by (apply Z.div_pos; lia). lia. }
    destruct (ObjectPool.freeList pool1) as [|x l] eqn:E using rev_ind.
    + simpl in Hlen1. lia.
    + rewrite last_snoc. eauto.
Qed.

(** C5 (as stated) fails: a pool of total size 11 with an empty free list
    grows by 3, which is not [⌈0.2 * 11⌉ + 1 = 4]. *)
Lemma ObjectPool_acquire_not_ceiling :
  exists pool item w' pool',
    World.poolStore drainedPoolWorld !! 1%nat = Some pool
    /\ ObjectPool.freeList pool = [] /\ ObjectPool.count pool = 11
    /\ ObjectPool_acquire 1%nat drainedPoolWorld = (Ret item, w')
    /\ World.poolStore w' !! 1%nat = Some pool'
    /\ ObjectPool.count pool' - ObjectPool.count pool = 3
    /\ ObjectPool.count pool' - ObjectPool.count pool <> spec_growth (ObjectPool.count pool).
Proof.
  eexists _, _, _, _.
  split; [vm_compute; reflexivity|].
  split; [reflexivity|]. split; [reflexivity|].
  split; [vm_compute; reflexivity|].
  split; [vm_compute; reflexivity|].
  split; [vm_compute; reflexivity|]. vm_compute. discriminate.
Qed.

Lemma ObjectPool_acquire_growth_witness :
  exists pool,
    World.poolStore drainedPoolWorld !! 1%nat = Some pool
    /\ ObjectPool.freeList pool = []
    /\ baseReady drainedPoolWorld (ObjectPool.baseObject pool)
    /\ roundingExact (ObjectPool.count pool)
    /\ exists item w' pool',
         ObjectPool_acquire 1%nat drainedPoolWorld = (Ret item, w')
         /\ World.poolStore w' !! 1%nat = Some pool'
         /\ ObjectPool.totalSize pool' = ObjectPool.totalSize pool + 3
         /\ (length (ObjectPool.freeList pool')
             + (match item with Some _ => 1 | None => 0 end))%nat = 3%nat
         /\ (0 <= ObjectPool.count pool -> is_Some item).
Proof.
  eexists.
  assert (H1 : World.poolStore drainedPoolWorld !! 1%nat
               = Some (ObjectPool.mk [] 11
                         (ItemComponent {| instanceId := 0; constructor_ := Position;
                                           component_pool := None |})))
    by (vm_compute; reflexivity).
  assert (H2 : roundingExact 11) by (unfold roundingExact; simpl; lia).
  split; [exact H1|]. split; [reflexivity|]. split; [exact I|]. split; [exact H2|].
  exact (ObjectPool_acquire_growth drainedPoolWorld 1%nat _ H1 eq_refl I H2).
Defined.

(* ===================================================================== *)
(** * Queries: construction, the index, complements *)
(* ===================================================================== *)


(** ** Arrays and dictionaries *)

Lemma indexOf_from_ge {A} `{EqDecision A} (l : list A) (x : A) (i : Z) :
  JS.indexOf_from i l x = -1 \/ i <= JS.indexOf_from i l x < i + Z.of_nat (length l).
Proof.
  revert i. induction l as [|y l IH]; intros i; simpl.
  - now left.
  - destruct (decide (y = x)).
    + right. lia.
    + destruct (IH (i + 1)) as [H|H]; [now left | right; lia].
Qed.

Lemma indexOf_from_In {A} `{EqDecision A} (l : list A) (x : A) (i : Z) :
  0 <= i -> (JS.indexOf_from i l x <> -1 <-> In x l).
Proof.
  revert i. induction l as [|y l IH]; intros i Hi; simpl.
  - tauto.
  - destruct (decide (y = x)) as [->|Hne].
    + split; [now left | lia].
    + rewrite IH by lia. split; [now right | intros [?|?]; [congruence | assumption]].
Qed.

Lemma tilde_indexOf_In {A} `{EqDecision A} (l : list A) (x : A) :
  JS.tilde (JS.indexOf l x) = true <-> In x l.
Proof.
  unfold JS.tilde, JS.indexOf. rewrite negb_true_iff, Z.eqb_neq.
  apply indexOf_from_In. lia.
Qed.

Lemma get_set_eq {V} (o : JS.obj V) k v : JS.get (JS.set o k v) k = Some v.
Proof.
  induction o as [|[k' v'] o IH]; simpl.
  - destruct (decide (k = k)); congruence.
  - destruct (decide (k' = k)) as [->|Hne]; simpl.
    + destruct (decide (k = k)); congruence.
    + destruct (decide (k' = k)); [congruence | exact IH].
Qed.

Lemma get_set_ne {V} (o : JS.obj V) k k' v : k <> k' -> JS.get (JS.set o k v) k' = JS.get o k'.
Proof.
  intros Hne. induction o as [|[k0 v0] o IH]; simpl.
  - destruct (decide (k = k')); congruence.
  - destruct (decide (k0 = k)) as [->|Hne0]; simpl.
    + destruct (decide (k = k')); congruence.
    + destruct (decide (k0 = k')); [reflexivity | exact IH].
Qed.

(** ** Matching *)

Lemma hasAll_forallb e Ts :
  Entity_hasAllComponents e Ts = forallb (hasType (Entity.componentTypes e)) Ts.
Proof.
  induction Ts as [|T Ts IH]; simpl; [reflexivity|].
  unfold Entity_hasComponent at 1. unfold hasType at 1.
  rewrite orb_false_r. destruct (JS.tilde _); simpl; auto.
Qed.

Lemma hasAny_existsb e Ts :
  Entity_hasAnyComponents e Ts = existsb (hasType (Entity.componentTypes e)) Ts.
Proof.
  induction Ts as [|T Ts IH]; simpl; [reflexivity|].
  unfold Entity_hasComponent at 1. unfold hasType at 1.
  rewrite orb_false_r. destruct (JS.tilde _); simpl; auto.
Qed.

Lemma Query_match_types x e :
  Query_match x e = typesMatch (Query.Components x) (Query.NotComponents x) (Entity.componentTypes e).
Proof. unfold Query_match, typesMatch. now rewrite hasAll_forallb, hasAny_existsb. Qed.

(** ** The query constructor *)

Section Seeding.
Variable w0 : World.t.
Variable S : list QueryTerm.
Hypothesis Hvalid : Forall (fun e => (e < length (World.entityStore w0))%nat) (World.entities w0).

Let q0 := length (World.queryStore w0).
Let pos := positives S.
Let neg := negatives S.

Let I (i : nat) (w : World.t) : Prop :=
  World.queryStore w
  = World.queryStore w0
    ++ [Query.mk pos neg (List.filter (selects w0 pos neg) (take i (World.entities w0)))
                 [] false (queryKey S)]
  /\ sameTypes w0 w
  /\ World.entities w = World.entities w0
  /\ World.queries w = World.queries w0.

Lemma Query_new_seeds :
  pos <> [] ->
  exists w',
    Query_new S w0 = (Ret q0, w')
    /\ World.queryStore w'
       = World.queryStore w0 ++ [Query.mk pos neg (selected w0 pos neg) [] false (queryKey S)]
    /\ sameTypes w0 w'
    /\ World.entities w' = World.entities w0
    /\ World.queries w' = World.queries w0.
Proof.
  intros Hpos.
  assert (Hret : returns (fun w => w = w0) (Query_new S)
            (fun q w => q = q0 /\ I (length (World.entities w0)) w)).
  { unfold Query_new. fold pos neg.
    destruct (length pos =? 0)%nat eqn:E.
    { apply Nat.eqb_eq in E. destruct pos; [congruence | discriminate]. }
    eapply returns_bind with (R := fun q w => q = q0 /\ I 0 w).
    { intros w ->. unfold allocQuery. eexists _, _. split; [reflexivity|].
      split; [reflexivity|]. unfold I, sameTypes; simpl. repeat split; auto. }
    intros q. eapply returns_bind with (R := fun a w => q = q0 /\ World.entities a = World.entities w0 /\ I 0 w).
    { intros w [-> HI]. exists w, w. split; [reflexivity|]. split; [reflexivity|]. split; [apply HI | exact HI]. }
    intros a. eapply returns_bind with (R := fun _ w => q = q0 /\ I (length (World.entities w0)) w).
    2:{ intros u. apply returns_ret. auto. }
    intros w (-> & Ha & HI). rewrite Ha. revert w HI.
    change (returns (I 0)
            (forEach (World.entities w0) (fun entity =>
               e ← readEntity entity;
               x ← readQuery q0;
               when (Query_match x e)
                 (updateEntity entity
                    (fun e0 => Entity.with_queries (JS.push (Entity.queries e0) q0) e0);;
                  updateQuery q0
                    (fun x0 => Query.with_entities (JS.push (Query.entities x0) entity) x0))))
            (fun _ w => q0 = q0 /\ I (0 + length (World.entities w0)) w)).
    eapply returns_weaken; [apply (returns_forEach_from I _ _ 0%nat) | auto | simpl; auto].
    intros i entity Hi w (Hq & (Hlen & Hty) & He & Hqs). simpl.
    assert (Hlt : (entity < length (World.entityStore w0))%nat).
    { exact (Forall_lookup_1 _ _ _ _ Hvalid Hi). }
    destruct (lookup_lt_is_Some_2 (World.entityStore w) entity) as [x Hx]; [lia|].
    destruct (lookup_lt_is_Some_2 (World.entityStore w0) entity) as [x0 Hx0]; [lia|].
    assert (Htx : Entity.componentTypes x = Entity.componentTypes x0).
    { specialize (Hty entity). rewrite Hx, Hx0 in Hty. simpl in Hty. congruence. }
    assert (Hq0 : World.queryStore w !! q0 = Some (Query.mk pos neg (List.filter (selects w0 pos neg) (take i (World.entities w0))) [] false (queryKey S))).
    { rewrite Hq. unfold q0. rewrite lookup_app_r by lia. now rewrite Nat.sub_diag. }
    assert (Htake : take (Datatypes.S i) (World.entities w0) = take i (World.entities w0) ++ [entity]).
    { now apply take_S_r. }
    unfold bind at 1. unfold readEntity at 1. rewrite Hx.
    unfold bind at 1. unfold readQuery at 1. rewrite Hq0.
    rewrite Query_match_types. cbn [Query.Components Query.NotComponents]. rewrite Htx.
    unfold I. rewrite Htake, List.filter_app.
    destruct (typesMatch pos neg (Entity.componentTypes x0)) eqn:Em; simpl.
    - unfold updateEntity, updateQuery, bind, readEntity, readQuery, modify. rewrite Hx. simpl. rewrite Hq0.
      eexists _, _. split; [reflexivity|]. simpl.
      replace (selects w0 pos neg entity) with true by (unfold selects; rewrite Hx0; auto).
      split.
      { rewrite Hq. unfold q0. rewrite insert_app_r_alt by lia. rewrite Nat.sub_diag. reflexivity. }
      split; [|auto]. unfold sameTypes; simpl. split.
      { rewrite length_insert. exact Hlen. }
      intros e'. destruct (decide (e' = entity)) as [->|Hne].
      + rewrite list_lookup_insert_eq by lia. rewrite Hx0. simpl. congruence.
      + rewrite list_lookup_insert_ne by auto. apply Hty.
    - eexists _, _. split; [reflexivity|].
      replace (selects w0 pos neg entity) with false by (unfold selects; rewrite Hx0; auto).
      rewrite app_nil_r. repeat split; auto. }
  destruct (Hret w0 eq_refl) as (q & w' & Hrun & -> & Hq & Hty & He & Hqs).
  exists w'. split; [exact Hrun|]. rewrite firstn_all in Hq. auto.
Qed.
End Seeding.



Lemma Query_new_throws (w : World.t) (S : list QueryTerm) :
  positives S = [] -> Query_new S w = (Throw emptyQueryError, w).
Proof. intros Hpos. unfold Query_new. rewrite Hpos. reflexivity. Qed.

Lemma World_getQuery_throws (w : World.t) (S : list QueryTerm) :
  positives S = [] -> JS.get (World.queries w) (queryKey S) = None ->
  World_getQuery S w = (Throw emptyQueryError, w).
Proof.
  intros Hpos Hfree. unfold World_getQuery, bind, getWorld, getState.
  rewrite Hfree, (Query_new_throws w S Hpos). reflexivity.
Qed.

(** C7. Constructing a query whose list of positive components is empty
    (only [Not] entries, or nothing at all) throws, and the world is left as
    it was: no query is stored and none is entered in the index, also when
    the construction is requested through [getQuery] under a key not yet
    indexed. *)
Theorem Query_without_components_throws (w : World.t) (S : list QueryTerm) :
  positives S = [] ->
  Query_new S w = (Throw emptyQueryError, w)
  /\ (JS.get (World.queries w) (queryKey S) = None ->
      World_getQuery S w = (Throw emptyQueryError, w)).
Proof.
  intros Hpos. split.
  - now apply Query_new_throws.
  - intros Hfree. now apply World_getQuery_throws.
Qed.

Lemma Query_without_components_throws_witness :
  positives [Not Position] = []
  /\ Query_new [Not Position] sceneWorld = (Throw emptyQueryError, sceneWorld)
  /\ (JS.get (World.queries sceneWorld) (queryKey [Not Position]) = None ->
      World_getQuery [Not Position] sceneWorld = (Throw emptyQueryError, sceneWorld)).
Proof.
  split; [reflexivity|].
  exact (Query_without_components_throws sceneWorld [Not Position] eq_refl).
Defined.

Lemma World_getQuery_registers (w : World.t) (S : list QueryTerm) q w1 :
  World_getQuery S w = (Ret q, w1) -> JS.get (World.queries w1) (queryKey S) = Some q.
Proof.
  unfold World_getQuery, bind, getWorld, getState.
  destruct (JS.get (World.queries w) (queryKey S)) as [q'|] eqn:E.
  - unfold ret. intros [= <- <-]. exact E.
  - destruct (Query_new S w) as [[q'| |] w'] eqn:En; try discriminate.
    unfold modify, ret. intros [= <- <-]. simpl. apply get_set_eq.
Qed.

Lemma World_getQuery_known (w : World.t) (S : list QueryTerm) q :
  JS.get (World.queries w) (queryKey S) = Some q -> World_getQuery S w = (Ret q, w).
Proof.
  intros H. unfold World_getQuery, bind, getWorld, getState. rewrite H. reflexivity.
Qed.

(** [queryKey] computes the canonical key of a list built with [Not]. *)
Lemma queryKey_canonical (S : list QueryTerm) :
  builtWithNot S -> queryKey S = canonicalKey S.
Proof.
  intros H. unfold queryKey, canonicalKey. do 2 f_equal.
  induction H as [|T S HT _ IH]; [reflexivity|]. simpl. rewrite IH. f_equal.
  destruct T as [C|operator C]; [reflexivity|]. simpl. subst operator. reflexivity.
Qed.

Lemma World_getQuery_same_key (w : World.t) (S S' : list QueryTerm) :
  queryKey S = queryKey S' ->
  (forall q w1, World_getQuery S w = (Ret q, w1) -> World_getQuery S' w1 = (Ret q, w1))
  /\ (positives S <> [] -> entitiesAllocated w ->
      exists q w1, World_getQuery S w = (Ret q, w1)).
Proof.
  intros Hkey. split.
  - intros q w1 Hrun. apply World_getQuery_known. rewrite <- Hkey.
    eapply World_getQuery_registers; eauto.
  - intros Hpos Hvalid.
    destruct (JS.get (World.queries w) (queryKey S)) as [q|] eqn:E.
    + exists q, w. now apply World_getQuery_known.
    + destruct (Query_new_seeds w S Hvalid Hpos) as (w' & Hrun & _).
      unfold World_getQuery, bind, getWorld, getState. rewrite E, Hrun.
      eexists _, _. reflexivity.
Qed.



Lemma selects_sameTypes w0 w pos neg e :
  sameTypes w0 w -> selects w pos neg e = selects w0 pos neg e.
Proof.
  intros [_ Hty]. unfold selects. specialize (Hty e).
  destruct (World.entityStore w !! e), (World.entityStore w0 !! e); simpl in Hty;
    try discriminate; try reflexivity. congruence.
Qed.

Lemma selected_sameTypes w0 w pos neg :
  sameTypes w0 w -> World.entities w = World.entities w0 ->
  selected w pos neg = selected w0 pos neg.
Proof.
  intros Hty He. unfold selected. rewrite He.
  apply List.filter_ext. intros e. now apply selects_sameTypes.
Qed.

Lemma In_selected w pos neg e x :
  World.entityStore w !! e = Some x -> In e (World.entities w) ->
  (In e (selected w pos neg) <-> typesMatch pos neg (Entity.componentTypes x) = true).
Proof.
  intros Hx Hin. unfold selected. rewrite List.filter_In. unfold selects. rewrite Hx. tauto.
Qed.

Lemma hasComponent_hasType x T :
  Entity_hasComponent x T false = hasType (Entity.componentTypes x) T.
Proof. unfold Entity_hasComponent, hasType. now rewrite orb_false_r. Qed.

(** C8 (amended). For classes [D] and [C], the queries obtained for
    [D, C] and [D, Not(C)] under two fresh keys split the entities of the
    world's list that carry [D]: such an entity is in exactly one of the two
    entity lists (the first when it carries [C], the second when it does
    not), and an entity without [D] is in neither. *)
Theorem complement_queries_partition (w : World.t) (D C : ComponentClass) :
  entitiesAllocated w ->
  JS.get (World.queries w) (queryKey [Bare D; Bare C]) = None ->
  JS.get (World.queries w) (queryKey [Bare D; Not C]) = None ->
  queryKey [Bare D; Bare C] <> queryKey [Bare D; Not C] ->
  exists q1 w1 q2 w2 x1 x2,
    World_getQuery [Bare D; Bare C] w = (Ret q1, w1)
    /\ World_getQuery [Bare D; Not C] w1 = (Ret q2, w2)
    /\ World.queryStore w2 !! q1 = Some x1
    /\ World.queryStore w2 !! q2 = Some x2
    /\ forall e x,
         In e (World.entities w) -> World.entityStore w !! e = Some x ->
         (In e (Query.entities x1)
          <-> Entity_hasComponent x D false = true /\ Entity_hasComponent x C false = true)
         /\ (In e (Query.entities x2)
             <-> Entity_hasComponent x D false = true /\ Entity_hasComponent x C false = false)
         /\ (Entity_hasComponent x D false = true ->
             (In e (Query.entities x1) /\ ~ In e (Query.entities x2))
             \/ (~ In e (Query.entities x1) /\ In e (Query.entities x2))).
Proof.
  intros Hvalid Hfree1 Hfree2 Hkeys.
  destruct (Query_new_seeds w [Bare D; Bare C] Hvalid) as (w1' & Hrun1 & Hq1 & Hty1 & He1 & Hqs1);
    [discriminate|].
  set (q1 := length (World.queryStore w)) in *.
  set (w1 := World.with_queries (JS.set (World.queries w1') (queryKey [Bare D; Bare C]) q1) w1').
  assert (Hget1 : World_getQuery [Bare D; Bare C] w = (Ret q1, w1)).
  { unfold World_getQuery, bind, getWorld, getState. rewrite Hfree1, Hrun1. reflexivity. }
  assert (Hvalid1 : entitiesAllocated w1).
  { unfold entitiesAllocated, w1; simpl. rewrite He1. destruct Hty1 as [Hlen _]. rewrite Hlen. exact Hvalid. }
  assert (Hty1' : sameTypes w w1) by exact Hty1.
  destruct (Query_new_seeds w1 [Bare D; Not C] Hvalid1) as (w2' & Hrun2 & Hq2 & Hty2 & He2 & Hqs2);
    [discriminate|].
  set (q2 := length (World.queryStore w1)) in *.
  set (w2 := World.with_queries (JS.set (World.queries w2') (queryKey [Bare D; Not C]) q2) w2').
  assert (Hget2 : World_getQuery [Bare D; Not C] w1 = (Ret q2, w2)).
  { unfold World_getQuery, bind, getWorld, getState.
    replace (JS.get (World.queries w1) (queryKey [Bare D; Not C])) with (@None nat).
    - rewrite Hrun2. reflexivity.
    - unfold w1; simpl. rewrite get_set_ne by exact Hkeys. rewrite Hqs1. now rewrite Hfree2. }
  assert (Hsel2 : selected w1 [D] [C] = selected w [D] [C]).
  { apply selected_sameTypes; [exact Hty1' | exact He1]. }
  simpl in Hq1, Hq2. rewrite Hsel2 in Hq2.
  assert (Hstore2 : World.queryStore w2
                    = (World.queryStore w
                       ++ [Query.mk [D; C] [] (selected w [D; C] []) [] false (queryKey [Bare D; Bare C])])
                      ++ [Query.mk [D] [C] (selected w [D] [C]) [] false (queryKey [Bare D; Not C])]).
  { unfold w2; simpl. rewrite Hq2. unfold w1; simpl. rewrite Hq1. reflexivity. }
  eexists q1, w1, q2, w2, _, _.
  split; [exact Hget1|]. split; [exact Hget2|].
  split.
  { rewrite Hstore2. rewrite lookup_app_l by (rewrite length_app; simpl; unfold q1; lia).
    rewrite lookup_app_r by (unfold q1; lia). unfold q1. rewrite Nat.sub_diag. reflexivity. }
  split.
  { rewrite Hstore2. unfold q2, w1; simpl. rewrite Hq1.
    rewrite lookup_app_r by lia. rewrite Nat.sub_diag. reflexivity. }
  intros e x Hin Hx. cbn [Query.entities].
  rewrite (In_selected w [D; C] [] e x Hx Hin), (In_selected w [D] [C] e x Hx Hin).
  rewrite !hasComponent_hasType. unfold typesMatch. cbn [forallb existsb].
  destruct (hasType (Entity.componentTypes x) D), (hasType (Entity.componentTypes x) C);
    simpl; intuition congruence.
Qed.

(** C8 (as stated) fails: for the registered class [Position], the list
    [Not(Position)] yields no query at all, [getQuery] throws. *)
Lemma complement_query_alone_throws :
  World.componentTypes sceneWorld !! "Position" = Some Position
  /\ World_getQuery [Not Position] sceneWorld = (Throw emptyQueryError, sceneWorld)
  /\ forall q w', World_getQuery [Not Position] sceneWorld <> (Ret q, w').
Proof.
  assert (H : World_getQuery [Not Position] sceneWorld = (Throw emptyQueryError, sceneWorld)).
  { apply World_getQuery_throws; [reflexivity | vm_compute; reflexivity]. }
  split; [vm_compute; reflexivity|]. split; [exact H|].
  intros q w'. rewrite H. discriminate.
Qed.

Lemma complement_queries_partition_witness :
  exists q1 w1 q2 w2 x1 x2,
    World_getQuery [Bare Position; Bare Velocity] sceneWorld = (Ret q1, w1)
    /\ World_getQuery [Bare Position; Not Velocity] w1 = (Ret q2, w2)
    /\ World.queryStore w2 !! q1 = Some x1
    /\ World.queryStore w2 !! q2 = Some x2
    /\ forall e x,
         In e (World.entities sceneWorld) -> World.entityStore sceneWorld !! e = Some x ->
         (In e (Query.entities x1)
          <-> Entity_hasComponent x Position false = true
              /\ Entity_hasComponent x Velocity false = true)
         /\ (In e (Query.entities x2)
             <-> Entity_hasComponent x Position false = true
                 /\ Entity_hasComponent x Velocity false = false)
         /\ (Entity_hasComponent x Position false = true ->
             (In e (Query.entities x1) /\ ~ In e (Query.entities x2))
             \/ (~ In e (Query.entities x1) /\ In e (Query.entities x2))).
Proof.
  apply (complement_queries_partition sceneWorld Position Velocity).
  - unfold entitiesAllocated. vm_compute. repeat constructor.
  - vm_compute. reflexivity.
  - vm_compute. reflexivity.
  - vm_compute. discriminate.
Defined.

(* ===================================================================== *)
(** * Component attachment and detachment on a concrete scene *)
(* ===================================================================== *)

(** In [sceneWorld] the base entity of the entity pool has reference 0 and
    the three entities have references 1 ([Position]), 2 ([Position],
    [Velocity]) and 3 ([Velocity]); pool 1 is the [Position] pool. *)

(** C2. The code departs from the claim: on the live entity 2, which holds
    the [Position] instance [scenePosition2] and has nothing pending, a
    deferred [removeComponent(Position)] returns [true] but stores
    [undefined] in the pending-removal slot, so [getRemovedComponent] yields
    [undefined] instead of the instance; the tick that follows releases
    nothing to the [Position] pool and drops [Velocity] from the type list
    while its instance stays in the live map. *)
Theorem removeComponent_deferred_loses_instance :
  exists e w1 e1 w2 e2 pool2,
    World.entityStore sceneWorld !! 2%nat = Some e
    /\ Entity.alive e = true
    /\ Entity_getComponent e Position false = Some scenePosition2
    /\ Entity_hasRemovedComponent e Position = false
    /\ Entity_removeComponent 2%nat Position false sceneWorld = (Ret true, w1)
    /\ World.entityStore w1 !! 2%nat = Some e1
    /\ JS.get (Entity._componentsToRemove e1) "Position" = Some None
    /\ Entity_getRemovedComponent e1 Position = None
    /\ World_execute w1 = (Ret tt, w2)
    /\ World.entityStore w2 !! 2%nat = Some e2
    /\ Entity.componentTypes e2 = []
    /\ JS.keys (Entity.components e2) = ["Velocity"]
    /\ World.poolStore w2 !! 1%nat = Some pool2
    /\ ObjectPool.freeList pool2 = [].
Proof.
  eexists _, _, _, _, _, _.
  split; [vm_compute; reflexivity|].
  split; [reflexivity|]. split; [reflexivity|]. split; [reflexivity|].
  split; [vm_compute; reflexivity|].
  split; [vm_compute; reflexivity|].
  split; [reflexivity|]. split; [reflexivity|].
  split; [vm_compute; reflexivity|].
  split; [vm_compute; reflexivity|].
  split; [reflexivity|]. split; [reflexivity|].
  split; [vm_compute; reflexivity|]. reflexivity.
Qed.

(** C3. The code departs from the claim: [Velocity] is neither attached to
    entity 1 nor pending on it, yet [removeComponent(Velocity)] returns
    [true] and empties the type list ([splice(-1, 1)] drops [Position], whose
    instance stays in the live map); the deferred form also records
    [Velocity] as pending, with [undefined] in the pending-removal map. *)
Theorem removeComponent_absent_mutates :
  exists e w1 e1 w2 e2,
    World.entityStore sceneWorld !! 1%nat = Some e
    /\ Entity.componentTypes e = [Position]
    /\ Entity_hasComponent e Velocity true = false
    /\ Entity_removeComponent 1%nat Velocity true sceneWorld = (Ret true, w1)
    /\ World.entityStore w1 !! 1%nat = Some e1
    /\ Entity.componentTypes e1 = []
    /\ JS.keys (Entity.components e1) = ["Position"]
    /\ Entity_removeComponent 1%nat Velocity false sceneWorld = (Ret true, w2)
    /\ World.entityStore w2 !! 1%nat = Some e2
    /\ Entity.componentTypes e2 = []
    /\ Entity._componentTypesToRemove e2 = [Velocity]
    /\ Entity._componentsToRemove e2 = [("Velocity", None)].
Proof.
  eexists _, _, _, _, _.
  split; [vm_compute; reflexivity|].
  split; [reflexivity|]. split; [reflexivity|].
  split; [vm_compute; reflexivity|].
  split; [vm_compute; reflexivity|].
  split; [reflexivity|]. split; [reflexivity|].
  split; [vm_compute; reflexivity|].
  split; [vm_compute; reflexivity|].
  split; [reflexivity|]. split; reflexivity.
Qed.

(** Attaching a class that is already on the type list changes nothing and
    returns [undefined]. *)
Lemma Entity_addComponent_again (w : World.t) (this : nat) (e : Entity.t)
    (T : ComponentClass) (props : option Props) :
  World.entityStore w !! this = Some e ->
  In T (Entity.componentTypes e) ->
  Entity_addComponent this T props w = (Ret None, w).
Proof.
  intros He Hin. unfold Entity_addComponent, bind, readEntity. rewrite He.
  apply tilde_indexOf_In in Hin. rewrite Hin. reflexivity.
Qed.

(** C6. The code departs from the claim: [Position] is attached to entity 1,
    and [addComponent(Position)] on it returns [undefined], not the entity
    (the world is unchanged); attaching the absent [Velocity] does return
    the entity. *)
Theorem addComponent_again_returns_undefined :
  exists e w',
    World.entityStore sceneWorld !! 1%nat = Some e
    /\ Entity_hasComponent e Position false = true
    /\ Entity_addComponent 1%nat Position None sceneWorld = (Ret None, sceneWorld)
    /\ Entity_addComponent 1%nat Position (Some SuppliedProps) sceneWorld
       = (Ret None, sceneWorld)
    /\ Entity_addComponent 1%nat Velocity None sceneWorld = (Ret (Some 1%nat), w').
Proof.
  eexists _, _.
  split; [vm_compute; reflexivity|].
  split; [reflexivity|].
  split; [eapply Entity_addComponent_again; [vm_compute; reflexivity | left; reflexivity]|].
  split; [eapply Entity_addComponent_again; [vm_compute; reflexivity | left; reflexivity]|].
  vm_compute. reflexivity.
Qed.

(** C4. The bundled module does not hold a ghost back: [Entity.dispose]
    never reads [_numSystemStateComponents].  The entity of [meshWorld] is
    alive and holds the system-state component [Mesh], its counter at 1.
    [dispose(true)] tears it down at once: [Mesh] is handed back to its
    pool, the type list is emptied and the entity is put on the free list
    of the entity pool, the counter still at 1.  [dispose()] queues the
    entity, and the next [execute] drains the queue with the same result,
    though [Mesh] was never removed by the caller. *)
Theorem Entity_dispose_ignores_state_count :
  exists e w1 e1 pool1 w2 e2 w3 e3 pool3,
    World.entityStore meshWorld !! 1%nat = Some e
    /\ Entity.alive e = true
    /\ Entity.componentTypes e = [Mesh]
    /\ Entity._numSystemStateComponents e = 1
    /\ Entity_dispose 1%nat true meshWorld = (Ret tt, w1)
    /\ World.entityStore w1 !! 1%nat = Some e1
    /\ Entity.componentTypes e1 = []
    /\ Entity.components e1 = []
    /\ Entity._numSystemStateComponents e1 = 1
    /\ World.poolStore w1 !! World.entityPool w1 = Some pool1
    /\ ObjectPool.freeList pool1 = [ItemEntity 1%nat]
    /\ Entity_dispose 1%nat false meshWorld = (Ret tt, w2)
    /\ World.entityStore w2 !! 1%nat = Some e2
    /\ Entity.alive e2 = false
    /\ Entity.componentTypes e2 = [Mesh]
    /\ Entity._numSystemStateComponents e2 = 1
    /\ World.entitiesToRemove w2 = [1%nat]
    /\ World_execute w2 = (Ret tt, w3)
    /\ World.entityStore w3 !! 1%nat = Some e3
    /\ Entity.componentTypes e3 = []
    /\ Entity.components e3 = []
    /\ Entity._numSystemStateComponents e3 = 1
    /\ World.entitiesToRemove w3 = []
    /\ World.poolStore w3 !! World.entityPool w3 = Some pool3
    /\ ObjectPool.freeList pool3 = [ItemEntity 1%nat].
Proof.
  eexists _, _, _, _, _, _, _, _, _.
  split; [vm_compute; reflexivity|].
  split; [reflexivity|]. split; [reflexivity|]. split; [reflexivity|].
  split; [vm_compute; reflexivity|].
  split; [vm_compute; reflexivity|].
  split; [reflexivity|]. split; [reflexivity|]. split; [reflexivity|].
  split; [vm_compute; reflexivity|]. split; [reflexivity|].
  split; [vm_compute; reflexivity|].
  split; [vm_compute; reflexivity|].
  split; [reflexivity|]. split; [reflexivity|]. split; [reflexivity|].
  split; [vm_compute; reflexivity|].
  split; [vm_compute; reflexivity|].
  split; [vm_compute; reflexivity|].
  split; [reflexivity|]. split; [reflexivity|]. split; [reflexivity|].
  split; [vm_compute; reflexivity|].
  split; [vm_compute; reflexivity|]. reflexivity.
Qed.

(* ===================================================================== *)
(** * The entity manager: entities held back by system-state components *)
(* ===================================================================== *)

Lemma splice1_length {A} (l : list A) (i : Z) :
  0 <= i < Z.of_nat (length l) -> length (JS.splice1 i l) = (length l - 1)%nat.
Proof.
  intros Hi. unfold JS.splice1.
  replace (i <? 0) with false by (symmetry; apply Z.ltb_ge; lia).
  rewrite Z.min_l by lia.
  rewrite length_app, length_take, length_drop. lia.
Qed.

Lemma indexOf_found {A} `{EqDecision A} (l : list A) (x : A) :
  In x l -> 0 <= JS.indexOf l x < Z.of_nat (length l).
Proof.
  intros Hin. unfold JS.indexOf.
  destruct (indexOf_from_ge l x 0) as [H|H]; [|lia].
  apply (indexOf_from_In l x 0) in Hin; [contradiction | lia].
Qed.

Section Ghost.
Context {QM : Type}.
Variable onEntityRemoved : list Manager.Entity.t -> nat -> QM -> QM.
Variable onEntityComponentRemoved : list Manager.Entity.t -> nat -> ComponentClass -> QM -> QM.


Variable d0 : list nat * list nat * list nat.
Let F (m : Manager.t QM) : Prop := disposalState m = d0.

Lemma keeps_readEntity e : keeps F (Manager.readEntity e).
Proof. intros m Hm. unfold Manager.readEntity. destruct (_ !! _); exact Hm. Qed.

Lemma keeps_updateEntity e f : keeps F (Manager.updateEntity e f).
Proof.
  unfold Manager.updateEntity. apply keeps_bind; [apply keeps_readEntity|].
  intros x. apply keeps_modify. intros m Hm. exact Hm.
Qed.

Lemma keeps_dispatchEvent n e T : keeps F (Manager.dispatchEvent n e T).
Proof. apply keeps_modify. intros m Hm. exact Hm. Qed.

Lemma keeps_componentPool_release T c : keeps F (Manager.componentPool_release T c).
Proof.
  unfold Manager.componentPool_release. apply keeps_bind; [apply keeps_getState|].
  intros m. destruct (_ !! _) as [[fl|]|]; try apply keeps_throw.
  destruct c; [|apply keeps_throw]. apply keeps_modify. intros m' Hm. exact Hm.
Qed.

Lemma keeps_componentRemovedFromEntity T : keeps F (Manager.componentRemovedFromEntity T).
Proof. apply keeps_modify. intros m Hm. exact Hm. Qed.

Lemma keeps_entityRemoveComponentSync e T i :
  keeps F (Manager._entityRemoveComponentSync e T i).
Proof.
  unfold Manager._entityRemoveComponentSync.
  repeat first [ apply keeps_updateEntity | apply keeps_readEntity
               | apply keeps_componentPool_release
               | apply keeps_componentRemovedFromEntity
               | apply keeps_bind; [|intros ?]
               | progress cbv zeta ].
Qed.

(** Removing a class that does not extend [SystemStateComponent] never
    reaches [entity.dispose()]. *)
Lemma keeps_entityRemoveComponent_plain dispose e T imm :
  Manager.extendsSystemState T = false ->
  keeps F (Manager.entityRemoveComponent_with onEntityComponentRemoved dispose e T imm).
Proof.
  intros HT. unfold Manager.entityRemoveComponent_with. rewrite HT.
  apply keeps_bind; [apply keeps_readEntity|]. intros x.
  apply keeps_if; [apply keeps_ret|].
  apply keeps_bind; [apply keeps_dispatchEvent|]. intros _.
  apply keeps_bind.
  { apply keeps_if; [apply keeps_entityRemoveComponentSync|].
    apply keeps_bind.
    { apply keeps_when. apply keeps_modify. intros m Hm. exact Hm. }
    intros _.
    repeat first [ apply keeps_updateEntity | apply keeps_bind; [|intros ?] ]. }
  intros _. apply keeps_bind; [apply keeps_modify; intros m Hm; exact Hm|].
  intros _. apply keeps_bind; [apply keeps_ret | intros _; apply keeps_ret].
Qed.

Lemma keeps_entityRemoveAllComponents_below dispose n e imm :
  keeps F (Manager.entityRemoveAllComponents_below onEntityComponentRemoved dispose n e imm).
Proof.
  induction n as [|j IH]; simpl; [apply keeps_ret|].
  apply keeps_bind; [apply keeps_readEntity|]. intros x.
  apply keeps_bind; [|intros _; exact IH].
  destruct (Manager.Entity._ComponentTypes x !! j) as [T|]; [|apply keeps_throw].
  destruct (Manager.extendsSystemState T) eqn:HT; simpl; [apply keeps_ret|].
  apply keeps_bind; [now apply keeps_entityRemoveComponent_plain | intros _; apply keeps_ret].
Qed.

Lemma keeps_entityRemoveAllComponents dispose e imm :
  keeps F (Manager.entityRemoveAllComponents_with onEntityComponentRemoved dispose e imm).
Proof.
  unfold Manager.entityRemoveAllComponents_with.
  apply keeps_bind; [apply keeps_readEntity|]. intros x.
  apply keeps_entityRemoveAllComponents_below.
Qed.
End Ghost.

Section GhostRule.
Context {QM : Type}.
Variable onEntityRemoved : list Manager.Entity.t -> nat -> QM -> QM.
Variable onEntityComponentRemoved : list Manager.Entity.t -> nat -> ComponentClass -> QM -> QM.

(** While an entity holds a system-state component, [disposeEntity] leaves
    the entity list, the entity pool and the removal queue as they were. *)
Lemma disposeEntity_ghost dispose (m : Manager.t QM) entity e imm :
  Manager.entityStore m !! entity = Some e ->
  Manager.Entity._numStateComponents e <> 0 ->
  disposalState
    (snd (Manager.disposeEntity_with onEntityRemoved onEntityComponentRemoved
            dispose entity imm m))
  = disposalState m.
Proof.
  intros He Hnum. unfold Manager.disposeEntity_with.
  unfold bind at 1. unfold getState at 1.
  destruct (negb (JS.tilde (JS.indexOf (Manager._entities m) entity))); [reflexivity|].
  unfold bind at 1. unfold Manager.updateEntity at 1. unfold bind at 1.
  unfold Manager.readEntity at 1. rewrite He. unfold modify at 1.
  unfold bind at 1. unfold Manager.readEntity at 1. cbn [Manager.entityStore Manager.with_entityStore].
  rewrite list_lookup_insert_eq by (eapply lookup_lt_Some; eauto).
  cbn [Manager.Entity._numStateComponents Manager.Entity.with_alive].
  replace (Manager.Entity._numStateComponents e =? 0) with false
    by (symmetry; apply Z.eqb_neq; exact Hnum).
  unfold when at 1. unfold bind at 1, ret at 1.
  apply (keeps_entityRemoveAllComponents onEntityComponentRemoved (disposalState m)).
  reflexivity.
Qed.
End GhostRule.

Section Run.
Context {QM : Type}.

Lemma readEntity_run (m : Manager.t QM) e x :
  Manager.entityStore m !! e = Some x -> Manager.readEntity e m = (Ret x, m).
Proof. intros H. unfold Manager.readEntity. now rewrite H. Qed.

Lemma updateEntity_run (m : Manager.t QM) e x f :
  Manager.entityStore m !! e = Some x ->
  Manager.updateEntity e f m
  = (Ret tt, Manager.with_entityStore (<[e := f x]> (Manager.entityStore m)) m).
Proof. intros H. unfold Manager.updateEntity, bind. now rewrite (readEntity_run m e x H). Qed.

Lemma lookup_updated (m : Manager.t QM) e x (f : Manager.Entity.t -> Manager.Entity.t) :
  Manager.entityStore m !! e = Some x ->
  Manager.entityStore (Manager.with_entityStore (<[e := f x]> (Manager.entityStore m)) m) !! e
  = Some (f x).
Proof. intros H. simpl. apply list_lookup_insert_eq. eapply lookup_lt_Some; eauto. Qed.
End Run.

(** One step of symbolic execution: the head of a [bind] is a read or an
    update of an entity whose slot is known. *)
Ltac run_read H :=
  unfold bind at 1; rewrite (readEntity_run _ _ _ H).
Ltac run_update H H' :=
  unfold bind at 1;
  match goal with
  | |- context [Manager.updateEntity ?e ?f ?m] =>
      rewrite (updateEntity_run m e _ f H);
      pose proof (lookup_updated m e _ f H) as H'; cbv beta in H'
  end.

Section Returns.
Context {QM : Type}.
Variable onEntityRemoved : list Manager.Entity.t -> nat -> QM -> QM.
Variable onEntityComponentRemoved : list Manager.Entity.t -> nat -> ComponentClass -> QM -> QM.

Lemma entityRemoveComponent_plain_deferred dispose (m : Manager.t QM) entity e T :
  Manager.entityStore m !! entity = Some e ->
  In T (Manager.Entity._ComponentTypes e) ->
  Manager.extendsSystemState T = false ->
  exists m' e',
    Manager.entityRemoveComponent_with onEntityComponentRemoved dispose entity T false m
    = (Ret (Some entity), m')
    /\ disposalState m' = disposalState m
    /\ Manager.entityStore m' !! entity = Some e'
    /\ length (Manager.Entity._ComponentTypes e') = (length (Manager.Entity._ComponentTypes e) - 1)%nat.
Proof.
  intros He Hin HT. unfold Manager.entityRemoveComponent_with. rewrite HT.
  run_read He.
  pose proof (indexOf_found _ _ Hin) as Hidx.
  replace (JS.tilde (JS.indexOf (Manager.Entity._ComponentTypes e) T)) with true
    by (symmetry; apply tilde_indexOf_In; exact Hin).
  cbn [negb]. unfold bind at 1, Manager.dispatchEvent at 1, modify at 1.
  unfold bind at 1. 
  set (m1 := Manager.with_eventDispatcher _ m).
  assert (H1 : Manager.entityStore m1 !! entity = Some e) by exact He.
  unfold bind at 1.
  set (m2 := snd (when (length (Manager.Entity._ComponentTypesToRemove e) =? 0)%nat
             (modify (fun m0 => Manager.with_entitiesWithComponentsToRemove
                   (JS.push (Manager.entitiesWithComponentsToRemove m0) entity) m0)) m1)).
  assert (Hw : when (length (Manager.Entity._ComponentTypesToRemove e) =? 0)%nat
             (modify (fun m0 => Manager.with_entitiesWithComponentsToRemove
                   (JS.push (Manager.entitiesWithComponentsToRemove m0) entity) m0)) m1 = (Ret tt, m2)).
  { unfold m2. destruct (_ =? _)%nat; reflexivity. }
  rewrite Hw.
  assert (H2 : Manager.entityStore m2 !! entity = Some e).
  { unfold m2. destruct (_ =? _)%nat; exact H1. }
  assert (Hd2 : disposalState m2 = disposalState m).
  { unfold m2. destruct (_ =? _)%nat; reflexivity. }
  clearbody m2. clear Hw.
  run_update H2 H3. run_update H3 H4. run_update H4 H5. run_update H5 H6.
  unfold bind, modify, when, ret.
  eexists _, _. split; [reflexivity|]. split; [exact Hd2|].
  split; [exact H6|]. cbn. apply splice1_length. exact Hidx.
Qed.

Lemma entityRemoveAllComponents_below_deferred dispose entity (n : nat) :
  forall (m : Manager.t QM) e,
    Manager.entityStore m !! entity = Some e ->
    (n <= length (Manager.Entity._ComponentTypes e))%nat ->
    exists m',
      Manager.entityRemoveAllComponents_below onEntityComponentRemoved dispose n entity false m
      = (Ret tt, m')
      /\ disposalState m' = disposalState m.
Proof.
  induction n as [|j IH]; intros m e He Hn.
  - exists m. split; reflexivity.
  - cbn [Manager.entityRemoveAllComponents_below]. run_read He.
    destruct (lookup_lt_is_Some_2 (Manager.Entity._ComponentTypes e) j) as [T HT]; [lia|].
    rewrite HT. destruct (Manager.extendsSystemState T) eqn:Hext.
    + unfold bind at 1. cbn [negb when]. unfold ret at 1.
      apply (IH m e He). lia.
    + assert (Hin : In T (Manager.Entity._ComponentTypes e)).
      { apply list_elem_of_In. eapply list_elem_of_lookup_2; eauto. }
      destruct (entityRemoveComponent_plain_deferred dispose m entity e T He Hin Hext)
        as (m1 & e1 & Hrun & Hd & He1 & Hlen).
      unfold bind at 1. cbn [negb when]. unfold bind at 1. rewrite Hrun. unfold ret at 1.
      destruct (IH m1 e1 He1) as (m' & Hrun' & Hd'); [lia|].
      exists m'. split; [exact Hrun' | congruence].
Qed.

(** [entity.dispose()] on an entity without system-state component queues
    the entity: it stays on the entity list and out of the pool. *)
Lemma Entity_dispose_deferred dispose (m : Manager.t QM) entity e :
  Manager.entityStore m !! entity = Some e ->
  Manager.Entity._entityManager e = true ->
  Manager.Entity._numStateComponents e = 0 ->
  In entity (Manager._entities m) ->
  exists m',
    Manager.Entity_dispose_with onEntityRemoved onEntityComponentRemoved dispose entity false m
    = (Ret tt, m')
    /\ disposalState m'
       = (Manager._entities m, Manager._entityPool m, Manager.entitiesToRemove m ++ [entity]).
Proof.
  intros He Hmgr Hnum Hin. unfold Manager.Entity_dispose_with.
  run_read He. rewrite Hmgr. unfold Manager.disposeEntity_with.
  unfold bind at 1, getState at 1.
  replace (JS.tilde (JS.indexOf (Manager._entities m) entity)) with true
    by (symmetry; apply tilde_indexOf_In; exact Hin).
  cbn [negb]. run_update He H1. run_read H1.
  cbn [Manager.Entity._numStateComponents Manager.Entity.with_alive]. rewrite Hnum.
  cbn [Z.eqb when].
  unfold bind at 1. unfold bind at 1, Manager.dispatchEvent at 1, modify at 1.
  unfold bind at 1, modify at 1. unfold modify at 1.
  unfold Manager.entityRemoveAllComponents_with.
  match goal with |- exists _, bind (Manager.readEntity entity) _ ?mm = _ /\ _ =>
    assert (H2 : Manager.entityStore mm !! entity = Some (Manager.Entity.with_alive false e))
      by exact H1;
    set (m2 := mm) in *
  end.
  run_read H2.
  destruct (entityRemoveAllComponents_below_deferred dispose entity
              (length (Manager.Entity._ComponentTypes (Manager.Entity.with_alive false e)))
              m2 _ H2 (le_n _)) as (m' & Hrun & Hd).
  rewrite Hrun. exists m'. split; [reflexivity|]. rewrite Hd. reflexivity.
Qed.

(** Removing the last system-state component of an entity that is no longer
    alive calls [entity.dispose()], which queues the entity. *)
Lemma entityRemoveComponent_last_state (m : Manager.t QM) entity e T imm :
  Manager.entityStore m !! entity = Some e ->
  Manager.Entity.alive e = false ->
  Manager.Entity._entityManager e = true ->
  Manager.Entity._numStateComponents e = 1 ->
  In entity (Manager._entities m) ->
  In T (Manager.Entity._ComponentTypes e) ->
  Manager.extendsSystemState T = true ->
  (imm = false
   \/ exists freeList c,
        Manager._componentPool m !! name T = Some (Some freeList)
        /\ JS.read (Manager.Entity._components e) (name T) = Some c) ->
  exists m',
    Manager.entityRemoveComponent onEntityRemoved onEntityComponentRemoved entity T imm m
    = (Ret (Some entity), m')
    /\ disposalState m'
       = (Manager._entities m, Manager._entityPool m, Manager.entitiesToRemove m ++ [entity]).
Proof.
  intros He Halive Hmgr Hnum Hin HT Hext Hmode.
  unfold Manager.entityRemoveComponent, Manager.entityRemoveComponent_with. rewrite Hext.
  run_read He.
  replace (JS.tilde (JS.indexOf (Manager.Entity._ComponentTypes e) T)) with true
    by (symmetry; apply tilde_indexOf_In; exact HT).
  cbn [negb]. unfold bind at 1, Manager.dispatchEvent at 1, modify at 1.
  set (m1 := Manager.with_eventDispatcher _ m).
  assert (H1 : Manager.entityStore m1 !! entity = Some e) by exact He.
  assert (Hremoved : exists m2 e2,
            (if imm
             then Manager._entityRemoveComponentSync entity T
                    (JS.indexOf (Manager.Entity._ComponentTypes e) T)
             else
               when (length (Manager.Entity._ComponentTypesToRemove e) =? 0)%nat
                 (modify (fun m0 => Manager.with_entitiesWithComponentsToRemove
                    (JS.push (Manager.entitiesWithComponentsToRemove m0) entity) m0));;
               Manager.updateEntity entity (fun e0 => Manager.Entity.with__ComponentTypes
                  (JS.splice1 (JS.indexOf (Manager.Entity._ComponentTypes e) T)
                     (Manager.Entity._ComponentTypes e0)) e0);;
               Manager.updateEntity entity (fun e0 => Manager.Entity.with__ComponentTypesToRemove
                  (JS.push (Manager.Entity._ComponentTypesToRemove e0) T) e0);;
               Manager.updateEntity entity (fun e0 => Manager.Entity.with__componentsToRemove
                  (JS.set (Manager.Entity._componentsToRemove e0) (name T)
                     (JS.read (Manager.Entity._components e0) (name T))) e0);;
               Manager.updateEntity entity (fun e0 => Manager.Entity.with__components
                  (JS.del (Manager.Entity._components e0) (name T)) e0)) m1
            = (Ret tt, m2)
            /\ disposalState m2 = disposalState m
            /\ Manager.entityStore m2 !! entity = Some e2
            /\ Manager.Entity.alive e2 = false
            /\ Manager.Entity._entityManager e2 = true
            /\ Manager.Entity._numStateComponents e2 = 1).
  { destruct Hmode as [-> | (freeList & c & Hpool & Hc)].
    - unfold bind at 1.
      destruct (length (Manager.Entity._ComponentTypesToRemove e) =? 0)%nat;
        cbn [when]; [unfold modify at 1 | unfold ret at 1].
      + match goal with |- exists _ _, bind _ _ ?mm = _ /\ _ =>
          assert (H2 : Manager.entityStore mm !! entity = Some e) by exact H1 end.
        run_update H2 H3. run_update H3 H4. run_update H4 H5.
        match goal with |- context [Manager.updateEntity ?e' ?f ?mm] =>
          rewrite (updateEntity_run mm e' _ f H5);
          pose proof (lookup_updated mm e' _ f H5) as H6 end.
        eexists _, _. split; [reflexivity|]. split; [reflexivity|].
        split; [exact H6|]. cbn. auto.
      + run_update H1 H3. run_update H3 H4. run_update H4 H5.
        match goal with |- context [Manager.updateEntity ?e' ?f ?mm] =>
          rewrite (updateEntity_run mm e' _ f H5);
          pose proof (lookup_updated mm e' _ f H5) as H6 end.
        eexists _, _. split; [reflexivity|]. split; [reflexivity|].
        split; [exact H6|]. cbn. auto.
    - destruct imm.
      + unfold Manager._entityRemoveComponentSync.
        run_update H1 H2. run_read H2.
        cbn [Manager.Entity._components Manager.Entity.with__ComponentTypes]. rewrite Hc.
        run_update H2 H3.
        unfold bind at 1. unfold Manager.componentPool_release at 1.
        unfold bind at 1, getState at 1.
        match goal with |- context [Manager._componentPool ?mm !! name T] =>
          replace (Manager._componentPool mm !! name T) with (Some (Some freeList))
            by (symmetry; exact Hpool) end.
        unfold modify at 1. unfold Manager.componentRemovedFromEntity, modify.
        eexists _, _. split; [reflexivity|]. split; [reflexivity|].
        split; [exact H3|]. cbn. auto.
      + unfold bind at 1.
        destruct (length (Manager.Entity._ComponentTypesToRemove e) =? 0)%nat;
          cbn [when]; [unfold modify at 1 | unfold ret at 1].
        * match goal with |- exists _ _, bind _ _ ?mm = _ /\ _ =>
            assert (H2 : Manager.entityStore mm !! entity = Some e) by exact H1 end.
          run_update H2 H3. run_update H3 H4. run_update H4 H5.
          match goal with |- context [Manager.updateEntity ?e' ?f ?mm] =>
            rewrite (updateEntity_run mm e' _ f H5);
            pose proof (lookup_updated mm e' _ f H5) as H6 end.
          eexists _, _. split; [reflexivity|]. split; [reflexivity|].
          split; [exact H6|]. cbn. auto.
        * run_update H1 H3. run_update H3 H4. run_update H4 H5.
          match goal with |- context [Manager.updateEntity ?e' ?f ?mm] =>
            rewrite (updateEntity_run mm e' _ f H5);
            pose proof (lookup_updated mm e' _ f H5) as H6 end.
          eexists _, _. split; [reflexivity|]. split; [reflexivity|].
          split; [exact H6|]. cbn. auto. }
  destruct Hremoved as (m2 & e2 & Hrun & Hd2 & He2 & Ha2 & Hm2 & Hn2).
  rewrite (bind_run _ _ m1 tt m2 Hrun).
  unfold bind at 1, modify at 1. cbn [when].
  match goal with |- exists _, bind (bind _ _) _ ?mm = _ /\ _ =>
    assert (H3 : Manager.entityStore mm !! entity = Some e2) by exact He2;
    assert (Hd3 : disposalState mm = disposalState m) by exact Hd2;
    set (m3 := mm) in *
  end.
  unfold bind at 1. run_update H3 H4. run_read H4.
  cbn [Manager.Entity._numStateComponents Manager.Entity.with__numStateComponents
       Manager.Entity.alive]. rewrite Hn2 in H4 |- *. rewrite Ha2.
  change ((1 - 1 =? 0) && negb false) with true. cbn [when].
  match goal with |- context [Manager.Entity_dispose_with _ _ ?d entity false ?mm] =>
    destruct (Entity_dispose_deferred d mm entity _ H4) as (m' & Hrun' & Hd');
      [exact Hm2 | cbn; lia | |]
  end.
  { unfold disposalState in Hd3. injection Hd3 as HE _ _. cbn. rewrite HE. exact Hin. }
  rewrite Hrun'. unfold ret.
  exists m'. split; [reflexivity|]. rewrite Hd'.
  unfold disposalState in Hd3. injection Hd3 as HE HP HR. cbn. now rewrite HE, HP, HR.
Qed.
End Returns.

(** The innermost [dispose] of [Manager.entityRemoveComponent] is never run:
    a disposal started by a removal only removes classes that do not extend
    [SystemStateComponent]. *)
Lemma entityRemoveComponent_plain_any_dispose {QM}
    (onEntityComponentRemoved : list Manager.Entity.t -> nat -> ComponentClass -> QM -> QM)
    d1 d2 entity T imm (m : Manager.t QM) :
  Manager.extendsSystemState T = false ->
  Manager.entityRemoveComponent_with onEntityComponentRemoved d1 entity T imm m
  = Manager.entityRemoveComponent_with onEntityComponentRemoved d2 entity T imm m.
Proof. intros HT. unfold Manager.entityRemoveComponent_with. rewrite HT. reflexivity. Qed.

Lemma entityRemoveAllComponents_any_dispose {QM}
    (onEntityComponentRemoved : list Manager.Entity.t -> nat -> ComponentClass -> QM -> QM)
    d1 d2 entity imm (n : nat) :
  forall m : Manager.t QM,
    Manager.entityRemoveAllComponents_below onEntityComponentRemoved d1 n entity imm m
    = Manager.entityRemoveAllComponents_below onEntityComponentRemoved d2 n entity imm m.
Proof.
  induction n as [|j IH]; intros m; [reflexivity|].
  cbn [Manager.entityRemoveAllComponents_below].
  apply bind_ext; [reflexivity|]. intros x m1.
  apply bind_ext; [|intros _ m2; apply IH].
  destruct (Manager.Entity._ComponentTypes x !! j) as [T|]; [|reflexivity].
  destruct (Manager.extendsSystemState T) eqn:HT; cbn [negb when]; [reflexivity|].
  apply bind_ext; [|reflexivity].
  now apply entityRemoveComponent_plain_any_dispose.
Qed.

(** The bundled module's ghost check: removing the last system-state
    component of an entity that is not alive ends in [this.dispose()], the
    deferred form.  The entity is pushed on [entitiesToRemove]; the entity
    list and the pools are untouched. *)
Lemma Entity_removeComponent_ghost_check (w : World.t) (this : nat) (e : Entity.t)
    (T : ComponentClass) (immediately : bool) :
  World.entityStore w !! this = Some e ->
  Entity.alive e = false ->
  isSystemStateComponent T = true ->
  Entity._numSystemStateComponents e = 1 ->
  JS.read (Entity._componentsToRemove e) (name T) = None ->
  exists w',
    Entity_removeComponent this T immediately w = (Ret true, w')
    /\ World.entitiesToRemove w' = World.entitiesToRemove w ++ [this]
    /\ World.entities w' = World.entities w
    /\ World.poolStore w' = World.poolStore w.
Proof.
  intros He Halive HT Hnum Hpending. unfold Entity_removeComponent. rewrite HT.
  destruct e; cbn [Entity.alive Entity._numSystemStateComponents
                   Entity._componentsToRemove] in Halive, Hnum, Hpending; subst.
  cbv zeta.
  wrun_read He. cbn [Entity._componentsToRemove]. rewrite Hpending. cbn [JS.truthy negb when].
  wrun_update He H1. wrun_update H1 H2. wrun_read H2.
  cbn [Entity.alive Entity.with_componentTypes Entity.with_components].
  cbn [when]. rewrite ret_bind. wrun_read H2.
  cbn [Entity.components Entity.with_componentTypes Entity.with_components
       Entity._componentsToRemove Entity.alive].
  unfold JS.read at 1. rewrite get_del_eq.
  destruct immediately.
  - rewrite ?bind_assoc, ret_bind. wrun_read H2.
    cbn [Entity._componentsToRemove Entity.with_componentTypes Entity.with_components].
    rewrite Hpending. cbn [JS.truthy when]. rewrite ret_bind.
    wrun_update H2 H3. wrun_read H3.
    cbn [Entity._numSystemStateComponents Entity.with__numSystemStateComponents
         Entity.with_componentTypes Entity.with_components Entity.alive].
    change ((1 - 1 =? 0) && negb false) with true. cbn [when].
    unfold Entity_dispose. wrun_read H3.
    cbn [Entity.alive Entity.with__numSystemStateComponents
         Entity.with_componentTypes Entity.with_components]. cbn [when].
    rewrite ?bind_assoc, ret_bind. wrun_update H3 H4.
    unfold World_queueEntityDisposal, modify, bind, ret.
    eexists. split; [reflexivity|]. simpl. auto.
  - rewrite ?bind_assoc, ret_bind.
    wrun_update H2 H3. wrun_read H3.
    cbn [Entity._numSystemStateComponents Entity.with__numSystemStateComponents
         Entity.with_componentTypes Entity.with_components Entity.alive].
    change ((1 - 1 =? 0) && negb false) with true. cbn [when].
    unfold Entity_dispose. wrun_read H3.
    cbn [Entity.alive Entity.with__numSystemStateComponents
         Entity.with_componentTypes Entity.with_components]. cbn [when].
    rewrite ?bind_assoc, ret_bind. wrun_update H3 H4.
    unfold World_queueEntityDisposal, modify, bind, ret.
    eexists. split; [reflexivity|]. simpl. auto.
Qed.

(** X24. The ghost rule of the entity manager.  An entity that still holds
    a system-state component when [disposeEntity] is called on it is held
    back: the call, immediate or deferred, leaves the entity list, the
    entity pool and the removal queue as they were.  When the last
    system-state component of such an entity (no longer alive) is removed,
    [entity.dispose()] runs in its deferred form: the entity is appended to
    the removal queue and is neither taken off the entity list nor put in
    the pool at that point.  The ghost check of the bundled module's
    [Entity.removeComponent] does the same for a class whose name is no
    member of [Object.prototype]: it returns [true] with the entity pushed
    on [entitiesToRemove], the entity list and the pools unchanged. *)
Theorem ghost_entity_disposal {QM}
    (onEntityRemoved : list Manager.Entity.t -> nat -> QM -> QM)
    (onEntityComponentRemoved : list Manager.Entity.t -> nat -> ComponentClass -> QM -> QM)
    (m : Manager.t QM) (entity : nat) (e : Manager.Entity.t) :
  Manager.entityStore m !! entity = Some e ->
  (0 < Manager.Entity._numStateComponents e ->
   forall immediately,
     disposalState
       (snd (Manager.disposeEntity onEntityRemoved onEntityComponentRemoved
               entity immediately m))
     = disposalState m)
  /\ (Manager.Entity.alive e = false ->
      Manager.Entity._entityManager e = true ->
      Manager.Entity._numStateComponents e = 1 ->
      In entity (Manager._entities m) ->
      forall T immediately,
        In T (Manager.Entity._ComponentTypes e) ->
        Manager.extendsSystemState T = true ->
        (immediately = false
         \/ exists freeList c,
              Manager._componentPool m !! name T = Some (Some freeList)
              /\ JS.read (Manager.Entity._components e) (name T) = Some c) ->
        exists m',
          Manager.entityRemoveComponent onEntityRemoved onEntityComponentRemoved
            entity T immediately m
          = (Ret (Some entity), m')
          /\ disposalState m'
             = (Manager._entities m, Manager._entityPool m,
                Manager.entitiesToRemove m ++ [entity]))
  /\ (forall (w : World.t) (this : nat) (x : Entity.t) (T : ComponentClass)
         (immediately : bool),
        World.entityStore w !! this = Some x ->
        Entity.alive x = false ->
        isSystemStateComponent T = true ->
        Entity._numSystemStateComponents x = 1 ->
        JS.read (Entity._componentsToRemove x) (name T) = None ->
        JS.inherited (name T) = false ->
        exists w',
          Entity_removeComponent this T immediately w = (Ret true, w')
          /\ World.entitiesToRemove w' = World.entitiesToRemove w ++ [this]
          /\ World.entities w' = World.entities w
          /\ World.poolStore w' = World.poolStore w).
Proof.
  intros He. split; [|split].
  - intros Hnum immediately. unfold Manager.disposeEntity.
    apply (disposeEntity_ghost onEntityRemoved onEntityComponentRemoved _ m entity e immediately He).
    lia.
  - intros Halive Hmgr Hnum Hin T immediately HT Hext Hmode.
    now apply (entityRemoveComponent_last_state onEntityRemoved onEntityComponentRemoved
                 m entity e T immediately).
  - intros w this x T immediately Hx Halive HT Hnum Hpending _.
    now apply (Entity_removeComponent_ghost_check w this x T immediately).
Qed.

(** In [ghostScene] the entity 0 is a ghost holding only [Mesh]; removing
    [Mesh], even immediately, does not tear the entity down: it is still on
    the entity list and not in the pool, only queued; the next
    [processDeferredRemoval] releases it. *)
Lemma last_state_removal_defers_teardown :
  exists e m1 m2,
    Manager.entityStore ghostScene !! 0%nat = Some e
    /\ Manager.Entity.alive e = false
    /\ Manager.Entity._ComponentTypes e = [Mesh]
    /\ Manager.entityRemoveComponent noQueries1 noQueries2 0%nat Mesh true ghostScene
       = (Ret (Some 0%nat), m1)
    /\ disposalState m1 = ([0%nat], [], [0%nat])
    /\ Manager.processDeferredRemoval m1 = (Ret tt, m2)
    /\ disposalState m2 = ([], [0%nat], []).
Proof.
  eexists _, _, _.
  split; [vm_compute; reflexivity|].
  split; [reflexivity|]. split; [reflexivity|].
  split; [vm_compute; reflexivity|].
  split; [reflexivity|].
  split; [vm_compute; reflexivity|]. reflexivity.
Qed.

Lemma ghost_entity_disposal_witness :
  exists e,
    Manager.entityStore ghostScene !! 0%nat = Some e
    /\ (forall immediately,
          disposalState
            (snd (Manager.disposeEntity noQueries1 noQueries2 0%nat immediately ghostScene))
          = disposalState ghostScene)
    /\ (exists m',
          Manager.entityRemoveComponent noQueries1 noQueries2 0%nat Mesh false ghostScene
          = (Ret (Some 0%nat), m')
          /\ disposalState m'
             = (Manager._entities ghostScene, Manager._entityPool ghostScene,
                Manager.entitiesToRemove ghostScene ++ [0%nat]))
    /\ exists w',
         Entity_removeComponent 1%nat Mesh true ghostWorld = (Ret true, w')
         /\ World.entitiesToRemove w' = World.entitiesToRemove ghostWorld ++ [1%nat]
         /\ World.entities w' = World.entities ghostWorld
         /\ World.poolStore w' = World.poolStore ghostWorld.
Proof.
  eexists.
  assert (He : Manager.entityStore ghostScene !! 0%nat
               = Some (Manager.Entity.mk (Some "e0") false [Mesh]
                         [("Mesh", Some sceneMesh)] [] [] 1 true))
    by (vm_compute; reflexivity).
  destruct (ghost_entity_disposal noQueries1 noQueries2 ghostScene 0%nat _ He)
    as (HA & HB & HC).
  split; [exact He|]. split; [|split].
  - apply HA. reflexivity.
  - apply HB; try reflexivity.
    + vm_compute. left. reflexivity.
    + left. reflexivity.
    + left. reflexivity.
  - destruct (World.entityStore ghostWorld !! 1%nat) as [x|] eqn:Hx;
      [|vm_compute in Hx; discriminate].
    apply (HC ghostWorld 1%nat x Mesh true Hx);
      vm_compute in Hx; injection Hx as <-; reflexivity.
Defined.

(* ===================================================================== *)
(** * Entity.dispose(true) *)
(* ===================================================================== *)



Lemma splice1_length_le {A} (l : list A) (i : Z) : (length (JS.splice1 i l) <= length l)%nat.
Proof.
  unfold JS.splice1. rewrite length_app, length_take, length_drop. lia.
Qed.

Lemma splice1_Forall {A} (P : A -> Prop) (l : list A) (i : Z) :
  Forall P l -> Forall P (JS.splice1 i l).
Proof.
  intros H. unfold JS.splice1. apply Forall_app. split.
  - now apply Forall_take.
  - now apply Forall_drop.
Qed.

Lemma del_not_in {V} (o : JS.obj V) k : ~ In k (JS.keys o) -> JS.del o k = o.
Proof.
  induction o as [|[k' v] o IH]; simpl; intros Hn; [reflexivity|].
  destruct (decide (k' = k)) as [->|Hne]; [tauto|]. f_equal. apply IH. tauto.
Qed.

Lemma keys_del_subset {V} (o : JS.obj V) k k' :
  In k' (JS.keys (JS.del o k)) -> In k' (JS.keys o) /\ k' <> k.
Proof.
  induction o as [|[k0 v] o IH]; simpl; [tauto|].
  destruct (decide (k0 = k)) as [->|Hne]; simpl.
  - intros H. apply IH in H. tauto.
  - intros [->|H]; [auto|]. apply IH in H. tauto.
Qed.

Lemma splice1_In {A} (l : list A) (i : Z) (z : A) : In z (JS.splice1 i l) -> In z l.
Proof.
  intros H. assert (HF : Forall (fun y => In y l) (JS.splice1 i l)).
  { apply splice1_Forall. apply List.Forall_forall. auto. }
  rewrite List.Forall_forall in HF. auto.
Qed.

(** ** Steps of the teardown *)

Lemma teardownStep_refl w : teardownStep w w.
Proof.
  split; [reflexivity|]. split.
  - intros q x Hx. exists x. auto.
  - intros p pool Hp. exists pool. auto.
Qed.

Lemma teardownStep_trans w1 w2 w3 :
  teardownStep w1 w2 -> teardownStep w2 w3 -> teardownStep w1 w3.
Proof.
  intros (Hq1 & Hs1 & Hp1) (Hq2 & Hs2 & Hp2). split; [congruence|]. split.
  - intros q x3 Hx3. destruct (Hs2 q x3 Hx3) as (x2 & Hx2 & H2).
    destruct (Hs1 q x2 Hx2) as (x1 & Hx1 & H1). exists x1. auto.
  - intros p pool1 Hpool1. destruct (Hp1 p pool1 Hpool1) as (pool2 & Hpool2 & H1).
    destruct (Hp2 p pool2 Hpool2) as (pool3 & Hpool3 & H2). exists pool3. auto.
Qed.

Lemma teardownStep_same w w' :
  World.queries w' = World.queries w ->
  World.queryStore w' = World.queryStore w ->
  World.poolStore w' = World.poolStore w ->
  teardownStep w w'.
Proof.
  intros Hq Hs Hp. split; [exact Hq|]. split.
  - intros q x Hx. exists x. rewrite <- Hs. auto.
  - intros p pool Hpool. exists pool. rewrite Hp. auto.
Qed.

Lemma teardownStep_updateQuery w q x y :
  World.queryStore w !! q = Some x ->
  (forall entity, In entity (Query.entities y) -> In entity (Query.entities x)) ->
  teardownStep w (World.with_queryStore (<[q := y]> (World.queryStore w)) w).
Proof.
  intros Hx Hsub. split; [reflexivity|]. split.
  - intros q' x' Hx'. simpl in Hx'. destruct (decide (q' = q)) as [->|Hne].
    + rewrite list_lookup_insert_eq in Hx' by (eapply lookup_lt_Some; eauto).
      injection Hx' as <-. exists x. auto.
    + rewrite list_lookup_insert_ne in Hx' by congruence. exists x'. auto.
  - intros p pool Hpool. exists pool. auto.
Qed.

Lemma teardownStep_updatePool w p x y :
  World.poolStore w !! p = Some x ->
  (forall item, In item (ObjectPool.freeList x) -> In item (ObjectPool.freeList y)) ->
  teardownStep w (World.with_poolStore (<[p := y]> (World.poolStore w)) w).
Proof.
  intros Hx Hsub. split; [reflexivity|]. split.
  - intros q x' Hx'. exists x'. auto.
  - intros p' pool Hpool. simpl. destruct (decide (p' = p)) as [->|Hne].
    + rewrite list_lookup_insert_eq by (eapply lookup_lt_Some; eauto).
      exists y. split; [reflexivity|]. assert (pool = x) as -> by congruence. exact Hsub.
    + rewrite list_lookup_insert_ne by congruence. exists pool. auto.
Qed.

Lemma teardownStep_unlisted this w w' :
  teardownStep w w' -> unlisted this w -> unlisted this w'.
Proof.
  intros (Hq & Hs & _) Hu k q x' Hkq Hx' Hin. rewrite Hq in Hkq.
  destruct (Hs q x' Hx') as (x & Hx & Hsub). apply (Hu k q x Hkq Hx). auto.
Qed.

Lemma teardownStep_released cs w w' :
  teardownStep w w' -> released cs w -> released cs w'.
Proof.
  intros (_ & _ & Hp) Hr k c p Hin Hc.
  destruct (Hr k c p Hin Hc) as (pool & Hpool & Hitem).
  destruct (Hp p pool Hpool) as (pool' & Hpool' & Hsub). exists pool'. auto.
Qed.

Section Dispose.
Variable this : nat.
Variables Lq Lp Le : nat.
Variable pool0 : option nat.
Variable base0 : Item.
Variable random0 : nat -> Z.
Variable calls0 : nat.

Local Abbreviation Frame := (disposalFrame Lq Lp Le pool0 base0 random0 calls0).
Local Abbreviation Leaving := (leavingQueries this Lq Lp Le pool0 base0 random0 calls0).

Lemma Frame_updateQuery w q x :
  Frame w -> Frame (World.with_queryStore (<[q := x]> (World.queryStore w)) w).
Proof.
  intros (H0 & H1 & H2 & H3 & H4 & H5). unfold disposalFrame; simpl.
  rewrite length_insert. repeat split; auto; apply H0.
Qed.

Lemma Frame_updateEntity w x y :
  Frame w -> World.entityStore w !! this = Some x ->
  (Entity.components x = [] -> Entity.components y = []) ->
  Frame (World.with_entityStore (<[this := y]> (World.entityStore w)) w).
Proof.
  intros (H0 & H1 & H2 & H3 & H4 & H5) Hx Hy. unfold disposalFrame; simpl.
  rewrite length_insert. repeat split; auto; try apply H0.
  intros b Hb. destruct (H5 b Hb) as (eb & Heb & Hc).
  destruct (decide (b = this)) as [->|Hne].
  - rewrite list_lookup_insert_eq by (eapply lookup_lt_Some; eauto).
    exists y. split; [reflexivity|]. apply Hy. congruence.
  - rewrite list_lookup_insert_ne by auto. eauto.
Qed.

Lemma Frame_updatePool w p x y :
  Frame w -> World.poolStore w !! p = Some x ->
  ObjectPool.baseObject y = ObjectPool.baseObject x ->
  Frame (World.with_poolStore (<[p := y]> (World.poolStore w)) w).
Proof.
  intros (H0 & H1 & H2 & H3 & H4 & H5) Hp Hy. unfold disposalFrame; simpl.
  rewrite length_insert. repeat split; auto; try apply H0.
  intros p' Hp'. destruct (H4 p' Hp') as (pool & Hpool & Hb).
  destruct (decide (p' = p)) as [->|Hne].
  - rewrite list_lookup_insert_eq by (eapply lookup_lt_Some; eauto).
    exists y. split; [reflexivity|]. congruence.
  - rewrite list_lookup_insert_ne by auto. eauto.
Qed.

(** ** Leaving queries *)

Lemma Query_removeEntity_leaving x0 n q w :
  (q < Lq)%nat -> Leaving x0 n w ->
  exists w', Query_removeEntity q this w = (Ret tt, w') /\ Leaving x0 n w'
             /\ teardownStep w w'.
Proof.
  intros Hq (HF & x & Hx & Hsame & Hall & Hn).
  assert (HF' := HF). destruct HF' as (_ & Hlq & _).
  destruct (lookup_lt_is_Some_2 (World.queryStore w) q) as [y Hy]; [lia|].
  unfold Query_removeEntity. unfold bind at 1. rewrite (World_readQuery_run w q y Hy).
  destruct (JS.tilde (JS.indexOf (Query.entities y) this)); cbn [when].
  2:{ exists w. split; [reflexivity|]. split; [|apply teardownStep_refl].
      split; [exact HF|]. exists x. auto. }
  unfold bind at 1. rewrite (World_updateQuery_run w q y _ Hy).
  match goal with |- context [bind (readEntity this) _ ?ww] => set (w1 := ww) end.
  assert (HF1 : Frame w1) by (apply Frame_updateQuery; exact HF).
  assert (Hs1 : teardownStep w w1).
  { apply teardownStep_updateQuery with (x := y); [exact Hy|].
    cbn. intros entity. apply splice1_In. }
  assert (Hx1 : World.entityStore w1 !! this = Some x) by exact Hx.
  unfold bind at 1. rewrite (World_readEntity_run w1 this x Hx1).
  unfold bind at 1.
  match goal with |- context [updateEntity this ?f w1] =>
    rewrite (World_updateEntity_run w1 this x f Hx1); set (fx := f x) end.
  match goal with |- context [dispatchEvent q _ _ _ ?ww] => set (w2 := ww) end.
  assert (HF2 : Frame w2).
  { apply Frame_updateEntity with (x := x); auto. }
  assert (Hs2 : teardownStep w1 w2) by (apply teardownStep_same; reflexivity).
  assert (Hy2 : exists y2, World.queryStore w2 !! q = Some y2).
  { apply lookup_lt_is_Some_2. destruct HF2 as (_ & -> & _). exact Hq. }
  destruct Hy2 as [y2 Hy2].
  unfold dispatchEvent. rewrite (World_updateQuery_run w2 q y2 _ Hy2).
  eexists. split; [reflexivity|]. split; [split|].
  - apply Frame_updateQuery; exact HF2.
  - exists fx. split.
    + simpl. apply list_lookup_insert_eq. eapply lookup_lt_Some; eauto.
    + unfold fx. cbn. split; [exact Hsame|]. split.
      * now apply splice1_Forall.
      * etransitivity; [apply splice1_length_le | exact Hn].
  - eapply teardownStep_trans; [exact Hs1|].
    eapply teardownStep_trans; [exact Hs2|].
    apply teardownStep_updateQuery with (x := y2); [exact Hy2|]. cbn. auto.
Qed.

Lemma Entity_dispose_queries_leaving x0 (bound : nat) :
  forall (i n : nat) w,
    Leaving x0 n w -> (1 + (n - i) <= bound)%nat ->
    exists w', Entity_dispose_queries bound this i w = (Ret tt, w')
               /\ Leaving x0 n w' /\ teardownStep w w'.
Proof.
  induction bound as [|bound IH]; intros i n w HL Hb; [lia|].
  cbn [Entity_dispose_queries].
  assert (HL' := HL). destruct HL' as (HF & x & Hx & Hsame & Hall & Hn).
  unfold bind at 1. rewrite (World_readEntity_run w this x Hx).
  destruct (Entity.queries x !! i) as [q|] eqn:Hi.
  - assert (Hq : (q < Lq)%nat) by exact (Forall_lookup_1 _ _ _ _ Hall Hi).
    pose proof (lookup_lt_Some _ _ _ Hi) as Hlt.
    destruct (Query_removeEntity_leaving x0 n q w Hq HL) as (w1 & Hrun1 & HL1 & Hs1).
    rewrite (bind_run _ _ w tt w1 Hrun1).
    destruct (IH (Datatypes.S i) n w1 HL1) as (w' & Hrun' & HL' & Hs'); [lia|].
    exists w'. split; [exact Hrun'|]. split; [exact HL'|].
    eapply teardownStep_trans; eauto.
  - exists w. split; [reflexivity|]. split; [exact HL | apply teardownStep_refl].
Qed.

(** ** Releasing the components *)

Lemma Component_dispose_frame c w :
  Frame w -> (forall p, component_pool c = Some p -> (p < Lp)%nat) ->
  exists w', Component_dispose c w = (Ret tt, w')
             /\ Frame w' /\ World.entityStore w' = World.entityStore w
             /\ teardownStep w w'
             /\ (forall p, component_pool c = Some p ->
                   exists pool', World.poolStore w' !! p = Some pool'
                                 /\ In (ItemComponent c) (ObjectPool.freeList pool')).
Proof.
  intros HF Hp. unfold Component_dispose.
  destruct (component_pool c) as [p|].
  2:{ exists w. split; [reflexivity|]. split; [exact HF|]. split; [reflexivity|].
      split; [apply teardownStep_refl | discriminate]. }
  assert (HF' := HF). destruct HF' as (_ & _ & Hlp & _).
  destruct (lookup_lt_is_Some_2 (World.poolStore w) p) as [pool Hpool];
    [rewrite Hlp; auto|].
  unfold ObjectPool_release. unfold bind at 1. rewrite (World_readPool_run w p pool Hpool).
  unfold bind at 1. unfold Item_copy, ret at 1.
  destruct (ObjectPool.baseObject pool);
    rewrite (World_updatePool_run w p pool _ Hpool);
    (eexists; split; [reflexivity|]; split;
     [apply Frame_updatePool with (x := pool); auto|];
     split; [reflexivity|]; split;
     [apply teardownStep_updatePool with (x := pool); [exact Hpool|];
      cbn; unfold JS.push; intros item Hitem; apply in_or_app; now left|];
     intros p' [= <-]; eexists; split;
     [simpl; apply list_lookup_insert_eq; eapply lookup_lt_Some; eauto|];
     cbn; unfold JS.push; apply in_or_app; right; now left).
Qed.

Lemma components_released y0 (cs : JS.obj (option Component)) :
  NoDup (JS.keys cs) ->
  Forall (fun kv => exists c, snd kv = Some c
                     /\ forall p, component_pool c = Some p -> (p < Lp)%nat) cs ->
  forall w x,
    Frame w -> World.entityStore w !! this = Some x ->
    Entity.components x = cs -> Entity.with_components [] x = y0 ->
    exists w',
      forEach (JS.keys cs) (fun componentName =>
        e ← readEntity this;
        match JS.read (Entity.components e) componentName with
        | None => throw "TypeError: component is undefined"
        | Some c => Component_dispose c
        end;;
        updateEntity this (fun e =>
          Entity.with_components (JS.del (Entity.components e) componentName) e)) w
      = (Ret tt, w')
      /\ Frame w' /\ World.entityStore w' !! this = Some y0
      /\ teardownStep w w' /\ released cs w'.
Proof.
  induction cs as [|[k v] cs IH]; intros Hnd Hall w x HF Hx Hcs Hy0.
  - exists w. split; [reflexivity|]. split; [exact HF|].
    split; [|split; [apply teardownStep_refl | intros k c p []]].
    rewrite Hx. f_equal. rewrite <- Hy0. destruct x; simpl in *. now subst.
  - inversion Hnd as [|? ? Hnotin Hnd']; subst.
    inversion Hall as [|? ? (c & Hv & Hp) Hall']; subst. simpl in Hv. subst v.
    cbn [JS.keys map fst forEach].
    assert (Hstep : exists w1 x1,
       (e ← readEntity this;
        match JS.read (Entity.components e) k with
        | None => throw "TypeError: component is undefined"
        | Some c => Component_dispose c
        end;;
        updateEntity this (fun e =>
          Entity.with_components (JS.del (Entity.components e) k) e)) w = (Ret tt, w1)
       /\ Frame w1 /\ World.entityStore w1 !! this = Some x1
       /\ Entity.components x1 = cs
       /\ Entity.with_components [] x1 = Entity.with_components [] x
       /\ teardownStep w w1
       /\ (forall p, component_pool c = Some p ->
             exists pool', World.poolStore w1 !! p = Some pool'
                           /\ In (ItemComponent c) (ObjectPool.freeList pool'))).
    { unfold bind at 1. rewrite (World_readEntity_run w this x Hx). rewrite Hcs.
      unfold JS.read. cbn [JS.get]. destruct (decide (k = k)); [|congruence].
      destruct (Component_dispose_frame c w HF Hp) as (w1 & Hrun1 & HF1 & Hst1 & Hs1 & Hrel1).
      rewrite (bind_run _ _ w tt w1 Hrun1).
      assert (Hx1 : World.entityStore w1 !! this = Some x) by (rewrite Hst1; exact Hx).
      rewrite (World_updateEntity_run w1 this x _ Hx1).
      eexists _, _. split; [reflexivity|]. split.
      - apply Frame_updateEntity with (x := x); auto.
        rewrite Hcs. discriminate.
      - split; [simpl; apply list_lookup_insert_eq; eapply lookup_lt_Some; eauto|].
        cbn. rewrite Hcs. cbn [JS.del]. destruct (decide (k = k)); [|congruence].
        split; [apply del_not_in; rewrite <- list_elem_of_In; exact Hnotin|].
        split; [reflexivity|]. split; [|exact Hrel1].
        eapply teardownStep_trans; [exact Hs1|]. apply teardownStep_same; reflexivity. }
    destruct Hstep as (w1 & x1 & Hrun1 & HF1 & Hx1 & Hcs1 & Hy1 & Hs1 & Hrel1).
    rewrite (bind_run _ _ w tt w1 Hrun1).
    destruct (IH Hnd' Hall' w1 x1 HF1 Hx1 Hcs1) as (w' & Hrun' & HF' & Hx' & Hs' & Hrel');
      [congruence|].
    exists w'. split; [exact Hrun'|]. split; [exact HF'|]. split; [exact Hx'|].
    split; [eapply teardownStep_trans; eauto|].
    intros k' c' p' [[= <- <-]|Hin] Hc'.
    + destruct (Hrel1 p' Hc') as (pool1 & Hpool1 & Hitem1).
      destruct Hs' as (_ & _ & Hgrow). destruct (Hgrow p' pool1 Hpool1) as (pool' & Hpool' & Hsub).
      exists pool'. auto.
    + eapply Hrel'; eauto.
Qed.

Lemma pending_cleared y0 (K : list string) :
  forall w x,
    Frame w -> World.entityStore w !! this = Some x ->
    (forall k, In k (JS.keys (Entity._componentsToRemove x)) -> In k K) ->
    Entity.with__componentsToRemove [] x = y0 ->
    exists w',
      forEach K (fun componentName =>
        updateEntity this (fun e =>
          Entity.with__componentsToRemove
            (JS.del (Entity._componentsToRemove e) componentName) e)) w
      = (Ret tt, w')
      /\ Frame w' /\ World.entityStore w' !! this = Some y0
      /\ teardownStep w w'.
Proof.
  induction K as [|k K IH]; intros w x HF Hx Hkeys Hy0.
  - exists w. split; [reflexivity|]. split; [exact HF|].
    split; [|apply teardownStep_refl].
    rewrite Hx. f_equal. rewrite <- Hy0.
    destruct x as [? ? ? ctr ? ? ? ? ?]; simpl in *.
    destruct ctr as [|[k v] ctr]; [reflexivity|]. exfalso. apply (Hkeys k). now left.
  - cbn [forEach].
    rewrite (bind_run _ _ w tt _ (World_updateEntity_run w this x _ Hx)).
    match goal with |- context [forEach K _ ?ww] => set (w1 := ww) end.
    destruct (IH w1 (Entity.with__componentsToRemove
                       (JS.del (Entity._componentsToRemove x) k) x))
      as (w' & Hrun' & HF' & Hx' & Hs').
    + apply Frame_updateEntity with (x := x); auto.
    + simpl. apply list_lookup_insert_eq. eapply lookup_lt_Some; eauto.
    + cbn. intros k' Hk'. apply keys_del_subset in Hk' as [Hin Hne].
      destruct (Hkeys k' Hin) as [->|]; [congruence | assumption].
    + rewrite <- Hy0. reflexivity.
    + exists w'. split; [exact Hrun'|]. split; [exact HF'|]. split; [exact Hx'|].
      eapply teardownStep_trans; [|exact Hs']. apply teardownStep_same; reflexivity.
Qed.
End Dispose.

Lemma sameButQueries_fields x y :
  sameButQueries x y ->
  Entity.uuid x = Entity.uuid y /\ Entity.componentTypes x = Entity.componentTypes y
  /\ Entity.components x = Entity.components y
  /\ Entity._componentsToRemove x = Entity._componentsToRemove y
  /\ Entity._componentTypesToRemove x = Entity._componentTypesToRemove y
  /\ Entity.alive x = Entity.alive y
  /\ Entity._numSystemStateComponents x = Entity._numSystemStateComponents y
  /\ Entity._pool x = Entity._pool y.
Proof.
  unfold sameButQueries. destruct x, y; simpl. intros [= -> -> -> -> -> -> -> ->].
  repeat split; reflexivity.
Qed.

Lemma World_onEntityDisposed_frame this w x :
  World.entityStore w !! this = Some x ->
  exists w', World_onEntityDisposed this w = (Ret tt, w')
             /\ World.entityStore w' = World.entityStore w
             /\ World.poolStore w' = World.poolStore w
             /\ World.queries w' = World.queries w
             /\ World.queryStore w' = World.queryStore w.
Proof.
  intros Hx. unfold World_onEntityDisposed.
  rewrite (bind_run _ _ w x w (World_readEntity_run w this x Hx)).
  unfold bind at 1, getWorld, getState at 1.
  destruct (World.entitiesByUUID w !! Entity.uuid x); [|exists w; auto].
  unfold bind at 1, modify at 1. unfold bind at 1, getState at 1.
  match goal with |- context [when ?b _] => destruct b end; cbn [when];
    eexists; (split; [reflexivity|]); repeat split; reflexivity.
Qed.

Lemma disposed_record u e x1 x5 :
  sameButQueries x1 e ->
  sameButQueries x5 (Entity.with_alive true (Entity.with_uuid u x1)) ->
  Entity.with__componentTypesToRemove []
    (Entity.with_componentTypes []
       (Entity.with_queries []
          (Entity.with__componentsToRemove [] (Entity.with_components [] x5))))
  = disposed u e.
Proof.
  unfold sameButQueries, disposed. destruct x5, x1, e; simpl.
  intros [= -> -> -> -> -> -> -> ->] [= -> -> -> -> -> -> -> ->]. reflexivity.
Qed.


(* ===================================================================== *)
(** * Further properties of the code *)
(* ===================================================================== *)

Lemma indexOf_from_split {A} `{EqDecision A} (l : list A) (x : A) :
  In x l ->
  exists l1 l2, l = l1 ++ x :: l2 /\ ~ In x l1
                /\ forall i, JS.indexOf_from i l x = i + Z.of_nat (length l1).
Proof.
  induction l as [|y l IH]; simpl; [tauto|]. intros Hin.
  destruct (decide (y = x)) as [->|Hne].
  - exists [], l. split; [reflexivity|]. split; [tauto|]. intros i. simpl. lia.
  - destruct Hin as [?|Hin]; [congruence|].
    destruct (IH Hin) as (l1 & l2 & -> & Hn & Hi).
    exists (y :: l1), l2. split; [reflexivity|]. split.
    + simpl. intros [?|?]; [congruence | tauto].
    + intros i. rewrite Hi. simpl length. lia.
Qed.

Lemma splice1_middle {A} (l1 l2 : list A) (x : A) :
  JS.splice1 (Z.of_nat (length l1)) (l1 ++ x :: l2) = l1 ++ l2.
Proof.
  unfold JS.splice1. replace (Z.of_nat (length l1) <? 0) with false by (symmetry; apply Z.ltb_ge; lia).
  rewrite Z.min_l by (rewrite length_app; simpl; lia). rewrite Nat2Z.id.
  rewrite take_app_length. f_equal.
  rewrite drop_app_ge by lia. replace (S (length l1) - length l1)%nat with 1%nat by lia.
  reflexivity.
Qed.

Lemma splice1_indexOf {A} `{EqDecision A} (l : list A) (x : A) :
  In x l ->
  exists l1 l2, l = l1 ++ x :: l2 /\ ~ In x l1
                /\ JS.splice1 (JS.indexOf l x) l = l1 ++ l2.
Proof.
  intros Hin. destruct (indexOf_from_split l x Hin) as (l1 & l2 & -> & Hn & Hi).
  exists l1, l2. split; [reflexivity|]. split; [exact Hn|].
  unfold JS.indexOf. rewrite Hi. simpl. apply splice1_middle.
Qed.

Lemma indexOf_absent {A} `{EqDecision A} (l : list A) (x : A) :
  (JS.indexOf l x =? -1) = true <-> ~ In x l.
Proof.
  pose proof (tilde_indexOf_In l x) as H. unfold JS.tilde in H.
  destruct (JS.indexOf l x =? -1); simpl in H; split; auto.
  - intros _ Hin. apply H in Hin. discriminate.
  - discriminate.
  - intros Hn. exfalso. apply Hn, H. reflexivity.
Qed.

Lemma includes_In {A} `{EqDecision A} (l : list A) (x : A) : JS.includes l x = true <-> In x l.
Proof. apply tilde_indexOf_In. Qed.

Lemma includes_not_In {A} `{EqDecision A} (l : list A) (x : A) :
  JS.includes l x = false <-> ~ In x l.
Proof. rewrite <- includes_In. destruct (JS.includes l x); split; congruence. Qed.

(** The order [sort()] uses is a total order on strings. *)
Lemma ascii_compare_lt_trans (a b c : ascii) :
  Ascii.compare a b = Lt -> Ascii.compare b c = Lt -> Ascii.compare a c = Lt.
Proof.
  unfold Ascii.compare. rewrite !N.compare_lt_iff. apply N.lt_trans.
Qed.

Lemma string_compare_lt_trans (s1 : string) :
  forall s2 s3, String.compare s1 s2 = Lt -> String.compare s2 s3 = Lt ->
                String.compare s1 s3 = Lt.
Proof.
  induction s1 as [|a s1 IH]; intros [|b s2] [|c s3]; simpl; try congruence.
  destruct (Ascii.compare a b) eqn:Eab; try discriminate.
  - apply Ascii.compare_eq_iff in Eab as ->.
    destruct (Ascii.compare b c) eqn:Ebc; try discriminate; auto.
    intros. eapply IH; eauto.
  - intros _. destruct (Ascii.compare b c) eqn:Ebc; try discriminate.
    + apply Ascii.compare_eq_iff in Ebc as <-. now rewrite Eab.
    + now rewrite (ascii_compare_lt_trans _ _ _ Eab Ebc).
Qed.

Lemma string_leb_trans (s1 s2 s3 : string) :
  String.leb s1 s2 = true -> String.leb s2 s3 = true -> String.leb s1 s3 = true.
Proof.
  unfold String.leb.
  destruct (String.compare s1 s2) eqn:E12; try discriminate;
    destruct (String.compare s2 s3) eqn:E23; try discriminate; intros _ _.
  - apply String.compare_eq_iff in E12 as ->. now rewrite E23.
  - apply String.compare_eq_iff in E12 as ->. now rewrite E23.
  - apply String.compare_eq_iff in E23 as <-. now rewrite E12.
  - now rewrite (string_compare_lt_trans _ _ _ E12 E23).
Qed.

Lemma string_leb_false (s1 s2 : string) :
  String.leb s1 s2 = false -> String.leb s2 s1 = true.
Proof. destruct (String.leb_total s1 s2); congruence. Qed.

(** Sorted for [String.leb]. *)
Lemma insertSorted_head (a : string) (l : list string) (b : string) :
  String.leb b a = true -> Forall (fun x => String.leb b x = true) l ->
  Forall (fun x => String.leb b x = true) (insertSorted a l).
Proof.
  intros Hba. induction l as [|x l IH]; simpl; intros Hl.
  - repeat constructor. exact Hba.
  - inversion Hl; subst. destruct (String.leb a x); repeat constructor; auto.
Qed.

Lemma insertSorted_ascending (a : string) (l : list string) :
  ascending l -> ascending (insertSorted a l).
Proof.
  induction 1 as [|x l Hx Hl IH]; simpl.
  - repeat constructor.
  - destruct (String.leb a x) eqn:E.
    + constructor; [|constructor; auto]. constructor; [exact E|].
      eapply Forall_impl; [exact Hx|]. simpl. intros y Hy. eapply string_leb_trans; eauto.
    + constructor; [|exact IH]. apply insertSorted_head; auto. now apply string_leb_false.
Qed.

Lemma sort_ascending (l : list string) : ascending (sort l).
Proof.
  induction l as [|a l IH]; simpl; [constructor|]. now apply insertSorted_ascending.
Qed.

Lemma insertSorted_least (a : string) (l : list string) :
  Forall (fun y => String.leb a y = true) l -> insertSorted a l = a :: l.
Proof. destruct 1 as [|x l Hx Hl]; simpl; [reflexivity|]. now rewrite Hx. Qed.

Lemma insertSorted_comm (a b : string) (l : list string) :
  ascending l -> insertSorted a (insertSorted b l) = insertSorted b (insertSorted a l).
Proof.
  induction 1 as [|x l Hx Hl IH]; simpl.
  - destruct (String.leb a b) eqn:Eab, (String.leb b a) eqn:Eba; try reflexivity.
    + now rewrite (String.leb_antisym _ _ Eab Eba).
    + apply string_leb_false in Eab. congruence.
  - destruct (String.leb b x) eqn:Ebx, (String.leb a x) eqn:Eax; simpl.
    + rewrite Ebx, Eax.
      destruct (String.leb a b) eqn:Eab, (String.leb b a) eqn:Eba; try reflexivity.
      * now rewrite (String.leb_antisym _ _ Eab Eba).
      * apply string_leb_false in Eab. congruence.
    + rewrite Ebx.
      destruct (String.leb a b) eqn:Eab.
      * rewrite (string_leb_trans _ _ _ Eab Ebx) in Eax. discriminate.
      * rewrite Eax. reflexivity.
    + rewrite Eax.
      destruct (String.leb b a) eqn:Eba.
      * rewrite (string_leb_trans _ _ _ Eba Eax) in Ebx. discriminate.
      * rewrite Ebx. reflexivity.
    + rewrite Eax, Ebx. now rewrite IH.
Qed.

Lemma sort_Permutation (l l' : list string) :
  Permutation l l' -> sort l = sort l'.
Proof.
  induction 1 as [|x l l' _ IH|x y l|l l' l'' _ IH1 _ IH2]; simpl.
  - reflexivity.
  - now rewrite IH.
  - apply insertSorted_comm, sort_ascending.
  - congruence.
Qed.

(** X1. The key of a query does not depend on the order in which the
    components are listed: [names.sort()] puts the names in one order.  So
    [getQuery] called with a reordering of a list that already has a query
    returns that query and leaves the world as it is. *)
Theorem queryKey_order_irrelevant (Components Components' : list QueryTerm) :
  Permutation Components Components' ->
  queryKey Components = queryKey Components'
  /\ forall (w : World.t) (query : nat),
       JS.get (World.queries w) (queryKey Components) = Some query ->
       World_getQuery Components' w = (Ret query, w).
Proof.
  intros Hperm.
  assert (Hkey : queryKey Components = queryKey Components').
  { unfold queryKey. f_equal. apply sort_Permutation. now apply Permutation_map. }
  split; [exact Hkey|].
  intros w query Hq. unfold World_getQuery, bind, getWorld, getState. simpl.
  rewrite <- Hkey, Hq. reflexivity.
Qed.

Lemma queryKey_order_irrelevant_witness :
  queryKey [Bare Position; Not Velocity] = queryKey [Not Velocity; Bare Position]
  /\ World_getQuery [Not Velocity; Bare Position] indexedScene = (Ret 1%nat, indexedScene).
Proof.
  destruct (queryKey_order_irrelevant [Bare Position; Not Velocity]
              [Not Velocity; Bare Position]) as [Hk Hq].
  - apply perm_swap.
  - split; [exact Hk|]. apply Hq. vm_compute. reflexivity.
Defined.

Lemma World_with_poolStore_id (w : World.t) p pool :
  World.poolStore w !! p = Some pool ->
  World.with_poolStore (<[p := pool]> (World.poolStore w)) w = w.
Proof. intros H. destruct w. unfold World.with_poolStore. simpl in *. now rewrite list_insert_id. Qed.

Lemma pop_push {A} (l : list A) (x : A) : JS.pop (JS.push l x) = (Some x, l).
Proof. unfold JS.pop, JS.push. now rewrite last_snoc, removelast_last. Qed.

Lemma ObjectPool_release_run (w : World.t) p pool b item :
  World.poolStore w !! p = Some pool ->
  ObjectPool.baseObject pool = ItemComponent b ->
  ObjectPool_release p item w
  = (Ret tt, World.with_poolStore
               (<[p := ObjectPool.with_freeList (JS.push (ObjectPool.freeList pool) item) pool]>
                  (World.poolStore w)) w).
Proof.
  intros Hp Hb. unfold ObjectPool_release.
  rewrite (bind_run _ _ _ _ _ (World_readPool_run w p pool Hp)). rewrite Hb.
  assert (Hcopy : Item_copy item (ItemComponent b) w = (Ret tt, w)) by (destruct item; reflexivity).
  rewrite (bind_run _ _ _ _ _ Hcopy).
  rewrite (World_updatePool_run w p pool _ Hp). reflexivity.
Qed.

Lemma ObjectPool_acquire_tail (w : World.t) p pool item rest :
  World.poolStore w !! p = Some pool ->
  ObjectPool.freeList pool = rest ++ [item] ->
  (pool ← readPool p;
   let '(item, rest) := JS.pop (ObjectPool.freeList pool) in
   updatePool p (ObjectPool.with_freeList rest);; ret item) w
  = (Ret (Some item),
     World.with_poolStore (<[p := ObjectPool.with_freeList rest pool]> (World.poolStore w)) w).
Proof.
  intros Hp Hf.
  rewrite (bind_run _ _ _ _ _ (World_readPool_run w p pool Hp)). cbv beta. rewrite Hf.
  change (rest ++ [item]) with (JS.push rest item). rewrite pop_push.
  rewrite (bind_run _ _ _ _ _ (World_updatePool_run w p pool _ Hp)). reflexivity.
Qed.

Lemma ObjectPool_acquire_run (w : World.t) p pool item rest :
  World.poolStore w !! p = Some pool ->
  ObjectPool.freeList pool = rest ++ [item] ->
  ObjectPool_acquire p w
  = (Ret (Some item),
     World.with_poolStore (<[p := ObjectPool.with_freeList rest pool]> (World.poolStore w)) w).
Proof.
  intros Hp Hf. unfold ObjectPool_acquire.
  rewrite (bind_run _ _ _ _ _ (World_readPool_run w p pool Hp)). cbv beta.
  rewrite Hf. rewrite length_app. simpl length.
  replace (Z.of_nat (length rest + 1) <=? 0) with false by (symmetry; apply Z.leb_gt; lia).
  cbn [when]. rewrite ret_bind.
  now apply ObjectPool_acquire_tail.
Qed.





(** X4. [acquire] always hands out an item and raises the number of items
    in use by exactly one, whether it pops a free item or has to grow the
    pool first. *)
Theorem ObjectPool_acquire_used (w : World.t) (p : nat) (pool : ObjectPool.t) :
  World.poolStore w !! p = Some pool ->
  baseReady w (ObjectPool.baseObject pool) ->
  0 <= ObjectPool.count pool ->
  exists item w' pool',
    ObjectPool_acquire p w = (Ret (Some item), w')
    /\ World.poolStore w' !! p = Some pool'
    /\ ObjectPool.baseObject pool' = ObjectPool.baseObject pool
    /\ ObjectPool.totalUsed pool' = ObjectPool.totalUsed pool + 1
    /\ (ObjectPool.freeList pool <> [] ->
        ObjectPool.totalSize pool' = ObjectPool.totalSize pool
        /\ Some item = last (ObjectPool.freeList pool)).
Proof.
  intros Hp Hready Hc.
  destruct (ObjectPool.freeList pool) as [|item rest _] eqn:Hf using rev_ind.
  - set (growth := Math_round_fifth (ObjectPool.count pool) + 1).
    assert (Hg : 1 <= growth).
    { unfold growth, Math_round_fifth.
      assert (0 <= (2 * ObjectPool.count pool + 5) / 10) by (apply Z.div_pos; lia). lia. }
    destruct (ObjectPool_expand_returns p (ObjectPool.baseObject pool) (ObjectPool.count pool)
                0 growth w)
      as ([] & w1 & Hrun & (pool1 & Hp1 & Hbase1 & Hc1 & Hlen1) & Hready1).
    { split; [|exact Hready]. exists pool. rewrite Hf. auto. }
    simpl in Hlen1.
    destruct (ObjectPool.freeList pool1) as [|item rest _] eqn:Hf1 using rev_ind.
    { simpl in Hlen1. lia. }
    exists item. eexists. exists (ObjectPool.with_freeList rest pool1).
    split.
    { unfold ObjectPool_acquire.
      rewrite (bind_run _ _ _ _ _ (World_readPool_run w p pool Hp)). cbv beta.
      rewrite Hf. cbn [length Z.of_nat Z.leb Z.compare when]. fold growth.
      rewrite (bind_run _ _ _ _ _ Hrun).
      exact (ObjectPool_acquire_tail w1 p pool1 item rest Hp1 Hf1). }
    split.
    { simpl. apply list_lookup_insert_eq. eapply lookup_lt_Some; eauto. }
    split; [exact Hbase1|]. split.
    { unfold ObjectPool.totalUsed. simpl. rewrite Hc1, Hf.
      rewrite length_app in Hlen1. simpl in *. lia. }
    intros Hne. now contradiction Hne.
  - exists item. eexists. exists (ObjectPool.with_freeList rest pool).
    split; [exact (ObjectPool_acquire_run w p pool item rest Hp Hf)|].
    split.
    { simpl. apply list_lookup_insert_eq. eapply lookup_lt_Some; eauto. }
    split; [reflexivity|]. split.
    { unfold ObjectPool.totalUsed. simpl. rewrite Hf, length_app. simpl. lia. }
    intros _. split; [reflexivity|]. now rewrite last_snoc.
Qed.

Lemma ObjectPool_acquire_used_witness :
  exists pool item w' pool',
    World.poolStore sceneWorld !! 1%nat = Some pool
    /\ ObjectPool_acquire 1%nat sceneWorld = (Ret (Some item), w')
    /\ World.poolStore w' !! 1%nat = Some pool'
    /\ ObjectPool.totalUsed pool' = ObjectPool.totalUsed pool + 1.
Proof.
  destruct (World.poolStore sceneWorld !! 1%nat) as [pool|] eqn:Hp;
    [|vm_compute in Hp; discriminate].
  destruct (ObjectPool_acquire_used sceneWorld 1%nat pool Hp)
    as (item & w' & pool' & Hrun & Hp' & _ & Hused & _).
  - vm_compute in Hp. injection Hp as <-. exact I.
  - vm_compute in Hp. injection Hp as <-. vm_compute. discriminate.
  - exists pool, item, w', pool'. auto.
Defined.

Lemma ObjectPool_expand_loop (p : nat) (c : Component) {A} (l : list A) :
  forall (w : World.t) (pool : ObjectPool.t),
    World.poolStore w !! p = Some pool ->
    ObjectPool.baseObject pool = ItemComponent c ->
    forEach l (fun _ =>
      pool ← readPool p;
      clone ← Item_clone (ObjectPool.baseObject pool);
      clone ← Item_set_pool clone p;
      updatePool p (fun pool =>
        ObjectPool.with_freeList (JS.push (ObjectPool.freeList pool) clone) pool)) w
    = (Ret tt,
       expandedWorld w p pool (length l)
         (map (pooledClone p c (World.nextInstanceId w)) (seq 0 (length l)))).
Proof.
  induction l as [|x l IH]; intros w pool Hp Hb.
  - simpl. unfold ret, expandedWorld. f_equal. simpl. rewrite app_nil_r.
    replace (ObjectPool.with_freeList (ObjectPool.freeList pool) pool) with pool
      by (destruct pool; reflexivity).
    destruct w. unfold World.with_poolStore, World.with_nextInstanceId. cbn in *.
    f_equal; [lia | symmetry; now apply list_insert_id].
  - cbn [forEach length].
    set (w1 := World.with_nextInstanceId (S (World.nextInstanceId w)) w).
    set (clone := pooledClone p c (World.nextInstanceId w) 0).
    set (pool1 := ObjectPool.with_freeList (JS.push (ObjectPool.freeList pool) clone) pool).
    set (w2 := World.with_poolStore (<[p := pool1]> (World.poolStore w1)) w1).
    assert (Hstep :
      (pool ← readPool p;
       clone ← Item_clone (ObjectPool.baseObject pool);
       clone ← Item_set_pool clone p;
       updatePool p (fun pool =>
         ObjectPool.with_freeList (JS.push (ObjectPool.freeList pool) clone) pool)) w
      = (Ret tt, w2)).
    { rewrite (bind_run _ _ _ _ _ (World_readPool_run w p pool Hp)). cbv beta. rewrite Hb.
      unfold Item_clone, Component_clone, Component_new, Item_set_pool.
      unfold bind at 1. unfold bind at 1. unfold bind at 1. unfold freshInstanceId, ret.
      fold w1. cbv beta iota. unfold bind at 1. cbn [instanceId constructor_].
      assert (Hp1 : World.poolStore w1 !! p = Some pool) by exact Hp.
      rewrite (World_updatePool_run w1 p pool _ Hp1).
      unfold w2, pool1, clone, pooledClone. now rewrite Nat.add_0_r. }
    rewrite (bind_run _ _ _ _ _ Hstep).
    assert (Hp2 : World.poolStore w2 !! p = Some pool1).
    { simpl. apply list_lookup_insert_eq. eapply lookup_lt_Some; eauto. }
    rewrite (IH w2 pool1 Hp2 Hb). f_equal. unfold expandedWorld.
    subst w2 pool1 w1 clone. clear IH Hstep Hp2.
    destruct w, pool. unfold World.with_poolStore, World.with_nextInstanceId,
      ObjectPool.with_freeList, JS.push. cbn in *.
    f_equal; [lia|]. rewrite list_insert_insert_eq. rewrite <- app_assoc. simpl.
    replace (map (pooledClone p c nextInstanceId) (seq 1 (length l)))
      with (map (pooledClone p c (S nextInstanceId)) (seq 0 (length l))); [reflexivity|].
    rewrite <- seq_shift, map_map. apply map_ext. intros i. unfold pooledClone.
    do 2 f_equal. lia.
Qed.

Lemma pooledClone_NoDup p c next k :
  NoDup (map (pooledClone p c next) (seq 0 k)).
Proof.
  apply NoDup_fmap_2.
  - intros i j H. unfold pooledClone in H. injection H. lia.
  - apply NoDup_seq.
Qed.

(** X5. [new ObjectPool(base, n)] around a component [base] fills the free
    list with [n] clones: fresh instances of the class of [base], each with
    [_pool] set to the new pool, no two of them the same object; its total
    size is [n] and none is in use.  (For [n <= 0] no clone is made and the
    size is still set to [n].) *)
Theorem ObjectPool_new_clones (w : World.t) (base : Component) (n : Z) :
  let p := length (World.poolStore w) in
  let clones := map (pooledClone p base (World.nextInstanceId w)) (seq 0 (Z.to_nat n)) in
  exists w',
    ObjectPool_new (ItemComponent base) (Some n) w = (Ret p, w')
    /\ World.poolStore w'
       = World.poolStore w ++ [ObjectPool.mk clones n (ItemComponent base)]
    /\ World.entityStore w' = World.entityStore w
    /\ NoDup clones
    /\ (0 <= n -> ObjectPool.totalUsed (ObjectPool.mk clones n (ItemComponent base)) = 0).
Proof.
  intros p clones.
  set (w0 := World.with_poolStore
               (World.poolStore w ++ [ObjectPool.mk [] 0 (ItemComponent base)]) w).
  assert (Hp0 : World.poolStore w0 !! p = Some (ObjectPool.mk [] 0 (ItemComponent base))).
  { simpl. rewrite lookup_app_r by (unfold p; lia).
    unfold p. now rewrite Nat.sub_diag. }
  pose proof (ObjectPool_expand_loop p base (seq 0 (Z.to_nat n)) w0 _ Hp0 eq_refl) as Hloop.
  rewrite length_seq in Hloop. change (World.nextInstanceId w0) with (World.nextInstanceId w) in Hloop.
  fold clones in Hloop. simpl app in Hloop.
  eexists. split.
  { unfold ObjectPool_new, allocPool. unfold bind at 1. fold p. fold w0. cbv beta iota.
    unfold ObjectPool_expand. rewrite !bind_assoc.
    rewrite (bind_run _ _ _ _ _ Hloop).
    erewrite bind_run.
    2:{ apply World_updatePool_run. unfold expandedWorld. simpl.
        apply list_lookup_insert_eq. rewrite length_app. simpl. unfold p. lia. }
    reflexivity. }
  split.
  { unfold expandedWorld. simpl. rewrite list_insert_insert_eq.
    unfold p. rewrite insert_app_r_alt by lia. now rewrite Nat.sub_diag. }
  split; [reflexivity|].
  split; [apply pooledClone_NoDup|].
  intros Hn. unfold ObjectPool.totalUsed, clones. simpl. rewrite length_map, length_seq. lia.
Qed.

Lemma ObjectPool_new_clones_witness :
  let base := {| instanceId := 0; constructor_ := Position; component_pool := None |} in
  exists w' pool,
    ObjectPool_new (ItemComponent base) (Some 2) sceneWorld
    = (Ret (length (World.poolStore sceneWorld)), w')
    /\ World.poolStore w' !! length (World.poolStore sceneWorld) = Some pool
    /\ length (ObjectPool.freeList pool) = 2%nat
    /\ ObjectPool.totalUsed pool = 0.
Proof.
  intros base.
  destruct (ObjectPool_new_clones sceneWorld base 2) as (w' & Hrun & Hstore & _ & _ & Hused).
  eexists w', _. split; [exact Hrun|]. split.
  - rewrite Hstore. rewrite lookup_app_r by lia. rewrite Nat.sub_diag. reflexivity.
  - split; [reflexivity|]. apply Hused. lia.
Defined.

Ltac world_simpl :=
  cbv beta;
  cbn [World.random World.randomCalls World.nextInstanceId World.entityStore
       World.queryStore World.poolStore World.console World.entityPool World.entities
       World.entitiesByUUID World.entitiesWithComponentsToRemove World.entitiesToRemove
       World.deferredRemovalEnabled World.componentTypes World.componentPools
       World.componentCounts World.queries World.enabled
       World.with_randomCalls World.with_nextInstanceId World.with_entityStore
       World.with_queryStore World.with_poolStore World.with_console World.with_entities
       World.with_entitiesByUUID World.with_entitiesWithComponentsToRemove
       World.with_entitiesToRemove World.with_componentTypes World.with_componentPools
       World.with_componentCounts World.with_queries World.with_enabled].

(** X6. A component class whose name is no member of [Object.prototype] is
    registered once per name.  The first [registerComponent] records the
    class, a count of [0] and the pool ([getComponentPool] then returns it;
    for [undefined] a new empty pool around a fresh instance of the class).
    A second registration under the same name, whatever pool it brings, only
    logs a warning: class, count and pool stay those of the first.  A class
    named like a member of [Object.prototype] ([toString], [constructor],
    ...) is never registered: on any world the call only logs the warning
    "already registered". *)
Theorem World_registerComponent_once (w : World.t) (T T' : ComponentClass)
    (objectPool objectPool' : PoolArgument) :
  World.componentTypes w !! name T = None ->
  name T' = name T ->
  JS.inherited (name T) = false ->
  (exists w1,
     World_registerComponent T objectPool w = (Ret tt, w1)
     /\ World.componentTypes w1 !! name T = Some T
     /\ World.componentCounts w1 !! name T = Some (Num 0)
     /\ World_getComponentPool T w1 = (Ret (registeredPool w objectPool), w1)
     /\ (objectPool = PoolUndefined ->
         exists base,
           constructor_ base = T
           /\ World.poolStore w1
              = World.poolStore w ++ [ObjectPool.mk [] 0 (ItemComponent base)])
     /\ World_registerComponent T' objectPool' w1
        = (Ret tt, World.with_console (World.console w1 ++ [alreadyRegistered T']) w1))
  /\ (forall U pool,
        JS.inherited (name U) = true ->
        World_registerComponent U pool w
        = (Ret tt, World.with_console (World.console w ++ [alreadyRegistered U]) w)).
Proof.
  intros Hnew Hname Hown. split.
  2:{ intros U pool HU. unfold World_registerComponent, bind, getWorld, getState.
      cbv beta iota. rewrite HU, orb_true_r. reflexivity. }
  unfold World_registerComponent at 1, bind at 1, getWorld, getState. cbv beta iota.
  rewrite bool_decide_eq_false_2 by (rewrite Hnew; intros [? ?]; discriminate).
  rewrite Hown. cbn [orb].
  assert (Hagain : forall w1, World.componentTypes w1 !! name T = Some T ->
            World_registerComponent T' objectPool' w1
            = (Ret tt, World.with_console (World.console w1 ++ [alreadyRegistered T']) w1)).
  { intros w1 H1. unfold World_registerComponent, bind, getWorld, getState. cbv beta iota.
    rewrite Hname, H1. rewrite bool_decide_eq_true_2 by eauto.
    unfold alreadyRegistered. now rewrite Hname. }
  assert (Hget : forall w1 r, World.componentPools w1 !! name T = Some r ->
            World_getComponentPool T w1
            = (Ret (match r with Some p => SlotPool p | None => SlotUndefined end), w1)).
  { intros w1 r H1. unfold World_getComponentPool, bind, getWorld, getState, ret.
    cbv beta iota. now rewrite H1. }
  destruct objectPool as [| |p];
    (eexists; split; [reflexivity|];
     split; [world_simpl; now rewrite lookup_insert_eq|];
     split; [world_simpl; now rewrite lookup_insert_eq|];
     split; [erewrite Hget by (world_simpl; now rewrite lookup_insert_eq); reflexivity|];
     split; [|apply Hagain; world_simpl; now rewrite lookup_insert_eq]);
    try discriminate.
  intros _. eexists. split; [|reflexivity]. reflexivity.
Qed.

Lemma World_registerComponent_once_witness :
  (exists w1,
     World_registerComponent Position PoolUndefined newWorld = (Ret tt, w1)
     /\ World_getComponentPool Position w1 = (Ret (SlotPool 1%nat), w1)
     /\ World_registerComponent Position PoolFalse w1
        = (Ret tt, World.with_console (World.console w1 ++ [alreadyRegistered Position]) w1))
  /\ World_registerComponent ToString PoolUndefined newWorld
     = (Ret tt, World.with_console
                  (World.console newWorld ++ [alreadyRegistered ToString]) newWorld).
Proof.
  destruct (World_registerComponent_once newWorld Position Position PoolUndefined PoolFalse)
    as ((w1 & Hrun & _ & _ & Hpool & _ & Hagain) & Hnever).
  - vm_compute. reflexivity.
  - reflexivity.
  - reflexivity.
  - split.
    + exists w1. split; [exact Hrun|]. split; [exact Hpool|exact Hagain].
    + apply Hnever. reflexivity.
Defined.

Lemma length_append (s1 s2 : string) :
  String.length (s1 +:+ s2) = (String.length s1 + String.length s2)%nat.
Proof. induction s1 as [|c s1 IH]; simpl; [reflexivity|]. cbv [append] in *. simpl. now rewrite IH. Qed.

Lemma list_ascii_of_string_append (s1 s2 : string) :
  list_ascii_of_string (s1 +:+ s2) = list_ascii_of_string s1 ++ list_ascii_of_string s2.
Proof. induction s1 as [|c s1 IH]; simpl; [reflexivity|]. cbv [append] in *. simpl. now rewrite IH. Qed.

Lemma charAt_characters (i : Z) :
  0 <= i < 36 ->
  exists c, RemoteDevtools.charAt RemoteDevtools.characters i = String c ""
            /\ isIdCharacter c = true.
Proof.
  intros Hi. assert (Hn : (Z.to_nat i < 36)%nat) by lia.
  unfold RemoteDevtools.charAt. replace (i <? 0) with false by (symmetry; apply Z.ltb_ge; lia).
  generalize dependent (Z.to_nat i). intros n Hn.
  do 36 (destruct n as [|n]; [eexists; split; [reflexivity|reflexivity]|]). lia.
Qed.

Lemma generateId_loop_spec (random : nat -> Z) (n : nat) :
  (forall k, 0 <= random k < 36) ->
  forall calls result,
    let out := RemoteDevtools.generateId_loop n random calls result in
    String.length (fst out) = (String.length result + n)%nat
    /\ (forallb isIdCharacter (list_ascii_of_string result) = true ->
        forallb isIdCharacter (list_ascii_of_string (fst out)) = true)
    /\ snd out = (calls + n)%nat.
Proof.
  intros Hr. induction n as [|n IH]; intros calls result; simpl.
  - repeat split; auto; lia.
  - destruct (charAt_characters (random calls) (Hr calls)) as (c & Hc & Hid).
    destruct (IH (S calls) (result +:+ RemoteDevtools.charAt RemoteDevtools.characters (random calls)))
      as (Hlen & Hall & Hcalls).
    split; [|split].
    + rewrite Hlen, length_append, Hc. simpl. lia.
    + intros Hres. apply Hall. rewrite list_ascii_of_string_append, forallb_app, Hres, Hc.
      simpl. now rewrite Hid.
    + rewrite Hcalls. lia.
Qed.

(** X7. [generateId(length)] returns exactly [length] characters (none for
    a length that is not positive), each one a capital letter or a digit,
    and draws one random number per character. *)
Theorem generateId_shape (random : nat -> Z) (calls : nat) (length : Z) :
  (forall k, 0 <= random k < 36) ->
  let out := RemoteDevtools.generateId random calls length in
  String.length (fst out) = Z.to_nat length
  /\ forallb isIdCharacter (list_ascii_of_string (fst out)) = true
  /\ snd out = (calls + Z.to_nat length)%nat.
Proof.
  intros Hr out.
  destruct (generateId_loop_spec random (Z.to_nat length) Hr calls "") as (Hlen & Hall & Hcalls).
  split; [exact Hlen|]. split; [now apply Hall | exact Hcalls].
Qed.

Lemma generateId_shape_witness :
  RemoteDevtools.generateId sampleIndex 0 6 = ("AHOV29", 6%nat)
  /\ String.length (fst (RemoteDevtools.generateId sampleIndex 0 6)) = 6%nat
  /\ forallb isIdCharacter
       (list_ascii_of_string (fst (RemoteDevtools.generateId sampleIndex 0 6))) = true.
Proof.
  split; [vm_compute; reflexivity|].
  destruct (generateId_shape sampleIndex 0 6) as (Hlen & Hall & _).
  - intros k. unfold sampleIndex. apply Z.mod_pos_bound. lia.
  - split; [exact Hlen | exact Hall].
Defined.

Section DispatcherFacts.

Context {L : Type} `{EqDecision L}.

Implicit Types (d : EventDispatcher.t L) (l : L).

Lemma hasEventListener_In d e l :
  EventDispatcher.hasEventListener e l d = true
  <-> exists arr, JS.get (EventDispatcher._listeners d) e = Some arr /\ In l arr.
Proof.
  unfold EventDispatcher.hasEventListener.
  destruct (JS.get (EventDispatcher._listeners d) e) as [arr|].
  - change (negb (JS.indexOf arr l =? -1)) with (JS.tilde (JS.indexOf arr l)).
    rewrite tilde_indexOf_In. split; [eauto|]. intros (arr' & [= <-] & Hin). exact Hin.
  - split; [discriminate|]. intros (arr & [=] & _).
Qed.

Lemma set_Forall {V} (P : string * V -> Prop) (o : JS.obj V) k v :
  Forall P o -> P (k, v) -> Forall P (JS.set o k v).
Proof.
  intros Ho Hv. induction Ho as [|[k' v'] o Hx Ho IH]; simpl.
  - repeat constructor. exact Hv.
  - destruct (decide (k' = k)) as [->|Hne]; constructor; auto.
Qed.

Lemma get_Forall {V} (P : string * V -> Prop) (o : JS.obj V) k v :
  Forall P o -> JS.get o k = Some v -> P (k, v).
Proof.
  induction 1 as [|[k' v'] o Hx Ho IH]; simpl; [discriminate|].
  destruct (decide (k' = k)) as [->|Hne]; [intros [= <-]; exact Hx | exact IH].
Qed.

(** What [addEventListener] leaves in the dictionary. *)
Lemma addEventListener_listeners d e l :
  EventDispatcher._listeners (EventDispatcher.addEventListener e l d)
  = match JS.get (EventDispatcher._listeners d) e with
    | None => JS.set (EventDispatcher._listeners d) e [l]
    | Some arr => if JS.includes arr l then EventDispatcher._listeners d
                  else JS.set (EventDispatcher._listeners d) e (arr ++ [l])
    end.
Proof.
  unfold EventDispatcher.addEventListener.
  destruct (JS.get (EventDispatcher._listeners d) e) as [arr|] eqn:Hget.
  - rewrite Hget. unfold JS.includes, JS.tilde.
    destruct (JS.indexOf arr l =? -1); reflexivity.
  - cbn [EventDispatcher._listeners EventDispatcher.with__listeners].
    rewrite get_set_eq. cbn.
    induction (EventDispatcher._listeners d) as [|[k v] o IH]; simpl in *.
    + destruct (decide (e = e)); [reflexivity|congruence].
    + destruct (decide (k = e)) as [->|Hne]; [discriminate|]. simpl.
      destruct (decide (k = e)); [congruence|]. f_equal. now apply IH.
Qed.

Lemma addEventListener_counters d e l :
  EventDispatcher.fired (EventDispatcher.addEventListener e l d) = EventDispatcher.fired d
  /\ EventDispatcher.handled (EventDispatcher.addEventListener e l d)
     = EventDispatcher.handled d.
Proof.
  unfold EventDispatcher.addEventListener.
  destruct (JS.get (EventDispatcher._listeners d) e) as [arr|] eqn:Hget.
  - rewrite Hget. destruct (JS.indexOf arr l =? -1); auto.
  - cbn [EventDispatcher._listeners EventDispatcher.with__listeners].
    rewrite get_set_eq. cbn. auto.
Qed.

(** X8. [addEventListener] registers the listener for the event
    ([hasEventListener] answers [true] afterwards), touches no other
    registration nor the counters, never lists a listener twice, and adding
    again changes nothing. *)
Theorem addEventListener_registers d e l :
  EventDispatcher.hasEventListener e l (EventDispatcher.addEventListener e l d) = true
  /\ (forall e' l', (e', l') <> (e, l) ->
        EventDispatcher.hasEventListener e' l' (EventDispatcher.addEventListener e l d)
        = EventDispatcher.hasEventListener e' l' d)
  /\ EventDispatcher.addEventListener e l (EventDispatcher.addEventListener e l d)
     = EventDispatcher.addEventListener e l d
  /\ EventDispatcher.fired (EventDispatcher.addEventListener e l d) = EventDispatcher.fired d
  /\ (listenersDistinct d -> listenersDistinct (EventDispatcher.addEventListener e l d)).
Proof.
  pose proof (addEventListener_listeners d e l) as Hl.
  assert (Hhas : EventDispatcher.hasEventListener e l (EventDispatcher.addEventListener e l d) = true).
  { apply hasEventListener_In. rewrite Hl.
    destruct (JS.get (EventDispatcher._listeners d) e) as [arr|] eqn:Hget.
    - destruct (JS.includes arr l) eqn:Hin.
      + exists arr. split; [exact Hget|]. now apply includes_In.
      + exists (arr ++ [l]). rewrite get_set_eq. split; [reflexivity|].
        apply in_or_app. right. now left.
    - exists [l]. rewrite get_set_eq. split; [reflexivity | now left]. }
  split; [exact Hhas|]. split; [|split; [|split]].
  - intros e' l' Hne. unfold EventDispatcher.hasEventListener at 1. rewrite Hl.
    unfold EventDispatcher.hasEventListener.
    destruct (JS.get (EventDispatcher._listeners d) e) as [arr|] eqn:Hget.
    + destruct (JS.includes arr l) eqn:Hin; [reflexivity|].
      destruct (decide (e = e')) as [<-|Hee].
      * rewrite get_set_eq, Hget. f_equal.
        assert (Hll : l' <> l) by congruence.
        destruct (JS.indexOf (arr ++ [l]) l' =? -1) eqn:E1, (JS.indexOf arr l' =? -1) eqn:E2;
          try reflexivity; exfalso.
        -- apply indexOf_absent in E1. apply E1, in_or_app. left.
           apply tilde_indexOf_In. unfold JS.tilde. now rewrite E2.
        -- apply indexOf_absent in E2.
           assert (Hin' : In l' (arr ++ [l])).
           { apply tilde_indexOf_In. unfold JS.tilde. now rewrite E1. }
           apply in_app_or in Hin'. destruct Hin' as [?|[?|[]]]; [tauto | congruence].
      * now rewrite get_set_ne.
    + destruct (decide (e = e')) as [<-|Hee].
      * rewrite get_set_eq, Hget. assert (Hll : l' <> l) by congruence.
        unfold JS.indexOf. simpl. destruct (decide (l = l')); [congruence | reflexivity].
      * now rewrite get_set_ne.
  - apply hasEventListener_In in Hhas. destruct Hhas as (arr & Hget & Hin).
    unfold EventDispatcher.addEventListener at 1. rewrite Hget, Hget.
    apply includes_In in Hin. unfold JS.includes, JS.tilde in Hin.
    destruct (JS.indexOf arr l =? -1); [discriminate | reflexivity].
  - apply addEventListener_counters.
  - unfold listenersDistinct. rewrite Hl. intros Hd.
    destruct (JS.get (EventDispatcher._listeners d) e) as [arr|] eqn:Hget.
    + destruct (JS.includes arr l) eqn:Hin; [exact Hd|].
      apply set_Forall; [exact Hd|]. simpl.
      pose proof (get_Forall _ _ _ _ Hd Hget) as Harr. simpl in Harr.
      apply NoDup_app. split; [exact Harr|]. split; [|apply NoDup_singleton].
      intros x Hx Hx'. apply list_elem_of_In in Hx. apply list_elem_of_In in Hx'.
      destruct Hx' as [<-|[]].
      apply includes_In in Hx. congruence.
    + apply set_Forall; [exact Hd|]. simpl. apply NoDup_singleton.
Qed.

Lemma removeEventListener_listeners d e l :
  EventDispatcher._listeners (EventDispatcher.removeEventListener e l d)
  = match JS.get (EventDispatcher._listeners d) e with
    | None => EventDispatcher._listeners d
    | Some arr => if JS.includes arr l
                  then JS.set (EventDispatcher._listeners d) e
                              (JS.splice1 (JS.indexOf arr l) arr)
                  else EventDispatcher._listeners d
    end.
Proof.
  unfold EventDispatcher.removeEventListener.
  destruct (JS.get (EventDispatcher._listeners d) e) as [arr|]; [|reflexivity].
  unfold JS.includes, JS.tilde. destruct (negb (JS.indexOf arr l =? -1)); reflexivity.
Qed.

(** X9. On a dispatcher that lists no listener twice (which
    [addEventListener] and [removeEventListener] maintain),
    [removeEventListener] unregisters the listener from the event and from
    nothing else; removing a listener that is not registered leaves the
    dispatcher as it is. *)
Theorem removeEventListener_unregisters d e l :
  listenersDistinct d ->
  EventDispatcher.hasEventListener e l (EventDispatcher.removeEventListener e l d) = false
  /\ (forall e' l', (e', l') <> (e, l) ->
        EventDispatcher.hasEventListener e' l' (EventDispatcher.removeEventListener e l d)
        = EventDispatcher.hasEventListener e' l' d)
  /\ listenersDistinct (EventDispatcher.removeEventListener e l d)
  /\ (EventDispatcher.hasEventListener e l d = false ->
      EventDispatcher.removeEventListener e l d = d).
Proof.
  intros Hd. pose proof (removeEventListener_listeners d e l) as Hl.
  assert (Hcase :
    (JS.get (EventDispatcher._listeners d) e = None
     \/ exists arr, JS.get (EventDispatcher._listeners d) e = Some arr
                    /\ JS.includes arr l = false)
    \/ exists pre post, JS.get (EventDispatcher._listeners d) e = Some (pre ++ l :: post)
                     /\ JS.includes (pre ++ l :: post) l = true
                     /\ JS.splice1 (JS.indexOf (pre ++ l :: post) l) (pre ++ l :: post) = pre ++ post
                     /\ ~ In l (pre ++ post) /\ NoDup (pre ++ post)).
  { destruct (JS.get (EventDispatcher._listeners d) e) as [arr|] eqn:Hget; [|left; now left].
    destruct (JS.includes arr l) eqn:Hin; [|left; right; eauto].
    right. pose proof Hin as Hin'. apply includes_In in Hin'.
    destruct (splice1_indexOf arr l Hin') as (pre & post & -> & Hn1 & Hsp).
    exists pre, post. split; [reflexivity|]. split; [exact Hin|]. split; [exact Hsp|].
    pose proof (get_Forall _ _ _ _ Hd Hget) as Harr. simpl in Harr.
    apply NoDup_app in Harr. destruct Harr as (H1 & H2 & H3).
    apply NoDup_cons in H3. destruct H3 as [H3 H4].
    split.
    - intros Hx. apply in_app_or in Hx. destruct Hx as [Hx|Hx]; [tauto|].
      apply H3. now apply list_elem_of_In.
    - apply NoDup_app. split; [exact H1|]. split; [|exact H4].
      intros x Hx Hx'. apply (H2 x Hx). now right. }
  destruct Hcase as [Hnone | (pre & post & Hget & Hin & Hsp & Hnot & Hnd)].
  - assert (Hsame : EventDispatcher.removeEventListener e l d = d).
    { unfold EventDispatcher.removeEventListener.
      destruct Hnone as [-> | (arr & -> & Hin)]; [reflexivity|].
      unfold JS.includes, JS.tilde in Hin. now rewrite Hin. }
    rewrite Hsame. split; [|split; [auto|split; auto]].
    unfold EventDispatcher.hasEventListener.
    destruct Hnone as [-> | (arr & -> & Hin)]; [reflexivity|].
    unfold JS.includes, JS.tilde in Hin. exact Hin.
  - rewrite Hget, Hin, Hsp in Hl.
    split; [|split; [|split]].
    + unfold EventDispatcher.hasEventListener. rewrite Hl, get_set_eq.
      apply negb_false_iff. now apply indexOf_absent.
    + intros e' l' Hne. unfold EventDispatcher.hasEventListener. rewrite Hl.
      destruct (decide (e = e')) as [<-|Hee]; [|now rewrite get_set_ne].
      rewrite get_set_eq, Hget. assert (Hll : l' <> l) by congruence.
      destruct (JS.indexOf (pre ++ post) l' =? -1) eqn:E1,
               (JS.indexOf (pre ++ l :: post) l' =? -1) eqn:E2; try reflexivity; exfalso.
      * apply indexOf_absent in E1.
        assert (Hin' : In l' (pre ++ l :: post)).
        { apply tilde_indexOf_In. unfold JS.tilde. now rewrite E2. }
        apply E1. apply in_app_or in Hin'. apply in_or_app.
        destruct Hin' as [?|[?|?]]; [now left | congruence | now right].
      * apply indexOf_absent in E2.
        assert (Hin' : In l' (pre ++ post)).
        { apply tilde_indexOf_In. unfold JS.tilde. now rewrite E1. }
        apply E2. apply in_app_or in Hin'. apply in_or_app.
        destruct Hin' as [?|?]; [now left | right; now right].
    + unfold listenersDistinct. rewrite Hl. apply set_Forall; [exact Hd | exact Hnd].
    + unfold EventDispatcher.hasEventListener. rewrite Hget.
      unfold JS.includes, JS.tilde in Hin. rewrite Hin. discriminate.
Qed.

End DispatcherFacts.

Lemma addEventListener_registers_witness :
  let d := EventDispatcher.addEventListener "Query#ENTITY_ADDED" 7%nat EventDispatcher.new in
  EventDispatcher.hasEventListener "Query#ENTITY_ADDED" 7%nat d = true
  /\ EventDispatcher.hasEventListener "Query#ENTITY_REMOVED" 7%nat d = false
  /\ listenersDistinct d.
Proof.
  destruct (addEventListener_registers (EventDispatcher.new (L := nat)) "Query#ENTITY_ADDED" 7%nat)
    as (Hhas & Hother & _ & _ & Hd).
  split; [exact Hhas|]. split.
  - rewrite Hother by discriminate. reflexivity.
  - apply Hd. constructor.
Defined.

Lemma removeEventListener_unregisters_witness :
  let d := EventDispatcher.addEventListener "Query#ENTITY_ADDED" 8%nat
             (EventDispatcher.addEventListener "Query#ENTITY_ADDED" 7%nat EventDispatcher.new) in
  listenersDistinct d
  /\ EventDispatcher.hasEventListener "Query#ENTITY_ADDED" 7%nat
       (EventDispatcher.removeEventListener "Query#ENTITY_ADDED" 7%nat d) = false
  /\ EventDispatcher.hasEventListener "Query#ENTITY_ADDED" 8%nat
       (EventDispatcher.removeEventListener "Query#ENTITY_ADDED" 7%nat d) = true.
Proof.
  intros d.
  assert (Hd : listenersDistinct d).
  { unfold listenersDistinct. vm_compute. constructor; [|constructor].
    apply (bool_decide_unpack _). vm_compute. reflexivity. }
  destruct (removeEventListener_unregisters d "Query#ENTITY_ADDED" 7%nat Hd)
    as (Hgone & Hother & _ & _).
  split; [exact Hd|]. split; [exact Hgone|].
  rewrite Hother by discriminate. vm_compute. reflexivity.
Defined.

Lemma indexOf_from_middle {A} `{EqDecision A} (l1 l2 : list A) (x : A) :
  ~ In x l1 -> forall i, JS.indexOf_from i (l1 ++ x :: l2) x = i + Z.of_nat (length l1).
Proof.
  intros Hn. induction l1 as [|y l1 IH]; intros i; simpl.
  - destruct (decide (x = x)); [lia | congruence].
  - destruct (decide (y = x)) as [->|Hne]; [exfalso; apply Hn; now left|].
    rewrite IH by (intros H'; apply Hn; now right). lia.
Qed.

Lemma indexOf_middle {A} `{EqDecision A} (l1 l2 : list A) (x : A) :
  ~ In x l1 -> JS.indexOf (l1 ++ x :: l2) x = Z.of_nat (length l1).
Proof. intros Hn. unfold JS.indexOf. now rewrite indexOf_from_middle. Qed.

Lemma splice1_last {A} (l : list A) (x : A) : JS.splice1 (-1) (l ++ [x]) = l.
Proof.
  unfold JS.splice1. cbn [Z.ltb Z.compare]. rewrite length_app. simpl length.
  rewrite Z.max_l by lia.
  replace (Z.to_nat (Z.of_nat (length l + 1) + -1)) with (length l) by lia.
  rewrite take_app_length. rewrite drop_app_ge by lia.
  replace (S (length l) - length l)%nat with 1%nat by lia. simpl. apply app_nil_r.
Qed.

Section ManagerExtras.

Context {QM : Type}.

Variable onEntityRemoved : list Manager.Entity.t -> nat -> QM -> QM.

Variable onEntityComponentRemoved : list Manager.Entity.t -> nat -> ComponentClass -> QM -> QM.

(** X10. In the entity manager, removing a component the entity does not
    have returns [undefined] and changes nothing, deferred or immediate. *)
Theorem entityRemoveComponent_absent (m : Manager.t QM) (entity : nat)
    (e : Manager.Entity.t) (T : ComponentClass) (immediately : bool) :
  Manager.entityStore m !! entity = Some e ->
  ~ In T (Manager.Entity._ComponentTypes e) ->
  Manager.entityRemoveComponent onEntityRemoved onEntityComponentRemoved
    entity T immediately m
  = (Ret None, m).
Proof.
  intros He Hn. unfold Manager.entityRemoveComponent, Manager.entityRemoveComponent_with.
  run_read He. unfold JS.tilde. apply indexOf_absent in Hn. rewrite Hn. reflexivity.
Qed.

(** The ghost check at the end of [entityRemoveComponent], on an entity
    that is alive: the counter is lowered for a system-state class and
    [entity.dispose()] is not called. *)
Lemma ghost_check_alive dispose (m : Manager.t QM) (entity : nat) (e : Manager.Entity.t)
    (T : ComponentClass) :
  Manager.entityStore m !! entity = Some e ->
  Manager.Entity.alive e = true ->
  when (Manager.extendsSystemState T)
       (Manager.updateEntity entity (fun e =>
          Manager.Entity.with__numStateComponents (Manager.Entity._numStateComponents e - 1) e);;
        e ← Manager.readEntity entity;
        when ((Manager.Entity._numStateComponents e =? 0) && negb (Manager.Entity.alive e))
             (dispose entity)) m
  = (Ret tt,
     if Manager.extendsSystemState T
     then Manager.with_entityStore
            (<[entity := Manager.Entity.with__numStateComponents
                           (Manager.Entity._numStateComponents e - 1) e]>
               (Manager.entityStore m)) m
     else m).
Proof.
  intros He Halive. destruct (Manager.extendsSystemState T); cbn [when]; [|reflexivity].
  run_update He H1. run_read H1.
  cbn [Manager.Entity.alive Manager.Entity.with__numStateComponents]. rewrite Halive.
  rewrite andb_false_r. reflexivity.
Qed.

(** X11. A deferred [entityRemoveComponent] on a live entity moves the
    component out of the live dictionary and keeps the instance it held
    under the same name in [_componentsToRemove]; the class goes from
    [_ComponentTypes] to the end of [_ComponentTypesToRemove]; the entity is
    queued if it had no removal pending; the pools and the component counts
    are not touched before the drain. *)
Theorem entityRemoveComponent_deferred_keeps_instance (m : Manager.t QM) (entity : nat)
    (e : Manager.Entity.t) (T : ComponentClass) :
  Manager.entityStore m !! entity = Some e ->
  In T (Manager.Entity._ComponentTypes e) ->
  Manager.Entity.alive e = true ->
  exists m' e',
    Manager.entityRemoveComponent onEntityRemoved onEntityComponentRemoved entity T false m
    = (Ret (Some entity), m')
    /\ Manager.entityStore m' !! entity = Some e'
    /\ JS.read (Manager.Entity._componentsToRemove e') (name T)
       = JS.read (Manager.Entity._components e) (name T)
    /\ JS.get (Manager.Entity._components e') (name T) = None
    /\ Manager.Entity._ComponentTypes e'
       = JS.splice1 (JS.indexOf (Manager.Entity._ComponentTypes e) T)
                    (Manager.Entity._ComponentTypes e)
    /\ Manager.Entity._ComponentTypesToRemove e'
       = Manager.Entity._ComponentTypesToRemove e ++ [T]
    /\ Manager.entitiesWithComponentsToRemove m'
       = (if (length (Manager.Entity._ComponentTypesToRemove e) =? 0)%nat
          then Manager.entitiesWithComponentsToRemove m ++ [entity]
          else Manager.entitiesWithComponentsToRemove m)
    /\ Manager._componentPool m' = Manager._componentPool m
    /\ Manager.numComponents m' = Manager.numComponents m
    /\ disposalState m' = disposalState m.
Proof.
  intros He Hin Halive.
  unfold Manager.entityRemoveComponent, Manager.entityRemoveComponent_with.
  run_read He.
  replace (JS.tilde (JS.indexOf (Manager.Entity._ComponentTypes e) T)) with true
    by (symmetry; apply tilde_indexOf_In; exact Hin).
  cbn [negb]. unfold bind at 1, Manager.dispatchEvent at 1, modify at 1.
  unfold bind at 1.
  set (m1 := Manager.with_eventDispatcher _ m).
  unfold bind at 1.
  set (m2 := snd (when (length (Manager.Entity._ComponentTypesToRemove e) =? 0)%nat
             (modify (fun m0 => Manager.with_entitiesWithComponentsToRemove
                   (JS.push (Manager.entitiesWithComponentsToRemove m0) entity) m0)) m1)).
  assert (Hw : when (length (Manager.Entity._ComponentTypesToRemove e) =? 0)%nat
             (modify (fun m0 => Manager.with_entitiesWithComponentsToRemove
                   (JS.push (Manager.entitiesWithComponentsToRemove m0) entity) m0)) m1 = (Ret tt, m2)).
  { unfold m2. destruct (_ =? _)%nat; reflexivity. }
  rewrite Hw.
  assert (H2 : Manager.entityStore m2 !! entity = Some e).
  { unfold m2. destruct (_ =? _)%nat; exact He. }
  assert (Hq2 : Manager.entitiesWithComponentsToRemove m2
                = if (length (Manager.Entity._ComponentTypesToRemove e) =? 0)%nat
                  then Manager.entitiesWithComponentsToRemove m ++ [entity]
                  else Manager.entitiesWithComponentsToRemove m).
  { unfold m2. destruct (_ =? _)%nat; reflexivity. }
  assert (Hrest : Manager._componentPool m2 = Manager._componentPool m
                  /\ Manager.numComponents m2 = Manager.numComponents m
                  /\ disposalState m2 = disposalState m).
  { unfold m2. destruct (_ =? _)%nat; auto. }
  clearbody m2. clear Hw.
  run_update H2 H3. run_update H3 H4. run_update H4 H5. run_update H5 H6.
  destruct Hrest as (Hpool & Hnum & Hdisp).
  unfold modify at 1. cbv beta iota.
  match goal with |- context [bind (when _ _) _ ?mm] =>
    assert (H7 : Manager.entityStore mm !! entity = Some _) by exact H6;
    assert (Hq7 : Manager.entitiesWithComponentsToRemove mm
                  = Manager.entitiesWithComponentsToRemove m2) by reflexivity;
    assert (Hpool7 : Manager._componentPool mm = Manager._componentPool m2) by reflexivity;
    assert (Hnum7 : Manager.numComponents mm = Manager.numComponents m2) by reflexivity;
    assert (Hdisp7 : disposalState mm = disposalState m2) by reflexivity;
    set (m7 := mm) in *
  end.
  clearbody m7. clear H3 H4 H5 H6.
  erewrite bind_run
    by (apply (ghost_check_alive
                 (fun e0 => Manager.Entity_dispose_with onEntityRemoved onEntityComponentRemoved
                              (fun _ => stuck "nested disposal") e0 false)
                 m7 entity _ T H7 Halive)).
  unfold ret. unfold disposalState in *.
  destruct (Manager.extendsSystemState T); eexists _, _; (split; [reflexivity|]).
  - split; [apply (lookup_updated m7 entity _ _ H7)|].
    cbn. rewrite get_del_eq. unfold JS.read at 1. rewrite get_set_eq.
    repeat split; try reflexivity; congruence.
  - split; [exact H7|].
    cbn. rewrite get_del_eq. unfold JS.read at 1. rewrite get_set_eq.
    repeat split; try reflexivity; congruence.
Qed.

(** X12. [disposeEntity] on an entity that is not on the manager's entity
    list throws and changes nothing. *)
Theorem disposeEntity_unlisted (m : Manager.t QM) (entity : nat) (immediately : bool) :
  ~ In entity (Manager._entities m) ->
  Manager.disposeEntity onEntityRemoved onEntityComponentRemoved entity immediately m
  = (Throw "Tried to remove entity not in list", m).
Proof.
  intros Hn. unfold Manager.disposeEntity, Manager.disposeEntity_with.
  unfold bind at 1, getState at 1. unfold JS.tilde.
  apply indexOf_absent in Hn. rewrite Hn. reflexivity.
Qed.

(** [entity.dispose()] on a live entity without components. *)
Lemma Entity_dispose_bare (m : Manager.t QM) (entity : nat) (e : Manager.Entity.t) :
  Manager.entityStore m !! entity = Some e ->
  Manager.Entity._entityManager e = true ->
  Manager.Entity._numStateComponents e = 0 ->
  Manager.Entity._ComponentTypes e = [] ->
  In entity (Manager._entities m) ->
  exists m',
    Manager.Entity_dispose onEntityRemoved onEntityComponentRemoved entity false m
    = (Ret tt, m')
    /\ Manager.entityStore m' = <[entity := Manager.Entity.with_alive false e]> (Manager.entityStore m)
    /\ Manager._entities m' = Manager._entities m
    /\ Manager.entitiesToRemove m' = Manager.entitiesToRemove m ++ [entity]
    /\ Manager.entitiesWithComponentsToRemove m' = Manager.entitiesWithComponentsToRemove m
    /\ Manager.deferredRemovalEnabled m' = Manager.deferredRemovalEnabled m.
Proof.
  intros He Hmgr Hnum Htypes Hin.
  unfold Manager.Entity_dispose, Manager.Entity_dispose_with.
  run_read He. rewrite Hmgr. unfold Manager.disposeEntity_with.
  unfold bind at 1, getState at 1.
  replace (JS.tilde (JS.indexOf (Manager._entities m) entity)) with true
    by (symmetry; apply tilde_indexOf_In; exact Hin).
  cbn [negb]. run_update He H1. run_read H1.
  cbn [Manager.Entity._numStateComponents Manager.Entity.with_alive]. rewrite Hnum.
  cbn [Z.eqb when].
  unfold bind at 1. unfold bind at 1, Manager.dispatchEvent at 1, modify at 1.
  unfold bind at 1, modify at 1. unfold modify at 1.
  unfold Manager.entityRemoveAllComponents_with.
  match goal with |- exists _, bind (Manager.readEntity entity) _ ?mm = _ /\ _ =>
    assert (H2 : Manager.entityStore mm !! entity = Some (Manager.Entity.with_alive false e))
      by exact H1;
    set (m2 := mm) in *
  end.
  run_read H2. cbn [Manager.Entity._ComponentTypes Manager.Entity.with_alive].
  rewrite Htypes. cbn [length Manager.entityRemoveAllComponents_below]. unfold ret.
  eexists. split; [reflexivity|]. repeat split; reflexivity.
Qed.

Lemma releaseEntity_run (m : Manager.t QM) (entity : nat) (e : Manager.Entity.t) (index : Z) :
  Manager.entityStore m !! entity = Some e ->
  Manager._releaseEntity entity index m
  = (Ret tt,
     Manager.with__entityPool (JS.push (Manager._entityPool m) entity)
       (Manager.with_entityStore
          (<[entity := Manager.Entity.with__entityManager false e]> (Manager.entityStore m))
          (Manager.with__entities (JS.splice1 index (Manager._entities m)) m))).
Proof.
  intros He. unfold Manager._releaseEntity.
  rewrite (bind_run (modify _) _ _ tt _ eq_refl).
  erewrite bind_run by (apply updateEntity_run; exact He).
  reflexivity.
Qed.

(** X13. Disposing an entity twice before the drain queues it twice, and
    the drain then releases it twice: the first release takes it off the
    entity list, the second finds it gone and [splice(-1, 1)] takes the last
    entity of the list off instead, an entity that was never disposed. *)
Theorem processDeferredRemoval_double_dispose (m : Manager.t QM) (entity other : nat)
    (e : Manager.Entity.t) (pre post : list nat) :
  Manager.entityStore m !! entity = Some e ->
  Manager.Entity._entityManager e = true ->
  Manager.Entity._numStateComponents e = 0 ->
  Manager.Entity._ComponentTypes e = [] ->
  Manager._entities m = pre ++ entity :: post ++ [other] ->
  ~ In entity pre -> ~ In entity post -> other <> entity ->
  Manager.entitiesToRemove m = [] ->
  Manager.entitiesWithComponentsToRemove m = [] ->
  Manager.deferredRemovalEnabled m = true ->
  exists m',
    (Manager.Entity_dispose onEntityRemoved onEntityComponentRemoved entity false;;
     Manager.Entity_dispose onEntityRemoved onEntityComponentRemoved entity false;;
     Manager.processDeferredRemoval) m
    = (Ret tt, m')
    /\ Manager._entities m' = pre ++ post
    /\ Manager.entitiesToRemove m' = [].
Proof.
  intros He Hmgr Hnum Htypes Hlist Hpre Hpost Hother Hq Hqc Hen.
  assert (Hin : In entity (Manager._entities m)).
  { rewrite Hlist. apply in_or_app. right. now left. }
  destruct (Entity_dispose_bare m entity e He Hmgr Hnum Htypes Hin)
    as (m1 & Hrun1 & Hs1 & Hl1 & Hq1 & Hqc1 & Hen1).
  assert (He1 : Manager.entityStore m1 !! entity = Some (Manager.Entity.with_alive false e)).
  { rewrite Hs1. apply list_lookup_insert_eq. eapply lookup_lt_Some; eauto. }
  destruct (Entity_dispose_bare m1 entity _ He1 Hmgr Hnum Htypes)
    as (m2 & Hrun2 & Hs2 & Hl2 & Hq2 & Hqc2 & Hen2).
  { now rewrite Hl1. }
  rewrite (bind_run _ _ _ _ _ Hrun1), (bind_run _ _ _ _ _ Hrun2).
  assert (He2 : exists e2, Manager.entityStore m2 !! entity = Some e2).
  { apply lookup_lt_is_Some_2. rewrite Hs2, length_insert. eapply lookup_lt_Some; eauto. }
  destruct He2 as [e2 He2].
  rewrite Hq1, Hq in Hq2. rewrite Hqc1, Hqc in Hqc2. rewrite Hen1, Hen in Hen2.
  rewrite Hl1, Hlist in Hl2. clear Hrun1 Hrun2 Hs1 Hs2 Hl1 Hq1 Hqc1 Hen1 He1.
  unfold Manager.processDeferredRemoval.
  rewrite (bind_run getState _ m2 m2 m2 eq_refl). rewrite Hen2. cbn [negb].
  rewrite Hq2. cbn [app forEach]. rewrite !bind_assoc.
  rewrite (bind_run getState _ m2 m2 m2 eq_refl). cbv beta.
  rewrite (bind_run _ _ _ _ _ (releaseEntity_run m2 entity e2 _ He2)).
  rewrite !bind_assoc.
  match goal with |- context [bind getState _ ?mm] => set (m3 := mm) end.
  assert (He3 : Manager.entityStore m3 !! entity = Some (Manager.Entity.with__entityManager false e2)).
  { apply (lookup_updated _ entity e2 _ He2). }
  assert (Hl3 : Manager._entities m3 = pre ++ post ++ [other]).
  { unfold m3. cbn [Manager._entities Manager.with__entityPool Manager.with_entityStore
                    Manager.with__entities].
    rewrite Hl2. rewrite (indexOf_middle pre (post ++ [other]) entity Hpre).
    apply splice1_middle. }
  assert (Hqc3 : Manager.entitiesWithComponentsToRemove m3 = []) by exact Hqc2.
  clearbody m3.
  rewrite (bind_run getState _ m3 m3 m3 eq_refl). cbv beta.
  rewrite (bind_run _ _ _ _ _ (releaseEntity_run m3 entity _ _ He3)).
  rewrite ret_bind. rewrite (bind_run (modify _) _ _ tt _ eq_refl).
  match goal with |- context [bind getState _ ?mm] =>
    rewrite (bind_run getState _ mm mm mm eq_refl) end.
  cbn [Manager.entitiesWithComponentsToRemove Manager.with_entitiesToRemove
       Manager.with__entityPool Manager.with_entityStore Manager.with__entities].
  rewrite Hqc3. cbn [forEach]. rewrite ret_bind. unfold modify.
  eexists. split; [reflexivity|]. split; [|reflexivity].
  cbn [Manager._entities Manager.with_entitiesWithComponentsToRemove Manager.with_entitiesToRemove
       Manager.with__entityPool Manager.with_entityStore Manager.with__entities].
  rewrite Hl3.
  assert (Hgone : JS.indexOf (pre ++ post ++ [other]) entity = -1).
  { apply Z.eqb_eq. apply indexOf_absent. intros H. apply in_app_or in H.
    destruct H as [?|H]; [tauto|]. apply in_app_or in H.
    destruct H as [?|[?|[]]]; [tauto | congruence]. }
  rewrite Hgone. rewrite app_assoc. apply splice1_last.
Qed.

End ManagerExtras.

Lemma entityRemoveComponent_absent_witness :
  exists e,
    Manager.entityStore managedScene !! 0%nat = Some e
    /\ Manager.entityRemoveComponent noQueries1 noQueries2 0%nat Velocity true managedScene
       = (Ret None, managedScene).
Proof.
  eexists. split; [reflexivity|].
  apply (entityRemoveComponent_absent noQueries1 noQueries2 managedScene 0%nat _ Velocity true
           eq_refl).
  cbn. intros [H|[H|[]]]; discriminate.
Defined.

Lemma entityRemoveComponent_deferred_keeps_instance_witness :
  exists m' e',
    Manager.entityRemoveComponent noQueries1 noQueries2 0%nat Position false managedScene
    = (Ret (Some 0%nat), m')
    /\ Manager.entityStore m' !! 0%nat = Some e'
    /\ JS.read (Manager.Entity._componentsToRemove e') "Position" = Some scenePosition
    /\ JS.get (Manager.Entity._components e') "Position" = None
    /\ Manager.entitiesWithComponentsToRemove m' = [0%nat].
Proof.
  destruct (entityRemoveComponent_deferred_keeps_instance noQueries1 noQueries2
              managedScene 0%nat _ Position eq_refl)
    as (m' & e' & Hrun & He' & Hkept & Hgone & _ & _ & Hq & _).
  - cbn. right. now left.
  - reflexivity.
  - exists m', e'. split; [exact Hrun|]. split; [exact He'|].
    split; [exact Hkept|]. split; [exact Hgone | exact Hq].
Defined.

Lemma disposeEntity_unlisted_witness :
  Manager.disposeEntity noQueries1 noQueries2 5%nat true managedScene
  = (Throw "Tried to remove entity not in list", managedScene).
Proof.
  apply disposeEntity_unlisted. cbn. intros [H|[]]. discriminate.
Defined.

Lemma processDeferredRemoval_double_dispose_witness :
  exists m',
    (Manager.Entity_dispose noQueries1 noQueries2 0%nat false;;
     Manager.Entity_dispose noQueries1 noQueries2 0%nat false;;
     Manager.processDeferredRemoval) pairScene
    = (Ret tt, m')
    /\ Manager._entities m' = []
    /\ Manager.entitiesToRemove m' = [].
Proof.
  apply (processDeferredRemoval_double_dispose noQueries1 noQueries2 pairScene 0%nat 1%nat
           _ [] [] eq_refl); try reflexivity.
  - intros [].
  - intros [].
  - discriminate.
Defined.

Section StoreInsensitive.

Variable I : World.t -> Prop.

Hypothesis HI : storeInsensitive I.

Lemma keeps_World_readEntity e : keeps I (readEntity e).
Proof. intros w Hw. unfold readEntity. destruct (World.entityStore w !! e); exact Hw. Qed.

Lemma keeps_World_readQuery q : keeps I (readQuery q).
Proof. intros w Hw. unfold readQuery. destruct (World.queryStore w !! q); exact Hw. Qed.

Lemma keeps_World_readPool p : keeps I (readPool p).
Proof. intros w Hw. unfold readPool. destruct (World.poolStore w !! p); exact Hw. Qed.

Lemma keeps_World_updateEntity e f : keepsUuid f -> keeps I (updateEntity e f).
Proof.
  intros Hf w Hw. unfold updateEntity, bind, readEntity.
  destruct (World.entityStore w !! e) as [x|] eqn:Hx; [|exact Hw].
  simpl. destruct HI as (_ & _ & _ & He). now apply He.
Qed.

Lemma keeps_World_updateQuery q f : keeps I (updateQuery q f).
Proof.
  intros w Hw. unfold updateQuery, bind, readQuery.
  destruct (World.queryStore w !! q) as [x|]; [|exact Hw].
  simpl. destruct HI as (Hq & _). now apply Hq.
Qed.

Lemma keeps_World_updatePool p f : keeps I (updatePool p f).
Proof.
  intros w Hw. unfold updatePool, bind, readPool.
  destruct (World.poolStore w !! p) as [x|]; [|exact Hw].
  simpl. destruct HI as (_ & Hp & _). now apply Hp.
Qed.

Lemma keeps_Query_removeEntity q entity : keeps I (Query_removeEntity q entity).
Proof.
  unfold Query_removeEntity. apply keeps_bind; [apply keeps_World_readQuery|]. intros x.
  apply keeps_when. apply keeps_bind; [apply keeps_World_updateQuery|]. intros _.
  apply keeps_bind; [apply keeps_World_readEntity|]. intros e.
  apply keeps_bind; [apply keeps_World_updateEntity; intros y; reflexivity|]. intros _.
  apply keeps_World_updateQuery.
Qed.

Lemma keeps_World_onDisposeEntity entity : keeps I (World_onDisposeEntity entity).
Proof.
  unfold World_onDisposeEntity. apply keeps_bind; [apply keeps_getState|]. intros w.
  apply keeps_forEach. intros [queryName query].
  apply keeps_bind; [apply keeps_World_readEntity|]. intros e.
  apply keeps_when, keeps_Query_removeEntity.
Qed.

Lemma keeps_Entity_dispose_queries bound this :
  forall i, keeps I (Entity_dispose_queries bound this i).
Proof.
  induction bound as [|bound IH]; intros i; simpl; [apply keeps_stuck|].
  apply keeps_bind; [apply keeps_World_readEntity|]. intros e.
  destruct (Entity.queries e !! i) as [q|]; [|apply keeps_ret].
  apply keeps_bind; [apply keeps_Query_removeEntity | intros _; apply IH].
Qed.

Lemma keeps_Component_clone c : keeps I (Component_clone c).
Proof.
  intros w Hw. unfold Component_clone, Component_new, bind, freshInstanceId, ret. simpl.
  destruct HI as (_ & _ & Hn & _). now apply Hn.
Qed.

Lemma keeps_Entity_copy this source : keeps I (Entity_copy this source).
Proof.
  unfold Entity_copy. apply keeps_bind; [apply keeps_World_readEntity|]. intros src.
  apply keeps_bind; [|intros _; apply keeps_ret].
  apply keeps_forEach. intros componentName.
  apply keeps_bind; [apply keeps_World_readEntity|]. intros s.
  destruct (JS.read (Entity.components s) componentName) as [c|]; [|apply keeps_throw].
  apply keeps_bind; [apply keeps_Component_clone|]. intros c'.
  apply keeps_bind; [apply keeps_World_updateEntity; intros y; reflexivity|]. intros _.
  apply keeps_World_updateEntity. intros y. reflexivity.
Qed.

Lemma keeps_ObjectPool_release p item : keeps I (ObjectPool_release p item).
Proof.
  unfold ObjectPool_release. apply keeps_bind; [apply keeps_World_readPool|]. intros pool.
  apply keeps_bind; [|intros _; apply keeps_World_updatePool].
  unfold Item_copy. destruct item as [c|e]; [apply keeps_ret|].
  destruct (ObjectPool.baseObject pool) as [c|b]; [apply keeps_ret|].
  apply keeps_bind; [apply keeps_Entity_copy | intros _; apply keeps_ret].
Qed.

Lemma keeps_Component_dispose c : keeps I (Component_dispose c).
Proof.
  unfold Component_dispose. destruct (component_pool c); [apply keeps_ObjectPool_release | apply keeps_ret].
Qed.

End StoreInsensitive.

Lemma listedBefore_insensitive l0 m0 r0 c0 : storeInsensitive (listedBefore l0 m0 r0 c0).
Proof. repeat split; intros; unfold listedBefore in *; simpl; tauto. Qed.

Lemma listedAs_insensitive l0 m0 this u : storeInsensitive (listedAs l0 m0 this u).
Proof.
  split; [|split; [|split]]; intros; unfold listedAs in *; simpl; try tauto.
  destruct H as (Hl & Hm & Hu). split; [exact Hl|]. split; [exact Hm|].
  intros y Hy. destruct (decide (e = this)) as [->|Hne].
  - rewrite list_lookup_insert_eq in Hy by (eapply lookup_lt_Some; eauto).
    injection Hy as <-. rewrite H1. now apply Hu.
  - rewrite list_lookup_insert_ne in Hy by exact Hne. now apply Hu.
Qed.

Ltac upd HI := apply (keeps_World_updateEntity _ HI); intros y; reflexivity.

(** X14. [dispose(true)] gives the entity a new uuid before it calls
    [onEntityDisposed], which looks the entity up under the uuid it has at
    that point.  Unless the new uuid is already a key of [entitiesByUUID],
    the call therefore finds nothing: however the disposal ends, the world's
    entity list and its uuid index are what they were, the disposed entity
    still listed. *)
Theorem Entity_dispose_stays_listed (w : World.t) (this : nat) :
  World.entitiesByUUID w
    !! fst (Utils.generateUUID (World.random w) (World.randomCalls w)) = None ->
  World.entities (snd (Entity_dispose this true w)) = World.entities w
  /\ World.entitiesByUUID (snd (Entity_dispose this true w)) = World.entitiesByUUID w.
Proof.
  intros Hfresh.
  destruct (Utils.generateUUID (World.random w) (World.randomCalls w)) as [u n] eqn:Hu.
  simpl in Hfresh.
  set (P := fun w' : World.t =>
              World.entities w' = World.entities w
              /\ World.entitiesByUUID w' = World.entitiesByUUID w).
  change (P (snd (Entity_dispose this true w))).
  set (K0 := listedBefore (World.entities w) (World.entitiesByUUID w)
                          (World.random w) (World.randomCalls w)).
  set (K := listedAs (World.entities w) (World.entitiesByUUID w) this u).
  assert (HK0 : K0 w) by (repeat split).
  assert (Hend0 : forall w', K0 w' -> P w').
  { intros w' (H1 & H2 & _). split; auto. }
  assert (Hend : forall w', K w' -> P w').
  { intros w' (H1 & H2 & _). split; auto. }
  assert (HendL : forall w', World.entities w' = World.entities w ->
            World.entitiesByUUID w' = World.entitiesByUUID w -> P w').
  { intros w' H1 H2. split; auto. }
  clearbody P.
  unfold Entity_dispose.
  (* up to the new uuid *)
  unfold bind at 1.
  pose proof (keeps_World_readEntity K0 this w HK0) as Hr.
  destruct (readEntity this w) as [[e| |] w1]; simpl in Hr; try (apply Hend0; exact Hr).
  unfold bind at 1.
  pose proof (keeps_when K0 (Entity.alive e) _
                (keeps_World_onDisposeEntity K0 (listedBefore_insensitive _ _ _ _) this) w1 Hr)
    as Hd.
  destruct (when (Entity.alive e) (World_onDisposeEntity this) w1) as [[[]| |] w2];
    simpl in Hd; try (apply Hend0; exact Hd).
  unfold bind at 1. unfold generateUUID at 1.
  destruct Hd as (Hl2 & Hm2 & Hr2 & Hc2). rewrite Hr2, Hc2, Hu.
  unfold bind at 1. unfold updateEntity at 1, bind at 1, readEntity at 1. simpl World.entityStore.
  destruct (World.entityStore w2 !! this) as [x|] eqn:Hx;
    [|apply HendL; simpl; auto].
  unfold modify at 1.
  match goal with |- context [bind _ _ ?ww] => set (w3 := ww) end.
  assert (HK : K w3).
  { unfold K, listedAs, w3. simpl. split; [exact Hl2|]. split; [exact Hm2|].
    intros y Hy. rewrite list_lookup_insert_eq in Hy by (eapply lookup_lt_Some; eauto).
    now injection Hy as <-. }
  clearbody w3. apply Hend.
  pose proof (listedAs_insensitive (World.entities w) (World.entitiesByUUID w) this u) as HI.
  revert w3 HK. fold (keeps K ((updateEntity this (Entity.with_alive true));;
    e0 ← readEntity this;
    Entity_dispose_queries (S (length (Entity.queries e0))) this 0;;
    e1 ← readEntity this;
    forEach (JS.keys (Entity.components e1)) (fun componentName =>
      e2 ← readEntity this;
      match JS.read (Entity.components e2) componentName with
      | None => throw "TypeError: component is undefined"
      | Some c => Component_dispose c
      end;;
      updateEntity this (fun e3 =>
        Entity.with_components (JS.del (Entity.components e3) componentName) e3));;
    e2 ← readEntity this;
    forEach (JS.keys (Entity._componentsToRemove e2)) (fun componentName =>
      updateEntity this (fun e3 =>
        Entity.with__componentsToRemove
          (JS.del (Entity._componentsToRemove e3) componentName) e3));;
    updateEntity this (Entity.with_queries []);;
    updateEntity this (Entity.with_componentTypes []);;
    updateEntity this (Entity.with__componentTypesToRemove []);;
    e3 ← readEntity this;
    match Entity._pool e3 with
    | Some p => ObjectPool_release p (ItemEntity this)
    | None => ret tt
    end;;
    World_onEntityDisposed this)).
  apply keeps_bind; [upd HI|]. intros _.
  apply keeps_bind; [apply keeps_World_readEntity|]. intros e0.
  apply keeps_bind; [apply (keeps_Entity_dispose_queries _ HI)|]. intros _.
  apply keeps_bind; [apply keeps_World_readEntity|]. intros e1.
  apply keeps_bind.
  { apply keeps_forEach. intros componentName.
    apply keeps_bind; [apply keeps_World_readEntity|]. intros e2.
    apply keeps_bind; [|intros _; upd HI].
    destruct (JS.read (Entity.components e2) componentName);
      [apply (keeps_Component_dispose _ HI) | apply keeps_throw]. }
  intros _.
  apply keeps_bind; [apply keeps_World_readEntity|]. intros e2.
  apply keeps_bind; [apply keeps_forEach; intros componentName; upd HI|]. intros _.
  apply keeps_bind; [upd HI|]. intros _.
  apply keeps_bind; [upd HI|]. intros _.
  apply keeps_bind; [upd HI|]. intros _.
  apply keeps_bind; [apply keeps_World_readEntity|]. intros e3.
  apply keeps_bind.
  { destruct (Entity._pool e3); [apply (keeps_ObjectPool_release _ HI) | apply keeps_ret]. }
  intros _.
  (* onEntityDisposed: the lookup under the new uuid finds nothing *)
  intros w4 HK4. unfold World_onEntityDisposed, bind, readEntity.
  destruct (World.entityStore w4 !! this) as [x4|] eqn:Hx4; [|exact HK4].
  unfold getWorld, getState.
  destruct HK4 as (Hl4 & Hm4 & Hu4). rewrite (Hu4 x4 Hx4), Hm4, Hfresh.
  simpl. repeat split; auto.
Qed.

Lemma Entity_dispose_stays_listed_witness :
  Entity_dispose 1%nat true sceneWorld
  = (Ret tt, snd (Entity_dispose 1%nat true sceneWorld))
  /\ World.entities (snd (Entity_dispose 1%nat true sceneWorld)) = [1; 2; 3]%nat
  /\ World.entitiesByUUID (snd (Entity_dispose 1%nat true sceneWorld))
     = World.entitiesByUUID sceneWorld
  /\ World.entities (exec (Entity_dispose 1%nat true;; World_createEntity) sceneWorld)
     = [1; 2; 3; 1]%nat.
Proof.
  split; [vm_compute; reflexivity|].
  destruct (Entity_dispose_stays_listed sceneWorld 1%nat) as [Hl Hm].
  - vm_compute. reflexivity.
  - split; [rewrite Hl; vm_compute; reflexivity|]. split; [exact Hm|].
    vm_compute. reflexivity.
Defined.

Lemma reindex_query_lookup w q x entity e :
  (q < length (World.queryStore w))%nat ->
  World.queryStore (reindex w q x entity e) !! q = Some x.
Proof. intros H. simpl. now apply list_lookup_insert_eq. Qed.

Lemma Query_addEntity_run (w : World.t) q x entity e :
  World.queryStore w !! q = Some x ->
  World.entityStore w !! entity = Some e ->
  Query_addEntity q entity w
  = (Ret tt,
     reindex w q
       (Query.with_eventDispatcher (Query.eventDispatcher x ++ [(ENTITY_ADDED, entity, None)])
          (Query.with_entities (Query.entities x ++ [entity]) x))
       entity (Entity.with_queries (Entity.queries e ++ [q]) e)).
Proof.
  intros Hq He. unfold Query_addEntity.
  rewrite (bind_run _ _ _ _ _ (World_updateEntity_run w entity e _ He)).
  set (w1 := World.with_entityStore _ w).
  assert (Hq1 : World.queryStore w1 !! q = Some x) by exact Hq.
  rewrite (bind_run _ _ _ _ _ (World_updateQuery_run w1 q x _ Hq1)).
  set (w2 := World.with_queryStore _ w1).
  assert (Hq2 : World.queryStore w2 !! q = Some (Query.with_entities (JS.push (Query.entities x) entity) x)).
  { simpl. apply list_lookup_insert_eq. eapply lookup_lt_Some; eauto. }
  unfold dispatchEvent. rewrite (World_updateQuery_run w2 q _ _ Hq2).
  f_equal. unfold reindex, w2, w1. destruct w. unfold World.with_queryStore, World.with_entityStore.
  cbn. f_equal. now rewrite list_insert_insert_eq.
Qed.

Lemma Query_removeEntity_run (w : World.t) q x entity e :
  World.queryStore w !! q = Some x ->
  World.entityStore w !! entity = Some e ->
  Query_removeEntity q entity w
  = (Ret tt,
     if JS.includes (Query.entities x) entity
     then reindex w q
            (Query.with_eventDispatcher
               (Query.eventDispatcher x ++ [(ENTITY_REMOVED, entity, None)])
               (Query.with_entities
                  (JS.splice1 (JS.indexOf (Query.entities x) entity) (Query.entities x)) x))
            entity
            (Entity.with_queries
               (JS.splice1 (JS.indexOf (Entity.queries e) q) (Entity.queries e)) e)
     else w).
Proof.
  intros Hq He. unfold Query_removeEntity.
  rewrite (bind_run _ _ _ _ _ (World_readQuery_run w q x Hq)). cbv beta zeta.
  unfold JS.includes. destruct (JS.tilde (JS.indexOf (Query.entities x) entity)); cbn [when];
    [|reflexivity].
  rewrite (bind_run _ _ _ _ _ (World_updateQuery_run w q x _ Hq)).
  set (w1 := World.with_queryStore _ w).
  assert (He1 : World.entityStore w1 !! entity = Some e) by exact He.
  rewrite (bind_run _ _ _ _ _ (World_readEntity_run w1 entity e He1)). cbv beta zeta.
  rewrite (bind_run _ _ _ _ _ (World_updateEntity_run w1 entity e _ He1)).
  set (w2 := World.with_entityStore _ w1).
  assert (Hq2 : World.queryStore w2 !! q
                = Some (Query.with_entities
                          (JS.splice1 (JS.indexOf (Query.entities x) entity) (Query.entities x)) x)).
  { simpl. apply list_lookup_insert_eq. eapply lookup_lt_Some; eauto. }
  unfold dispatchEvent. rewrite (World_updateQuery_run w2 q _ _ Hq2).
  f_equal. unfold reindex, w2, w1. destruct w. unfold World.with_queryStore, World.with_entityStore.
  cbn. f_equal. now rewrite list_insert_insert_eq.
Qed.

Lemma reindex_frame w q x entity e :
  World.with_queryStore [] (World.with_entityStore [] (reindex w q x entity e))
  = World.with_queryStore [] (World.with_entityStore [] w).
Proof. destruct w. reflexivity. Qed.

Lemma reindex_id w q x entity e :
  World.queryStore w !! q = Some x -> World.entityStore w !! entity = Some e ->
  reindex w q x entity e = w.
Proof.
  intros Hq He. destruct w. unfold reindex, World.with_queryStore, World.with_entityStore.
  cbn in *. f_equal; now apply list_insert_id.
Qed.

Lemma sameButQueries_refl e : sameButQueries e e.
Proof. reflexivity. Qed.

Lemma sameButQueries_trans e1 e2 e3 :
  sameButQueries e1 e2 -> sameButQueries e2 e3 -> sameButQueries e1 e3.
Proof. unfold sameButQueries. congruence. Qed.

Lemma sameButQueries_with_queries l e : sameButQueries (Entity.with_queries l e) e.
Proof. destruct e. reflexivity. Qed.

Lemma sameButQueries_types e1 e2 :
  sameButQueries e1 e2 -> Entity.componentTypes e1 = Entity.componentTypes e2.
Proof.
  unfold sameButQueries. intros H.
  change (Entity.componentTypes (Entity.with_queries [] e1)
          = Entity.componentTypes (Entity.with_queries [] e2)). now rewrite H.
Qed.

(** A loop over the registered queries whose turn for a query replaces that
    query and the entity's query list. *)
Section IndexLoop.

Variable entity : nat.

Variable types : list ComponentClass.

Variable f : Query.t -> list nat.

Variable body : string * nat -> M unit.

Hypothesis Hbody :
  forall w k q x e,
    World.queryStore w !! q = Some x -> World.entityStore w !! entity = Some e ->
    Entity.componentTypes e = types ->
    exists x1 e1,
      body (k, q) w = (Ret tt, reindex w q x1 entity e1)
      /\ Query.Components x1 = Query.Components x
      /\ Query.NotComponents x1 = Query.NotComponents x
      /\ Query.entities x1 = f x
      /\ sameButQueries e1 e.

Lemma index_loop (l : JS.obj nat) :
  NoDup (map snd l) ->
  forall w e,
    Forall (fun kv => (snd kv < length (World.queryStore w))%nat) l ->
    World.entityStore w !! entity = Some e ->
    Entity.componentTypes e = types ->
    exists w', forEach l body w = (Ret tt, w') /\ indexedBy f l entity w w'.
Proof.
  induction l as [|[k q] l IH]; intros Hnd w e Hall He Hty.
  - exists w. split; [reflexivity|]. unfold indexedBy. repeat split; auto.
    + intros e0 He0. exists e0. split; [exact He0 | reflexivity].
    + intros q x0 Hq. exists x0. repeat split; auto.
  - cbn [map snd] in Hnd. apply NoDup_cons in Hnd. destruct Hnd as [Hq_tail Hnd].
    apply Forall_cons in Hall. destruct Hall as [Hq Hall']. cbn [snd] in Hq.
    destruct (lookup_lt_is_Some_2 _ _ Hq) as [x Hx].
    destruct (Hbody w k q x e Hx He Hty) as (x1 & e1 & Hrun & HC & HN & HE & Hsame).
    set (w1 := reindex w q x1 entity e1) in *.
    assert (He1 : World.entityStore w1 !! entity = Some e1).
    { simpl. apply list_lookup_insert_eq. eapply lookup_lt_Some; eauto. }
    assert (Hall1 : Forall (fun kv => (snd kv < length (World.queryStore w1))%nat) l).
    { eapply Forall_impl; [exact Hall'|]. intros kv Hkv. simpl. now rewrite length_insert. }
    destruct (IH Hnd w1 e1 Hall1 He1) as (w' & Hrun' & Hrel).
    { rewrite (sameButQueries_types _ _ Hsame). exact Hty. }
    exists w'. split.
    { cbn [forEach]. rewrite (bind_run _ _ _ _ _ Hrun). exact Hrun'. }
    destruct Hrel as (Hfr & Hlq & Hle & Hother & Hent & Hqs).
    unfold indexedBy. split; [|split; [|split; [|split; [|split]]]].
    + rewrite Hfr. apply reindex_frame.
    + rewrite Hlq. simpl. now rewrite length_insert.
    + rewrite Hle. simpl. now rewrite length_insert.
    + intros other Hne. rewrite (Hother other Hne). simpl.
      now rewrite list_lookup_insert_ne by congruence.
    + intros e0 He0. assert (e0 = e) as -> by congruence.
      destruct (Hent e1 He1) as (e' & He' & Hs'). exists e'. split; [exact He'|].
      eapply sameButQueries_trans; eauto.
    + intros q' x0 Hq'. destruct (decide (q' = q)) as [->|Hne].
      * assert (x0 = x) as -> by congruence.
        destruct (Hqs q x1) as (x' & Hx' & HC' & HN' & HE').
        { simpl. apply list_lookup_insert_eq. exact Hq. }
        exists x'. split; [exact Hx'|]. split; [congruence|]. split; [congruence|].
        rewrite HE'. rewrite bool_decide_eq_false_2 by exact Hq_tail.
        rewrite bool_decide_eq_true_2 by (cbn; apply elem_of_cons; now left). exact HE.
      * destruct (Hqs q' x0) as (x' & Hx' & HC' & HN' & HE').
        { simpl. rewrite list_lookup_insert_ne by congruence. exact Hq'. }
        exists x'. split; [exact Hx'|]. split; [exact HC'|]. split; [exact HN'|].
        rewrite HE'. apply (f_equal (fun b : bool => if b then f x0 else Query.entities x0)).
        apply bool_decide_ext. cbn. rewrite elem_of_cons. tauto.
Qed.

End IndexLoop.

Lemma onComponentAdded_body (T : ComponentClass) (entity : nat) (types : list ComponentClass) :
  forall w (k : string) q x e,
    World.queryStore w !! q = Some x -> World.entityStore w !! entity = Some e ->
    Entity.componentTypes e = types ->
    exists x1 e1,
      (fun '(queryName, query) =>
         x ← readQuery query;
         e ← readEntity entity;
         if JS.tilde (JS.indexOf (Query.NotComponents x) T)
            && JS.tilde (JS.indexOf (Query.entities x) entity)
         then Query_removeEntity query entity
         else if negb (JS.tilde (JS.indexOf (Query.Components x) T))
                 || negb (Query_match x e)
                 || JS.tilde (JS.indexOf (Query.entities x) entity)
         then ret tt
         else Query_addEntity query entity) (k, q) w
      = (Ret tt, reindex w q x1 entity e1)
      /\ Query.Components x1 = Query.Components x
      /\ Query.NotComponents x1 = Query.NotComponents x
      /\ Query.entities x1 = afterAdded T entity types x
      /\ sameButQueries e1 e.
Proof.
  intros w k q x e Hq He Hty. cbv beta iota.
  rewrite (bind_run _ _ _ _ _ (World_readQuery_run w q x Hq)). cbv beta.
  rewrite (bind_run _ _ _ _ _ (World_readEntity_run w entity e He)). cbv beta.
  unfold afterAdded, JS.includes. rewrite Query_match_types, Hty.
  destruct (JS.tilde (JS.indexOf (Query.NotComponents x) T)
            && JS.tilde (JS.indexOf (Query.entities x) entity)) eqn:C1.
  - rewrite (Query_removeEntity_run w q x entity e Hq He). unfold JS.includes.
    apply andb_true_iff in C1. destruct C1 as [_ ->].
    eexists _, _. split; [reflexivity|]. repeat split;
      try apply sameButQueries_with_queries.
  - destruct (negb (JS.tilde (JS.indexOf (Query.Components x) T))
              || negb (typesMatch (Query.Components x) (Query.NotComponents x) types)
              || JS.tilde (JS.indexOf (Query.entities x) entity)) eqn:C2.
    + exists x, e. rewrite (reindex_id w q x entity e Hq He). repeat split.
    + rewrite (Query_addEntity_run w q x entity e Hq He).
      eexists _, _. split; [reflexivity|]. repeat split;
        try apply sameButQueries_with_queries.
Qed.

Lemma onRemoveComponent_body (T : ComponentClass) (entity : nat) (types : list ComponentClass) :
  forall w (k : string) q x e,
    World.queryStore w !! q = Some x -> World.entityStore w !! entity = Some e ->
    Entity.componentTypes e = types ->
    exists x1 e1,
      (fun '(queryName, query) =>
         x ← readQuery query;
         e ← readEntity entity;
         if JS.tilde (JS.indexOf (Query.NotComponents x) T)
            && negb (JS.tilde (JS.indexOf (Query.entities x) entity))
            && Query_match x e
         then Query_addEntity query entity
         else if JS.tilde (JS.indexOf (Query.Components x) T)
                 && JS.tilde (JS.indexOf (Query.entities x) entity)
                 && negb (Query_match x e)
         then Query_removeEntity query entity
         else ret tt) (k, q) w
      = (Ret tt, reindex w q x1 entity e1)
      /\ Query.Components x1 = Query.Components x
      /\ Query.NotComponents x1 = Query.NotComponents x
      /\ Query.entities x1 = afterRemoved T entity types x
      /\ sameButQueries e1 e.
Proof.
  intros w k q x e Hq He Hty. cbv beta iota.
  rewrite (bind_run _ _ _ _ _ (World_readQuery_run w q x Hq)). cbv beta.
  rewrite (bind_run _ _ _ _ _ (World_readEntity_run w entity e He)). cbv beta.
  unfold afterRemoved, JS.includes. rewrite Query_match_types, Hty.
  destruct (JS.tilde (JS.indexOf (Query.NotComponents x) T)
            && negb (JS.tilde (JS.indexOf (Query.entities x) entity))
            && typesMatch (Query.Components x) (Query.NotComponents x) types) eqn:C1.
  - rewrite (Query_addEntity_run w q x entity e Hq He).
    eexists _, _. split; [reflexivity|]. repeat split;
      try apply sameButQueries_with_queries.
  - destruct (JS.tilde (JS.indexOf (Query.Components x) T)
              && JS.tilde (JS.indexOf (Query.entities x) entity)
              && negb (typesMatch (Query.Components x) (Query.NotComponents x) types)) eqn:C2.
    + rewrite (Query_removeEntity_run w q x entity e Hq He). unfold JS.includes.
      apply andb_true_iff in C2. destruct C2 as [C2 _].
      apply andb_true_iff in C2. destruct C2 as [_ ->].
      eexists _, _. split; [reflexivity|]. repeat split;
        try apply sameButQueries_with_queries.
    + exists x, e. rewrite (reindex_id w q x entity e Hq He). repeat split.
Qed.

Lemma typesMatch_spec (pos neg types : list ComponentClass) :
  typesMatch pos neg types = true
  <-> (forall C, In C pos -> In C types) /\ (forall C, In C neg -> ~ In C types).
Proof.
  unfold typesMatch. rewrite andb_true_iff, negb_true_iff, forallb_forall.
  rewrite <- not_true_iff_false, existsb_exists. unfold hasType.
  split.
  - intros [Hp Hn]. split.
    + intros C HC. apply tilde_indexOf_In. now apply Hp.
    + intros C HC Hin. apply Hn. exists C. split; [exact HC|]. now apply tilde_indexOf_In.
  - intros [Hp Hn]. split.
    + intros C HC. apply tilde_indexOf_In. now apply Hp.
    + intros (C & HC & Hin). apply (Hn C HC). now apply tilde_indexOf_In.
Qed.

(** [l.splice(l.indexOf(x), 1)] for an [x] that is in [l]. *)
Lemma splice1_indexOf_In {A} `{EqDecision A} (l : list A) (x y : A) :
  In x l ->
  (In y (JS.splice1 (JS.indexOf l x) l) -> In y l)
  /\ (y <> x -> In y l -> In y (JS.splice1 (JS.indexOf l x) l))
  /\ (NoDup l -> ~ In x (JS.splice1 (JS.indexOf l x) l))
  /\ (NoDup l -> NoDup (JS.splice1 (JS.indexOf l x) l)).
Proof.
  intros Hx. destruct (splice1_indexOf l x Hx) as (l1 & l2 & -> & Hn1 & ->).
  split; [|split; [|split]].
  - intros H. apply in_app_or in H. apply in_or_app. destruct H; [now left | right; now right].
  - intros Hne H. apply in_app_or in H. apply in_or_app.
    destruct H as [?|[?|?]]; [now left | congruence | now right].
  - intros Hnd H. apply NoDup_app in Hnd. destruct Hnd as (_ & _ & Hnd).
    apply NoDup_cons in Hnd. destruct Hnd as [Hx2 _].
    apply in_app_or in H. destruct H as [?|H]; [tauto|]. apply Hx2. now apply list_elem_of_In.
  - intros Hnd. apply NoDup_app in Hnd. destruct Hnd as (H1 & H2 & H3).
    apply NoDup_cons in H3. destruct H3 as [_ H3].
    apply NoDup_app. split; [exact H1|]. split; [|exact H3].
    intros z Hz Hz'. apply (H2 z Hz). now right.
Qed.

Lemma NoDup_snoc {A} (l : list A) (x : A) : NoDup l -> ~ In x l -> NoDup (l ++ [x]).
Proof.
  intros Hnd Hn. apply NoDup_app. split; [exact Hnd|]. split; [|apply NoDup_singleton].
  intros z Hz Hz'. apply list_elem_of_In in Hz. apply list_elem_of_In in Hz'.
  destruct Hz' as [<-|[]]. contradiction.
Qed.

(** What [onComponentAdded] does to one query keeps it in step with the
    entity, which has just received [T]. *)
Lemma afterAdded_sync (T : ComponentClass) (this : nat) (types : list ComponentClass)
    (x : Query.t) :
  NoDup (Query.entities x) ->
  ~ In T types ->
  (In this (Query.entities x)
   <-> typesMatch (Query.Components x) (Query.NotComponents x) types = true) ->
  NoDup (afterAdded T this (types ++ [T]) x)
  /\ (In this (afterAdded T this (types ++ [T]) x)
      <-> typesMatch (Query.Components x) (Query.NotComponents x) (types ++ [T]) = true)
  /\ (forall other, other <> this ->
        (In other (afterAdded T this (types ++ [T]) x) <-> In other (Query.entities x))).
Proof.
  intros Hnd HT Hsync. unfold afterAdded.
  rewrite typesMatch_spec in Hsync.
  pose proof (typesMatch_spec (Query.Components x) (Query.NotComponents x) (types ++ [T])) as Hm.
  destruct (JS.includes (Query.NotComponents x) T) eqn:Hnot;
    destruct (JS.includes (Query.entities x) this) eqn:Hlisted; cbn [andb].
  - (* a negated class arrives on a listed entity: it leaves *)
    apply includes_In in Hnot, Hlisted.
    destruct (splice1_indexOf_In (Query.entities x) this this Hlisted) as (_ & _ & Hgone & Hnd').
    split; [auto|]. split.
    + split; [intros H; exfalso; now apply Hgone|].
      intros H. apply Hm in H. destruct H as [_ H]. exfalso. apply (H T Hnot).
      apply in_or_app. right. now left.
    + intros other Hne.
      destruct (splice1_indexOf_In (Query.entities x) this other Hlisted) as (H1 & H2 & _).
      split; auto.
  - (* a negated class arrives on an entity that is not listed *)
    apply includes_In in Hnot. apply includes_not_In in Hlisted.
    assert (Hno : typesMatch (Query.Components x) (Query.NotComponents x) (types ++ [T]) = false).
    { apply not_true_iff_false. intros H. apply Hm in H. destruct H as [_ H].
      apply (H T Hnot). apply in_or_app. right. now left. }
    rewrite Hno. cbn [negb orb]. rewrite orb_true_r. cbn [orb].
    split; [exact Hnd|]. split; [|tauto].
    split; [tauto | discriminate].
  - (* an entity that is listed stays listed *)
    apply includes_not_In in Hnot. apply includes_In in Hlisted.
    rewrite orb_true_r. split; [exact Hnd|]. split; [|tauto].
    split; [|tauto]. intros _. apply Hm. apply Hsync in Hlisted. destruct Hlisted as [Hp Hn].
    split.
    + intros C HC. apply in_or_app. left. auto.
    + intros C HC H. apply in_app_or in H. destruct H as [H|[<-|[]]]; [now apply (Hn C) | tauto].
  - (* an entity that is not listed joins when the query asks for [T] and matches *)
    apply includes_not_In in Hnot, Hlisted. rewrite orb_false_r.
    destruct (JS.includes (Query.Components x) T) eqn:Hpos; cbn [negb orb].
    + destruct (typesMatch (Query.Components x) (Query.NotComponents x) (types ++ [T])) eqn:Hmatch;
        cbn [negb].
      * split; [now apply NoDup_snoc|]. split.
        -- split; [reflexivity|]. intros _. apply in_or_app. right. now left.
        -- intros other Hne. split.
           ++ intros H. apply in_app_or in H. destruct H as [?|[?|[]]]; [assumption | congruence].
           ++ intros H. apply in_or_app. now left.
      * split; [exact Hnd|]. split; [|tauto]. split; [tauto | discriminate].
    + apply includes_not_In in Hpos. split; [exact Hnd|]. split; [|tauto].
      split; [tauto|]. intros H. exfalso. apply Hlisted, Hsync.
      apply Hm in H. destruct H as [Hp Hn]. split.
      * intros C HC. specialize (Hp C HC). apply in_app_or in Hp.
        destruct Hp as [?|[<-|[]]]; [assumption | tauto].
      * intros C HC H. apply (Hn C HC). apply in_or_app. now left.
Qed.

(** What [onRemoveComponent] does to one query keeps it in step with the
    entity, which has just lost one occurrence of [T]. *)
Lemma afterRemoved_sync (T : ComponentClass) (this : nat) (types : list ComponentClass)
    (x : Query.t) :
  NoDup (Query.entities x) ->
  In T types ->
  (In this (Query.entities x)
   <-> typesMatch (Query.Components x) (Query.NotComponents x) types = true) ->
  let types' := JS.splice1 (JS.indexOf types T) types in
  NoDup (afterRemoved T this types' x)
  /\ (In this (afterRemoved T this types' x)
      <-> typesMatch (Query.Components x) (Query.NotComponents x) types' = true)
  /\ (forall other, other <> this ->
        (In other (afterRemoved T this types' x) <-> In other (Query.entities x))).
Proof.
  intros Hnd HT Hsync types'. unfold afterRemoved.
  rewrite typesMatch_spec in Hsync.
  pose proof (typesMatch_spec (Query.Components x) (Query.NotComponents x) types') as Hm.
  assert (Hsub : forall C, In C types' -> In C types).
  { intros C. apply (splice1_indexOf_In types T C HT). }
  assert (Hkeep : forall C, C <> T -> In C types -> In C types').
  { intros C. apply (splice1_indexOf_In types T C HT). }
  destruct (JS.includes (Query.entities x) this) eqn:Hlisted.
  - (* listed: the entity matched before the removal *)
    rewrite andb_false_r. cbn [andb negb].
    apply includes_In in Hlisted. pose proof Hlisted as Hmatch0. apply Hsync in Hmatch0.
    destruct Hmatch0 as [Hp0 Hn0]. rewrite andb_true_r.
    destruct (typesMatch (Query.Components x) (Query.NotComponents x) types') eqn:Hmatch;
      cbn [negb].
    + rewrite andb_false_r. split; [exact Hnd|]. split; [tauto|tauto].
    + destruct (JS.includes (Query.Components x) T) eqn:Hpos; cbn [andb].
      * destruct (splice1_indexOf_In (Query.entities x) this this Hlisted)
          as (_ & _ & Hgone & Hnd').
        split; [auto|]. split.
        -- split; [intros H; exfalso; now apply Hgone | discriminate].
        -- intros other Hne.
           destruct (splice1_indexOf_In (Query.entities x) this other Hlisted)
             as (H1 & H2 & _). split; auto.
      * (* [T] is not asked for: the entity still matches *)
        apply includes_not_In in Hpos. exfalso.
        apply not_true_iff_false in Hmatch. apply Hmatch, typesMatch_spec. split.
        -- intros C HC. apply Hkeep; [congruence | auto].
        -- intros C HC H. apply (Hn0 C HC). auto.
  - (* not listed: the entity did not match before the removal *)
    apply includes_not_In in Hlisted. rewrite andb_false_r. cbn [andb negb].
    rewrite andb_true_r.
    destruct (JS.includes (Query.NotComponents x) T) eqn:Hnot; cbn [andb].
    + destruct (typesMatch (Query.Components x) (Query.NotComponents x) types') eqn:Hmatch.
      * split; [now apply NoDup_snoc|]. split.
        -- split; [reflexivity|]. intros _. apply in_or_app. right. now left.
        -- intros other Hne. split.
           ++ intros H. apply in_app_or in H. destruct H as [?|[?|[]]]; [assumption | congruence].
           ++ intros H. apply in_or_app. now left.
      * split; [exact Hnd|]. split; [|tauto]. split; [tauto | discriminate].
    + apply includes_not_In in Hnot. split; [exact Hnd|]. split; [|tauto].
      split; [tauto|]. intros H. exfalso. apply Hlisted, Hsync.
      apply Hm in H. destruct H as [Hp Hn]. split.
      * intros C HC. auto.
      * intros C HC H. apply (Hn C HC). apply Hkeep; [congruence | exact H].
Qed.

Lemma indexedBy_frame f l this w0 w :
  indexedBy f l this w0 w ->
  World.queries w = World.queries w0 /\ World.entities w = World.entities w0.
Proof.
  intros (Hfr & _). split.
  - change (World.queries (World.with_queryStore [] (World.with_entityStore [] w))
            = World.queries (World.with_queryStore [] (World.with_entityStore [] w0))).
    now rewrite Hfr.
  - change (World.entities (World.with_queryStore [] (World.with_entityStore [] w))
            = World.entities (World.with_queryStore [] (World.with_entityStore [] w0))).
    now rewrite Hfr.
Qed.

Lemma indexedBy_pools f l this w0 w :
  indexedBy f l this w0 w -> World.poolStore w = World.poolStore w0.
Proof.
  intros (Hfr & _).
  change (World.poolStore (World.with_queryStore [] (World.with_entityStore [] w))
          = World.poolStore (World.with_queryStore [] (World.with_entityStore [] w0))).
  now rewrite Hfr.
Qed.

(** From a world in sync to the world a callback leaves: [w] is the world
    before the entity [this] changed, [w1] the world handed to the callback,
    [w'] the world it leaves. *)
Lemma indexedBy_sync (f : Query.t -> list nat) (this : nat) (w w1 w' : World.t)
    (e e1 : Entity.t) :
  indexReady w -> queriesInSync w ->
  World.entityStore w !! this = Some e -> In this (World.entities w) ->
  World.queries w1 = World.queries w -> World.queryStore w1 = World.queryStore w ->
  World.entities w1 = World.entities w ->
  (forall other, other <> this -> World.entityStore w1 !! other = World.entityStore w !! other) ->
  World.entityStore w1 !! this = Some e1 ->
  indexedBy f (World.queries w1) this w1 w' ->
  (forall x, NoDup (Query.entities x) ->
     (In this (Query.entities x)
      <-> typesMatch (Query.Components x) (Query.NotComponents x) (Entity.componentTypes e) = true) ->
     NoDup (f x)
     /\ (In this (f x)
         <-> typesMatch (Query.Components x) (Query.NotComponents x) (Entity.componentTypes e1)
             = true)
     /\ (forall other, other <> this -> (In other (f x) <-> In other (Query.entities x)))) ->
  indexReady w' /\ queriesInSync w'.
Proof.
  intros [Hnd Hall] Hsync He Hin Hq1 Hqs1 Hl1 Hother1 He1 Hrel Hf.
  destruct (indexedBy_frame _ _ _ _ _ Hrel) as [Hq' Hl'].
  destruct Hrel as (_ & _ & _ & Hother & Hent & Hqs).
  destruct (Hent e1 He1) as (e' & He' & Hsame').
  assert (Hreg : forall k q, In (k, q) (World.queries w) ->
            exists x0 x', World.queryStore w !! q = Some x0
                          /\ World.queryStore w' !! q = Some x'
                          /\ Query.Components x' = Query.Components x0
                          /\ Query.NotComponents x' = Query.NotComponents x0
                          /\ Query.entities x' = f x0
                          /\ NoDup (Query.entities x0)).
  { intros k q Hkq. rewrite Forall_forall in Hall.
    destruct (Hall (k, q)) as (x0 & Hx0 & Hnd0); [now apply list_elem_of_In|].
    cbn [snd] in Hx0. destruct (Hqs q x0) as (x' & Hx' & HC & HN & HE).
    { now rewrite Hqs1. }
    exists x0, x'. repeat split; auto. rewrite HE, Hq1.
    rewrite bool_decide_eq_true_2; [reflexivity|].
    apply list_elem_of_In, in_map_iff. exists (k, q). auto. }
  assert (Hthis : forall k q x0, In (k, q) (World.queries w) -> World.queryStore w !! q = Some x0 ->
            (In this (Query.entities x0)
             <-> typesMatch (Query.Components x0) (Query.NotComponents x0)
                            (Entity.componentTypes e) = true)).
  { intros k q x0 Hkq Hx0. rewrite (Hsync k q x0 Hkq Hx0 this). rewrite <- Query_match_types.
    split.
    - intros (_ & e0 & He0 & Hm). congruence.
    - intros Hm. split; [exact Hin|]. exists e. auto. }
  split.
  - split; [now rewrite Hq', Hq1|]. rewrite Hq', Hq1. rewrite Forall_forall. intros [k q] Hkq.
    apply list_elem_of_In in Hkq.
    destruct (Hreg k q Hkq) as (x0 & x' & Hx0 & Hx' & _ & _ & HE & Hnd0).
    exists x'. split; [exact Hx'|]. rewrite HE.
    apply (Hf x0 Hnd0 (Hthis k q x0 Hkq Hx0)).
  - intros k q x' Hkq Hx' entity. rewrite Hq', Hq1 in Hkq. rewrite Hl', Hl1.
    destruct (Hreg k q Hkq) as (x0 & x'' & Hx0 & Hx'' & HC & HN & HE & Hnd0).
    assert (x'' = x') as -> by congruence.
    destruct (Hf x0 Hnd0 (Hthis k q x0 Hkq Hx0)) as (_ & Hfthis & Hfother).
    rewrite HE. destruct (decide (entity = this)) as [->|Hne].
    + rewrite Hfthis. split.
      * intros Hm. split; [exact Hin|]. exists e'. split; [exact He'|].
        rewrite Query_match_types, HC, HN, (sameButQueries_types _ _ Hsame'). exact Hm.
      * intros (_ & e0 & He0 & Hm). assert (e0 = e') as -> by congruence.
        rewrite Query_match_types, HC, HN, (sameButQueries_types _ _ Hsame') in Hm. exact Hm.
    + rewrite (Hfother entity Hne). rewrite (Hsync k q x0 Hkq Hx0 entity).
      rewrite (Hother entity Hne), (Hother1 entity Hne).
      split; intros (H1 & e0 & He0 & Hm); (split; [exact H1|]); exists e0; (split; [exact He0|]);
        rewrite Query_match_types in *; congruence.
Qed.

Lemma indexReady_allocated w :
  indexReady w ->
  Forall (fun kv => (snd kv < length (World.queryStore w))%nat) (World.queries w).
Proof.
  intros [_ Hall]. eapply Forall_impl; [exact Hall|].
  intros kv (x & Hx & _). eapply lookup_lt_Some; eauto.
Qed.

Lemma World_onComponentAdded_indexed (T : ComponentClass) (entity : nat) (w : World.t)
    (e : Entity.t) :
  NoDup (map snd (World.queries w)) ->
  Forall (fun kv => (snd kv < length (World.queryStore w))%nat) (World.queries w) ->
  World.entityStore w !! entity = Some e ->
  exists wc w',
    World_onComponentAdded entity T w = (Ret tt, w')
    /\ indexedBy (afterAdded T entity (Entity.componentTypes e)) (World.queries wc) entity wc w'
    /\ World.queries wc = World.queries w
    /\ World.queryStore wc = World.queryStore w
    /\ World.entityStore wc = World.entityStore w
    /\ World.entities wc = World.entities w.
Proof.
  intros Hnd Hall He. unfold World_onComponentAdded.
  rewrite (bind_run getWorld _ w w w eq_refl). cbv beta.
  set (w1 := snd (when (negb (bool_decide (is_Some (World.componentTypes w !! name T))
                                  || JS.inherited (name T)))
                       (console_warn ("Component " +:+ name T +:+ " not registered.")) w)).
  assert (Hw1 : when (negb (bool_decide (is_Some (World.componentTypes w !! name T))
                            || JS.inherited (name T)))
                     (console_warn ("Component " +:+ name T +:+ " not registered.")) w
                = (Ret tt, w1)).
  { unfold w1. destruct (negb _); reflexivity. }
  assert (Hsame1 : World.queries w1 = World.queries w
                   /\ World.queryStore w1 = World.queryStore w
                   /\ World.entityStore w1 = World.entityStore w
                   /\ World.entities w1 = World.entities w).
  { unfold w1. destruct (negb _); repeat split. }
  clearbody w1. destruct Hsame1 as (Hq1 & Hqs1 & Hes1 & Hl1).
  rewrite (bind_run _ _ _ _ _ Hw1).
  rewrite (bind_run (modify _) _ _ tt _ eq_refl).
  match goal with |- context [bind getWorld _ ?ww] =>
    set (wc := ww); rewrite (bind_run getWorld _ wc wc wc eq_refl) end.
  cbv beta.
  destruct (index_loop entity (Entity.componentTypes e)
              (afterAdded T entity (Entity.componentTypes e)) _
              (onComponentAdded_body T entity (Entity.componentTypes e))
              (World.queries wc)) with (w := wc) (e := e) as (w' & Hrun & Hrel).
  - unfold wc. simpl. now rewrite Hq1.
  - unfold wc. simpl. now rewrite Hq1, Hqs1.
  - unfold wc. simpl. now rewrite Hes1.
  - reflexivity.
  - exists wc, w'. split; [exact Hrun|]. split; [exact Hrel|].
    unfold wc. simpl. auto.
Qed.

Lemma World_onRemoveComponent_indexed (T : ComponentClass) (entity : nat) (w : World.t)
    (e : Entity.t) :
  NoDup (map snd (World.queries w)) ->
  Forall (fun kv => (snd kv < length (World.queryStore w))%nat) (World.queries w) ->
  World.entityStore w !! entity = Some e ->
  exists wc w',
    World_onRemoveComponent entity T w = (Ret tt, w')
    /\ indexedBy (afterRemoved T entity (Entity.componentTypes e)) (World.queries wc) entity wc w'
    /\ World.queries wc = World.queries w
    /\ World.queryStore wc = World.queryStore w
    /\ World.entityStore wc = World.entityStore w
    /\ World.entities wc = World.entities w
    /\ World.poolStore wc = World.poolStore w.
Proof.
  intros Hnd Hall He. unfold World_onRemoveComponent.
  rewrite (bind_run (modify _) _ _ tt _ eq_refl).
  match goal with |- context [bind getWorld _ ?ww] =>
    set (wc := ww); rewrite (bind_run getWorld _ wc wc wc eq_refl) end.
  cbv beta.
  destruct (index_loop entity (Entity.componentTypes e)
              (afterRemoved T entity (Entity.componentTypes e)) _
              (onRemoveComponent_body T entity (Entity.componentTypes e))
              (World.queries wc)) with (w := wc) (e := e) as (w' & Hrun & Hrel).
  - exact Hnd.
  - exact Hall.
  - exact He.
  - reflexivity.
  - exists wc, w'. split; [exact Hrun|]. split; [exact Hrel|].
    unfold wc. simpl. repeat split; reflexivity.
Qed.

(** A world whose queries, query store and entity list are those of [w],
    and whose entities have the types they have in [w], is in sync when [w] is. *)
Lemma sync_transport (w w' : World.t) :
  World.queries w' = World.queries w ->
  World.queryStore w' = World.queryStore w ->
  World.entities w' = World.entities w ->
  sameTypes w w' ->
  indexReady w /\ queriesInSync w -> indexReady w' /\ queriesInSync w'.
Proof.
  intros Hq Hqs Hl [_ Hty] [Hready Hsync]. split.
  - unfold indexReady. now rewrite Hq, Hqs.
  - intros k q x Hkq Hx entity. rewrite Hq in Hkq. rewrite Hqs in Hx. rewrite Hl.
    rewrite (Hsync k q x Hkq Hx entity). specialize (Hty entity).
    split; intros (H1 & e0 & He0 & Hm); (split; [exact H1|]).
    + rewrite He0 in Hty. destruct (World.entityStore w' !! entity) as [e1|]; [|discriminate].
      exists e1. split; [reflexivity|]. simpl in Hty. rewrite Query_match_types in *. congruence.
    + rewrite He0 in Hty. destruct (World.entityStore w !! entity) as [e1|]; [|discriminate].
      exists e1. split; [reflexivity|]. simpl in Hty. rewrite Query_match_types in *. congruence.
Qed.

(** The world after updates of the record of one entity that leave its
    type list alone. *)
Lemma sameTypes_insert (w0 w : World.t) (this : nat) (x x' : Entity.t) :
  sameTypes w0 w ->
  World.entityStore w !! this = Some x ->
  Entity.componentTypes x' = Entity.componentTypes x ->
  sameTypes w0 (World.with_entityStore (<[this := x']> (World.entityStore w)) w).
Proof.
  intros [Hlen Hty] Hx Hsame. split.
  - simpl. now rewrite length_insert.
  - intros other. simpl. destruct (decide (other = this)) as [->|Hne].
    + rewrite list_lookup_insert_eq by (eapply lookup_lt_Some; eauto).
      rewrite <- Hty, Hx. simpl. now rewrite Hsame.
    + rewrite list_lookup_insert_ne by congruence. apply Hty.
Qed.

Lemma sameTypes_refl w : sameTypes w w.
Proof. split; auto. Qed.

(** The rest of [removeComponent] once the queries are told: on a live
    entity whose live and pending dictionaries hold nothing under the
    class name, it touches the record of the entity (not its type list) and
    the queue of entities with removals pending. *)
Lemma Entity_removeComponent_rest (w : World.t) (this : nat) (e : Entity.t)
    (T : ComponentClass) (immediately : bool) :
  World.entityStore w !! this = Some e ->
  Entity.alive e = true ->
  JS.read (Entity.components e) (name T) = None ->
  JS.read (Entity._componentsToRemove e) (name T) = None ->
  exists w' e',
    (e0 ← readEntity this;
     (if immediately
      then
       match JS.read (Entity.components e0) (name T) with
       | Some c => Component_dispose c
       | None => ret tt
       end;;
       e1 ← readEntity this;
       when (JS.truthy (JS.read (Entity._componentsToRemove e1) (name T)))
         (updateEntity this (fun e3 =>
            Entity.with__componentsToRemove
              (JS.del (Entity._componentsToRemove e3) (name T)) e3);;
          e3 ← readEntity this;
          when (negb (JS.indexOf (Entity._componentTypesToRemove e3) T =? -1))
            (updateEntity this (fun e4 =>
               Entity.with__componentTypesToRemove
                 (JS.splice1 (JS.indexOf (Entity._componentTypesToRemove e3) T)
                    (Entity._componentTypesToRemove e4)) e4)))
      else
       if Entity.alive e0
       then
        updateEntity this (fun e1 =>
          Entity.with__componentTypesToRemove
            (JS.push (Entity._componentTypesToRemove e1) T) e1);;
        updateEntity this (fun e1 =>
          Entity.with__componentsToRemove
            (JS.set (Entity._componentsToRemove e1) (name T)
               (JS.read (Entity.components e0) (name T))) e1);;
        World_queueComponentRemoval this
       else ret tt);;
     when (isSystemStateComponent T)
       (updateEntity this (fun e1 =>
          Entity.with__numSystemStateComponents
            (Entity._numSystemStateComponents e1 - 1) e1);;
        e1 ← readEntity this;
        when ((Entity._numSystemStateComponents e1 =? 0) && negb (Entity.alive e1))
          (Entity_dispose this false));;
     ret true) w
    = (Ret true, w')
    /\ World.entityStore w' !! this = Some e'
    /\ Entity.componentTypes e' = Entity.componentTypes e
    /\ World.queries w' = World.queries w
    /\ World.queryStore w' = World.queryStore w
    /\ World.entities w' = World.entities w
    /\ sameTypes w w'
    /\ World.poolStore w' = World.poolStore w
    /\ Entity.components e' = Entity.components e
    /\ Entity._componentsToRemove e'
       = pendingAfter T immediately (Entity._componentsToRemove e)
    /\ Entity.alive e' = true.
Proof.
  intros He Halive Hlive Hpending.
  destruct e as [u types comps pending qs ptypes alive num pool].
  cbn [Entity.alive Entity.components Entity._componentsToRemove] in Halive, Hlive, Hpending.
  subst alive.
  wrun_read He. cbn [Entity.components Entity.alive]. rewrite Hlive.
  (* the part that depends on [immediately] *)
  assert (Hmid : exists w1 e1,
    (if immediately
      then
       ret tt;;
       e1 ← readEntity this;
       when (JS.truthy (JS.read (Entity._componentsToRemove e1) (name T)))
         (updateEntity this (fun e3 =>
            Entity.with__componentsToRemove
              (JS.del (Entity._componentsToRemove e3) (name T)) e3);;
          e3 ← readEntity this;
          when (negb (JS.indexOf (Entity._componentTypesToRemove e3) T =? -1))
            (updateEntity this (fun e4 =>
               Entity.with__componentTypesToRemove
                 (JS.splice1 (JS.indexOf (Entity._componentTypesToRemove e3) T)
                    (Entity._componentTypesToRemove e4)) e4)))
      else
        updateEntity this (fun e1 =>
          Entity.with__componentTypesToRemove
            (JS.push (Entity._componentTypesToRemove e1) T) e1);;
        updateEntity this (fun e1 =>
          Entity.with__componentsToRemove
            (JS.set (Entity._componentsToRemove e1) (name T) None) e1);;
        World_queueComponentRemoval this) w
    = (Ret tt, w1)
    /\ World.entityStore w1 !! this = Some e1
    /\ Entity.componentTypes e1 = types /\ Entity.alive e1 = true
    /\ World.queries w1 = World.queries w
    /\ World.queryStore w1 = World.queryStore w
    /\ World.entities w1 = World.entities w
    /\ sameTypes w w1
    /\ World.poolStore w1 = World.poolStore w
    /\ Entity.components e1 = comps
    /\ Entity._componentsToRemove e1 = pendingAfter T immediately pending).
  { destruct immediately.
    - rewrite ret_bind. wrun_read He. cbn [Entity._componentsToRemove]. rewrite Hpending.
      cbn [JS.truthy when]. exists w. eexists. split; [reflexivity|]. split; [exact He|].
      repeat split; auto.
    - wrun_update He H1. wrun_update H1 H2.
      unfold World_queueComponentRemoval.
      match goal with |- context [bind getWorld _ ?ww] =>
        rewrite (bind_run getWorld _ ww ww ww eq_refl) end.
      cbv beta zeta.
      match goal with |- context [when ?b ?c ?ww] =>
        assert (Hq : exists w1, when b c ww = (Ret tt, w1)
                     /\ World.entityStore w1 = World.entityStore ww
                     /\ World.queries w1 = World.queries ww
                     /\ World.queryStore w1 = World.queryStore ww
                     /\ World.entities w1 = World.entities ww
                     /\ World.poolStore w1 = World.poolStore ww)
          by (destruct b; eexists; (split; [reflexivity|]); repeat split; reflexivity)
      end.
      destruct Hq as (w1 & Hrun & Hes & Hq & Hqs & Hl & Hps).
      exists w1. eexists. split; [exact Hrun|]. rewrite Hes. split; [exact H2|].
      cbn. repeat split; auto.
      + rewrite Hes. simpl. now rewrite !length_insert.
      + intros other. rewrite Hes. simpl. destruct (decide (other = this)) as [->|Hne].
        * rewrite list_lookup_insert_eq by (rewrite length_insert; eapply lookup_lt_Some; eauto).
          now rewrite He.
        * now rewrite !list_lookup_insert_ne by congruence. }
  destruct Hmid as (w1 & e1 & Hrun1 & He1 & Hty1 & Halive1 & Hq1 & Hqs1 & Hl1 & Hsame1
                    & Hps1 & Hcomps1 & Hpend1).
  rewrite (bind_run _ _ _ _ _ Hrun1).
  destruct (isSystemStateComponent T); cbn [when].
  - wrun_update He1 H2. wrun_read H2.
    cbn [Entity.alive Entity.with__numSystemStateComponents].
    destruct e1 as [u1 types1 comps1 pending1 qs1 ptypes1 alive1 num1 pool1].
    cbn [Entity.alive Entity.componentTypes] in *. subst alive1.
    rewrite andb_false_r. cbn [when]. rewrite ret_bind. unfold ret.
    eexists _, _. split; [reflexivity|]. split; [exact H2|].
    cbn. repeat split; auto.
    + simpl. rewrite length_insert. apply Hsame1.
    + intros other. simpl. destruct (decide (other = this)) as [->|Hne].
      * rewrite list_lookup_insert_eq by (eapply lookup_lt_Some; eauto).
        destruct Hsame1 as [_ Hs]. rewrite <- Hs, He1. reflexivity.
      * rewrite list_lookup_insert_ne by congruence. apply Hsame1.
  - rewrite ret_bind. unfold ret. exists w1, e1. repeat split; auto; apply Hsame1.
Qed.

(** One [removeComponent] on a live, listed entity that holds the class,
    with nothing pending under its name. *)
Lemma Entity_removeComponent_step (w : World.t) (this : nat) (e : Entity.t)
    (T : ComponentClass) (immediately : bool) :
  indexReady w -> queriesInSync w ->
  World.entityStore w !! this = Some e ->
  In this (World.entities w) ->
  Entity.alive e = true ->
  In T (Entity.componentTypes e) ->
  JS.read (Entity._componentsToRemove e) (name T) = None ->
  exists w' e',
    Entity_removeComponent this T immediately w = (Ret true, w')
    /\ World.entityStore w' !! this = Some e'
    /\ Entity.componentTypes e'
       = JS.splice1 (JS.indexOf (Entity.componentTypes e) T) (Entity.componentTypes e)
    /\ World.entities w' = World.entities w
    /\ (indexReady w' /\ queriesInSync w')
    /\ World.poolStore w' = World.poolStore w
    /\ Entity._componentsToRemove e'
       = pendingAfter T immediately (Entity._componentsToRemove e)
    /\ Entity.alive e' = true.
Proof.
  intros Hready Hsync He Hin Halive HT Hpending.
  unfold Entity_removeComponent. cbv zeta.
  wrun_read He. rewrite Hpending. cbn [JS.truthy negb when].
  wrun_update He H1. wrun_update H1 H2. wrun_read H2.
  cbn [Entity.alive Entity.with_componentTypes Entity.with_components]. rewrite Halive.
  cbn [when]. rewrite ?bind_assoc.
  match goal with |- context [bind (World_onRemoveComponent this T) _ ?ww] =>
    set (w2 := ww) in * end.
  match type of H2 with _ = Some ?x => set (e2 := x) in * end.
  destruct (World_onRemoveComponent_indexed T this w2 e2) as (wc & w3 & Hrun & Hrel & Hqc & Hqsc & Hesc & Hlc & Hpc).
  { apply Hready. }
  { apply (indexReady_allocated w Hready). }
  { exact H2. }
  rewrite (bind_run _ _ _ _ _ Hrun).
  assert (Hec : World.entityStore wc !! this = Some e2) by (rewrite Hesc; exact H2).
  pose proof Hrel as (_ & _ & _ & _ & Hent & _).
  destruct (Hent e2 Hec) as (e3 & He3 & Hsame3).
  destruct (sameButQueries_fields _ _ Hsame3) as (_ & Hty3 & Hcomp3 & Hpend3 & _ & Halive3 & _).
  assert (Hsync3 : indexReady w3 /\ queriesInSync w3).
  { assert (Hother : forall other, other <> this ->
              World.entityStore wc !! other = World.entityStore w !! other).
    { intros other Hne. rewrite Hesc. unfold w2. simpl.
      now rewrite !list_lookup_insert_ne by congruence. }
    apply (indexedBy_sync (afterRemoved T this (Entity.componentTypes e2)) this w wc w3 e e2
             Hready Hsync He Hin Hqc Hqsc Hlc Hother Hec Hrel).
    intros x Hnd Hlisted.
    apply (afterRemoved_sync T this (Entity.componentTypes e) x Hnd HT Hlisted). }
  destruct (Entity_removeComponent_rest w3 this e3 T immediately He3)
    as (w' & e' & Hrun' & He' & Hty' & Hq' & Hqs' & Hl' & Hsame' & Hps' & _ & Hpend' & Halive').
  { rewrite Halive3. exact Halive. }
  { rewrite Hcomp3. unfold JS.read. cbn. now rewrite get_del_eq. }
  { rewrite Hpend3. exact Hpending. }
  exists w', e'. split; [exact Hrun'|]. split; [exact He'|]. split.
  { rewrite Hty', Hty3. reflexivity. }
  split.
  { rewrite Hl'. destruct (indexedBy_frame _ _ _ _ _ Hrel) as [_ ->]. rewrite Hlc. reflexivity. }
  split; [apply (sync_transport w3 w' Hq' Hqs' Hl' Hsame' Hsync3)|].
  split.
  { rewrite Hps', (indexedBy_pools _ _ _ _ _ Hrel), Hpc. reflexivity. }
  split; [rewrite Hpend', Hpend3; reflexivity | exact Halive'].
Qed.


Lemma sameButPools_fields w w' :
  sameButPools w w' ->
  World.entityStore w' = World.entityStore w
  /\ World.queryStore w' = World.queryStore w
  /\ World.queries w' = World.queries w
  /\ World.entities w' = World.entities w.
Proof. intros (ps & n & ->). repeat split. Qed.

Lemma sameButPools_with_poolStore w ps : sameButPools w (World.with_poolStore ps w).
Proof. exists ps, (World.nextInstanceId w). destruct w. reflexivity. Qed.

Lemma sameButPools_trans w1 w2 w3 :
  sameButPools w1 w2 -> sameButPools w2 w3 -> sameButPools w1 w3.
Proof. intros (ps & n & ->) (ps' & n' & ->). exists ps', n'. destruct w1. reflexivity. Qed.

(** [acquire] on a pool of components hands out a component and touches
    only the pool store and the instance counter. *)
Lemma ObjectPool_acquire_component (w : World.t) (p : nat) (pool : ObjectPool.t)
    (b : Component) :
  World.poolStore w !! p = Some pool ->
  ObjectPool.baseObject pool = ItemComponent b ->
  0 <= ObjectPool.count pool ->
  Forall (fun item => exists c, item = ItemComponent c) (ObjectPool.freeList pool) ->
  exists c w',
    ObjectPool_acquire p w = (Ret (Some (ItemComponent c)), w') /\ sameButPools w w'.
Proof.
  intros Hp Hb Hc Hall.
  destruct (ObjectPool.freeList pool) as [|item rest _] eqn:Hf using rev_ind.
  - set (growth := Math_round_fifth (ObjectPool.count pool) + 1).
    assert (Hg : 1 <= growth).
    { unfold growth, Math_round_fifth.
      assert (0 <= (2 * ObjectPool.count pool + 5) / 10) by (apply Z.div_pos; lia). lia. }
    pose proof (ObjectPool_expand_loop p b (seq 0 (Z.to_nat growth)) w pool Hp Hb) as Hloop.
    rewrite length_seq in Hloop.
    set (clones := map (pooledClone p b (World.nextInstanceId w)) (seq 0 (Z.to_nat growth))) in *.
    assert (Hlast : exists rest c, clones = rest ++ [ItemComponent c]).
    { unfold clones. destruct (Z.to_nat growth) as [|k] eqn:Hk; [lia|].
      rewrite seq_S, map_app. simpl. eexists _, _. reflexivity. }
    destruct Hlast as (rest & c & Hclones).
    set (w1 := expandedWorld w p pool (Z.to_nat growth) clones) in *.
    assert (Hp1 : World.poolStore w1 !! p = Some (ObjectPool.with_freeList clones pool)).
    { unfold w1, expandedWorld. simpl. rewrite Hf. cbn [app].
      apply list_lookup_insert_eq. eapply lookup_lt_Some; eauto. }
    exists c. eexists. split.
    + unfold ObjectPool_acquire.
      rewrite (bind_run _ _ _ _ _ (World_readPool_run w p pool Hp)). cbv beta.
      rewrite Hf. cbn [length]. change (Z.of_nat 0 <=? 0) with true. cbn [when]. fold growth.
      unfold ObjectPool_expand. rewrite !bind_assoc.
      rewrite (bind_run _ _ _ _ _ Hloop).
      rewrite (bind_run _ _ _ _ _ (World_updatePool_run w1 p _ _ Hp1)).
      apply ObjectPool_acquire_tail with (rest := rest).
      * simpl. apply list_lookup_insert_eq. rewrite length_insert. eapply lookup_lt_Some; eauto.
      * simpl. exact Hclones.
    + eapply sameButPools_trans; [|apply sameButPools_with_poolStore].
      eapply sameButPools_trans; [|apply sameButPools_with_poolStore].
      unfold w1, expandedWorld.
      exists (<[p := ObjectPool.with_freeList (ObjectPool.freeList pool ++ clones) pool]>
                (World.poolStore w)), (World.nextInstanceId w + Z.to_nat growth)%nat.
      reflexivity.
  - apply Forall_app in Hall. destruct Hall as [_ Hitem].
    apply Forall_cons in Hitem. destruct Hitem as [(c & ->) _].
    exists c. eexists. split.
    + apply (ObjectPool_acquire_run w p pool (ItemComponent c) rest Hp Hf).
    + apply sameButPools_with_poolStore.
Qed.

(** With no pool registered under its name, a class named like a member of
    [Object.prototype] cannot be attached: [addComponent] throws a
    [TypeError] at [componentPool.acquire()], leaving the class on the type
    list of the entity with no instance stored. *)
Lemma Entity_addComponent_inherited_name (w : World.t) (this : nat) (e : Entity.t)
    (T : ComponentClass) (props : option Props) :
  World.entityStore w !! this = Some e ->
  ~ In T (Entity.componentTypes e) ->
  isSystemStateComponent T = false ->
  JS.inherited (name T) = true ->
  World.componentPools w !! name T = None ->
  Entity_addComponent this T props w
  = (Throw "TypeError: componentPool.acquire is not a function",
     World.with_entityStore
       (<[this := Entity.with_componentTypes (Entity.componentTypes e ++ [T]) e]>
          (World.entityStore w)) w).
Proof.
  intros He HT Hst Hinh Hnone.
  unfold Entity_addComponent.
  wrun_read He.
  replace (JS.tilde (JS.indexOf (Entity.componentTypes e) T)) with false
    by (symmetry; apply includes_not_In; exact HT).
  wrun_update He H1. rewrite Hst. cbn [when]. rewrite ret_bind.
  unfold World_getComponentPool, bind, getWorld, getState, ret. cbv beta iota.
  cbn [World.componentPools World.with_entityStore]. rewrite Hnone, Hinh.
  reflexivity.
Qed.


Lemma syncCheck_sound (w : World.t) : syncCheck w = true -> queriesInSync w.
Proof.
  unfold syncCheck. rewrite forallb_forall. intros Hc k q x Hkq Hx entity.
  specialize (Hc (k, q) Hkq). cbn [snd] in Hc. rewrite Hx in Hc.
  apply andb_true_iff in Hc. destruct Hc as [H1 H2]. rewrite forallb_forall in H1, H2.
  unfold matchesAt in *. split.
  - intros Hin. specialize (H1 entity Hin). apply andb_true_iff in H1. destruct H1 as [Ha Hb].
    split; [now apply includes_In|].
    destruct (World.entityStore w !! entity) as [e|]; [|discriminate]. eauto.
  - intros (Hin & e & He & Hm). specialize (H2 entity Hin). rewrite He, Hm in H2.
    now apply includes_In.
Qed.

Lemma indexedScene_ready : indexReady indexedScene.
Proof.
  split.
  - vm_compute. apply (bool_decide_unpack _). vm_compute. reflexivity.
  - vm_compute. repeat constructor.
    + eexists. split; [reflexivity|]. apply (bool_decide_unpack _). vm_compute. reflexivity.
    + eexists. split; [reflexivity|]. apply (bool_decide_unpack _). vm_compute. reflexivity.
Qed.



Lemma get_In {V} (o : JS.obj V) k v : JS.get o k = Some v -> In (k, v) o.
Proof.
  induction o as [|[k' v'] o IH]; simpl; [discriminate|].
  destruct (decide (k' = k)) as [->|Hne]; [intros [= ->]; now left | intros H; right; auto].
Qed.

Lemma set_absent {V} (o : JS.obj V) k v : JS.get o k = None -> JS.set o k v = o ++ [(k, v)].
Proof.
  induction o as [|[k' v'] o IH]; simpl; [reflexivity|].
  destruct (decide (k' = k)) as [->|Hne]; [discriminate|]. intros H. now rewrite IH.
Qed.

Lemma NoDup_List_filter {A} (f : A -> bool) (l : list A) : NoDup l -> NoDup (List.filter f l).
Proof.
  induction 1 as [|x l Hx _ IH]; simpl; [constructor|].
  destruct (f x); [|exact IH]. constructor; [|exact IH].
  rewrite list_elem_of_In, List.filter_In. intros [Hin _]. apply Hx. now apply list_elem_of_In.
Qed.

Lemma sync_selected (w w' : World.t) (x : Query.t) (q : nat) :
  entitiesAllocated w -> sameTypes w w' -> World.entities w' = World.entities w ->
  Query.entities x = selected w (Query.Components x) (Query.NotComponents x) ->
  forall entity,
    In entity (Query.entities x)
    <-> In entity (World.entities w')
        /\ exists e, World.entityStore w' !! entity = Some e /\ Query_match x e = true.
Proof.
  intros Halloc [Hlen Hty] He Hx entity. rewrite Hx, He. unfold selected.
  rewrite List.filter_In. unfold selects. specialize (Hty entity).
  split.
  - intros [Hin Hm]. split; [exact Hin|].
    destruct (World.entityStore w !! entity) as [e0|]; [|discriminate].
    destruct (World.entityStore w' !! entity) as [e1|]; [|discriminate].
    exists e1. split; [reflexivity|]. simpl in Hty. rewrite Query_match_types. congruence.
  - intros (Hin & e1 & He1 & Hm). split; [exact Hin|].
    rewrite He1 in Hty. destruct (World.entityStore w !! entity) as [e0|]; [|discriminate].
    simpl in Hty. rewrite Query_match_types in Hm. congruence.
Qed.

(** X17. In a world whose listed entities are allocated and listed once,
    [getQuery] on a list with a positive component, whose key is no member
    of [Object.prototype], returns a query that is indexed under the key of
    the list, and leaves the queries in sync.  For a key not yet indexed the
    query is new: it has the positive and the negated classes of the list
    and lists, in the order of the world's list, exactly the entities that
    match. *)
Theorem World_getQuery_keeps_sync (w : World.t) (S : list QueryTerm) :
  indexReady w -> queriesInSync w ->
  entitiesAllocated w -> NoDup (World.entities w) ->
  positives S <> [] ->
  JS.inherited (queryKey S) = false ->
  exists q w' x,
    World_getQuery S w = (Ret q, w')
    /\ JS.get (World.queries w') (queryKey S) = Some q
    /\ World.queryStore w' !! q = Some x
    /\ (JS.get (World.queries w) (queryKey S) = None ->
        Query.Components x = positives S
        /\ Query.NotComponents x = negatives S
        /\ Query.entities x = selected w (positives S) (negatives S))
    /\ World.entities w' = World.entities w
    /\ indexReady w' /\ queriesInSync w'.
Proof.
  intros Hready Hsync Halloc Hnd Hpos _.
  destruct (JS.get (World.queries w) (queryKey S)) as [q|] eqn:E.
  - pose proof (get_In _ _ _ E) as Hin.
    destruct Hready as [Hnd' Hall]. pose proof Hall as Hall'.
    rewrite List.Forall_forall in Hall'. destruct (Hall' _ Hin) as (x & Hx & _).
    exists q, w, x. split; [now apply World_getQuery_known|].
    split; [exact E|]. split; [exact Hx|]. split; [discriminate|].
    split; [reflexivity|]. split; [split; assumption | exact Hsync].
  - destruct (Query_new_seeds w S Halloc Hpos) as (w1 & Hrun & Hqs & Hty & He & Hq).
    set (q0 := length (World.queryStore w)) in *.
    set (x0 := Query.mk (positives S) (negatives S) (selected w (positives S) (negatives S))
                        [] false (queryKey S)) in *.
    exists q0, (World.with_queries (JS.set (World.queries w1) (queryKey S) q0) w1), x0.
    assert (Hx0 : World.queryStore w1 !! q0 = Some x0).
    { rewrite Hqs. unfold q0. rewrite lookup_app_r by lia. now rewrite Nat.sub_diag. }
    split.
    { unfold World_getQuery, bind, getWorld, getState. rewrite E, Hrun. reflexivity. }
    split; [simpl; apply get_set_eq|].
    split; [exact Hx0|].
    split; [intros _; auto|].
    split; [exact He|].
    pose proof (indexReady_allocated w Hready) as Hlt.
    destruct Hready as [Hnd' Hall].
    assert (Hset : JS.set (World.queries w1) (queryKey S) q0 = World.queries w ++ [(queryKey S, q0)]).
    { rewrite Hq. now apply set_absent. }
    split.
    + split; simpl; rewrite Hset.
      * rewrite map_app. apply NoDup_snoc; [exact Hnd'|].
        simpl. intros Hin. apply in_map_iff in Hin. destruct Hin as (kv & Hkv & Hin).
        rewrite List.Forall_forall in Hlt. specialize (Hlt kv Hin). unfold q0 in Hkv. lia.
      * apply Forall_app. split.
        -- eapply Forall_impl; [exact Hall|]. intros kv (x & Hx & Hndx).
           exists x. split; [|exact Hndx]. rewrite Hqs. rewrite lookup_app_l; [exact Hx|].
           eapply lookup_lt_Some; eauto.
        -- constructor; [|constructor]. exists x0. split; [exact Hx0|].
           simpl. unfold selected. apply NoDup_List_filter. exact Hnd.
    + intros k q x Hkq Hx entity. simpl in Hkq, Hx |- *. rewrite Hset in Hkq.
      apply in_app_or in Hkq. destruct Hkq as [Hkq|[[= <- <-]|[]]].
      * rewrite List.Forall_forall in Hlt. specialize (Hlt _ Hkq). simpl in Hlt.
        rewrite Hqs, lookup_app_l in Hx by exact Hlt.
        rewrite (Hsync k q x Hkq Hx entity). rewrite He.
        destruct Hty as [Hlen Hty]. specialize (Hty entity).
        split; intros (H1 & e0 & He0 & Hm); (split; [exact H1|]).
        -- rewrite He0 in Hty. destruct (World.entityStore w1 !! entity) as [e1|]; [|discriminate].
           exists e1. split; [reflexivity|]. simpl in Hty. rewrite Query_match_types in *. congruence.
        -- rewrite He0 in Hty. destruct (World.entityStore w !! entity) as [e1|]; [|discriminate].
           exists e1. split; [reflexivity|]. simpl in Hty. rewrite Query_match_types in *. congruence.
      * rewrite Hx0 in Hx. injection Hx as <-.
        apply (sync_selected w w1 x0 q0 Halloc Hty He). reflexivity.
Qed.

Lemma World_getQuery_keeps_sync_witness :
  exists q w' x,
    World_getQuery [Bare Velocity] indexedScene = (Ret q, w')
    /\ World.queryStore w' !! q = Some x
    /\ Query.entities x = [2%nat; 3%nat]
    /\ queriesInSync w'.
Proof.
  destruct (World_getQuery_keeps_sync indexedScene [Bare Velocity])
    as (q & w' & x & Hrun & _ & Hx & Hnew & _ & _ & Hsync).
  - exact indexedScene_ready.
  - apply syncCheck_sound. vm_compute. reflexivity.
  - unfold entitiesAllocated. apply (bool_decide_unpack _). vm_compute. reflexivity.
  - apply (bool_decide_unpack _). vm_compute. reflexivity.
  - discriminate.
  - reflexivity.
  - exists q, w', x. split; [exact Hrun|]. split; [exact Hx|]. split; [|exact Hsync].
    destruct Hnew as (_ & _ & ->); [vm_compute; reflexivity|]. vm_compute. reflexivity.
Defined.

(** X18. [addEntity] of an allocated entity without components.  If its
    uuid is not indexed, the entity is appended to the world's list, indexed
    under its uuid and marked alive, and the queries stay in sync when each
    has a positive component (none of them lists the entity).  If the uuid
    is indexed already, the call only logs a warning and returns the
    entity: the list is not extended. *)
Theorem World_addEntity_keeps_sync (w : World.t) (entity : nat) (e : Entity.t) :
  World.entityStore w !! entity = Some e ->
  Entity.componentTypes e = [] ->
  (World.entitiesByUUID w !! Entity.uuid e = None ->
   exists w',
     World_addEntity entity w = (Ret entity, w')
     /\ World.entities w' = World.entities w ++ [entity]
     /\ World.entitiesByUUID w' !! Entity.uuid e = Some entity
     /\ World.entityStore w' !! entity = Some (Entity.with_alive true e)
     /\ (indexReady w -> queriesInSync w -> queriesPositive w ->
         indexReady w' /\ queriesInSync w' /\ queriesPositive w'))
  /\ (is_Some (World.entitiesByUUID w !! Entity.uuid e) ->
      World_addEntity entity w
      = (Ret entity,
         World.with_console
           (World.console w ++ ["Entity " +:+ Entity.uuid e +:+ " already added."]) w)).
Proof.
  intros He Hty. split.
  - intros Hfree. unfold World_addEntity.
    wrun_read He. unfold getWorld. rewrite (bind_run getState _ w w w eq_refl). cbv beta.
    rewrite Hfree. rewrite bool_decide_eq_false_2 by (intros [? ?]; discriminate).
    rewrite (bind_run (modify _) _ _ tt _ eq_refl). cbv beta.
    rewrite (bind_run (modify _) _ _ tt _ eq_refl). cbv beta.
    match goal with |- context [bind (updateEntity _ _) _ ?w0] =>
      assert (He0 : World.entityStore w0 !! entity = Some e) by exact He end.
    wrun_update He0 He1. rewrite Hty. cbn [forEach]. rewrite ret_bind.
    eexists. split; [reflexivity|].
    split; [reflexivity|].
    split; [cbn; apply lookup_insert_eq|].
    split; [exact He1|].
    intros Hready Hsync Hposq.
    assert (Hlt : (entity < length (World.entityStore w))%nat) by (eapply lookup_lt_Some; eauto).
    split; [exact Hready|]. split; [|exact Hposq].
    intros k q x Hkq Hx other. cbn in Hkq, Hx |- *.
    rewrite (Hsync k q x Hkq Hx other). rewrite in_app_iff.
    destruct (decide (other = entity)) as [->|Hne].
    + rewrite list_lookup_insert_eq by exact Hlt.
      assert (Hno : forall e', Entity.componentTypes e' = [] -> Query_match x e' = false).
      { intros e' Hty'. rewrite Query_match_types, Hty'. unfold typesMatch.
        pose proof (Hposq k q x Hkq Hx) as Hne. destruct (Query.Components x); [congruence|].
        reflexivity. }
      split.
      * intros (_ & e0 & He0' & Hm). rewrite He in He0'. injection He0' as <-.
        rewrite (Hno e Hty) in Hm. discriminate.
      * intros (_ & e0 & [= <-] & Hm). rewrite (Hno (Entity.with_alive true e)) in Hm;
          [discriminate | exact Hty].
    + rewrite list_lookup_insert_ne by congruence.
      split; intros (Hin & Hrest); (split; [|exact Hrest]).
      * now left.
      * destruct Hin as [Hin|[Hin|[]]]; [exact Hin | congruence].
  - intros Hsome. unfold World_addEntity.
    wrun_read He. unfold getWorld. rewrite (bind_run getState _ w w w eq_refl). cbv beta.
    rewrite bool_decide_eq_true_2 by exact Hsome. reflexivity.
Qed.

Lemma World_addEntity_keeps_sync_witness :
  exists w',
    World_addEntity 5%nat (exec World_createDetachedEntity indexedScene) = (Ret 5%nat, w')
    /\ World.entities w' = [1; 2; 3; 5]%nat
    /\ queriesInSync w'.
Proof.
  set (w := exec World_createDetachedEntity indexedScene).
  destruct (World.entityStore w !! 5%nat) as [e|] eqn:He; [|vm_compute in He; discriminate].
  destruct (World_addEntity_keeps_sync w 5%nat e He) as [Hadd _].
  - vm_compute in He. injection He as <-. reflexivity.
  - destruct Hadd as (w' & Hrun & Hl & _ & _ & Hinv).
    + vm_compute in He. injection He as <-. vm_compute. reflexivity.
    + exists w'. split; [exact Hrun|]. split; [rewrite Hl; vm_compute; reflexivity|].
      apply Hinv.
      * split.
        -- vm_compute. apply (bool_decide_unpack _). vm_compute. reflexivity.
        -- vm_compute. repeat constructor.
           ++ eexists. split; [reflexivity|]. apply (bool_decide_unpack _). vm_compute. reflexivity.
           ++ eexists. split; [reflexivity|]. apply (bool_decide_unpack _). vm_compute. reflexivity.
      * apply syncCheck_sound. vm_compute. reflexivity.
      * intros k q x Hkq Hx. vm_compute in Hkq.
        destruct Hkq as [[= <- <-]|[[= <- <-]|[]]]; vm_compute in Hx; injection Hx as <-; discriminate.
Defined.


(** X19. [removeComponent] of a class whose name is no member of
    [Object.prototype], on a live entity with no removal of the class
    pending, never hands the instance back to its pool: the entry of the
    live dictionary is deleted before it is read, so nothing is disposed
    (the pool store is the one before the call) and, when deferred, the
    pending-removal dictionary holds [undefined] under the class name. *)
Theorem Entity_removeComponent_never_releases (w : World.t) (this : nat) (e : Entity.t)
    (T : ComponentClass) (immediately : bool) :
  indexReady w ->
  World.entityStore w !! this = Some e ->
  Entity.alive e = true ->
  JS.read (Entity._componentsToRemove e) (name T) = None ->
  JS.inherited (name T) = false ->
  exists w' e',
    Entity_removeComponent this T immediately w = (Ret true, w')
    /\ World.entityStore w' !! this = Some e'
    /\ World.poolStore w' = World.poolStore w
    /\ Entity.components e' = JS.del (Entity.components e) (name T)
    /\ Entity._componentsToRemove e'
       = pendingAfter T immediately (Entity._componentsToRemove e)
    /\ Entity_getComponent e' T true = None.
Proof.
  intros Hready He Halive Hpending _.
  unfold Entity_removeComponent. cbv zeta.
  wrun_read He. rewrite Hpending. cbn [JS.truthy negb when].
  wrun_update He H1. wrun_update H1 H2. wrun_read H2.
  cbn [Entity.alive Entity.with_componentTypes Entity.with_components]. rewrite Halive.
  cbn [when]. rewrite ?bind_assoc.
  match goal with |- context [bind (World_onRemoveComponent this T) _ ?ww] =>
    set (w2 := ww) in * end.
  match type of H2 with _ = Some ?x => set (e2 := x) in * end.
  destruct (World_onRemoveComponent_indexed T this w2 e2)
    as (wc & w3 & Hrun & Hrel & Hqc & Hqsc & Hesc & Hlc & Hpc).
  { apply Hready. }
  { apply (indexReady_allocated w Hready). }
  { exact H2. }
  rewrite (bind_run _ _ _ _ _ Hrun).
  assert (Hec : World.entityStore wc !! this = Some e2) by (rewrite Hesc; exact H2).
  pose proof Hrel as (_ & _ & _ & _ & Hent & _).
  destruct (Hent e2 Hec) as (e3 & He3 & Hsame3).
  destruct (sameButQueries_fields _ _ Hsame3) as (_ & Hty3 & Hcomp3 & Hpend3 & _ & Halive3 & _).
  assert (Hgone : JS.read (Entity.components e3) (name T) = None).
  { rewrite Hcomp3. unfold JS.read. cbn. now rewrite get_del_eq. }
  destruct (Entity_removeComponent_rest w3 this e3 T immediately He3)
    as (w' & e' & Hrun' & He' & _ & _ & _ & _ & _ & Hps' & Hcomps' & Hpend' & _).
  { rewrite Halive3. exact Halive. }
  { exact Hgone. }
  { rewrite Hpend3. exact Hpending. }
  exists w', e'. split; [exact Hrun'|]. split; [exact He'|].
  split.
  { rewrite Hps', (indexedBy_pools _ _ _ _ _ Hrel), Hpc. reflexivity. }
  split; [rewrite Hcomps', Hcomp3; reflexivity|].
  split; [rewrite Hpend', Hpend3; reflexivity|].
  unfold Entity_getComponent. rewrite Hcomps', Hgone. cbn [JS.truthy negb andb].
  rewrite Hpend', Hpend3. cbn [Entity._componentsToRemove].
  destruct immediately; cbn [pendingAfter]; [exact Hpending|].
  unfold JS.read. now rewrite get_set_eq.
Qed.

Lemma Entity_removeComponent_never_releases_witness :
  exists w' e' pool,
    Entity_removeComponent 2%nat Velocity true indexedScene = (Ret true, w')
    /\ World.entityStore w' !! 2%nat = Some e'
    /\ Entity_getComponent e' Velocity true = None
    /\ World.poolStore w' !! 2%nat = Some pool
    /\ ObjectPool.freeList pool = [].
Proof.
  destruct (World.entityStore indexedScene !! 2%nat) as [e|] eqn:He;
    [|vm_compute in He; discriminate].
  destruct (Entity_removeComponent_never_releases indexedScene 2%nat e Velocity true)
    as (w' & e' & Hrun & He' & Hps & _ & _ & Hget).
  - exact indexedScene_ready.
  - exact He.
  - vm_compute in He. injection He as <-. reflexivity.
  - vm_compute in He. injection He as <-. reflexivity.
  - reflexivity.
  - exists w', e'. eexists. split; [exact Hrun|]. split; [exact He'|].
    split; [exact Hget|]. rewrite Hps. split; vm_compute; reflexivity.
Defined.

Lemma read_pendingAfter (T T' : ComponentClass) (immediately : bool)
    (pending : JS.obj (option Component)) :
  JS.read pending (name T') = None ->
  JS.read (pendingAfter T immediately pending) (name T') = None.
Proof.
  intros Hp. destruct immediately; cbn [pendingAfter]; [exact Hp|].
  unfold JS.read in *. destruct (decide (name T = name T')) as [E|Hne].
  - rewrite <- E. now rewrite get_set_eq.
  - now rewrite get_set_ne.
Qed.

(** The loop of [removeAllComponents] over a type list without duplicates. *)
Lemma Entity_removeAllComponents_loop (this : nat) (immediately : bool) (types : list ComponentClass) :
  forall (w : World.t) (e : Entity.t),
    indexReady w -> queriesInSync w ->
    World.entityStore w !! this = Some e ->
    In this (World.entities w) ->
    Entity.alive e = true ->
    Entity.componentTypes e = types ->
    NoDup types ->
    (forall T, In T types -> JS.read (Entity._componentsToRemove e) (name T) = None) ->
    exists w' e',
      Entity_removeAllComponents_below (length types) this immediately w = (Ret tt, w')
      /\ World.entityStore w' !! this = Some e'
      /\ Entity.componentTypes e' = []
      /\ World.entities w' = World.entities w
      /\ (indexReady w' /\ queriesInSync w')
      /\ World.poolStore w' = World.poolStore w.
Proof.
  induction types as [|T types IH] using rev_ind; intros w e Hready Hsync He Hin Halive Hty Hnd Hpend.
  - exists w, e. split; [reflexivity|]. split; [exact He|]. split; [exact Hty|].
    split; [reflexivity|]. split; [split; assumption | reflexivity].
  - rewrite length_app. cbn [length]. rewrite Nat.add_1_r.
    cbn [Entity_removeAllComponents_below].
    wrun_read He. rewrite Hty.
    rewrite lookup_app_r by lia. rewrite Nat.sub_diag. cbn [lookup list_lookup].
    apply NoDup_app in Hnd. destruct Hnd as (Hnd & Hnot & _).
    assert (HnT : ~ In T types).
    { intros HinT. apply (Hnot T); [now apply list_elem_of_In | apply elem_of_cons; now left]. }
    destruct (Entity_removeComponent_step w this e T immediately Hready Hsync He Hin Halive)
      as (w1 & e1 & Hrun & He1 & Hty1 & Hl1 & [Hready1 Hsync1] & Hps1 & Hpend1 & Halive1).
    { rewrite Hty. apply in_or_app. right. now left. }
    { apply Hpend. apply in_or_app. right. now left. }
    rewrite !bind_assoc. rewrite (bind_run _ _ _ _ _ Hrun). cbv beta. rewrite ret_bind.
    rewrite Hty in Hty1. rewrite (indexOf_middle types [] T HnT), splice1_middle in Hty1.
    rewrite app_nil_r in Hty1.
    destruct (IH w1 e1 Hready1 Hsync1 He1) as (w' & e' & Hloop & He' & Hty' & Hl' & Hinv' & Hps').
    { rewrite Hl1. exact Hin. }
    { exact Halive1. }
    { exact Hty1. }
    { exact Hnd. }
    { intros T' HT'. rewrite Hpend1. apply read_pendingAfter. apply Hpend.
      apply in_or_app. now left. }
    exists w', e'. split; [exact Hloop|]. split; [exact He'|]. split; [exact Hty'|].
    split; [congruence|]. split; [exact Hinv'|]. congruence.
Qed.



(** ** Component data *)

Section ComponentDataFacts.
Import ComponentData.

Lemma readObject_run h o x : objects h !! o = Some x -> readObject o h = (Ret x, h).
Proof. intros Hx. unfold readObject. now rewrite Hx. Qed.

Lemma readArray_run h a l : arrays h !! a = Some l -> readArray a h = (Ret l, h).
Proof. intros Hx. unfold readArray. now rewrite Hx. Qed.

Lemma getProp_run h o x key :
  objects h !! o = Some x ->
  getProp o key h = (Ret (match JS.get x key with Some v => v | None => VUndefined end), h).
Proof. intros Hx. unfold getProp. now rewrite (bind_run _ _ _ _ _ (readObject_run h o x Hx)). Qed.

Lemma setProp_run h o x key v :
  objects h !! o = Some x ->
  setProp o key v h = (Ret tt, with_objects (<[o := JS.set x key v]> (objects h)) h).
Proof. intros Hx. unfold setProp. now rewrite (bind_run _ _ _ _ _ (readObject_run h o x Hx)). Qed.

Lemma hasOwnProperty_run h o x key :
  objects h !! o = Some x ->
  hasOwnProperty o key h
  = (Ret (match JS.get x key with Some _ => true | None => false end), h).
Proof. intros Hx. unfold hasOwnProperty. now rewrite (bind_run _ _ _ _ _ (readObject_run h o x Hx)). Qed.

Lemma writeArray_run h a l0 l :
  arrays h !! a = Some l0 ->
  writeArray a l h = (Ret tt, with_arrays (<[a := l]> (arrays h)) h).
Proof. intros Hx. unfold writeArray. now rewrite (bind_run _ _ _ _ _ (readArray_run h a l0 Hx)). Qed.

(** The copy loop between two different arrays appends what is left of the
    source to the destination. *)
Lemma copyArray_loop_run (s d : nat) (l : list Value) :
  s <> d ->
  forall (fuel i : nat) (arrs : list (list Value)) (objs : list (JS.obj Value)) (acc : list Value),
    arrs !! s = Some l -> arrs !! d = Some acc ->
    (length l - i <= fuel)%nat ->
    copyArray_loop fuel s d i (mkHeap arrs objs)
    = (Ret tt, mkHeap (<[d := acc ++ drop i l]> arrs) objs).
Proof.
  intros Hne fuel. induction fuel as [|fuel IH]; intros i arrs objs acc Hs Hd Hfuel.
  - assert (Hi : l !! i = None) by (apply lookup_ge_None; lia).
    cbn [copyArray_loop].
    rewrite (bind_run _ _ _ _ _ (readArray_run (mkHeap arrs objs) s l Hs)). cbv beta.
    rewrite Hi. unfold ret. rewrite drop_ge by lia. rewrite app_nil_r.
    rewrite list_insert_id by exact Hd. reflexivity.
  - cbn [copyArray_loop].
    rewrite (bind_run _ _ _ _ _ (readArray_run (mkHeap arrs objs) s l Hs)). cbv beta.
    destruct (l !! i) as [x|] eqn:Hi.
    + rewrite (bind_run _ _ _ _ _ (readArray_run (mkHeap arrs objs) d acc Hd)). cbv beta.
      rewrite (bind_run _ _ _ _ _ (writeArray_run (mkHeap arrs objs) d acc _ Hd)). cbv beta.
      unfold with_arrays. cbn [arrays objects].
      rewrite (IH (S i) _ objs (JS.push acc x)).
      * rewrite list_insert_insert_eq. unfold JS.push. rewrite <- app_assoc. cbn [app].
        now rewrite (drop_S l x i Hi).
      * rewrite list_lookup_insert_ne by congruence. exact Hs.
      * apply list_lookup_insert_eq. eapply lookup_lt_Some; eauto.
      * lia.
    + unfold ret. rewrite drop_ge by (apply lookup_ge_None in Hi; lia). rewrite app_nil_r.
      rewrite list_insert_id by exact Hd. reflexivity.
Qed.

(** [copyArray] between two different arrays. *)
Lemma copyArray_run (h : Heap) (src dest : nat) (key : string) (x y : JS.obj Value)
    (s d : nat) (l l0 : list Value) :
  objects h !! src = Some x -> objects h !! dest = Some y ->
  JS.get x key = Some (VArray s) -> JS.get y key = Some (VArray d) ->
  s <> d -> arrays h !! s = Some l -> arrays h !! d = Some l0 ->
  copyArray src dest key h = (Ret (VArray d), with_arrays (<[d := l]> (arrays h)) h).
Proof.
  intros Hx Hy Hxs Hyd Hne Hs Hd. unfold copyArray.
  rewrite (bind_run _ _ _ _ _ (getProp_run h src x key Hx)). cbv beta.
  rewrite (bind_run _ _ _ _ _ (getProp_run h dest y key Hy)). cbv beta.
  rewrite Hxs, Hyd.
  rewrite (bind_run _ _ _ _ _ (writeArray_run h d l0 [] Hd)). cbv beta.
  destruct h as [arrs objs]. unfold with_arrays. cbn [arrays objects] in *.
  assert (Hs' : <[d := []]> arrs !! s = Some l) by (rewrite list_lookup_insert_ne by congruence; exact Hs).
  rewrite (bind_run _ _ _ _ _ (readArray_run (mkHeap (<[d := []]> arrs) objs) s l Hs')). cbv beta.
  erewrite bind_run.
  2:{ apply (copyArray_loop_run s d l Hne (length l) 0%nat _ objs []).
      - exact Hs'.
      - apply list_lookup_insert_eq. eapply lookup_lt_Some; eauto.
      - lia. }
  cbv beta. unfold ret. rewrite list_insert_insert_eq. reflexivity.
Qed.

(** [copyArray] when source and destination hold one and the same array:
    the array is emptied and nothing is copied. *)
Lemma copyArray_same (h : Heap) (src dest : nat) (key : string) (x y : JS.obj Value)
    (a : nat) (l : list Value) :
  objects h !! src = Some x -> objects h !! dest = Some y ->
  JS.get x key = Some (VArray a) -> JS.get y key = Some (VArray a) ->
  arrays h !! a = Some l ->
  copyArray src dest key h = (Ret (VArray a), with_arrays (<[a := []]> (arrays h)) h).
Proof.
  intros Hx Hy Hxs Hyd Ha. unfold copyArray.
  rewrite (bind_run _ _ _ _ _ (getProp_run h src x key Hx)). cbv beta.
  rewrite (bind_run _ _ _ _ _ (getProp_run h dest y key Hy)). cbv beta.
  rewrite Hxs, Hyd.
  rewrite (bind_run _ _ _ _ _ (writeArray_run h a l [] Ha)). cbv beta.
  destruct h as [arrs objs]. unfold with_arrays. cbn [arrays objects] in *.
  assert (Ha' : <[a := []]> arrs !! a = Some [])
    by (apply list_lookup_insert_eq; eapply lookup_lt_Some; eauto).
  rewrite (bind_run _ _ _ _ _ (readArray_run (mkHeap (<[a := []]> arrs) objs) a [] Ha')). cbv beta.
  cbn [length copyArray_loop]. rewrite bind_assoc.
  rewrite (bind_run _ _ _ _ _ (readArray_run (mkHeap (<[a := []]> arrs) objs) a [] Ha')). cbv beta.
  cbn. reflexivity.
Qed.

Lemma get_schemaOf ks key :
  JS.get (schemaOf ks) key
  = (fun bd => {| type := typeOf (fst bd); default_ := snd bd |}) <$> JS.get ks key.
Proof.
  induction ks as [|[k bd] ks IH]; [reflexivity|]. cbn.
  destruct (decide (k = key)); [reflexivity | exact IH].
Qed.

Lemma get_notin {V} (o : JS.obj V) key : ~ In key (JS.keys o) -> JS.get o key = None.
Proof.
  induction o as [|[k v] o IH]; [reflexivity|]. cbn. intros Hn.
  destruct (decide (k = key)) as [->|Hne]; [tauto | apply IH; tauto].
Qed.

Lemma get_keys {V} (o : JS.obj V) key : In key (JS.keys o) -> exists v, JS.get o key = Some v.
Proof.
  induction o as [|[k v] o IH]; [intros []|]. cbn. intros Hin.
  destruct (decide (k = key)) as [->|Hne]; [eauto | apply IH; tauto].
Qed.

Lemma get_Some_keys {V} (o : JS.obj V) key v : JS.get o key = Some v -> In key (JS.keys o).
Proof.
  induction o as [|[k v'] o IH]; [discriminate|]. cbn.
  destruct (decide (k = key)) as [->|Hne]; [now left | right; auto].
Qed.

Section Construction.

Variable arrs0 : list (list Value).

Variable objs0 : list (JS.obj Value).

Variable props : option nat.

Variable given : JS.obj Value.

Hypothesis Hprops :
  match props with
  | Some p => objs0 !! p = Some given
  | None => given = []
  end.

Let c := length objs0.

Lemma lookup_new (part : JS.obj Value) : (objs0 ++ [part]) !! c = Some part.
Proof. unfold c. rewrite lookup_app_r by lia. now rewrite Nat.sub_diag. Qed.

Lemma insert_new (part part' : JS.obj Value) : <[c := part']> (objs0 ++ [part]) = objs0 ++ [part'].
Proof. unfold c. rewrite insert_app_r_alt by lia. now rewrite Nat.sub_diag. Qed.

Lemma setProp_new extra part key v :
  setProp c key v (mkHeap (arrs0 ++ extra) (objs0 ++ [part]))
  = (Ret tt, mkHeap (arrs0 ++ extra) (objs0 ++ [JS.set part key v])).
Proof.
  rewrite (setProp_run _ c part key v) by apply lookup_new.
  unfold with_objects. cbn [arrays objects]. now rewrite insert_new.
Qed.

(** One turn of the constructor's loop. *)
Lemma constructor_turn (key : string) (bd : BuiltIn * option Value) extra part :
  (fst bd = TArray -> JS.get given key = None ->
   exists a0, defaultOf bd = VArray a0 /\ (a0 < length arrs0)%nat) ->
  exists v extra1,
    (own ← match props with
           | Some p => hasOwnProperty p key
           | None => ret false
           end;
     if own : bool then
       match props with
       | Some p => v ← getProp p key; setProp c key v
       | None => ret tt
       end
     else
       match default_ {| type := typeOf (fst bd); default_ := snd bd |} with
       | Some d => v ← clone (typeOf (fst bd)) d; setProp c key v
       | None => v ← clone (typeOf (fst bd)) (default (typeOf (fst bd))); setProp c key v
       end) (mkHeap (arrs0 ++ extra) (objs0 ++ [part]))
    = (Ret tt, mkHeap (arrs0 ++ extra ++ extra1) (objs0 ++ [JS.set part key v]))
    /\ (forall g, JS.get given key = Some g -> v = g /\ extra1 = [])
    /\ (JS.get given key = None -> fst bd = TArray ->
        exists a0 l0, defaultOf bd = VArray a0 /\ arrs0 !! a0 = Some l0
                      /\ v = VArray (length arrs0 + length extra) /\ extra1 = [l0])
    /\ (JS.get given key = None -> fst bd <> TArray -> v = defaultOf bd /\ extra1 = []).
Proof.
  intros Hd.
  destruct (JS.get given key) as [g|] eqn:Hg.
  { (* [props] has the key *)
    destruct props as [p|]; [|subst given; discriminate].
    assert (Hp : (objs0 ++ [part]) !! p = Some given).
    { rewrite lookup_app_l by (eapply lookup_lt_Some; eauto). exact Hprops. }
    exists g, []. rewrite app_nil_r. split.
    - rewrite (bind_run _ _ _ _ _ (hasOwnProperty_run (mkHeap (arrs0 ++ extra) (objs0 ++ [part]))
                                     p given key Hp)). cbv beta.
      rewrite Hg.
      rewrite (bind_run _ _ _ _ _ (getProp_run (mkHeap (arrs0 ++ extra) (objs0 ++ [part]))
                                     p given key Hp)). cbv beta.
      rewrite Hg. apply setProp_new.
    - split; [intros g' [= <-]; auto|]. split; discriminate. }
  assert (Hown : forall (k1 k2 : H unit),
    (own ← match props with
           | Some p => hasOwnProperty p key
           | None => ret false
           end;
     if own : bool then k1 else k2) (mkHeap (arrs0 ++ extra) (objs0 ++ [part]))
    = k2 (mkHeap (arrs0 ++ extra) (objs0 ++ [part]))).
  { intros k1 k2. destruct props as [p|].
    - assert (Hp : (objs0 ++ [part]) !! p = Some given).
      { rewrite lookup_app_l by (eapply lookup_lt_Some; eauto). exact Hprops. }
      rewrite (bind_run _ _ _ _ _ (hasOwnProperty_run (mkHeap (arrs0 ++ extra) (objs0 ++ [part]))
                                     p given key Hp)). cbv beta.
      now rewrite Hg.
    - now rewrite ret_bind. }
  rewrite Hown.
  assert (Hclone : exists v extra1,
    clone (typeOf (fst bd)) (defaultOf bd) (mkHeap (arrs0 ++ extra) (objs0 ++ [part]))
    = (Ret v, mkHeap (arrs0 ++ extra ++ extra1) (objs0 ++ [part]))
    /\ (fst bd = TArray ->
        exists a0 l0, defaultOf bd = VArray a0 /\ arrs0 !! a0 = Some l0
                      /\ v = VArray (length arrs0 + length extra) /\ extra1 = [l0])
    /\ (fst bd <> TArray -> v = defaultOf bd /\ extra1 = [])).
  { destruct bd as [b d]. cbn [fst snd] in *.
    destruct (decide (b = TArray)) as [->|Hb].
    2:{ exists (defaultOf (b, d)), []. rewrite app_nil_r.
        split; [destruct b; solve [reflexivity | congruence]|].
        split; [congruence | auto]. }
    destruct (Hd eq_refl eq_refl) as (a0 & Ha0 & Hlt). rewrite Ha0.
    destruct (lookup_lt_is_Some_2 arrs0 a0 Hlt) as [l0 Hl0].
    exists (VArray (length arrs0 + length extra)), [l0].
    split; [|split; [intros _; exists a0, l0; auto | congruence]].
    cbn [typeOf clone PropTypes.Array cloneArray].
    erewrite bind_run.
    2:{ apply readArray_run. cbn [arrays]. rewrite lookup_app_l by exact Hlt. exact Hl0. }
    cbv beta. unfold allocArray, bind, ret, with_arrays. cbn [arrays objects].
    rewrite length_app, <- app_assoc. reflexivity. }
  destruct Hclone as (v & extra1 & Hrun & H1 & H2). exists v, extra1.
  split; [|split; [discriminate | auto]].
  assert (Hd' : forall P : Value -> H unit,
     match default_ {| type := typeOf (fst bd); default_ := snd bd |} with
     | Some d => v ← clone (typeOf (fst bd)) d; P v
     | None => v ← clone (typeOf (fst bd)) (default (typeOf (fst bd))); P v
     end = (v ← clone (typeOf (fst bd)) (defaultOf bd); P v)).
  { intros P. destruct bd as [b [d|]]; reflexivity. }
  rewrite Hd'. rewrite (bind_run _ _ _ _ _ Hrun). cbv beta.
  rewrite setProp_new. reflexivity.
Qed.

(** The loop of the constructor over the schema entries [ks1]. *)
Lemma constructor_loop (ks1 : JS.obj (BuiltIn * option Value)) :
  NoDup (JS.keys ks1) ->
  (forall key d, JS.get ks1 key = Some (TArray, d) -> JS.get given key = None ->
     exists a0, defaultOf (TArray, d) = VArray a0 /\ (a0 < length arrs0)%nat) ->
  forall extra part,
  exists part' extra',
    forEach (schemaOf ks1) (fun '(key, schemaProp) =>
      own ← match props with
            | Some p => hasOwnProperty p key
            | None => ret false
            end;
      if own : bool then
        match props with
        | Some p => v ← getProp p key; setProp c key v
        | None => ret tt
        end
      else
        match default_ schemaProp with
        | Some d => v ← clone (type schemaProp) d; setProp c key v
        | None =>
            let type := type schemaProp in
            v ← clone type (default type); setProp c key v
        end) (mkHeap (arrs0 ++ extra) (objs0 ++ [part]))
    = (Ret tt, mkHeap (arrs0 ++ extra ++ extra') (objs0 ++ [part']))
    /\ (forall key, JS.get ks1 key = None -> JS.get part' key = JS.get part key)
    /\ (forall key bd g, JS.get ks1 key = Some bd -> JS.get given key = Some g ->
          JS.get part' key = Some g)
    /\ (forall key b d, JS.get ks1 key = Some (b, d) -> JS.get given key = None ->
          b <> TArray -> JS.get part' key = Some (defaultOf (b, d)))
    /\ (forall key d, JS.get ks1 key = Some (TArray, d) -> JS.get given key = None ->
          exists j a0,
            defaultOf (TArray, d) = VArray a0
            /\ JS.get part' key = Some (VArray (length arrs0 + length extra + j))
            /\ (j < length extra')%nat
            /\ extra' !! j = arrs0 !! a0)
    /\ (forall k1 k2 d1 d2 a,
          JS.get ks1 k1 = Some (TArray, d1) -> JS.get ks1 k2 = Some (TArray, d2) ->
          JS.get given k1 = None -> JS.get given k2 = None ->
          JS.get part' k1 = Some (VArray a) -> JS.get part' k2 = Some (VArray a) ->
          k1 = k2).
Proof.
  induction ks1 as [|[key0 bd0] rest IH]; intros Hnd Hready extra part.
  - exists part, []. rewrite app_nil_r. split; [reflexivity|]. split; [auto|].
    repeat split; discriminate.
  - apply NoDup_cons in Hnd. destruct Hnd as [Hnot Hnd].
    assert (Hrest0 : JS.get rest key0 = None).
    { apply get_notin. intros Hin. apply Hnot. now apply list_elem_of_In. }
    cbn [schemaOf map forEach fst snd]. cbv zeta.
    destruct (constructor_turn key0 bd0 extra part) as (v & extra1 & Hrun & Hgiven & Harr & Hval).
    { intros Hb Hg. destruct bd0 as [b d]. cbn [fst] in Hb. subst b.
      apply (Hready key0 d); [|exact Hg]. cbn. destruct (decide (key0 = key0)); congruence. }
    cbn [type default_] in Hrun |- *.
    rewrite (bind_run _ _ _ _ _ Hrun). cbv beta.
    destruct (IH Hnd) with (extra := extra ++ extra1) (part := JS.set part key0 v)
      as (part' & extra' & Hloop & Hkeep & Howned & Hvals & Harrs & Hdist).
    { intros key d Hget. apply (Hready key d). cbn.
      destruct (decide (key0 = key)) as [->|_]; [congruence | exact Hget]. }
    exists part', (extra1 ++ extra'). split.
    { fold (schemaOf rest). unfold H in *. rewrite Hloop. rewrite <- !app_assoc. reflexivity. }
    assert (Hhead0 : JS.get part' key0 = Some v).
    { rewrite (Hkeep key0 Hrest0). apply get_set_eq. }
    assert (Hhead : fst bd0 = TArray -> JS.get given key0 = None ->
              exists a0 l0, defaultOf bd0 = VArray a0 /\ arrs0 !! a0 = Some l0
                /\ JS.get part' key0 = Some (VArray (length arrs0 + length extra))
                /\ extra1 = [l0]).
    { intros Hb Hg. destruct (Harr Hg Hb) as (a0 & l0 & Ha0 & Hl0 & -> & Hx).
      exists a0, l0. auto. }
    split; [|split; [|split; [|split]]].
    + intros key Hget. cbn in Hget. destruct (decide (key0 = key)) as [->|Hne]; [discriminate|].
      rewrite (Hkeep key Hget). now apply get_set_ne.
    + intros key bd g Hget Hg. cbn in Hget. destruct (decide (key0 = key)) as [E|Hne].
      * subst key. destruct (Hgiven g Hg) as [-> _]. exact Hhead0.
      * eapply Howned; eauto.
    + intros key b d Hget Hg Hb. cbn in Hget. destruct (decide (key0 = key)) as [E|Hne].
      * subst key. injection Hget as ->. rewrite Hhead0.
        destruct (Hval Hg) as [-> _]; [exact Hb | reflexivity].
      * eapply Hvals; eauto.
    + intros key d Hget Hg. cbn in Hget. destruct (decide (key0 = key)) as [E|Hne].
      * subst key. injection Hget as ->.
        destruct (Hhead eq_refl Hg) as (a0 & l0 & Ha0 & Hl0 & Hp & ->).
        exists 0%nat, a0. rewrite Nat.add_0_r. split; [exact Ha0|]. split; [exact Hp|].
        split; [cbn; lia|]. cbn. now rewrite Hl0.
      * destruct (Harrs key d Hget Hg) as (j & a0 & Ha0 & Hj & Hlt & Hc).
        exists (length extra1 + j)%nat, a0. split; [exact Ha0|].
        rewrite Hj, !length_app. split; [do 2 f_equal; lia|]. split; [lia|].
        rewrite lookup_app_r by lia.
        replace (length extra1 + j - length extra1)%nat with j by lia. exact Hc.
    + intros k1 k2 d1 d2 a Hk1 Hk2 Hg1 Hg2 Hp1 Hp2. cbn in Hk1, Hk2.
      destruct (decide (key0 = k1)) as [E1|Hne1], (decide (key0 = k2)) as [E2|Hne2];
        try subst k1; try subst k2.
      * reflexivity.
      * exfalso. injection Hk1 as Hb.
        destruct (Hhead (f_equal fst Hb) Hg1) as (a0 & l0 & _ & _ & Hh & ->).
        destruct (Harrs k2 d2 Hk2 Hg2) as (j & a1 & _ & Hj & _).
        rewrite Hh in Hp1. rewrite Hj in Hp2. rewrite length_app in Hp2. cbn in Hp2.
        injection Hp1 as <-. injection Hp2 as Hp2. lia.
      * exfalso. injection Hk2 as Hb.
        destruct (Hhead (f_equal fst Hb) Hg2) as (a0 & l0 & _ & _ & Hh & ->).
        destruct (Harrs k1 d1 Hk1 Hg1) as (j & a1 & _ & Hj & _).
        rewrite Hh in Hp2. rewrite Hj in Hp1. rewrite length_app in Hp1. cbn in Hp1.
        injection Hp2 as <-. injection Hp1 as Hp1. lia.
      * exact (Hdist k1 k2 d1 d2 a Hk1 Hk2 Hg1 Hg2 Hp1 Hp2).
Qed.

End Construction.

Lemma copy_value_type (b : BuiltIn) : b <> TArray -> copy (typeOf b) = copyValue.
Proof. destruct b; solve [reflexivity | congruence]. Qed.

Section Copying.

Variable arrs0 : list (list Value).

Variable objs0 : list (JS.obj Value).

Variable ks : JS.obj (BuiltIn * option Value).

Variable this : nat.

Variable fields : JS.obj Value.

Hypothesis Hthis : objs0 !! this = Some fields.

Hypothesis Hsrc : forall key d v,
  JS.get ks key = Some (TArray, d) -> JS.get fields key = Some v ->
  exists s, v = VArray s /\ (s < length arrs0)%nat.

Let c := length objs0.

(** The body of the loop of [copy(source)], from [this] into the new object. *)
Let turn (key : string) : H unit :=
  match JS.get (schemaOf ks) key with
  | Some prop => copy (type prop) this c key;; ret tt
  | None => ret tt
  end.

(** The array fields of the object under construction are distinct arrays
    made after [arrs0]. *)
Let ownArrays (part : JS.obj Value) (extra : list (list Value)) : Prop :=
  (forall key d, JS.get ks key = Some (TArray, d) ->
     exists j, JS.get part key = Some (VArray (length arrs0 + j)) /\ (j < length extra)%nat)
  /\ (forall k1 k2 d1 d2 a,
        JS.get ks k1 = Some (TArray, d1) -> JS.get ks k2 = Some (TArray, d2) ->
        JS.get part k1 = Some (VArray a) -> JS.get part k2 = Some (VArray a) -> k1 = k2).

Lemma lookup_this part : (objs0 ++ [part]) !! this = Some fields.
Proof. rewrite lookup_app_l by (eapply lookup_lt_Some; eauto). exact Hthis. Qed.

Lemma turn_none key st : JS.get ks key = None -> turn key st = (Ret tt, st).
Proof. intros Hk. unfold turn. rewrite get_schemaOf, Hk. reflexivity. Qed.

Lemma turn_value key b d v extra part :
  JS.get ks key = Some (b, d) -> b <> TArray -> JS.get fields key = Some v ->
  turn key (mkHeap (arrs0 ++ extra) (objs0 ++ [part]))
  = (Ret tt, mkHeap (arrs0 ++ extra) (objs0 ++ [JS.set part key v])).
Proof.
  intros Hk Hb Hv. unfold turn. rewrite get_schemaOf, Hk. cbn [fmap option_fmap option_map type fst].
  rewrite (copy_value_type b Hb). unfold copyValue. rewrite !bind_assoc.
  rewrite (bind_run _ _ _ _ _ (getProp_run (mkHeap (arrs0 ++ extra) (objs0 ++ [part])) this fields key (lookup_this part))). cbv beta.
  rewrite Hv. rewrite !bind_assoc.
  rewrite (bind_run _ _ _ _ _ (setProp_new arrs0 objs0 extra part key v)). cbv beta.
  reflexivity.
Qed.

Lemma turn_array key d s j l extra part :
  JS.get ks key = Some (TArray, d) ->
  JS.get fields key = Some (VArray s) -> arrs0 !! s = Some l ->
  JS.get part key = Some (VArray (length arrs0 + j)) -> (j < length extra)%nat ->
  turn key (mkHeap (arrs0 ++ extra) (objs0 ++ [part]))
  = (Ret tt, mkHeap (arrs0 ++ <[j := l]> extra) (objs0 ++ [part])).
Proof.
  intros Hk Hv Hs Hp Hj. unfold turn. rewrite get_schemaOf, Hk.
  cbn [fmap option_fmap option_map type fst typeOf PropTypes.Array copy].
  assert (Hlt : (s < length arrs0)%nat) by (eapply lookup_lt_Some; eauto).
  destruct (lookup_lt_is_Some_2 extra j Hj) as [l0 Hl0].
  erewrite bind_run.
  2:{ apply (copyArray_run (mkHeap (arrs0 ++ extra) (objs0 ++ [part])) this c key fields part
               s (length arrs0 + j) l l0).
      - apply lookup_this.
      - apply lookup_new.
      - exact Hv.
      - exact Hp.
      - lia.
      - cbn [arrays]. rewrite lookup_app_l by exact Hlt. exact Hs.
      - cbn [arrays]. rewrite lookup_app_r by lia.
        replace (length arrs0 + j - length arrs0)%nat with j by lia. exact Hl0. }
  cbv beta. unfold ret, with_arrays. cbn [arrays objects].
  rewrite insert_app_r_alt by lia.
  replace (length arrs0 + j - length arrs0)%nat with j by lia. reflexivity.
Qed.

(** The loop of [copy(source)] over the keys [keysl] of the source. *)
Lemma copy_loop (keysl : list string) :
  (forall key, In key keysl -> exists v, JS.get fields key = Some v) ->
  forall extra part, ownArrays part extra ->
  exists part' extra',
    forEach keysl turn (mkHeap (arrs0 ++ extra) (objs0 ++ [part]))
    = (Ret tt, mkHeap (arrs0 ++ extra') (objs0 ++ [part']))
    /\ length extra' = length extra
    /\ (forall key d, JS.get ks key = Some (TArray, d) -> JS.get part' key = JS.get part key)
    /\ (forall key b d v, JS.get ks key = Some (b, d) -> b <> TArray ->
          JS.get fields key = Some v -> In key keysl -> JS.get part' key = Some v)
    /\ (forall key b d, JS.get ks key = Some (b, d) -> b <> TArray ->
          ~ In key keysl -> JS.get part' key = JS.get part key)
    /\ (forall key d s j, JS.get ks key = Some (TArray, d) ->
          JS.get fields key = Some (VArray s) ->
          JS.get part key = Some (VArray (length arrs0 + j)) ->
          In key keysl -> extra' !! j = arrs0 !! s)
    /\ (forall key d j, JS.get ks key = Some (TArray, d) ->
          JS.get part key = Some (VArray (length arrs0 + j)) ->
          ~ In key keysl -> extra' !! j = extra !! j).
Proof.
  induction keysl as [|k rest IH]; intros Hkeys extra part Hown.
  - exists part, extra. split; [reflexivity|]. split; [reflexivity|].
    split; [auto|]. split; [intros ? ? ? ? _ _ _ []|]. split; [auto|].
    split; [intros ? ? ? ? _ _ _ []|]. auto.
  - assert (Hrest : forall key, In key rest -> exists v, JS.get fields key = Some v)
      by (intros key Hin; apply Hkeys; now right).
    destruct (Hkeys k (or_introl eq_refl)) as [v Hv].
    cbn [forEach].
    destruct (JS.get ks k) as [[b d]|] eqn:Hk.
    2:{ (* a key the schema does not have *)
      rewrite (bind_run _ _ _ _ _ (turn_none k _ Hk)). cbv beta.
      destruct (IH Hrest extra part Hown) as (part' & extra' & Hrun & Hlen & HA & HV & HVn & HR & HRn).
      exists part', extra'. split; [exact Hrun|]. split; [exact Hlen|]. split; [exact HA|].
      split.
      { intros key b d v' Hget Hb Hf [<-|Hin]; [congruence|]. eapply HV; eauto. }
      split.
      { intros key b d Hget Hb Hn. eapply HVn; eauto. intros Hin. apply Hn. now right. }
      split.
      { intros key d s j Hget Hf Hp [<-|Hin]; [congruence|]. eapply HR; eauto. }
      intros key d j Hget Hp Hn. eapply HRn; eauto. intros Hin. apply Hn. now right. }
    destruct (decide (b = TArray)) as [->|Hb].
    + (* an array *)
      destruct (Hsrc k d v Hk Hv) as (s & -> & Hs).
      destruct (lookup_lt_is_Some_2 arrs0 s Hs) as [l Hl].
      destruct Hown as [HownA HownD].
      destruct (HownA k d Hk) as (j & Hpj & Hj).
      rewrite (bind_run _ _ _ _ _ (turn_array k d s j l extra part Hk Hv Hl Hpj Hj)). cbv beta.
      destruct (IH Hrest (<[j := l]> extra) part) as (part' & extra' & Hrun & Hlen & HA & HV & HVn & HR & HRn).
      { split; [|exact HownD]. intros key d' Hget. destruct (HownA key d' Hget) as (j' & Hj' & Hlt).
        exists j'. split; [exact Hj'|]. now rewrite length_insert. }
      exists part', extra'. split; [exact Hrun|].
      split; [rewrite Hlen; apply length_insert|]. split; [exact HA|].
      split.
      { intros key b' d' v' Hget Hb' Hf [<-|Hin]; [congruence|]. eapply HV; eauto. }
      split.
      { intros key b' d' Hget Hb' Hn. eapply HVn; eauto. intros Hin. apply Hn. now right. }
      split.
      { intros key d' s' j' Hget Hf Hp Hin.
        destruct (in_dec string_dec key rest) as [Hin'|Hnin]; [eapply HR; eauto|].
        destruct Hin as [<-|Hin]; [|contradiction].
        rewrite Hv in Hf. injection Hf as <-.
        rewrite Hpj in Hp. injection Hp as Hp. assert (j' = j) by lia. subst j'.
        rewrite (HRn k d' j Hget Hpj Hnin).
        rewrite list_lookup_insert_eq by exact Hj. now rewrite Hl. }
      intros key d' j' Hget Hp Hn.
      assert (Hnin : ~ In key rest) by (intros Hin; apply Hn; now right).
      rewrite (HRn key d' j' Hget Hp Hnin).
      apply list_lookup_insert_ne. intros <-.
      apply Hn. left. exact (HownD k key d d' _ Hk Hget Hpj Hp).
    + (* a value *)
      rewrite (bind_run _ _ _ _ _ (turn_value k b d v extra part Hk Hb Hv)). cbv beta.
      destruct Hown as [HownA HownD].
      assert (Hother : forall key d', JS.get ks key = Some (TArray, d') ->
                JS.get (JS.set part k v) key = JS.get part key).
      { intros key d' Hget. apply get_set_ne. intros <-. congruence. }
      destruct (IH Hrest extra (JS.set part k v)) as (part' & extra' & Hrun & Hlen & HA & HV & HVn & HR & HRn).
      { split.
        - intros key d' Hget. destruct (HownA key d' Hget) as (j' & Hj' & Hlt).
          exists j'. split; [|exact Hlt]. now rewrite (Hother key d' Hget).
        - intros k1 k2 d1 d2 a Hk1 Hk2 Hp1 Hp2.
          rewrite (Hother k1 d1 Hk1) in Hp1. rewrite (Hother k2 d2 Hk2) in Hp2.
          exact (HownD k1 k2 d1 d2 a Hk1 Hk2 Hp1 Hp2). }
      exists part', extra'. split; [exact Hrun|]. split; [exact Hlen|].
      split.
      { intros key d' Hget. rewrite (HA key d' Hget). exact (Hother key d' Hget). }
      split.
      { intros key b' d' v' Hget Hb' Hf Hin.
        destruct (in_dec string_dec key rest) as [Hin'|Hnin]; [eapply HV; eauto|].
        destruct Hin as [<-|Hin]; [|contradiction].
        rewrite (HVn k b' d' Hget Hb' Hnin), get_set_eq. congruence. }
      split.
      { intros key b' d' Hget Hb' Hn.
        assert (Hnin : ~ In key rest) by (intros Hin; apply Hn; now right).
        rewrite (HVn key b' d' Hget Hb' Hnin). apply get_set_ne. intros <-. apply Hn. now left. }
      split.
      { intros key d' s j Hget Hf Hp [<-|Hin]; [congruence|].
        eapply HR; eauto. now rewrite (Hother key d' Hget). }
      intros key d' j Hget Hp Hn.
      eapply HRn; eauto.
      * now rewrite (Hother key d' Hget).
      * intros Hin. apply Hn. now right.
Qed.

End Copying.

(** [new C(props)] for a class over the built-in types. *)
Lemma new_run (arrs0 : list (list Value)) (objs0 : list (JS.obj Value)) (C : Class)
    (ks : JS.obj (BuiltIn * option Value)) (props : option nat) (given : JS.obj Value) :
  schema C = schemaOf ks ->
  NoDup (JS.keys ks) ->
  (forall key, In key reservedKeys -> JS.get ks key = None) ->
  propsGiven (mkHeap arrs0 objs0) (propsUsed C props) given ->
  (forall key d, JS.get ks key = Some (TArray, d) -> JS.get given key = None ->
     exists a0, defaultOf (TArray, d) = VArray a0 /\ (a0 < length arrs0)%nat) ->
  exists part extra,
    new C props (mkHeap arrs0 objs0)
    = (Ret (length objs0), mkHeap (arrs0 ++ extra) (objs0 ++ [part]))
    /\ JS.get part "_pool" = Some VNull
    /\ (forall key bd g, JS.get ks key = Some bd -> JS.get given key = Some g ->
          JS.get part key = Some g)
    /\ (forall key b d, JS.get ks key = Some (b, d) -> JS.get given key = None ->
          b <> TArray -> JS.get part key = Some (defaultOf (b, d)))
    /\ (forall key d, JS.get ks key = Some (TArray, d) -> JS.get given key = None ->
          exists j a0,
            defaultOf (TArray, d) = VArray a0
            /\ JS.get part key = Some (VArray (length arrs0 + j))
            /\ (j < length extra)%nat
            /\ extra !! j = arrs0 !! a0)
    /\ (forall k1 k2 d1 d2 a,
          JS.get ks k1 = Some (TArray, d1) -> JS.get ks k2 = Some (TArray, d2) ->
          JS.get given k1 = None -> JS.get given k2 = None ->
          JS.get part k1 = Some (VArray a) -> JS.get part k2 = Some (VArray a) ->
          k1 = k2).
Proof.
  intros Hschema Hnd Hres Hgiven Hready.
  assert (Hprops : match propsUsed C props with
                   | Some p => objs0 !! p = Some given
                   | None => given = []
                   end) by exact Hgiven.
  destruct (constructor_loop arrs0 objs0 (propsUsed C props) given Hprops ks Hnd Hready [] [])
    as (part1 & extra1 & Hloop & _ & Howned & Hvals & Harrs & Hdist).
  rewrite app_nil_r in Hloop. cbn [app length] in Hloop, Harrs.
  assert (Hctor : Component_constructor C (length objs0) (propsUsed C props)
                    (mkHeap arrs0 (objs0 ++ [[]]))
                  = (Ret tt, mkHeap (arrs0 ++ extra1)
                                    (objs0 ++ [JS.set part1 "_pool" VNull]))).
  { unfold Component_constructor. rewrite Hschema.
    erewrite bind_run by exact Hloop. cbv beta. apply setProp_new. }
  assert (Hkey : forall key bd, JS.get ks key = Some bd -> ~ In key reservedKeys).
  { intros key bd Hget Hin. rewrite (Hres key Hin) in Hget. discriminate. }
  assert (Hfinal : exists part,
    new C props (mkHeap arrs0 objs0)
    = (Ret (length objs0), mkHeap (arrs0 ++ extra1) (objs0 ++ [part]))
    /\ JS.get part "_pool" = Some VNull
    /\ forall key bd, JS.get ks key = Some bd -> JS.get part key = JS.get part1 key).
  { unfold new, allocObject, bind at 1. cbn [objects with_objects arrays].
    unfold propsUsed in Hctor.
    destruct (base C).
    - exists (JS.set part1 "_pool" VNull). split; [|split].
      + rewrite ?bind_assoc. rewrite (bind_run _ _ _ _ _ Hctor). reflexivity.
      + apply get_set_eq.
      + intros key bd Hget. apply get_set_ne. intros <-.
        apply (Hkey _ _ Hget). cbn. auto.
    - exists (JS.set (JS.set part1 "_pool" VNull) "isSystemStateComponent" (VBoolean true)).
      split; [|split].
      + rewrite !bind_assoc. rewrite (bind_run _ _ _ _ _ Hctor). cbv beta.
        rewrite (bind_run _ _ _ _ _ (setProp_new arrs0 objs0 extra1 _ _ _)). reflexivity.
      + rewrite get_set_ne by discriminate. apply get_set_eq.
      + intros key bd Hget. rewrite !get_set_ne; [reflexivity| |];
          intros <-; apply (Hkey _ _ Hget); cbn; auto.
    - exists (JS.set (JS.set part1 "_pool" VNull) "isTagComponent" (VBoolean true)).
      split; [|split].
      + rewrite !bind_assoc. rewrite (bind_run _ _ _ _ _ Hctor). cbv beta.
        rewrite (bind_run _ _ _ _ _ (setProp_new arrs0 objs0 extra1 _ _ _)). reflexivity.
      + rewrite get_set_ne by discriminate. apply get_set_eq.
      + intros key bd Hget. rewrite !get_set_ne; [reflexivity| |];
          intros <-; apply (Hkey _ _ Hget); cbn; auto. }
  destruct Hfinal as (part & Hrun & Hpool & Hsame). exists part, extra1.
  split; [exact Hrun|]. split; [exact Hpool|]. split; [|split; [|split]].
  - intros key bd g Hget Hg. rewrite (Hsame key _ Hget). eauto.
  - intros key b d Hget Hg Hb. rewrite (Hsame key _ Hget). eauto.
  - intros key d Hget Hg. rewrite (Hsame key _ Hget).
    destruct (Harrs key d Hget Hg) as (j & a0 & H1 & H2 & H3 & H4).
    rewrite Nat.add_0_r in H2. eauto 10.
  - intros k1 k2 d1 d2 a Hk1 Hk2 Hg1 Hg2 Hp1 Hp2.
    rewrite (Hsame k1 _ Hk1) in Hp1. rewrite (Hsame k2 _ Hk2) in Hp2. eauto.
Qed.



(** X23. [copyArray(src, dest, key)] returns the destination array after
    giving it the elements of the source array, which it leaves alone,
    unless the two are one and the same array: that array is left empty, as
    it is emptied before it is read. *)
Theorem copyArray_aliasing (h : Heap) (src dest : nat) (key : string)
    (x y : JS.obj Value) (s d : nat) (l l0 : list Value) :
  objects h !! src = Some x -> objects h !! dest = Some y ->
  JS.get x key = Some (VArray s) -> JS.get y key = Some (VArray d) ->
  arrays h !! s = Some l -> arrays h !! d = Some l0 ->
  copyArray src dest key h
  = (Ret (VArray d),
     with_arrays (<[d := if decide (s = d) then [] else l]> (arrays h)) h).
Proof.
  intros Hx Hy Hxs Hyd Hs Hd. destruct (decide (s = d)) as [->|Hne].
  - eapply copyArray_same; eauto.
  - eapply copyArray_run; eauto.
Qed.

Lemma copyArray_aliasing_witness :
  exists h1 h2,
    ComponentData.copyArray 0 1 "points" circleHeap = (Ret (VArray 1), h1)
    /\ arrays h1 !! 1%nat = Some []
    /\ ComponentData.copyArray 0 1 "points"
         (with_objects (<[1%nat := [("points", VArray 0)]]> (objects circleHeap)) circleHeap)
       = (Ret (VArray 0), h2)
    /\ arrays h2 !! 0%nat = Some [VNumber 1; VNumber 2]
    /\ arrays h2 !! 1%nat = Some [VNumber 1; VNumber 2].
Proof.
  eexists _, _. split.
  { eapply (copyArray_aliasing circleHeap 0 1 "points") with (s := 1%nat) (d := 1%nat);
      reflexivity. }
  split; [reflexivity|]. split.
  { eapply (copyArray_aliasing _ 0 1 "points") with (s := 1%nat) (d := 0%nat);
      reflexivity. }
  split; reflexivity.
Defined.

Lemma circleSchema_NoDup : NoDup (JS.keys circleSchema).
Proof. apply (bool_decide_unpack _). vm_compute. reflexivity. Qed.

Lemma circleSchema_reserved key : In key reservedKeys -> JS.get circleSchema key = None.
Proof. intros [<-|[<-|[<-|[]]]]; reflexivity. Qed.

Lemma circleSchema_array key d :
  JS.get circleSchema key = Some (TArray, d) -> key = "points" /\ d = None.
Proof.
  cbn. destruct (decide ("radius" = key)); [discriminate|].
  destruct (decide ("points" = key)) as [<-|]; [|discriminate]. intros [= <-]. auto.
Qed.



End ComponentDataFacts.

(* ===================================================================== *)
(** * Entity.dispose(true): queries left, components released *)
(* ===================================================================== *)

Section DisposeQueries.
Variable this : nat.
Variables Lq Lp Le : nat.
Variable pool0 : option nat.
Variable base0 : Item.
Variable random0 : nat -> Z.
Variable calls0 : nat.

Local Abbreviation Leaving := (leavingQueries this Lq Lp Le pool0 base0 random0 calls0).

(** One turn of the loop of [onDisposeEntity], on a query of the index:
    afterwards the query does not list the entity. *)
Lemma World_onDisposeEntity_turn x0 n k q w :
  (q < Lq)%nat -> In (k, q) (World.queries w) ->
  Leaving x0 n w -> backReferenced this w ->
  exists w',
    (e ← readEntity this;
     when (negb (JS.indexOf (Entity.queries e) q =? -1))
          (Query_removeEntity q this)) w = (Ret tt, w')
    /\ Leaving x0 n w' /\ teardownStep w w' /\ backReferenced this w'
    /\ (forall x, World.queryStore w' !! q = Some x -> ~ In this (Query.entities x)).
Proof.
  intros Hq Hkq HL HB.
  assert (HL' := HL). destruct HL' as (HF & x & Hx & _).
  destruct HF as (_ & Hlq & _).
  destruct (lookup_lt_is_Some_2 (World.queryStore w) q) as [y Hy]; [lia|].
  rewrite (bind_run _ _ w x w (World_readEntity_run w this x Hx)).
  destruct (JS.indexOf (Entity.queries x) q =? -1) eqn:Eg; cbn [negb when].
  - exists w. split; [reflexivity|]. split; [exact HL|].
    split; [apply teardownStep_refl|]. split; [exact HB|].
    intros x' Hx' Hin. assert (x' = y) as -> by congruence.
    destruct (HB k q y x Hkq Hy Hx Hin) as [Hback _].
    apply indexOf_absent in Eg. contradiction.
  - assert (Hback : In q (Entity.queries x)).
    { apply includes_In. unfold JS.includes, JS.tilde. now rewrite Eg. }
    destruct (Query_removeEntity_leaving this Lq Lp Le pool0 base0 random0 calls0
                x0 n q w Hq HL) as (w1 & Hrun1 & HL1 & Hs1).
    pose proof (Query_removeEntity_run w q y this x Hy Hx) as Hprecise.
    rewrite Hrun1 in Hprecise. injection Hprecise as Hw1.
    exists w1. split; [exact Hrun1|]. split; [exact HL1|]. split; [exact Hs1|].
    destruct (JS.includes (Query.entities y) this) eqn:Ei.
    + assert (Hin : In this (Query.entities y)) by now apply includes_In.
      destruct (HB k q y x Hkq Hy Hx Hin) as [_ Hnd].
      destruct (splice1_indexOf_In (Query.entities y) this this Hin) as (_ & _ & Hgone & _).
      assert (Hlt : (this < length (World.entityStore w))%nat)
        by (eapply lookup_lt_Some; eauto).
      assert (Hltq : (q < length (World.queryStore w))%nat)
        by (eapply lookup_lt_Some; eauto).
      split.
      * intros k2 q2 x2 e2 Hkq2 Hx2 He2 Hin2. rewrite Hw1 in Hkq2, Hx2, He2.
        cbn [reindex World.queries World.with_queryStore World.with_entityStore
             World.queryStore World.entityStore] in Hkq2, Hx2, He2.
        rewrite list_lookup_insert_eq in He2 by exact Hlt. injection He2 as <-.
        destruct (decide (q2 = q)) as [->|Hne].
        -- rewrite list_lookup_insert_eq in Hx2 by exact Hltq. injection Hx2 as <-.
           cbn in Hin2. exfalso. exact (Hgone Hnd Hin2).
        -- rewrite list_lookup_insert_ne in Hx2 by congruence.
           assert (Hin2' : In this (Query.entities x2)) by exact Hin2.
           destruct (HB k2 q2 x2 x Hkq2 Hx2 Hx Hin2') as [Hback2 Hnd2].
           split; [|exact Hnd2]. cbn.
           destruct (splice1_indexOf_In (Entity.queries x) q q2 Hback) as (_ & Hkeep & _).
           apply Hkeep; [exact Hne | exact Hback2].
      * intros x' Hx'. rewrite Hw1 in Hx'.
        cbn [reindex World.with_queryStore World.with_entityStore World.queryStore] in Hx'.
        rewrite list_lookup_insert_eq in Hx' by exact Hltq. injection Hx' as <-.
        cbn. exact (Hgone Hnd).
    + rewrite Hw1. split; [exact HB|].
      intros x' Hx'. assert (x' = y) as -> by congruence.
      now apply includes_not_In.
Qed.

(** [onDisposeEntity] takes the entity out of every query of the index. *)
Lemma World_onDisposeEntity_unlists x0 n (l : JS.obj nat) :
  Forall (fun kv => (snd kv < Lq)%nat) l ->
  forall w, Leaving x0 n w -> backReferenced this w ->
    (forall kv, In kv l -> In kv (World.queries w)) ->
    exists w',
      forEach l (fun '(queryName, query) =>
        e ← readEntity this;
        when (negb (JS.indexOf (Entity.queries e) query =? -1))
             (Query_removeEntity query this)) w = (Ret tt, w')
      /\ Leaving x0 n w' /\ teardownStep w w' /\ backReferenced this w'
      /\ (forall k q x, In (k, q) l -> World.queryStore w' !! q = Some x ->
            ~ In this (Query.entities x)).
Proof.
  induction l as [|[k q] l IH]; intros Hall w HL HB Hsub.
  - exists w. split; [reflexivity|]. split; [exact HL|].
    split; [apply teardownStep_refl|]. split; [exact HB|]. intros k q x [].
  - inversion Hall as [|? ? Hq Hrest]; subst. simpl in Hq.
    cbn [forEach].
    destruct (World_onDisposeEntity_turn x0 n k q w Hq (Hsub _ (or_introl eq_refl)) HL HB)
      as (w1 & Hrun1 & HL1 & Hs1 & HB1 & Hgone1).
    rewrite (bind_run _ _ w tt w1 Hrun1).
    destruct (IH Hrest w1 HL1 HB1) as (w' & Hrun' & HL' & Hs' & HB' & Hgone').
    { intros kv Hkv. destruct Hs1 as (-> & _). apply Hsub. now right. }
    exists w'. split; [exact Hrun'|]. split; [exact HL'|].
    split; [eapply teardownStep_trans; eauto|]. split; [exact HB'|].
    intros k' q' x' [[= <- <-]|Hin] Hx'.
    + destruct Hs' as (_ & Hsubq & _). destruct (Hsubq q x' Hx') as (x1 & Hx1 & Hincl).
      intros Hthis. exact (Hgone1 x1 Hx1 (Hincl _ Hthis)).
    + eapply Hgone'; eauto.
Qed.
End DisposeQueries.




Lemma indexedScene_disposable : disposable indexedScene 1%nat (recordOf indexedScene 1%nat).
Proof.
  split; [vm_compute; reflexivity|].
  split; [vm_compute; repeat constructor|].
  split; [vm_compute; repeat constructor|].
  split; [apply (bool_decide_unpack _); vm_compute; exact I|].
  split.
  - vm_compute. repeat constructor. eexists. split; [reflexivity|].
    intros p [= <-]. repeat constructor.
  - intros p Hp. vm_compute in Hp. injection Hp as <-.
    eexists. split; [vm_compute; reflexivity|].
    intros b Hb. vm_compute in Hb. injection Hb as <-.
    eexists. split; vm_compute; reflexivity.
Qed.

Lemma indexedScene_backReferenced : backReferenced 1%nat indexedScene.
Proof.
  intros k q x e Hkq Hx He _. vm_compute in Hkq.
  destruct Hkq as [[= <- <-]|[[= <- <-]|[]]];
    vm_compute in Hx; injection Hx as <-;
    vm_compute in He; injection He as <-;
    (split; [vm_compute; auto|]);
    apply (bool_decide_unpack _); vm_compute; exact I.
Qed.

